(** * MAME embedded database: catalogue builder and blob generator

    A shallow embedding of [build_mame_database.py] (module [Build]) and
    [generate_embedded_database.py] (module [Gen]), with the properties of
    the catalogue-to-blob pipeline proved over it.

    Conventions of the embedding.
    - A Python [str] is a Rocq [string] holding its UTF-8 encoding, so
      [s.encode('utf-8')] is [list_byte_of_string].  Python orders [str] by
      code point, which is the byte order of the UTF-8 encodings.
    - Python [bytes] is [list byte]; Python [int] is [Z].
    - [None] is [option]'s [None]; an uncaught exception is [Raise].
    - A [dict] used as a map is a [gmap]; a SQLite table is the list of its
      rows in rowid order. *)

From Stdlib Require Import ZArith List String Ascii Strings.Byte Bool Lia.
From Stdlib Require Import Permutation Sorted.
From stdpp Require Import gmap strings.
Import ListNotations.

Local Open Scope string_scope.
Local Open Scope list_scope.
Local Open Scope Z_scope.

(** ** Python primitives *)

Module Py.

(** Exceptions that reach the top level of either script. *)
Inductive exn : Type :=
| ValueError
| TypeError
| KeyError
| IntegrityError
| StructError.

Inductive result (A : Type) : Type :=
| Ok (a : A)
| Raise (e : exn).
Arguments Ok {A} a.
Arguments Raise {A} e.

Definition bind {A B : Type} (m : result A) (k : A -> result B) : result B :=
  match m with
  | Ok a => k a
  | Raise e => Raise e
  end.

Definition is_ok {A : Type} (m : result A) : bool :=
  match m with Ok _ => true | Raise _ => false end.

(** [if not x] on an optional string: [None] and the empty string are falsy. *)
Definition truthy (s : option string) : bool :=
  match s with
  | None => false
  | Some EmptyString => false
  | Some _ => true
  end.

Definition code (c : ascii) : Z := Z.of_N (N_of_ascii c).

(** [str.isspace] on ASCII text: tab to carriage return, the four
    separators 0x1c..0x1f, and the space. *)
Definition isspace (c : ascii) : bool :=
  let n := code c in
  ((9 <=? n) && (n <=? 13)) || ((28 <=? n) && (n <=? 31)) || (n =? 32).

(** [Py_ISSPACE], the C-level test [bytes.fromhex] uses. *)
Definition Py_ISSPACE (c : ascii) : bool :=
  let n := code c in
  ((9 <=? n) && (n <=? 13)) || (n =? 32).

Definition digit_value (c : ascii) : option Z :=
  let n := code c in
  if (48 <=? n) && (n <=? 57) then Some (n - 48) else None.

Definition hex_value (c : ascii) : option Z :=
  let n := code c in
  if (48 <=? n) && (n <=? 57) then Some (n - 48)
  else if (97 <=? n) && (n <=? 102) then Some (n - 87)
  else if (65 <=? n) && (n <=? 70) then Some (n - 55)
  else None.

Fixpoint lstrip (s : string) : string :=
  match s with
  | String c r => if isspace c then lstrip r else s
  | EmptyString => EmptyString
  end.

Fixpoint rstrip (s : string) : string :=
  match s with
  | EmptyString => EmptyString
  | String c r =>
      match rstrip r with
      | EmptyString => if isspace c then EmptyString else String c EmptyString
      | r' => String c r'
      end
  end.

(** The digits of an integer literal: decimal digits, with single
    underscores allowed between two digits. *)
Fixpoint int_digits (acc : Z) (after_digit : bool) (s : string) : option Z :=
  match s with
  | EmptyString => if after_digit then Some acc else None
  | String c r =>
      match digit_value c with
      | Some d => int_digits (10 * acc + d) true r
      | None =>
          if (code c =? 95) && after_digit then int_digits acc false r else None
      end
  end.

(** [int(s)] for ASCII text, [None] standing for [ValueError]. *)
Definition int (s : string) : option Z :=
  match rstrip (lstrip s) with
  | String "-" r => option_map Z.opp (int_digits 0 false r)
  | String "+" r => int_digits 0 false r
  | r => int_digits 0 false r
  end.

Definition byte_of_Z (n : Z) : byte := byte_of_ascii (ascii_of_N (Z.to_N n)).
Definition Z_of_byte (b : byte) : Z := Z.of_N (Byte.to_N b).

(** [bytes.fromhex(s)], [None] standing for [ValueError]: white space is
    skipped between bytes, and every byte is two hexadecimal digits. *)
Fixpoint fromhex (s : string) : option (list byte) :=
  match s with
  | EmptyString => Some []
  | String c r =>
      if Py_ISSPACE c then fromhex r
      else
        match hex_value c, r with
        | Some hi, String c2 r2 =>
            match hex_value c2 with
            | Some lo => option_map (cons (byte_of_Z (16 * hi + lo))) (fromhex r2)
            | None => None
            end
        | _, _ => None
        end
  end.

(** [s[:n]]. *)
Fixpoint take (n : nat) (s : string) : string :=
  match n, s with
  | S n', String c r => String c (take n' r)
  | _, _ => EmptyString
  end.

(** [range(lo, hi)]. *)
Definition range (lo hi : Z) : list Z :=
  map (fun i => lo + Z.of_nat i) (seq 0 (Z.to_nat (hi - lo))).

(** [enumerate(l)]. *)
Definition enumerate {A : Type} (l : list A) : list (Z * A) :=
  combine (map Z.of_nat (seq 0 (length l))) l.

(** Little-endian bytes of [v], [n] of them. *)
Fixpoint le_bytes (n : nat) (v : Z) : list byte :=
  match n with
  | O => []
  | S n' => byte_of_Z (Z.land v 255) :: le_bytes n' (Z.shiftr v 8)
  end.

(** [struct.pack] of one unsigned little-endian field of [n] bytes;
    a value out of range raises [struct.error]. *)
Definition pack_uint (n : nat) (v : Z) : result (list byte) :=
  if (0 <=? v) && (v <? 2 ^ (8 * Z.of_nat n)) then Ok (le_bytes n v)
  else Raise StructError.

(** [sorted(l, key=...)] and [list.sort(key=...)]: a stable sort, written
    as insertion from the right, [leb] comparing keys. *)
Section Sort.
Context {A : Type} (leb : A -> A -> bool).

Fixpoint insert_sorted (x : A) (l : list A) : list A :=
    match l with
    | [] => [x]
    | y :: l' => if leb x y then x :: l else y :: insert_sorted x l'
    end.

Definition sort (l : list A) : list A := fold_right insert_sorted [] l.
End Sort.

End Py.

Notation "'let*' x ':=' m 'in' k" := (Py.bind m (fun x => k))
  (at level 10, x pattern, m at level 100, k at level 200).

(** ** The catalogue: the SQLite schema of [create_database] *)

Module Schema.

Record rom_row : Type := mk_rom_row {
  rom_id : Z;
  rom_sha1 : option (list byte);
  rom_crc : option (list byte);
  rom_size_pow2 : Z;
  rom_name_id : option Z
}.

Record machine_row : Type := mk_machine_row {
  m_id : Z;
  m_name : string;
  m_cloneof_id : option Z;
  m_romof_id : option Z;
  m_description : option (list byte);
  m_year : option Z;
  m_manufacturer_id : option Z
}.

(** The [id] column of [machine_roms] is never read by either script: a row
    is its three payload columns, and the table lists its rows in rowid
    order. *)
Record machine_rom_row : Type := mk_machine_rom_row {
  mr_machine_id : Z;
  mr_rom_id : Z;
  mr_name_id : option Z
}.

(** The five tables; the [_seq] fields are the [sqlite_sequence] counters of
    the three AUTOINCREMENT tables whose ids are read back. *)
Record database : Type := mk_database {
  manufacturers : list (Z * string);
  manufacturers_seq : Z;
  rom_names : list (Z * string);
  rom_names_seq : Z;
  roms : list rom_row;
  roms_seq : Z;
  machines : list machine_row;
  machine_roms : list machine_rom_row
}.

(** What [create_database] leaves: every table dropped and created anew. *)
Definition empty_database : database :=
  mk_database [] 0 [] 0 [] 0 [] [].

Definition max_list (l : list Z) : Z := fold_right Z.max 0 l.

(** The rowid an AUTOINCREMENT table gives its next row: one more than the
    largest rowid the table has ever held. *)
Definition autoincrement (seq : Z) (ids : list Z) : Z :=
  Z.max seq (max_list ids) + 1.

Definition set_machines (ms : list machine_row) (db : database) : database :=
  mk_database (manufacturers db) (manufacturers_seq db) (rom_names db)
    (rom_names_seq db) (roms db) (roms_seq db) ms (machine_roms db).

Definition set_machine_roms (mrs : list machine_rom_row) (db : database)
  : database :=
  mk_database (manufacturers db) (manufacturers_seq db) (rom_names db)
    (rom_names_seq db) (roms db) (roms_seq db) (machines db) mrs.

Definition set_manufacturers (l : list (Z * string)) (seq : Z) (db : database)
  : database :=
  mk_database l seq (rom_names db) (rom_names_seq db) (roms db) (roms_seq db)
    (machines db) (machine_roms db).

Definition set_rom_names (l : list (Z * string)) (seq : Z) (db : database)
  : database :=
  mk_database (manufacturers db) (manufacturers_seq db) l seq (roms db)
    (roms_seq db) (machines db) (machine_roms db).

Definition set_roms (l : list rom_row) (seq : Z) (db : database) : database :=
  mk_database (manufacturers db) (manufacturers_seq db) (rom_names db)
    (rom_names_seq db) l seq (machines db) (machine_roms db).

Definition mem_Z (x : Z) (l : list Z) : bool := existsb (Z.eqb x) l.

(** The non-NULL values of a nullable column. *)
Definition not_null {A : Type} (l : list (option A)) : list A :=
  flat_map (fun o => match o with Some a => [a] | None => [] end) l.

(** [INSERT INTO manufacturers (name) VALUES (?)]: [name] is UNIQUE. *)
Definition insert_manufacturer (name : string) (db : database)
  : Py.result (Z * database) :=
  if existsb (String.eqb name) (map snd (manufacturers db))
  then Py.Raise Py.IntegrityError
  else
    let id := autoincrement (manufacturers_seq db) (map fst (manufacturers db)) in
    Py.Ok (id, set_manufacturers (manufacturers db ++ [(id, name)]) id db).

(** [INSERT INTO rom_names (name) VALUES (?)]: [name] is UNIQUE NOT NULL. *)
Definition insert_rom_name (name : option string) (db : database)
  : Py.result (Z * database) :=
  match name with
  | None => Py.Raise Py.IntegrityError
  | Some n =>
      if existsb (String.eqb n) (map snd (rom_names db))
      then Py.Raise Py.IntegrityError
      else
        let id := autoincrement (rom_names_seq db) (map fst (rom_names db)) in
        Py.Ok (id, set_rom_names (rom_names db ++ [(id, n)]) id db)
  end.

(** [INSERT INTO roms (sha1, crc, size_pow2, name_id) VALUES (?, ?, ?, ?)]. *)
Definition insert_rom (sha1 crc : option (list byte)) (size_pow2 : Z)
  (name_id : option Z) (db : database) : Z * database :=
  let id := autoincrement (roms_seq db) (map rom_id (roms db)) in
  (id, set_roms (roms db ++ [mk_rom_row id sha1 crc size_pow2 name_id]) id db).

(** [CHECK(year >= 0 AND year <= 65535)]; a NULL year passes. *)
Definition year_check (y : option Z) : bool :=
  match y with
  | None => true
  | Some v => (0 <=? v) && (v <=? 65535)
  end.

(** [INSERT INTO machines (id, name, ...)]: [id] is the primary key, [name]
    is UNIQUE, [year] is checked. *)
Definition insert_machine (m : machine_row) (db : database)
  : Py.result database :=
  if mem_Z (m_id m) (map m_id (machines db))
     || existsb (String.eqb (m_name m)) (map m_name (machines db))
     || negb (year_check (m_year m))
  then Py.Raise Py.IntegrityError
  else Py.Ok (set_machines (machines db ++ [m]) db).

End Schema.

(** ** [build_mame_database.py] *)

Module Build.
Import Schema.

Definition MIN_ROM_SIZE : Z := 256.
Definition MAX_ROM_SIZE : Z := 8 * 1024 * 1024.
Definition NEOGEO_BIOS_THRESHOLD : Z := 4000.

(** A [<rom>] element: the four attributes [parse_machine] reads. *)
Record rom_elem : Type := mk_rom_elem {
  re_name : option string;
  re_size : option string;
  re_crc : option string;
  re_sha1 : option string
}.

(** A [<machine>] or [<game>] element: its attributes, the text of its
    first [description], [year] and [manufacturer] children ([None] when
    the child is absent or has no text), and its [<rom>] children in
    document order. *)
Record machine_elem : Type := mk_machine_elem {
  me_name : option string;
  me_cloneof : option string;
  me_romof : option string;
  me_description : option string;
  me_year : option string;
  me_manufacturer : option string;
  me_roms : list rom_elem
}.

(** The [rom] dictionary [parse_machine] builds. *)
Record rom_rec : Type := mk_rom_rec {
  r_name : option string;
  r_size : Z;
  r_crc : option string;
  r_sha1 : string
}.

(** The [attrs] dictionary [parse_machine] builds. *)
Record machine_attrs : Type := mk_machine_attrs {
  a_name : option string;
  a_cloneof : option string;
  a_romof : option string;
  a_description : option string;
  a_year : option Z;
  a_manufacturer : option string
}.

Definition is_valid_rom_size (size : option Z) : bool :=
  match size with
  | None => false
  | Some size =>
      if (size <? MIN_ROM_SIZE) || (size >? MAX_ROM_SIZE) then false
      else (size >? 0) && (Z.land size (size - 1) =? 0)
  end.

(** One turn of the loop over [machine_elem.findall('rom')]: [None] is
    [continue], [Some rom] is [roms.append(rom)]. *)
Definition parse_rom (e : rom_elem) : option rom_rec :=
  let size :=
    match re_size e with
    | Some ((String c r) as size_str) => Py.int size_str
    | _ => None
    end in
  if negb (is_valid_rom_size size) then None
  else
    match re_sha1 e with
    | Some ((String c r) as sha1) =>
        Some (mk_rom_rec (re_name e) (default 0 size) (re_crc e) sha1)
    | _ => None
    end.

Definition parse_roms (es : list rom_elem) : list rom_rec :=
  fold_right
    (fun e acc => match parse_rom e with Some r => r :: acc | None => acc end)
    [] es.

Definition parse_year (text : option string) : option Z :=
  match text with
  | Some ((String c r) as t) => Py.int (Py.take 4 t)
  | _ => None
  end.

Definition parse_machine (elem : machine_elem)
  : machine_attrs * list rom_rec :=
  (mk_machine_attrs (me_name elem) (me_cloneof elem) (me_romof elem)
     (me_description elem) (parse_year (me_year elem)) (me_manufacturer elem),
   parse_roms (me_roms elem)).

(** The in-memory indices threaded through every [process_dat_file] call. *)
Record caches : Type := mk_caches {
  manufacturers_cache : gmap string Z;
  rom_names_cache : gmap string Z;
  roms_cache : gmap string (Z * Z);
  existing_machines : gset string
}.

Definition empty_caches : caches := mk_caches ∅ ∅ ∅ ∅.

(** An entry of [machines_data]. *)
Record machine_data : Type := mk_machine_data {
  md_id : Z;
  md_name : string;
  md_cloneof : option string;
  md_romof : option string;
  md_desc : option (list byte);
  md_year : option Z;
  md_manuf_id : option Z
}.

(** The variables [process_dat_file] updates while it walks a document. *)
Record pstate : Type := mk_pstate {
  ps_db : database;
  ps_caches : caches;
  ps_machine_id : Z;
  ps_machines_data : list machine_data;
  ps_machine_roms_data : list machine_rom_row
}.

Section WithZlib.

(** [zlib.compress(data, level=9)]. *)
Variable compress : list byte -> list byte.

(** The body of [for rom in roms] for one ROM of machine [machine_id]. *)
Definition process_rom (machine_id : Z) (rom : rom_rec) (st : pstate)
  : Py.result pstate :=
  let sha1 := r_sha1 rom in
  let rom_name := r_name rom in
  let db := ps_db st in
  let c := ps_caches st in
  (* Get/create rom_name *)
  let* (name_id, db, names) :=
    match rom_name ≫= (fun n => rom_names_cache c !! n) with
    | Some id => Py.Ok (id, db, rom_names_cache c)
    | None =>
        let* (id, db') := insert_rom_name rom_name db in
        Py.Ok (id, db', <[default "" rom_name := id]> (rom_names_cache c))
    end in
  (* Get/create ROM by SHA1 *)
  let* (rom_id, db, rcache) :=
    match roms_cache c !! sha1 with
    | Some (rid, _) => Py.Ok (rid, db, roms_cache c)
    | None =>
        let* sha1_bin :=
          match Py.fromhex sha1 with
          | Some b => Py.Ok b
          | None => Py.Raise Py.ValueError
          end in
        let* crc_bin :=
          match r_crc rom with
          | Some ((String _ _) as crc) =>
              match Py.fromhex crc with
              | Some b => Py.Ok (Some b)
              | None => Py.Raise Py.ValueError
              end
          | _ => Py.Ok None
          end in
        let size_pow2 := Z.log2 (r_size rom) in
        let '(rid, db') :=
          insert_rom (Some sha1_bin) crc_bin size_pow2 (Some name_id) db in
        Py.Ok (rid, db', <[sha1 := (rid, name_id)]> (roms_cache c))
    end in
  Py.Ok (mk_pstate db
           (mk_caches (manufacturers_cache c) names rcache (existing_machines c))
           (ps_machine_id st) (ps_machines_data st)
           (ps_machine_roms_data st
              ++ [mk_machine_rom_row machine_id rom_id (Some name_id)])).

Fixpoint process_roms (machine_id : Z) (roms : list rom_rec) (st : pstate)
  : Py.result pstate :=
  match roms with
  | [] => Py.Ok st
  | rom :: rest =>
      let* st' := process_rom machine_id rom st in
      process_roms machine_id rest st'
  end.

(** One turn of the loop over the [machine] and [game] elements of a
    document. *)
Definition process_machine (elem : machine_elem) (st : pstate)
  : Py.result pstate :=
  let '(machine_attrs, roms) := parse_machine elem in
  match roms, a_name machine_attrs with
  | _ :: _, Some ((String _ _) as name) =>
      let c := ps_caches st in
      (* Skip existing machines (first file wins) *)
      if decide (name ∈ existing_machines c) then Py.Ok st
      else
        let machine_id := ps_machine_id st + 1 in
        let existing := {[name]} ∪ existing_machines c in
        (* Get/create manufacturer *)
        let* (manuf_id, db, manufs) :=
          match a_manufacturer machine_attrs with
          | Some ((String _ _) as manuf_name) =>
              match manufacturers_cache c !! manuf_name with
              | Some id => Py.Ok (Some id, ps_db st, manufacturers_cache c)
              | None =>
                  let* (id, db') := insert_manufacturer manuf_name (ps_db st) in
                  Py.Ok (Some id, db', <[manuf_name := id]> (manufacturers_cache c))
              end
          | _ => Py.Ok (None, ps_db st, manufacturers_cache c)
          end in
        (* Compress description *)
        let desc_blob :=
          match a_description machine_attrs with
          | Some ((String _ _) as desc) => Some (compress (list_byte_of_string desc))
          | _ => None
          end in
        let md :=
          mk_machine_data machine_id name (a_cloneof machine_attrs)
            (a_romof machine_attrs) desc_blob (a_year machine_attrs) manuf_id in
        process_roms machine_id roms
          (mk_pstate db
             (mk_caches manufs (rom_names_cache c) (roms_cache c) existing)
             machine_id (ps_machines_data st ++ [md]) (ps_machine_roms_data st))
  | _, _ => Py.Ok st
  end.

Fixpoint process_machines (elems : list machine_elem) (st : pstate)
  : Py.result pstate :=
  match elems with
  | [] => Py.Ok st
  | elem :: rest =>
      let* st' := process_machine elem st in
      process_machines rest st'
  end.

(** [name_to_id]: the machines of this document, then those already in the
    table. *)
Definition name_to_id (mds : list machine_data) (db : database)
  : gmap string Z :=
  fold_left (fun d m => <[m_name m := m_id m]> d) (machines db)
    (fold_left (fun d m => <[md_name m := md_id m]> d) mds ∅).

Definition resolve (d : gmap string Z) (name : option string) : option Z :=
  name ≫= (fun n => d !! n).

Fixpoint insert_machines (d : gmap string Z) (mds : list machine_data)
  (db : database) : Py.result database :=
  match mds with
  | [] => Py.Ok db
  | m :: rest =>
      let* db' :=
        insert_machine
          (mk_machine_row (md_id m) (md_name m) (resolve d (md_cloneof m))
             (resolve d (md_romof m)) (md_desc m) (md_year m) (md_manuf_id m))
          db in
      insert_machines d rest db'
  end.

(** [process_dat_file] on a well-formed document, given as the list of its
    [machine] and [game] elements in document order.  It returns the
    catalogue, the caches it updated and the last machine id it used. *)
Definition process_dat_file (doc : list machine_elem) (db : database)
  (c : caches) (start_machine_id : Z) : Py.result (database * caches * Z) :=
  let* st :=
    process_machines doc (mk_pstate db c start_machine_id [] []) in
  let d := name_to_id (ps_machines_data st) (ps_db st) in
  let* db' := insert_machines d (ps_machines_data st) (ps_db st) in
  Py.Ok (set_machine_roms (machine_roms db' ++ ps_machine_roms_data st) db',
         ps_caches st, ps_machine_id st).

Fixpoint process_dat_files (docs : list (list machine_elem)) (db : database)
  (c : caches) (machine_id : Z) : Py.result (database * caches * Z) :=
  match docs with
  | [] => Py.Ok (db, c, machine_id)
  | doc :: rest =>
      let* (db', c', machine_id') := process_dat_file doc db c machine_id in
      process_dat_files rest db' c' machine_id'
  end.

(** The build of [main]: a fresh catalogue, every document in turn. *)
Definition ingest (docs : list (list machine_elem)) : Py.result database :=
  let* (db, _, _) := process_dat_files docs empty_database empty_caches 0 in
  Py.Ok db.

(** *** Shared-BIOS extraction *)

(** [machine_roms mr JOIN roms r ON mr.rom_id = r.id]. *)
Definition join_roms (db : database) : list (machine_rom_row * rom_row) :=
  flat_map
    (fun mr =>
       map (pair mr)
         (List.filter (fun r => rom_id r =? mr_rom_id mr) (roms db)))
    (machine_roms db).

(** The groups of [GROUP BY mr.rom_id], which SQLite returns in ascending
    order of the grouping column. *)
Definition group_keys (rows : list (machine_rom_row * rom_row)) : list Z :=
  Py.sort Z.leb (nodup Z.eq_dec (map (fun p => mr_rom_id (fst p)) rows)).

(** [COUNT(mr.machine_id)] of the group [rid]: [machine_id] is NOT NULL, so
    every row of the group counts. *)
Definition group_count (rows : list (machine_rom_row * rom_row)) (rid : Z)
  : Z :=
  Z.of_nat
    (length (List.filter (fun p => mr_rom_id (fst p) =? rid) rows)).

(** [bios_rom_ids]: the [r.id] of the groups [HAVING cnt > threshold]. *)
Definition bios_rom_ids (db : database) : list Z :=
  let rows := join_roms db in
  List.filter (fun rid => group_count rows rid >? NEOGEO_BIOS_THRESHOLD)
    (group_keys rows).

Definition neogeo_description : string :=
  "Neo-Geo BIOS ROMs - Shared system ROMs for all Neo-Geo games (MVS/AES)".

(** [SELECT MAX(id) FROM machines], then [fetchone()[0] or 0]. *)
Definition max_machine_id (db : database) : Z :=
  match map m_id (machines db) with
  | [] => 0
  | id :: ids => fold_left Z.max ids id
  end.

(** [SELECT name_id FROM machine_roms WHERE rom_id = ? LIMIT 1], then
    [fetchone()[0]]: the first row in rowid order; no row at all makes
    [fetchone()] return [None], and subscripting it raises. *)
Definition first_name_id (rid : Z) (mrs : list machine_rom_row)
  : Py.result (option Z) :=
  match List.find (fun mr => mr_rom_id mr =? rid) mrs with
  | Some mr => Py.Ok (mr_name_id mr)
  | None => Py.Raise Py.TypeError
  end.

(** The loop that links every BIOS ROM to the new machine. *)
Fixpoint add_bios_links (neogeo_id : Z) (rom_ids : list Z)
  (mrs : list machine_rom_row) : Py.result (list machine_rom_row) :=
  match rom_ids with
  | [] => Py.Ok mrs
  | rid :: rest =>
      let* name_id := first_name_id rid mrs in
      add_bios_links neogeo_id rest
        (mrs ++ [mk_machine_rom_row neogeo_id rid name_id])
  end.

Definition extract_neogeo_bios (db : database) : Py.result database :=
  (* Check if neogeo_bios already exists *)
  if existsb (fun m => String.eqb (m_name m) "neogeo_bios") (machines db)
  then Py.Ok db
  else
    match bios_rom_ids db with
    | [] => Py.Ok db
    | (_ :: _) as bios =>
        (* Get/create SNK manufacturer *)
        let* (snk_id, db) :=
          match List.find (fun p => String.eqb (snd p) "SNK") (manufacturers db) with
          | Some row => Py.Ok (fst row, db)
          | None => insert_manufacturer "SNK" db
          end in
        (* Create neogeo_bios machine entry *)
        let desc := compress (list_byte_of_string neogeo_description) in
        let neogeo_id := max_machine_id db + 1 in
        let* db :=
          insert_machine
            (mk_machine_row neogeo_id "neogeo_bios" None None (Some desc)
               (Some 1990) (Some snk_id)) db in
        (* Add links to neogeo_bios *)
        let* mrs := add_bios_links neogeo_id bios (machine_roms db) in
        (* Remove BIOS links from other machines *)
        let kept :=
          List.filter
            (fun mr =>
               negb (mem_Z (mr_rom_id mr) bios
                     && negb (mr_machine_id mr =? neogeo_id)))
            mrs in
        Py.Ok (set_machine_roms kept db)
    end.

(** *** Orphan cleanup *)

Definition null_if_orphan (ids : list Z) (ref : option Z) : option Z :=
  match ref with
  | Some id => if mem_Z id ids then Some id else None
  | None => None
  end.

Definition cleanup_orphans (db : database) : database :=
  (* Remove machines without ROMs *)
  let machines1 :=
    List.filter
      (fun m => mem_Z (m_id m) (map mr_machine_id (machine_roms db)))
      (machines db) in
  (* Remove orphan ROM names *)
  let rom_names1 :=
    List.filter
      (fun p =>
         negb (negb (mem_Z (fst p) (not_null (map rom_name_id (roms db))))
               && negb (mem_Z (fst p)
                          (not_null (map mr_name_id (machine_roms db))))))
      (rom_names db) in
  (* Remove orphan manufacturers *)
  let manufacturers1 :=
    List.filter
      (fun p =>
         mem_Z (fst p) (not_null (map m_manufacturer_id machines1)))
      (manufacturers db) in
  (* Clean orphan cloneof_id/romof_id references *)
  let ids := map m_id machines1 in
  let machines2 :=
    map (fun m =>
           mk_machine_row (m_id m) (m_name m)
             (null_if_orphan ids (m_cloneof_id m)) (m_romof_id m)
             (m_description m) (m_year m) (m_manufacturer_id m))
      machines1 in
  let ids := map m_id machines2 in
  let machines3 :=
    map (fun m =>
           mk_machine_row (m_id m) (m_name m) (m_cloneof_id m)
             (null_if_orphan ids (m_romof_id m))
             (m_description m) (m_year m) (m_manufacturer_id m))
      machines2 in
  mk_database manufacturers1 (manufacturers_seq db) rom_names1
    (rom_names_seq db) (roms db) (roms_seq db) machines3 (machine_roms db).

(** The two passes [main] runs on a freshly built catalogue. *)
Definition post_process (db : database) : Py.result database :=
  let* db' := extract_neogeo_bios db in
  Py.Ok (cleanup_orphans db').

(** [main] with [--dat-file], [--no-download] or a downloaded archive: the
    documents in the order they are processed. *)
Definition build (docs : list (list machine_elem)) : Py.result database :=
  let* db := ingest docs in
  post_process db.

End WithZlib.
End Build.

(** ** [generate_embedded_database.py] *)

Module Gen.
Import Schema.

Definition DEFAULT_MIN_SIZE_POW2 : Z := 11.
Definition DEFAULT_MAX_SIZE_POW2 : Z := 23.

Definition MAGIC : list byte := list_byte_of_string "MRDB".
Definition VERSION : Z := 1.

Definition NULL_ID_24 : Z := 0xFFFFFF.
Definition NULL_ID_16 : Z := 0xFFFF.

Definition HEADER_SIZE : Z := 64.

(** *** Helper functions *)

(** [struct.pack('<I', value)[:3]]. *)
Definition write_uint24 (value : Z) : Py.result (list byte) :=
  let* b := Py.pack_uint 4 value in
  Py.Ok (firstn 3 b).

(** [struct.unpack('<I', ...)[0]] of little-endian bytes. *)
Definition unpack_uint (b : list byte) : Z :=
  fold_right (fun x acc => Py.Z_of_byte x + 256 * acc) 0 b.

(** [data[offset:offset+3] + b'\x00'], unpacked. *)
Definition read_uint24 (data : list byte) (offset : nat) : Z :=
  unpack_uint (firstn 3 (skipn offset data) ++ [Byte.x00]).

Definition make_rom_id (size_pow2 index : Z) : Py.result Z :=
  if index >? 0xFFFF then Py.Raise Py.ValueError
  else Py.Ok (Z.lor (Z.shiftl size_pow2 16) index).

Definition extract_size_pow2 (rom_id : Z) : Z :=
  Z.land (Z.shiftr rom_id 16) 0xFF.

Definition extract_rom_index (rom_id : Z) : Z :=
  Z.land rom_id 0xFFFF.

(** *** Data extraction from SQLite *)

(** A ROM dictionary: [new_id] is absent until [remap_ids] sets it. *)
Record rom : Type := mk_rom {
  old_id : Z;
  sha1 : list byte;
  size_pow2 : Z;
  name_id : option Z;
  new_id : option Z
}.

(** A machine dictionary: [m_old] is the key [old_id], absent until
    [remap_ids] sets it. *)
Record machine : Type := mk_machine {
  name : string;
  cloneof_id : option Z;
  romof_id : option Z;
  description : option (list byte);
  year : Z;
  manufacturer_id : option Z;
  m_old : option Z
}.

(** What [load_database] returns. *)
Record data : Type := mk_data {
  d_manufacturers : gmap Z string;
  d_rom_names : gmap Z string;
  d_roms : list rom;
  d_machines : gmap Z machine;
  d_machine_roms : list machine_rom_row
}.

(** What [remap_ids] returns. *)
Record remapped : Type := mk_remapped {
  x_roms : list rom;
  x_machines : gmap Z machine;
  x_machine_roms : list machine_rom_row;
  x_manufacturers : gmap Z string;
  x_rom_names : gmap Z string;
  x_size_index : gmap Z (Z * Z);
  x_rom_id_map : gmap Z Z
}.

(** SQLite compares two BLOBs with [memcmp], the shorter first when it is a
    prefix of the longer. *)
Fixpoint bytes_leb (a b : list byte) : bool :=
  match a, b with
  | [], _ => true
  | _ :: _, [] => false
  | x :: a', y :: b' =>
      if Py.Z_of_byte x <? Py.Z_of_byte y then true
      else if Py.Z_of_byte y <? Py.Z_of_byte x then false
      else bytes_leb a' b'
  end.

(** The order of a pair of integers, as SQLite orders two integer columns
    and as Python orders a tuple of two integers. *)
Definition pair_leb (a b : Z * Z) : bool :=
  (fst a <? fst b) || ((fst a =? fst b) && (snd a <=? snd b)).

(** [ORDER BY size_pow2, sha1]. *)
Definition rom_leb (a b : rom) : bool :=
  (size_pow2 a <? size_pow2 b)
  || ((size_pow2 a =? size_pow2 b) && bytes_leb (sha1 a) (sha1 b)).

Definition mr_key (mr : machine_rom_row) : Z * Z :=
  (mr_rom_id mr, mr_machine_id mr).

(** [ORDER BY rom_id, machine_id], and the key of the final sort. *)
Definition mr_leb (a b : machine_rom_row) : bool :=
  pair_leb (mr_key a) (mr_key b).

(** The rows of [SELECT ... FROM roms WHERE ... ORDER BY size_pow2, sha1].
    Rows the ORDER BY does not tell apart come in rowid order. *)
Definition select_roms (db : database) (min_size_pow2 max_size_pow2 : Z)
  : list rom :=
  Py.sort rom_leb
    (flat_map
       (fun r =>
          match rom_sha1 r with
          | Some h =>
              if (rom_size_pow2 r >=? min_size_pow2)
                 && (rom_size_pow2 r <=? max_size_pow2)
                 && (Z.of_nat (length h) =? 20)
              then [mk_rom (rom_id r) h (rom_size_pow2 r) (rom_name_id r) None]
              else []
          | None => []
          end)
       (roms db)).

(** [row['year'] if row['year'] else 0]. *)
Definition load_year (y : option Z) : Z :=
  match y with
  | Some v => if v =? 0 then 0 else v
  | None => 0
  end.

Definition load_machine (m : machine_row) : machine :=
  mk_machine (m_name m) (m_cloneof_id m) (m_romof_id m) (m_description m)
    (load_year (m_year m)) (m_manufacturer_id m) None.

Definition load_database (db : database) (min_size_pow2 max_size_pow2 : Z)
  : data :=
  let manufacturers :=
    fold_left (fun d row => <[fst row := snd row]> d) (manufacturers db) ∅ in
  let rom_names :=
    fold_left (fun d row => <[fst row := snd row]> d) (rom_names db) ∅ in
  let roms := select_roms db min_size_pow2 max_size_pow2 in
  let machines :=
    fold_left (fun d row => <[m_id row := load_machine row]> d) (machines db) ∅ in
  (* Load machine_roms (only for filtered ROMs) *)
  let rom_old_ids : gset Z := list_to_set (map old_id roms) in
  let machine_roms :=
    List.filter (fun row => bool_decide (mr_rom_id row ∈ rom_old_ids))
      (Py.sort mr_leb (machine_roms db)) in
  mk_data manufacturers rom_names roms machines machine_roms.

(** *** ID remapping *)

(** [roms_by_size]: every class lists its ROM dictionaries, which are the
    very objects of [data['roms']]; an object is named by its position in
    that list. *)
Definition group_by_size (roms : list rom) : gmap Z (list nat) :=
  fold_left
    (fun d p => <[size_pow2 (snd p) := default [] (d !! size_pow2 (snd p)) ++ [fst p]]> d)
    (combine (seq 0 (length roms)) roms) ∅.

(** The variables of the ROM loop: the ROM objects, [rom_id_map],
    [size_index] and [global_index]. *)
Record rom_state : Type := mk_rom_state {
  rs_roms : list rom;
  rs_rom_id_map : gmap Z Z;
  rs_size_index : gmap Z (Z * Z);
  rs_global_index : Z
}.

Definition set_new_id (id : Z) (r : rom) : rom :=
  mk_rom (old_id r) (sha1 r) (size_pow2 r) (name_id r) (Some id).

(** [for idx, rom in enumerate(roms_list)]. *)
Fixpoint assign_class (s : Z) (refs : list (Z * nat)) (st : rom_state)
  : Py.result rom_state :=
  match refs with
  | [] => Py.Ok st
  | (idx, ref) :: rest =>
      let* id := make_rom_id s idx in
      let st' :=
        match rs_roms st !! ref with
        | Some r =>
            mk_rom_state (<[ref := set_new_id id r]> (rs_roms st))
              (<[old_id r := id]> (rs_rom_id_map st)) (rs_size_index st)
              (rs_global_index st + 1)
        | None => st
        end in
      assign_class s rest st'
  end.

(** [for size_pow2 in range(min_size_pow2, max_size_pow2 + 1)]. *)
Fixpoint assign_classes (by_size : gmap Z (list nat)) (sizes : list Z)
  (st : rom_state) : Py.result rom_state :=
  match sizes with
  | [] => Py.Ok st
  | s :: rest =>
      let roms_list := default [] (by_size !! s) in
      let st1 :=
        mk_rom_state (rs_roms st) (rs_rom_id_map st)
          (<[s := (rs_global_index st, Z.of_nat (length roms_list))]>
             (rs_size_index st))
          (rs_global_index st) in
      let* st2 := assign_class s (Py.enumerate roms_list) st1 in
      assign_classes by_size rest st2
  end.

(** [sorted(d.keys())] of a dictionary with integer keys. *)
Definition sorted_keys {A : Type} (d : gmap Z A) : list Z :=
  Py.sort Z.leb (map fst (map_to_list d)).

(** [sorted(s)] of a set of integers. *)
Definition sorted_set (s : gset Z) : list Z := Py.sort Z.leb (elements s).

(** A loop that numbers the ids of [olds] from 0: [id_map[old_id] = new_id],
    [new_table[new_id] = value old_id]. *)
Definition number_ids {A : Type} (value : Z -> A) (olds : list Z)
  : gmap Z Z * gmap Z A :=
  let '(id_map, table, _) :=
    fold_left
      (fun st old =>
         let '(id_map, table, next) := st in
         (<[old := next]> id_map, <[next := value old]> table, next + 1))
      olds (∅, ∅, 0) in
  (id_map, table).

(** [d.get(ref, null) if ref else null]: [None] and 0 are both falsy. *)
Definition remap_ref (d : gmap Z Z) (null : Z) (ref : option Z) : Z :=
  match ref with
  | Some r => if r =? 0 then null else default null (d !! r)
  | None => null
  end.

Definition remap_ids (data : data) (min_size_pow2 max_size_pow2 : Z)
  : Py.result remapped :=
  (* Build ROM ID mapping (old_id -> new_id) *)
  let roms_by_size := group_by_size (d_roms data) in
  let* st :=
    assign_classes roms_by_size (Py.range min_size_pow2 (max_size_pow2 + 1))
      (mk_rom_state (d_roms data) ∅ ∅ 0) in
  let roms := rs_roms st in
  let rom_id_map := rs_rom_id_map st in
  (* Filter machines that have at least one ROM *)
  let machines_with_roms : gset Z :=
    list_to_set (map mr_machine_id (d_machine_roms data)) in
  (* Build machine ID mapping *)
  let '(machine_id_map, new_machines) :=
    number_ids
      (fun old =>
         match d_machines data !! old with
         | Some m =>
             mk_machine (name m) (cloneof_id m) (romof_id m) (description m)
               (year m) (manufacturer_id m) (Some old)
         | None => mk_machine "" None None None 0 None (Some old)
         end)
      (List.filter (fun old => bool_decide (old ∈ machines_with_roms))
         (sorted_keys (d_machines data))) in
  (* Build manufacturer ID mapping (only used manufacturers) *)
  let used_manufacturers : gset Z :=
    list_to_set
      (not_null (map (fun p => manufacturer_id (snd p)) (map_to_list new_machines))) in
  let '(manufacturer_id_map, new_manufacturers) :=
    number_ids (fun old => default "Unknown" (d_manufacturers data !! old))
      (sorted_set used_manufacturers) in
  (* Build ROM name ID mapping (only used names) *)
  let used_rom_names : gset Z :=
    list_to_set
      (not_null (map name_id roms)
       ++ not_null (map mr_name_id (d_machine_roms data))) in
  let '(rom_name_id_map, new_rom_names) :=
    number_ids (fun old => default "" (d_rom_names data !! old))
      (sorted_set used_rom_names) in
  (* Update references in machine_roms *)
  let new_machine_roms :=
    flat_map
      (fun mr =>
         match machine_id_map !! mr_machine_id mr, rom_id_map !! mr_rom_id mr with
         | Some m, Some r =>
             [mk_machine_rom_row m r
                (Some (remap_ref rom_name_id_map NULL_ID_24 (mr_name_id mr)))]
         | _, _ => []
         end)
      (d_machine_roms data) in
  (* Sort by rom_id for efficient lookup *)
  let new_machine_roms := Py.sort mr_leb new_machine_roms in
  (* Update references in machines *)
  let new_machines :=
    (fun m =>
       mk_machine (name m)
         (Some (remap_ref machine_id_map NULL_ID_24 (cloneof_id m)))
         (Some (remap_ref machine_id_map NULL_ID_24 (romof_id m)))
         (description m) (year m)
         (Some (remap_ref manufacturer_id_map NULL_ID_16 (manufacturer_id m)))
         (m_old m)) <$> new_machines in
  (* Update references in roms *)
  let roms :=
    map (fun r =>
           mk_rom (old_id r) (sha1 r) (size_pow2 r)
             (Some (remap_ref rom_name_id_map NULL_ID_24 (name_id r)))
             (new_id r))
      roms in
  Py.Ok (mk_remapped roms new_machines new_machine_roms new_manufacturers
           new_rom_names (rs_size_index st) rom_id_map).

(** *** Binary generation *)

(** The order in which a Python process iterates a set of strings.  It
    depends on the hash seed of the process, so nothing is known of it but
    that every element comes once: [iterate] maps the sequence of
    [set.add] calls to the sequence the iteration yields. *)
Record set_order : Type := mk_set_order {
  iterate : list string -> list string;
  iterate_perm : forall l, Permutation (iterate l) (nodup string_dec l)
}.

(** The body of [for s in strings]. *)
Definition pool_step (st : list byte * gmap string Z) (s : string)
  : list byte * gmap string Z :=
  (fst st ++ list_byte_of_string s ++ [Byte.x00],
   <[s := Z.of_nat (length (fst st))]> (snd st)).

(** The [set.add] calls of [build_strings_pool], in order. *)
Definition collected_strings (x : remapped) : list string :=
  map snd (map_to_list (x_manufacturers x))
  ++ map snd (map_to_list (x_rom_names x))
  ++ map (fun p => name (snd p)) (map_to_list (x_machines x)).

Definition build_strings_pool (o : set_order) (x : remapped)
  : list byte * gmap string Z :=
  (* Sort for deterministic output *)
  let strings := Py.sort String.leb (iterate o (collected_strings x)) in
  fold_left pool_step strings ([], ∅).

(** The body of [for new_id, m in sorted(data['machines'].items())]. *)
Definition desc_step (st : list byte * gmap Z (Z * Z)) (p : Z * machine)
  : list byte * gmap Z (Z * Z) :=
  match description (snd p) with
  | Some ((_ :: _) as desc_data) =>
      (fst st ++ desc_data,
       <[fst p := (Z.of_nat (length (fst st)), Z.of_nat (length desc_data))]> (snd st))
  | _ => (fst st, <[fst p := (0, 0)]> (snd st))
  end.

Definition build_descriptions_pool (x : remapped)
  : list byte * gmap Z (Z * Z) :=
  fold_left desc_step
    (Py.sort (fun a b => fst a <=? fst b) (map_to_list (x_machines x)))
    ([], ∅).

(** A run of [output.extend(...)] calls, the first exception ending it. *)
Fixpoint extend_all (parts : list (Py.result (list byte)))
  : Py.result (list byte) :=
  match parts with
  | [] => Py.Ok []
  | p :: rest =>
      let* b := p in
      let* bs := extend_all rest in
      Py.Ok (b ++ bs)
  end.

(** A field that must hold an integer: packing [None] raises. *)
Definition pack_field (pack : Z -> Py.result (list byte)) (v : option Z)
  : Py.result (list byte) :=
  match v with
  | Some n => pack n
  | None => Py.Raise Py.StructError
  end.

(** [d[key]]. *)
Definition getitem {A : Type} (d : gmap Z A) (key : Z) : Py.result A :=
  match d !! key with
  | Some a => Py.Ok a
  | None => Py.Raise Py.KeyError
  end.

Definition ROM_ENTRY_SIZE : Z := 23.

Definition len {A : Type} (l : list A) : Z := Z.of_nat (length l).

Definition size {A : Type} (d : gmap Z A) : Z := Z.of_nat (base.size d).

Section Binary.

Variables (x : remapped) (strings_pool : list byte)
  (string_offsets : gmap string Z) (desc_pool : list byte)
  (desc_info : gmap Z (Z * Z)) (min_size_pow2 max_size_pow2 : Z).

Definition header_bytes : Py.result (list byte) :=
  let roms_count := len (x_roms x) in
  let machines_count := size (x_machines x) in
  let machine_roms_count := len (x_machine_roms x) in
  let manufacturers_count := size (x_manufacturers x) in
  let rom_names_count := size (x_rom_names x) in
  let size_index_offset := HEADER_SIZE in
  let roms_offset :=
    size_index_offset + (max_size_pow2 - min_size_pow2 + 1) * 8 in
  let machines_offset := roms_offset + roms_count * 23 in
  let machine_roms_offset := machines_offset + machines_count * 20 in
  let manufacturers_offset := machine_roms_offset + machine_roms_count * 9 in
  let rom_names_offset := manufacturers_offset + manufacturers_count * 4 in
  let strings_offset := rom_names_offset + rom_names_count * 4 in
  let desc_offset := strings_offset + len strings_pool in
  let* header :=
    extend_all
      [Py.Ok MAGIC; Py.pack_uint 2 VERSION;
       Py.pack_uint 1 min_size_pow2; Py.pack_uint 1 max_size_pow2;
       Py.pack_uint 4 roms_count; Py.pack_uint 4 machines_count;
       Py.pack_uint 4 machine_roms_count; Py.pack_uint 4 manufacturers_count;
       Py.pack_uint 4 rom_names_count;
       Py.pack_uint 4 size_index_offset; Py.pack_uint 4 roms_offset;
       Py.pack_uint 4 machines_offset; Py.pack_uint 4 machine_roms_offset;
       Py.pack_uint 4 manufacturers_offset; Py.pack_uint 4 rom_names_offset;
       Py.pack_uint 4 strings_offset; Py.pack_uint 4 desc_offset] in
  (* Pad header to HEADER_SIZE *)
  Py.Ok (header ++ repeat Byte.x00 (Z.to_nat (HEADER_SIZE - len header))).

Definition size_index_entry (s : Z) : Py.result (list byte) :=
  let '(start_idx, count) := default (0, 0) (x_size_index x !! s) in
  extend_all
    [Py.pack_uint 4 (start_idx * ROM_ENTRY_SIZE);
     Py.pack_uint 4 ((start_idx + count) * ROM_ENTRY_SIZE)].

Definition rom_entry (r : rom) : Py.result (list byte) :=
  let sha1 :=
    match sha1 r with
    | [] => repeat Byte.x00 20
    | h => h
    end in
  extend_all [Py.Ok sha1; pack_field write_uint24 (name_id r)].

Definition year_field (m : machine) : Py.result (list byte) :=
  Py.pack_uint 2 (Z.land (year m) 0xFFFF).

Definition machine_entry (new_id : Z) : Py.result (list byte) :=
  let* m := getitem (x_machines x) new_id in
  let name_off := default 0 (string_offsets !! name m) in
  let '(d_off, d_len) := default (0, 0) (desc_info !! new_id) in
  extend_all
    [Py.pack_uint 4 name_off; Py.pack_uint 4 d_off; Py.pack_uint 2 d_len;
     pack_field write_uint24 (cloneof_id m);
     pack_field write_uint24 (romof_id m);
     year_field m;
     pack_field (fun v => Py.pack_uint 2 (Z.land v 0xFFFF)) (manufacturer_id m)].

Definition machine_rom_entry (mr : machine_rom_row) : Py.result (list byte) :=
  extend_all
    [write_uint24 (mr_machine_id mr); write_uint24 (mr_rom_id mr);
     pack_field write_uint24 (mr_name_id mr)].

Definition name_entry (names : gmap Z string) (new_id : Z)
  : Py.result (list byte) :=
  let* name := getitem names new_id in
  Py.pack_uint 4 (default 0 (string_offsets !! name)).

(** The nine sections of the blob, in the order [generate_binary] appends
    them to [output]. *)
Definition sections : list (Py.result (list byte)) :=
  [header_bytes;
   extend_all (map size_index_entry (Py.range min_size_pow2 (max_size_pow2 + 1)));
   extend_all (map rom_entry (x_roms x));
   extend_all (map machine_entry (Py.range 0 (size (x_machines x))));
   extend_all (map machine_rom_entry (x_machine_roms x));
   extend_all (map (name_entry (x_manufacturers x))
                 (Py.range 0 (size (x_manufacturers x))));
   extend_all (map (name_entry (x_rom_names x))
                 (Py.range 0 (size (x_rom_names x))));
   Py.Ok strings_pool;
   Py.Ok desc_pool].

Definition generate_binary : Py.result (list byte) := extend_all sections.

End Binary.

(** [main], from the loaded catalogue to the bytes written to the [.bin]
    file; an exception leaves the file unwritten. *)
Definition main (o : set_order) (db : database) (min_size_pow2 max_size_pow2 : Z)
  : Py.result (list byte) :=
  let data := load_database db min_size_pow2 max_size_pow2 in
  let* x := remap_ids data min_size_pow2 max_size_pow2 in
  let '(strings_pool, string_offsets) := build_strings_pool o x in
  let '(desc_pool, desc_info) := build_descriptions_pool x in
  generate_binary x strings_pool string_offsets desc_pool desc_info
    min_size_pow2 max_size_pow2.

End Gen.

(** ** Facts on the Python primitives *)

Module PyFacts.

(** *** [sorted] *)

Section SortFacts.
Context {A : Type} (leb : A -> A -> bool).

Let le (a b : A) : Prop := leb a b = true.

Lemma insert_sorted_perm (x : A) (l : list A) :
    Permutation (Py.insert_sorted leb x l) (x :: l).
  Proof.
    induction l as [|y l IH]; simpl; [reflexivity|].
    destruct (leb x y); [reflexivity|].
    rewrite IH. apply perm_swap.
  Qed.

Lemma sort_perm (l : list A) : Permutation (Py.sort leb l) l.
  Proof.
    induction l as [|x l IH]; simpl; [reflexivity|].
    rewrite insert_sorted_perm. apply perm_skip, IH.
  Qed.

Lemma sort_In (x : A) (l : list A) : In x (Py.sort leb l) <-> In x l.
  Proof.
    split; apply Permutation_in; [|symmetry]; apply sort_perm.
  Qed.

Lemma sort_length (l : list A) : length (Py.sort leb l) = length l.
  Proof. apply Permutation_length, sort_perm. Qed.

Hypothesis leb_total : forall a b, leb a b = true \/ leb b a = true.

Lemma insert_sorted_Sorted (x : A) (l : list A) :
    Sorted le l -> Sorted le (Py.insert_sorted leb x l).
  Proof.
    induction l as [|y l IH]; intros Hs; simpl.
    - repeat constructor.
    - destruct (leb x y) eqn:E.
      + constructor; [exact Hs | constructor; exact E].
      + inversion Hs as [|? ? Hs' Hhd]; subst.
        constructor; [apply IH, Hs'|].
        destruct l as [|z l]; simpl.
        * constructor. destruct (leb_total x y) as [H|H]; [congruence | exact H].
        * destruct (leb x z).
          -- constructor. destruct (leb_total x y) as [H|H]; [congruence | exact H].
          -- inversion Hhd; subst. constructor. assumption.
  Qed.

Lemma sort_Sorted (l : list A) : Sorted le (Py.sort leb l).
  Proof.
    induction l as [|x l IH]; simpl; [constructor|].
    apply insert_sorted_Sorted, IH.
  Qed.

Hypothesis leb_trans :
    forall a b c, leb a b = true -> leb b c = true -> leb a c = true.

Lemma sort_StronglySorted (l : list A) : StronglySorted le (Py.sort leb l).
  Proof.
    apply Sorted_StronglySorted; [|apply sort_Sorted].
    intros a b c. apply leb_trans.
  Qed.

Hypothesis leb_antisym :
    forall a b, leb a b = true -> leb b a = true -> a = b.

  (** A list has one sorted arrangement. *)
Lemma sorted_perm_unique (l1 l2 : list A) :
    StronglySorted le l1 -> StronglySorted le l2 -> Permutation l1 l2 ->
    l1 = l2.
  Proof.
    revert l2. induction l1 as [|x l1 IH]; intros l2 H1 H2 Hp.
    - apply Permutation_nil in Hp. congruence.
    - destruct l2 as [|y l2];
        [apply Permutation_sym, Permutation_nil in Hp; discriminate|].
      inversion H1 as [|? ? Hs1 Hall1]; subst.
      inversion H2 as [|? ? Hs2 Hall2]; subst.
      assert (x = y) as ->.
      { assert (In x (y :: l2)) as Hx
          by (apply (Permutation_in _ Hp); left; reflexivity).
        assert (In y (x :: l1)) as Hy
          by (apply (Permutation_in _ (Permutation_sym Hp)); left; reflexivity).
        rewrite List.Forall_forall in Hall1, Hall2.
        destruct Hx as [->|Hx]; [reflexivity|].
        destruct Hy as [->|Hy]; [reflexivity|].
        apply leb_antisym; [apply Hall1, Hy | apply Hall2, Hx]. }
      f_equal. apply IH; [exact Hs1 | exact Hs2|].
      apply (Permutation_cons_inv Hp).
  Qed.

  (** The output of [sorted] does not depend on the order of its input. *)
Lemma sort_perm_eq (l1 l2 : list A) :
    Permutation l1 l2 -> Py.sort leb l1 = Py.sort leb l2.
  Proof.
    intros Hp. apply sorted_perm_unique; try apply sort_StronglySorted.
    rewrite !sort_perm. exact Hp.
  Qed.
End SortFacts.

(** *** Membership tests *)

Lemma mem_Z_In (x : Z) (l : list Z) : Schema.mem_Z x l = true <-> In x l.
Proof.
  unfold Schema.mem_Z. rewrite existsb_exists. split.
  - intros (y & Hy & E). apply Z.eqb_eq in E. subst y. exact Hy.
  - intros H. exists x. split; [exact H | apply Z.eqb_refl].
Qed.

Lemma mem_Z_not_In (x : Z) (l : list Z) : Schema.mem_Z x l = false <-> ~ In x l.
Proof.
  rewrite <- mem_Z_In. destruct (Schema.mem_Z x l); split; congruence.
Qed.

(** *** The order of [str] *)

Lemma string_leb_trans (a b c : string) :
  String.leb a b = true -> String.leb b c = true -> String.leb a c = true.
Proof.
  unfold String.leb.
  revert b c. induction a as [|x a IH]; intros [|y b] [|z c]; simpl;
    try congruence.
  unfold Ascii.compare.
  destruct (N.compare_spec (N_of_ascii x) (N_of_ascii y)) as [Exy|Lxy|Gxy];
    destruct (N.compare_spec (N_of_ascii y) (N_of_ascii z)) as [Eyz|Lyz|Gyz];
    try congruence; intros H1 H2.
  - rewrite Exy, Eyz, N.compare_refl. apply (IH b c H1 H2).
  - rewrite Exy. rewrite (proj2 (N.compare_lt_iff _ _) Lyz). reflexivity.
  - rewrite <- Eyz. rewrite (proj2 (N.compare_lt_iff _ _) Lxy). reflexivity.
  - rewrite (proj2 (N.compare_lt_iff _ _) (N.lt_trans _ _ _ Lxy Lyz)).
    reflexivity.
Qed.

Lemma string_leb_antisym (a b : string) :
  String.leb a b = true -> String.leb b a = true -> a = b.
Proof. apply String.leb_antisym. Qed.

Lemma string_leb_empty (s : string) : String.leb "" s = true.
Proof. destruct s; reflexivity. Qed.

End PyFacts.

(** ** Properties of the catalogue builder *)

Module BuildFacts.
Import Schema Build.

(** *** Ingest filtering *)

Definition with_roms (elem : machine_elem) (es : list rom_elem) : machine_elem :=
  mk_machine_elem (me_name elem) (me_cloneof elem) (me_romof elem)
    (me_description elem) (me_year elem) (me_manufacturer elem) es.

(** "Exactly 40 hexadecimal characters". *)
Definition is_sha1_hex (s : string) : bool :=
  (Z.of_nat (String.length s) =? 40)
  && forallb (fun c => bool_decide (is_Some (Py.hex_value c))) (list_ascii_of_string s).

Lemma parse_roms_app (a b : list rom_elem) :
  parse_roms (a ++ b) = parse_roms a ++ parse_roms b.
Proof.
  induction a as [|e a IH]; simpl; [reflexivity|].
  rewrite IH. destruct (parse_rom e); reflexivity.
Qed.

Lemma parse_rom_no_sha1 (e : rom_elem) :
  Py.truthy (re_sha1 e) = false -> parse_rom e = None.
Proof.
  unfold parse_rom. intros H.
  destruct (negb _); [reflexivity|].
  destruct (re_sha1 e) as [[|c r]|]; simpl in H; congruence.
Qed.

Lemma parse_roms_drop (e : rom_elem) (pre post : list rom_elem) :
  parse_rom e = None ->
  parse_roms (pre ++ e :: post) = parse_roms (pre ++ post).
Proof.
  intros H. rewrite !parse_roms_app. simpl. rewrite H. reflexivity.
Qed.

Section WithZlib.
Variable compress : list byte -> list byte.

Lemma process_machine_parse (e1 e2 : machine_elem) (st : pstate) :
  parse_machine e1 = parse_machine e2 ->
  process_machine compress e1 st = process_machine compress e2 st.
Proof. unfold process_machine. intros ->. reflexivity. Qed.

Lemma process_machines_parse (before after : list machine_elem)
  (e1 e2 : machine_elem) (st : pstate) :
  parse_machine e1 = parse_machine e2 ->
  process_machines compress (before ++ e1 :: after) st
  = process_machines compress (before ++ e2 :: after) st.
Proof.
  intros H. revert st.
  induction before as [|b before IH]; intros st; simpl.
  - rewrite (process_machine_parse e1 e2 st H). reflexivity.
  - destruct (process_machine compress b st); simpl; auto.
Qed.

(** C1 (amended).  A [<rom>] element whose [sha1] attribute is missing or
    empty is dropped by [parse_machine], and the catalogue, the caches and
    the outcome of [process_dat_file] are those of the same document
    without that element: no Rom record and no MachineRom row come from
    it, and it never makes the build abort. *)
Theorem C1_rom_without_sha1_is_dropped
  (e : rom_elem) (elem : machine_elem) (pre post : list rom_elem)
  (before after : list machine_elem) (db : database) (c : caches) (start : Z) :
  Py.truthy (re_sha1 e) = false ->
  me_roms elem = pre ++ e :: post ->
  parse_rom e = None
  /\ process_dat_file compress (before ++ elem :: after) db c start
     = process_dat_file compress
         (before ++ with_roms elem (pre ++ post) :: after) db c start.
Proof.
  intros Hsha Hroms.
  pose proof (parse_rom_no_sha1 e Hsha) as Hdrop.
  split; [exact Hdrop|].
  unfold process_dat_file.
  rewrite (process_machines_parse before after elem (with_roms elem (pre ++ post))).
  - reflexivity.
  - unfold parse_machine, with_roms; simpl.
    rewrite Hroms, (parse_roms_drop e pre post Hdrop). reflexivity.
Qed.

End WithZlib.

Definition c1_rom (sha1 : option string) : rom_elem :=
  mk_rom_elem (Some "pm1.6e") (Some "4096") (Some "c1e6ab10") sha1.

Definition c1_machine (sha1 : option string) : machine_elem :=
  mk_machine_elem (Some "pacman") None None (Some "Pac-Man") (Some "1980")
    (Some "Namco") [c1_rom sha1].

Lemma C1_rom_without_sha1_is_dropped_witness :
  parse_rom (c1_rom None) = None
  /\ process_dat_file (fun b => b) ([] ++ c1_machine None :: [])
       empty_database empty_caches 0
     = process_dat_file (fun b => b)
         ([] ++ with_roms (c1_machine None) ([] ++ []) :: [])
         empty_database empty_caches 0.
Proof.
  apply (C1_rom_without_sha1_is_dropped (fun b => b) (c1_rom None)
           (c1_machine None) [] [] [] [] empty_database empty_caches 0);
    reflexivity.
Defined.

(** C1 as stated fails: a [sha1] of four hexadecimal characters is not 40
    hexadecimal characters, yet the ROM is kept, with a Rom record and a
    MachineRom row; and a [sha1] that is not hexadecimal makes the build
    abort on [bytes.fromhex]. *)
Lemma C1_short_sha1_is_kept :
  is_sha1_hex "abcd" = false
  /\ (exists db c n,
        process_dat_file (fun b => b) [c1_machine (Some "abcd")]
          empty_database empty_caches 0 = Py.Ok (db, c, n)
        /\ roms db
           = [mk_rom_row 1 (Some [Byte.xab; Byte.xcd])
                (Some [Byte.xc1; Byte.xe6; Byte.xab; Byte.x10]) 12 (Some 1)]
        /\ machine_roms db = [mk_machine_rom_row 1 1 (Some 1)])
  /\ is_sha1_hex "zz" = false
  /\ process_dat_file (fun b => b) [c1_machine (Some "zz")]
       empty_database empty_caches 0 = Py.Raise Py.ValueError.
Proof.
  split; [reflexivity|]. split.
  - eexists _, _, _. split; [vm_compute; reflexivity|]. split; reflexivity.
  - split; reflexivity.
Qed.

End BuildFacts.

Module PostFacts.
Import Schema Build PyFacts.

#[local] Arguments String.eqb : simpl never.

(** *** The shared-BIOS threshold *)

(** The MachineRom rows that reference ROM [rid]. *)
Definition rows_of (rid : Z) (db : database) : list machine_rom_row :=
  List.filter (fun mr => mr_rom_id mr =? rid) (machine_roms db).

(** The distinct machines that reference ROM [rid]. *)
Definition machines_of (rid : Z) (db : database) : list Z :=
  nodup Z.eq_dec (map mr_machine_id (rows_of rid db)).

Definition roms_with_id (rid : Z) (db : database) : list rom_row :=
  List.filter (fun r => rom_id r =? rid) (roms db).

Lemma filter_length_le {A : Type} (f : A -> bool) (l : list A) :
  (length (List.filter f l) <= length l)%nat.
Proof.
  induction l as [|x l IH]; simpl; [lia|]. destruct (f x); simpl; lia.
Qed.

Lemma filter_pair_left (mr : machine_rom_row) (l : list rom_row) (rid : Z) :
  List.filter (fun p : machine_rom_row * rom_row => mr_rom_id (fst p) =? rid)
    (map (pair mr) l)
  = if mr_rom_id mr =? rid then map (pair mr) l else [].
Proof.
  induction l as [|r l IH]; simpl.
  - destruct (mr_rom_id mr =? rid); reflexivity.
  - rewrite IH. destruct (mr_rom_id mr =? rid); reflexivity.
Qed.

Lemma group_count_join (db : database) (rid : Z) :
  group_count (join_roms db) rid
  = Z.of_nat (length (rows_of rid db) * length (roms_with_id rid db)).
Proof.
  unfold group_count, join_roms, rows_of, roms_with_id. f_equal.
  induction (machine_roms db) as [|mr mrs IH]; simpl; [reflexivity|].
  rewrite List.filter_app, length_app, IH, filter_pair_left.
  destruct (mr_rom_id mr =? rid) eqn:E; simpl; [|reflexivity].
  apply Z.eqb_eq in E. rewrite E, length_map. reflexivity.
Qed.

Lemma group_keys_In (rows : list (machine_rom_row * rom_row)) (rid : Z) :
  In rid (group_keys rows) <-> (0 < group_count rows rid).
Proof.
  unfold group_keys, group_count.
  rewrite sort_In, nodup_In, in_map_iff.
  split.
  - intros (p & <- & Hp).
    assert (In p (List.filter (fun q => mr_rom_id (fst q) =? mr_rom_id (fst p)) rows))
      as Hin by (apply filter_In; split; [exact Hp | apply Z.eqb_refl]).
    destruct (List.filter _ rows); [destruct Hin | simpl; lia].
  - intros H.
    destruct (List.filter (fun p => mr_rom_id (fst p) =? rid) rows) as [|p l] eqn:E;
      [simpl in H; lia|].
    assert (In p (p :: l)) as Hin by (left; reflexivity).
    rewrite <- E in Hin. apply filter_In in Hin as [Hp Hid].
    exists p. split; [apply Z.eqb_eq, Hid | exact Hp].
Qed.

Lemma bios_rom_ids_In (db : database) (rid : Z) :
  In rid (bios_rom_ids db)
  <-> NEOGEO_BIOS_THRESHOLD < group_count (join_roms db) rid.
Proof.
  unfold bios_rom_ids. rewrite filter_In, group_keys_In.
  unfold NEOGEO_BIOS_THRESHOLD. rewrite Z.gtb_ltb, Z.ltb_lt. lia.
Qed.

Lemma roms_with_id_NoDup (db : database) (rid : Z) :
  List.NoDup (map rom_id (roms db)) ->
  length (roms_with_id rid db)
  = if mem_Z rid (map rom_id (roms db)) then 1%nat else 0%nat.
Proof.
  unfold roms_with_id. induction (roms db) as [|r l IH]; simpl; intros Hnd.
  - reflexivity.
  - inversion Hnd as [|? ? Hnotin Hnd']; subst.
    specialize (IH Hnd').
    rewrite (Z.eqb_sym rid (rom_id r)).
    destruct (rom_id r =? rid) eqn:E; simpl; [|exact IH].
    apply Z.eqb_eq in E. subst rid. rewrite IH.
    apply mem_Z_not_In in Hnotin. rewrite Hnotin. reflexivity.
Qed.

(** C2 (amended).  In the shared-BIOS pass a ROM of the catalogue is
    classified as a shared BIOS ROM if and only if the number of MachineRom
    rows that reference it, a repeated (machine, rom) pair counting once
    per row, is strictly greater than [NEOGEO_BIOS_THRESHOLD]. *)
Theorem C2_bios_rom_counts_rows (db : database) (rid : Z) :
  List.NoDup (map rom_id (roms db)) ->
  In rid (bios_rom_ids db)
  <-> In rid (map rom_id (roms db))
      /\ NEOGEO_BIOS_THRESHOLD < Z.of_nat (length (rows_of rid db)).
Proof.
  intros Hnd.
  rewrite bios_rom_ids_In, group_count_join, (roms_with_id_NoDup db rid Hnd).
  rewrite <- mem_Z_In. unfold NEOGEO_BIOS_THRESHOLD.
  destruct (mem_Z rid (map rom_id (roms db))); split; intros H.
  - split; [reflexivity | lia].
  - lia.
  - lia.
  - destruct H as [H _]. discriminate.
Qed.

(** One game that lists the same ROM 4001 times. *)
Definition c2_db : database :=
  mk_database [] 0 [(1, "sp-s2.sp1")] 1
    [mk_rom_row 1 (Some (repeat Byte.xaa 20)) None 17 (Some 1)] 1
    [mk_machine_row 1 "mslug" None None None None None]
    (repeat (mk_machine_rom_row 1 1 (Some 1)) 4001).

Lemma C2_bios_rom_counts_rows_witness :
  In 1 (bios_rom_ids c2_db)
  <-> In 1 (map rom_id (roms c2_db))
      /\ NEOGEO_BIOS_THRESHOLD < Z.of_nat (length (rows_of 1 c2_db)).
Proof.
  apply (C2_bios_rom_counts_rows c2_db 1).
  simpl. repeat constructor. intros [].
Defined.

(** C2 as stated fails: ROM 1 is referenced by a single machine, through
    4001 rows, and is classified as a shared BIOS ROM. *)
Lemma C2_one_machine_many_rows :
  In 1 (bios_rom_ids c2_db)
  /\ machines_of 1 c2_db = [1]
  /\ ~ (NEOGEO_BIOS_THRESHOLD < Z.of_nat (length (machines_of 1 c2_db))).
Proof.
  split; [|split].
  - apply bios_rom_ids_In. vm_compute. reflexivity.
  - vm_compute. reflexivity.
  - vm_compute. discriminate.
Qed.

(** *** The shared-BIOS pass in closed form *)

Definition has_neogeo_bios (db : database) : bool :=
  existsb (fun m => String.eqb (m_name m) "neogeo_bios") (machines db).

(** The row the pass appends for ROM [rid]: its filename is that of the
    first row of [mrs] that references [rid]. *)
Definition bios_link (neogeo_id : Z) (mrs : list machine_rom_row) (rid : Z)
  : machine_rom_row :=
  mk_machine_rom_row neogeo_id rid
    (match List.find (fun mr => mr_rom_id mr =? rid) mrs with
     | Some mr => mr_name_id mr
     | None => None
     end).

Lemma find_app_found {A : Type} (f : A -> bool) (l1 l2 : list A) (x : A) :
  List.find f l1 = Some x -> List.find f (l1 ++ l2) = Some x.
Proof.
  induction l1 as [|y l1 IH]; simpl; [discriminate|].
  destruct (f y); [trivial | exact IH].
Qed.

Lemma find_app_none {A : Type} (f : A -> bool) (l1 l2 : list A) :
  List.find f l1 = None -> List.find f (l1 ++ l2) = List.find f l2.
Proof.
  induction l1 as [|y l1 IH]; simpl; [reflexivity|].
  destruct (f y); [discriminate | exact IH].
Qed.

Lemma find_exists {A : Type} (f : A -> bool) (l : list A) (x : A) :
  In x l -> f x = true -> exists y, List.find f l = Some y.
Proof.
  intros Hin Hf. destruct (List.find f l) as [y|] eqn:E; [eauto|].
  rewrite (find_none f l E x Hin) in Hf. discriminate.
Qed.

Lemma add_bios_links_eq (n : Z) (rids : list Z) (mrs : list machine_rom_row) :
  (forall rid, In rid rids -> exists mr, In mr mrs /\ mr_rom_id mr = rid) ->
  add_bios_links n rids mrs = Py.Ok (mrs ++ map (bios_link n mrs) rids).
Proof.
  revert mrs. induction rids as [|rid rids IH]; intros mrs Hrows; simpl.
  - rewrite app_nil_r. reflexivity.
  - destruct (Hrows rid (or_introl eq_refl)) as (mr & Hin & Hid).
    destruct (find_exists (fun mr => mr_rom_id mr =? rid) mrs mr Hin) as [y Hy];
      [apply Z.eqb_eq, Hid|].
    unfold first_name_id. rewrite Hy. simpl.
    rewrite IH.
    + rewrite <- app_assoc. simpl. do 3 f_equal.
      * unfold bios_link. rewrite Hy. reflexivity.
      * apply map_ext_in. intros rid' Hin'.
        destruct (Hrows rid' (or_intror Hin')) as (mr' & Hmr' & Hid').
        destruct (find_exists (fun mr => mr_rom_id mr =? rid') mrs mr' Hmr')
          as [y' Hy']; [apply Z.eqb_eq, Hid'|].
        unfold bios_link. rewrite (find_app_found _ _ _ _ Hy'), Hy'. reflexivity.
    + intros rid' Hin'.
      destruct (Hrows rid' (or_intror Hin')) as (mr' & Hmr' & Hid').
      exists mr'. split; [apply in_or_app; left; exact Hmr' | exact Hid'].
Qed.

#[local] Arguments add_bios_links : simpl never.

Lemma bios_rom_has_row (db : database) (rid : Z) :
  In rid (bios_rom_ids db) ->
  exists mr, In mr (machine_roms db) /\ mr_rom_id mr = rid.
Proof.
  intros H. apply bios_rom_ids_In in H. rewrite group_count_join in H.
  unfold NEOGEO_BIOS_THRESHOLD in H.
  destruct (rows_of rid db) as [|mr l] eqn:E; [simpl in H; lia|].
  assert (In mr (rows_of rid db)) as Hin by (rewrite E; left; reflexivity).
  apply filter_In in Hin as [Hin Hid].
  exists mr. split; [exact Hin | apply Z.eqb_eq, Hid].
Qed.

Lemma fold_left_max_ge (l : list Z) (a : Z) :
  a <= fold_left Z.max l a /\ (forall x, In x l -> x <= fold_left Z.max l a).
Proof.
  revert a. induction l as [|y l IH]; intros a; simpl.
  - split; [lia | intros x []].
  - destruct (IH (Z.max a y)) as [H1 H2]. split; [lia|].
    intros x [<-|Hx]; [lia | apply H2, Hx].
Qed.

Lemma max_machine_id_ge (db : database) (m : machine_row) :
  In m (machines db) -> m_id m <= max_machine_id db.
Proof.
  unfold max_machine_id. intros Hin.
  apply (in_map m_id) in Hin.
  destruct (map m_id (machines db)) as [|id ids]; [destruct Hin|].
  destruct (fold_left_max_ge ids id) as [H1 H2].
  destruct Hin as [<-|Hin]; [exact H1 | apply H2, Hin].
Qed.

(** The SNK manufacturer, found or created. *)
Definition with_snk (db : database) : Z * database :=
  match List.find (fun p => String.eqb (snd p) "SNK") (manufacturers db) with
  | Some row => (fst row, db)
  | None =>
      let id := autoincrement (manufacturers_seq db) (map fst (manufacturers db)) in
      (id, set_manufacturers (manufacturers db ++ [(id, "SNK")]) id db)
  end.

Section WithZlib.
Variable compress : list byte -> list byte.

Definition neogeo_machine (db : database) : machine_row :=
  mk_machine_row (max_machine_id db + 1) "neogeo_bios" None None
    (Some (compress (list_byte_of_string neogeo_description))) (Some 1990)
    (Some (fst (with_snk db))).

(** The MachineRom table the pass leaves when it creates the machine. *)
Definition bios_machine_roms (db : database) : list machine_rom_row :=
  let neogeo_id := max_machine_id db + 1 in
  let bios := bios_rom_ids db in
  List.filter
    (fun mr =>
       negb (mem_Z (mr_rom_id mr) bios && negb (mr_machine_id mr =? neogeo_id)))
    (machine_roms db ++ map (bios_link neogeo_id (machine_roms db)) bios).

Lemma find_snk_none (l : list (Z * string)) :
  List.find (fun p => String.eqb (snd p) "SNK") l = None ->
  existsb (String.eqb "SNK") (map snd l) = false.
Proof.
  induction l as [|p l IH]; cbn [List.find existsb map]; [reflexivity|].
  rewrite (String.eqb_sym "SNK" (snd p)).
  destruct (String.eqb (snd p) "SNK"); [discriminate | exact IH].
Qed.

Lemma with_snk_machines (db : database) :
  machines (snd (with_snk db)) = machines db
  /\ machine_roms (snd (with_snk db)) = machine_roms db
  /\ roms (snd (with_snk db)) = roms db.
Proof.
  unfold with_snk.
  destruct (List.find _ (manufacturers db)); simpl; auto.
Qed.

Lemma extract_skip (db : database) :
  has_neogeo_bios db = true -> extract_neogeo_bios compress db = Py.Ok db.
Proof.
  unfold extract_neogeo_bios, has_neogeo_bios. intros ->. reflexivity.
Qed.

Lemma extract_none (db : database) :
  bios_rom_ids db = [] -> extract_neogeo_bios compress db = Py.Ok db.
Proof.
  unfold extract_neogeo_bios. intros ->.
  destruct (existsb _ (machines db)); reflexivity.
Qed.

Lemma extract_create (db : database) :
  has_neogeo_bios db = false ->
  bios_rom_ids db <> [] ->
  extract_neogeo_bios compress db
  = Py.Ok (set_machine_roms (bios_machine_roms db)
             (set_machines (machines db ++ [neogeo_machine db])
                (snd (with_snk db)))).
Proof.
  intros Hno Hbios.
  unfold extract_neogeo_bios. fold (has_neogeo_bios db). rewrite Hno.
  destruct (bios_rom_ids db) as [|b bs] eqn:Eb; [congruence|].
  destruct (with_snk_machines db) as (Hm & Hmr & _).
  assert (max_machine_id (snd (with_snk db)) = max_machine_id db) as Hmax
    by (unfold max_machine_id; rewrite Hm; reflexivity).
  assert (exists p, (match List.find (fun p => String.eqb (snd p) "SNK")
                             (manufacturers db) with
                     | Some row => Py.Ok (fst row, db)
                     | None => insert_manufacturer "SNK" db
                     end) = Py.Ok p /\ p = with_snk db) as (p & -> & ->).
  { unfold with_snk, insert_manufacturer.
    destruct (List.find _ (manufacturers db)) eqn:Ef; [eauto|].
    rewrite (find_snk_none _ Ef). eauto. }
  simpl. destruct (with_snk db) as [snk_id db1] eqn:Es. simpl in *.
  unfold insert_machine. simpl. rewrite Hm, Hmax.
  assert (mem_Z (max_machine_id db + 1) (map m_id (machines db)) = false) as ->.
  { apply mem_Z_not_In. intros Hin. apply in_map_iff in Hin as (m & Hid & Hin).
    pose proof (max_machine_id_ge db m Hin). lia. }
  assert (existsb (String.eqb "neogeo_bios") (map m_name (machines db)) = false) as ->.
  { clear -Hno. unfold has_neogeo_bios in Hno.
    induction (machines db) as [|m l IH]; cbn [existsb map] in *; [reflexivity|].
    rewrite (String.eqb_sym "neogeo_bios" (m_name m)).
    destruct (String.eqb (m_name m) "neogeo_bios"); [discriminate | auto]. }
  simpl. rewrite Hmr.
  rewrite add_bios_links_eq.
  - simpl. unfold bios_machine_roms, neogeo_machine. rewrite Eb, Es. simpl.
    reflexivity.
  - intros rid Hin. apply bios_rom_has_row. rewrite Eb. exact Hin.
Qed.

(** The pass never raises. *)
Lemma extract_total (db : database) :
  exists db', extract_neogeo_bios compress db = Py.Ok db'.
Proof.
  destruct (has_neogeo_bios db) eqn:Hn; [rewrite extract_skip; eauto|].
  destruct (bios_rom_ids db) eqn:Hb; [rewrite extract_none; eauto|].
  rewrite extract_create; [eauto | exact Hn | congruence].
Qed.

End WithZlib.

(** *** Orphan cleanup *)

Lemma filter_all {A : Type} (f : A -> bool) (l : list A) :
  (forall x, In x l -> f x = true) -> List.filter f l = l.
Proof.
  induction l as [|x l IH]; simpl; intros H; [reflexivity|].
  rewrite (H x (or_introl eq_refl)), IH; [reflexivity|].
  intros y Hy. apply H. right. exact Hy.
Qed.

Lemma filter_idem {A : Type} (f : A -> bool) (l : list A) :
  List.filter f (List.filter f l) = List.filter f l.
Proof.
  apply filter_all. intros x Hx. apply filter_In in Hx. tauto.
Qed.

Lemma null_if_orphan_idem (ids : list Z) (ref : option Z) :
  null_if_orphan ids (null_if_orphan ids ref) = null_if_orphan ids ref.
Proof.
  destruct ref as [id|]; simpl; [|reflexivity].
  destruct (mem_Z id ids) eqn:E; simpl; [rewrite E|]; reflexivity.
Qed.

(** The machines [cleanup_orphans] keeps, before their references are
    cleaned. *)
Definition kept_machines (db : database) : list machine_row :=
  List.filter (fun m => mem_Z (m_id m) (map mr_machine_id (machine_roms db)))
    (machines db).

Definition clean_refs (ids : list Z) (m : machine_row) : machine_row :=
  mk_machine_row (m_id m) (m_name m) (null_if_orphan ids (m_cloneof_id m))
    (null_if_orphan ids (m_romof_id m)) (m_description m) (m_year m)
    (m_manufacturer_id m).

Definition cleaned_machines (db : database) : list machine_row :=
  map (clean_refs (map m_id (kept_machines db))) (kept_machines db).

Definition cleaned_rom_names (db : database) : list (Z * string) :=
  List.filter
    (fun p =>
       negb (negb (mem_Z (fst p) (not_null (map rom_name_id (roms db))))
             && negb (mem_Z (fst p)
                        (not_null (map mr_name_id (machine_roms db))))))
    (rom_names db).

Definition cleaned_manufacturers (db : database) : list (Z * string) :=
  List.filter
    (fun p =>
       mem_Z (fst p) (not_null (map m_manufacturer_id (kept_machines db))))
    (manufacturers db).

Lemma cleanup_eq (db : database) :
  cleanup_orphans db
  = mk_database (cleaned_manufacturers db) (manufacturers_seq db)
      (cleaned_rom_names db) (rom_names_seq db) (roms db) (roms_seq db)
      (cleaned_machines db) (machine_roms db).
Proof.
  unfold cleanup_orphans, cleaned_manufacturers, cleaned_rom_names,
    cleaned_machines, clean_refs, kept_machines.
  rewrite !map_map. cbn [m_id m_name m_cloneof_id m_romof_id m_description
                           m_year m_manufacturer_id].
  reflexivity.
Qed.

Lemma cleaned_machines_ids (db : database) :
  map m_id (cleaned_machines db) = map m_id (kept_machines db).
Proof. unfold cleaned_machines. rewrite map_map. reflexivity. Qed.

Lemma kept_cleanup (db : database) :
  kept_machines (cleanup_orphans db) = cleaned_machines db.
Proof.
  rewrite cleanup_eq. unfold kept_machines at 1. cbn [machines machine_roms].
  apply filter_all. intros m Hm.
  apply (in_map m_id) in Hm. rewrite cleaned_machines_ids in Hm.
  apply in_map_iff in Hm as (m' & <- & Hm').
  apply filter_In in Hm'. tauto.
Qed.

Lemma cleanup_idempotent (db : database) :
  cleanup_orphans (cleanup_orphans db) = cleanup_orphans db.
Proof.
  rewrite (cleanup_eq (cleanup_orphans db)).
  unfold cleaned_manufacturers, cleaned_rom_names, cleaned_machines.
  rewrite kept_cleanup, cleaned_machines_ids.
  rewrite (cleanup_eq db).
  cbn [manufacturers manufacturers_seq rom_names rom_names_seq roms roms_seq
         machines machine_roms].
  f_equal.
  - unfold cleaned_manufacturers, cleaned_machines. rewrite map_map.
    apply filter_idem.
  - apply filter_idem.
  - unfold cleaned_machines. rewrite map_map. apply map_ext. intros m.
    unfold clean_refs. cbn. rewrite !null_if_orphan_idem. reflexivity.
Qed.

(** *** Idempotence of the post-processing *)

(** Every machine named [neogeo_bios] is referenced by a MachineRom row. *)
Definition neogeo_bios_linked (db : database) : Prop :=
  forall m, In m (machines db) -> m_name m = "neogeo_bios" ->
    In (m_id m) (map mr_machine_id (machine_roms db)).

Lemma bios_rom_ids_ext (db1 db2 : database) :
  roms db1 = roms db2 -> machine_roms db1 = machine_roms db2 ->
  bios_rom_ids db1 = bios_rom_ids db2.
Proof.
  unfold bios_rom_ids, join_roms. intros -> ->. reflexivity.
Qed.

Lemma has_neogeo_bios_iff (db : database) :
  has_neogeo_bios db = true
  <-> exists m, In m (machines db) /\ m_name m = "neogeo_bios".
Proof.
  unfold has_neogeo_bios. rewrite existsb_exists.
  split; intros (m & Hm & E); exists m; (split; [exact Hm|]);
    apply String.eqb_eq; exact E.
Qed.

Lemma has_neogeo_bios_cleanup (db : database) :
  has_neogeo_bios (cleanup_orphans db) = true
  <-> exists m, In m (kept_machines db) /\ m_name m = "neogeo_bios".
Proof.
  rewrite has_neogeo_bios_iff, cleanup_eq. cbn [machines].
  unfold cleaned_machines. split.
  - intros (m & Hm & E). apply in_map_iff in Hm as (m' & <- & Hm').
    exists m'. split; [exact Hm' | exact E].
  - intros (m & Hm & E). exists (clean_refs (map m_id (kept_machines db)) m).
    split; [apply in_map, Hm | exact E].
Qed.

Section WithZlib.
Variable compress : list byte -> list byte.

Lemma extract_cleanup_skip (db : database) :
  (exists m, In m (kept_machines db) /\ m_name m = "neogeo_bios") ->
  post_process compress (cleanup_orphans db) = Py.Ok (cleanup_orphans db).
Proof.
  intros H. apply has_neogeo_bios_cleanup in H.
  unfold post_process. rewrite (extract_skip compress _ H). simpl.
  rewrite cleanup_idempotent. reflexivity.
Qed.

Lemma post_process_twice (db : database) :
  neogeo_bios_linked db ->
  exists db1,
    post_process compress db = Py.Ok db1
    /\ post_process compress db1 = Py.Ok db1.
Proof.
  intros Hlinked. unfold post_process at 1.
  destruct (has_neogeo_bios db) eqn:Hn.
  - (* the machine exists and is linked: it survives the cleanup *)
    rewrite (extract_skip compress db Hn). simpl.
    eexists. split; [reflexivity|].
    apply extract_cleanup_skip.
    apply has_neogeo_bios_iff in Hn as (m & Hm & E).
    exists m. split; [|exact E].
    apply filter_In. split; [exact Hm|].
    apply mem_Z_In, Hlinked; assumption.
  - destruct (bios_rom_ids db) as [|b bs] eqn:Hb.
    + (* no shared BIOS ROM, before and after the cleanup *)
      rewrite (extract_none compress db Hb). simpl.
      eexists. split; [reflexivity|].
      unfold post_process. rewrite extract_none.
      * simpl. rewrite cleanup_idempotent. reflexivity.
      * rewrite <- Hb. apply bios_rom_ids_ext; rewrite cleanup_eq; reflexivity.
    + (* the machine is created with at least one row *)
      rewrite (extract_create compress db Hn) by congruence. simpl.
      eexists. split; [reflexivity|].
      apply extract_cleanup_skip.
      exists (neogeo_machine compress db). split; [|reflexivity].
      apply filter_In. cbn [machines set_machine_roms set_machines].
      split; [apply in_or_app; right; left; reflexivity|].
      apply mem_Z_In. cbn [machine_roms set_machine_roms].
      apply in_map_iff.
      exists (bios_link (max_machine_id db + 1) (machine_roms db) b).
      split; [reflexivity|].
      unfold bios_machine_roms. apply filter_In. split.
      * apply in_or_app. right. rewrite Hb. left. reflexivity.
      * cbn [bios_link mr_machine_id mr_rom_id]. rewrite Z.eqb_refl.
        cbn [negb]. rewrite andb_false_r. reflexivity.
Qed.

End WithZlib.

End PostFacts.

(** *** The catalogue [process_dat_file] builds *)

Module IngestFacts.
Import Schema Build PyFacts PostFacts.

#[local] Arguments String.eqb : simpl never.

Definition all_rows (st : pstate) : list machine_rom_row :=
  machine_roms (ps_db st) ++ ps_machine_roms_data st.

Definition all_machine_ids (st : pstate) : list Z :=
  map m_id (machines (ps_db st)) ++ map md_id (ps_machines_data st).

(** The ROM side of the invariant: every row references a ROM of the
    table, the first row that references a ROM carries the filename stored
    with the ROM, and the cache only knows ROMs of the table. *)
Record roms_ok (rs : list rom_row) (cache : gmap string (Z * Z))
  (rows : list machine_rom_row) : Prop := mk_roms_ok {
  ok_refs : forall mr, In mr rows -> In (mr_rom_id mr) (map rom_id rs);
  ok_first : forall r, In r rs ->
    exists mr, List.find (fun mr => mr_rom_id mr =? rom_id r) rows = Some mr
               /\ mr_name_id mr = rom_name_id r;
  ok_cache : forall sha v, cache !! sha = Some v -> In (fst v) (map rom_id rs)
}.

(** The machine side: rows and machines reference each other. *)
Record machines_ok (ids : list Z) (rows : list machine_rom_row) : Prop :=
  mk_machines_ok {
  ok_machine : forall mr, In mr rows -> In (mr_machine_id mr) ids;
  ok_linked : forall id, In id ids ->
    exists mr, In mr rows /\ mr_machine_id mr = id
}.

Lemma max_list_ge (l : list Z) (x : Z) : In x l -> x <= max_list l.
Proof.
  induction l as [|y l IH]; simpl; [intros []|].
  intros [<-|H]; [lia | specialize (IH H); lia].
Qed.

Lemma autoincrement_fresh (seq : Z) (ids : list Z) :
  ~ In (autoincrement seq ids) ids.
Proof.
  intros H. apply max_list_ge in H. unfold autoincrement in H. lia.
Qed.

Section WithZlib.
Variable compress : list byte -> list byte.

(** What one ROM of a machine changes. *)
Lemma process_rom_effect (mid : Z) (rom : rom_rec) (st st' : pstate) :
  process_rom mid rom st = Py.Ok st' ->
  exists rid nid,
    ps_machine_roms_data st'
    = ps_machine_roms_data st ++ [mk_machine_rom_row mid rid (Some nid)]
    /\ machines (ps_db st') = machines (ps_db st)
    /\ machine_roms (ps_db st') = machine_roms (ps_db st)
    /\ ps_machines_data st' = ps_machines_data st
    /\ ps_machine_id st' = ps_machine_id st
    /\ ((roms (ps_db st') = roms (ps_db st)
         /\ roms_cache (ps_caches st') = roms_cache (ps_caches st)
         /\ exists v, roms_cache (ps_caches st) !! r_sha1 rom = Some (rid, v))
        \/ (exists sha crc sz,
              roms (ps_db st')
              = roms (ps_db st) ++ [mk_rom_row rid sha crc sz (Some nid)]
              /\ rid = autoincrement (roms_seq (ps_db st))
                         (map rom_id (roms (ps_db st)))
              /\ roms_cache (ps_caches st')
                 = <[r_sha1 rom := (rid, nid)]> (roms_cache (ps_caches st)))).
Proof.
  unfold process_rom. intros H.
  destruct (r_name rom ≫= _) as [id|] eqn:En.
  - cbn [Py.bind] in H.
    destruct (roms_cache (ps_caches st) !! r_sha1 rom) as [[rid v]|] eqn:Ec.
    + cbn [Py.bind] in H. injection H as <-. exists rid, id. cbn.
      repeat split; try reflexivity. left. repeat split; eauto.
    + destruct (Py.fromhex (r_sha1 rom)); [|discriminate]. cbn [Py.bind] in H.
      destruct (r_crc rom) as [[|c s]|]; cbn [Py.bind] in H;
        try (destruct (Py.fromhex (String c s)); [|discriminate]; cbn [Py.bind] in H);
        injection H as <-; eexists _, id; cbn;
        (repeat split; try reflexivity); right; eexists _, _, _; eauto.
  - unfold insert_rom_name in H.
    destruct (r_name rom) as [n|]; [|discriminate].
    destruct (existsb _ _); [discriminate|]. cbn [Py.bind] in H.
    destruct (roms_cache (ps_caches st) !! r_sha1 rom) as [[rid v]|] eqn:Ec.
    + cbn [Py.bind] in H. injection H as <-. eexists rid, _. cbn.
      repeat split; try reflexivity. left. repeat split; eauto.
    + destruct (Py.fromhex (r_sha1 rom)); [|discriminate]. cbn [Py.bind] in H.
      destruct (r_crc rom) as [[|c s]|]; cbn [Py.bind] in H;
        try (destruct (Py.fromhex (String c s)); [|discriminate]; cbn [Py.bind] in H);
        injection H as <-; eexists _, _; cbn;
        (repeat split; try reflexivity); right; eexists _, _, _; eauto.
Qed.

Lemma process_rom_roms_ok (mid : Z) (rom : rom_rec) (st st' : pstate) :
  process_rom mid rom st = Py.Ok st' ->
  roms_ok (roms (ps_db st)) (roms_cache (ps_caches st)) (all_rows st) ->
  roms_ok (roms (ps_db st')) (roms_cache (ps_caches st')) (all_rows st').
Proof.
  intros H [Hrefs Hfirst Hcache].
  destruct (process_rom_effect mid rom st st' H)
    as (rid & nid & Hdata & _ & Hmr & _ & _ & Hcase).
  unfold all_rows in *. rewrite Hmr, Hdata, app_assoc.
  set (rows := machine_roms (ps_db st) ++ ps_machine_roms_data st) in *.
  destruct Hcase as [(Hroms & Hc & v & Hv) | (sha & crc & sz & Hroms & Hrid & Hc)].
  - (* a ROM already known *)
    rewrite Hroms, Hc. constructor.
    + intros mr Hin. apply in_app_or in Hin as [Hin|[<-|[]]]; [auto|].
      apply (Hcache _ _ Hv).
    + intros r Hr. destruct (Hfirst r Hr) as (mr & Hfind & Hname).
      exists mr. split; [apply find_app_found, Hfind | exact Hname].
    + exact Hcache.
  - (* a new ROM: no row references its id yet *)
    assert (~ In rid (map rom_id (roms (ps_db st)))) as Hfresh
      by (rewrite Hrid; apply autoincrement_fresh).
    rewrite Hroms, Hc. constructor.
    + intros mr Hin. rewrite map_app. apply in_or_app.
      apply in_app_or in Hin as [Hin|[<-|[]]]; [left; auto | right; left; reflexivity].
    + intros r Hr. apply in_app_or in Hr as [Hr|[<-|[]]].
      * destruct (Hfirst r Hr) as (mr & Hfind & Hname).
        exists mr. split; [apply find_app_found, Hfind | exact Hname].
      * exists (mk_machine_rom_row mid rid (Some nid)).
        split; [|reflexivity]. cbn [rom_id].
        rewrite find_app_none.
        -- cbn. rewrite Z.eqb_refl. reflexivity.
        -- destruct (List.find _ rows) as [mr|] eqn:Ef; [|reflexivity].
           apply find_some in Ef as [Hin Hid]. apply Z.eqb_eq in Hid.
           exfalso. apply Hfresh. rewrite <- Hid. apply Hrefs, Hin.
    + intros sha' v. rewrite map_app, lookup_insert. case_decide.
      * intros [= <-]. apply in_or_app. right. left. reflexivity.
      * intros Hv. apply in_or_app. left. apply (Hcache _ _ Hv).
Qed.

(** What the ROMs of one machine change: one row each, all of that
    machine. *)
Lemma process_roms_effect (mid : Z) (rs : list rom_rec) (st st' : pstate) :
  process_roms mid rs st = Py.Ok st' ->
  roms_ok (roms (ps_db st)) (roms_cache (ps_caches st)) (all_rows st) ->
  roms_ok (roms (ps_db st')) (roms_cache (ps_caches st')) (all_rows st')
  /\ machines (ps_db st') = machines (ps_db st)
  /\ ps_machines_data st' = ps_machines_data st
  /\ ps_machine_id st' = ps_machine_id st
  /\ exists rows,
       all_rows st' = all_rows st ++ rows
       /\ length rows = length rs
       /\ Forall (fun mr => mr_machine_id mr = mid) rows.
Proof.
  revert st. induction rs as [|rom rs IH]; intros st H Hok; simpl in H.
  - injection H as <-. split; [exact Hok|]. do 3 (split; [reflexivity|]).
    exists []. rewrite app_nil_r. repeat split. constructor.
  - destruct (process_rom mid rom st) as [st1|] eqn:E1; [|discriminate].
    cbn [Py.bind] in H.
    pose proof (process_rom_roms_ok mid rom st st1 E1 Hok) as Hok1.
    destruct (process_rom_effect mid rom st st1 E1)
      as (rid & nid & Hdata & Hm & Hmr & Hmd & Hid & _).
    destruct (IH st1 H Hok1) as (Hok' & Hm' & Hmd' & Hid' & rows & Hrows & Hlen & Hall).
    split; [exact Hok'|]. do 3 (split; [congruence|]).
    exists (mk_machine_rom_row mid rid (Some nid) :: rows).
    split; [|split].
    + rewrite Hrows. unfold all_rows. rewrite Hmr, Hdata, <- !app_assoc.
      reflexivity.
    + simpl. rewrite Hlen. reflexivity.
    + constructor; [reflexivity | exact Hall].
Qed.

(** What the ROM table, the cache and the rows owe to one machine. *)
Definition state_ok (st : pstate) : Prop :=
  roms_ok (roms (ps_db st)) (roms_cache (ps_caches st)) (all_rows st)
  /\ machines_ok (all_machine_ids st) (all_rows st).

Lemma insert_manufacturer_tables (name : string) (db db' : database) (id : Z) :
  insert_manufacturer name db = Py.Ok (id, db') ->
  roms db' = roms db /\ machines db' = machines db
  /\ machine_roms db' = machine_roms db.
Proof.
  unfold insert_manufacturer. destruct (existsb _ _); [discriminate|].
  intros [= <- <-]. auto.
Qed.

Lemma process_machine_ok (elem : machine_elem) (st st' : pstate) :
  process_machine compress elem st = Py.Ok st' ->
  state_ok st ->
  state_ok st' /\ machines (ps_db st') = machines (ps_db st).
Proof.
  unfold process_machine. intros H [Hroms Hmach].
  assert (state_ok st /\ machines (ps_db st) = machines (ps_db st)) as Hsame
    by (split; [split; assumption | reflexivity]).
  destruct (parse_machine elem) as [attrs rs].
  destruct rs as [|rom rs]; [injection H as <-; exact Hsame|].
  destruct (a_name attrs) as [[|c nm]|]; try (injection H as <-; exact Hsame).
  destruct (decide _); [injection H as <-; exact Hsame|].
  clear Hsame.
  set (mid := ps_machine_id st + 1) in *.
  match type of H with
  | Py.bind ?m _ = _ => destruct m as [[[manuf_id db1] manufs]|] eqn:Em
  end; [|discriminate].
  cbn [Py.bind] in H.
  assert (roms db1 = roms (ps_db st) /\ machines db1 = machines (ps_db st)
          /\ machine_roms db1 = machine_roms (ps_db st)) as (Hr1 & Hm1 & Hmr1).
  { destruct (a_manufacturer attrs) as [[|c' s']|];
      try (injection Em as <- <- <-; auto).
    destruct (manufacturers_cache (ps_caches st) !! String c' s');
      [injection Em as <- <- <-; auto|].
    destruct (insert_manufacturer _ _) as [[id db']|] eqn:Ei; [|discriminate].
    cbn [Py.bind] in Em. injection Em as <- <- <-.
    apply (insert_manufacturer_tables _ _ _ _ Ei). }
  match type of H with
  | process_roms _ _ ?s = _ => set (st1 := s) in *
  end.
  assert (all_rows st1 = all_rows st) as Hrows1
    by (unfold all_rows, st1; cbn; rewrite Hmr1; reflexivity).
  assert (roms_ok (roms (ps_db st1)) (roms_cache (ps_caches st1)) (all_rows st1))
    as Hok1 by (rewrite Hrows1; unfold st1; cbn; rewrite Hr1; exact Hroms).
  destruct (process_roms_effect mid (rom :: rs) st1 st' H Hok1)
    as (Hok' & Hm' & Hmd' & _ & rows & Hrows & Hlen & Hall).
  assert (all_machine_ids st' = all_machine_ids st ++ [mid]) as Hids.
  { unfold all_machine_ids. rewrite Hm', Hmd'. unfold st1. cbn.
    rewrite Hm1, map_app, app_assoc. reflexivity. }
  split; [split; [exact Hok'|] | rewrite Hm'; unfold st1; cbn; exact Hm1].
  rewrite Hids, Hrows, Hrows1. destruct Hmach as [Hmachine Hlinked].
  constructor.
  - intros mr Hin. apply in_or_app. apply in_app_or in Hin as [Hin|Hin].
    + left. apply Hmachine, Hin.
    + right. left. symmetry. rewrite List.Forall_forall in Hall. apply Hall, Hin.
  - intros id Hin. apply in_app_or in Hin as [Hin|[<-|[]]].
    + destruct (Hlinked id Hin) as (mr & Hmr & Hid).
      exists mr. split; [apply in_or_app; left; exact Hmr | exact Hid].
    + destruct rows as [|mr rows]; [simpl in Hlen; discriminate|].
      exists mr. split; [apply in_or_app; right; left; reflexivity|].
      inversion Hall; assumption.
Qed.

Lemma process_machines_ok (doc : list machine_elem) (st st' : pstate) :
  process_machines compress doc st = Py.Ok st' ->
  state_ok st ->
  state_ok st' /\ machines (ps_db st') = machines (ps_db st).
Proof.
  revert st. induction doc as [|elem doc IH]; intros st H Hok; simpl in H.
  - injection H as <-. split; [exact Hok | reflexivity].
  - destruct (process_machine compress elem st) as [st1|] eqn:E1; [|discriminate].
    cbn [Py.bind] in H.
    destruct (process_machine_ok elem st st1 E1 Hok) as [Hok1 Hm1].
    destruct (IH st1 H Hok1) as [Hok' Hm'].
    split; [exact Hok' | congruence].
Qed.

Lemma insert_machines_effect (d : gmap string Z) (mds : list machine_data)
  (db db' : database) :
  insert_machines d mds db = Py.Ok db' ->
  roms db' = roms db
  /\ machine_roms db' = machine_roms db
  /\ map m_id (machines db') = map m_id (machines db) ++ map md_id mds.
Proof.
  revert db. induction mds as [|m mds IH]; intros db H; simpl in H.
  - injection H as <-. rewrite app_nil_r. auto.
  - unfold insert_machine in H at 1.
    destruct (_ || _); [discriminate|]. cbn [Py.bind] in H.
    destruct (IH _ H) as (Hr & Hmr & Hids).
    rewrite Hr, Hmr, Hids. cbn. rewrite map_app, <- app_assoc. auto.
Qed.

(** A catalogue and its ROM cache, between two documents. *)
Definition catalogue_ok (db : database) (c : caches) : Prop :=
  roms_ok (roms db) (roms_cache c) (machine_roms db)
  /\ machines_ok (map m_id (machines db)) (machine_roms db).

Lemma process_dat_file_ok (doc : list machine_elem) (db db' : database)
  (c c' : caches) (n n' : Z) :
  process_dat_file compress doc db c n = Py.Ok (db', c', n') ->
  catalogue_ok db c -> catalogue_ok db' c'.
Proof.
  unfold process_dat_file. intros H [Hroms Hmach].
  destruct (process_machines compress doc _) as [st|] eqn:Est; [|discriminate].
  cbn [Py.bind] in H.
  destruct (insert_machines _ _ _) as [db1|] eqn:Ei; [|discriminate].
  cbn [Py.bind] in H. injection H as <- <- <-.
  destruct (process_machines_ok doc _ st Est) as [[Hroms' Hmach'] _].
  { split; unfold all_rows, all_machine_ids; cbn; rewrite !app_nil_r; assumption. }
  destruct (insert_machines_effect _ _ _ _ Ei) as (Hr & Hmr & Hids).
  unfold catalogue_ok. cbn. rewrite Hr, Hmr, Hids.
  split; assumption.
Qed.

Lemma process_dat_files_ok (docs : list (list machine_elem))
  (db db' : database) (c c' : caches) (n n' : Z) :
  process_dat_files compress docs db c n = Py.Ok (db', c', n') ->
  catalogue_ok db c -> catalogue_ok db' c'.
Proof.
  revert db c n. induction docs as [|doc docs IH]; intros db c n H Hok; simpl in H.
  - injection H as <- <- <-. exact Hok.
  - destruct (process_dat_file compress doc db c n) as [[[db1 c1] n1]|] eqn:E1;
      [|discriminate].
    cbn [Py.bind] in H.
    apply (IH _ _ _ H), (process_dat_file_ok _ _ _ _ _ _ _ E1 Hok).
Qed.

(** Every catalogue a fresh build ingests satisfies the invariant. *)
Lemma ingest_ok (docs : list (list machine_elem)) (db : database) :
  ingest compress docs = Py.Ok db -> exists c, catalogue_ok db c.
Proof.
  unfold ingest. intros H.
  destruct (process_dat_files compress docs _ _ _) as [[[db1 c1] n1]|] eqn:E;
    [|discriminate].
  cbn [Py.bind] in H. injection H as <-. exists c1.
  apply (process_dat_files_ok _ _ _ _ _ _ _ E).
  split; constructor; cbn.
  - intros mr [].
  - intros r [].
  - intros k v. rewrite lookup_empty. discriminate.
  - intros mr [].
  - intros id [].
Qed.

(** An ingested catalogue meets the premise of the idempotence theorem. *)
Lemma ingest_neogeo_bios_linked (docs : list (list machine_elem))
  (db : database) :
  ingest compress docs = Py.Ok db -> neogeo_bios_linked db.
Proof.
  intros H. destruct (ingest_ok docs db H) as (c & _ & [_ Hlinked]).
  intros m Hm _. destruct (Hlinked (m_id m) (in_map m_id _ _ Hm)) as (mr & Hmr & <-).
  apply in_map, Hmr.
Qed.

(** C8.  If a machine named [neogeo_bios] already exists in the catalogue,
    the shared-BIOS pass changes no table; and on every catalogue the
    ingest builds, the PostProcessor succeeds and running it a second time
    leaves the state of the first run. *)
Theorem C8_post_process_idempotent (docs : list (list machine_elem))
  (db : database) :
  ingest compress docs = Py.Ok db ->
  (has_neogeo_bios db = true -> extract_neogeo_bios compress db = Py.Ok db)
  /\ exists db1,
       post_process compress db = Py.Ok db1
       /\ post_process compress db1 = Py.Ok db1.
Proof.
  intros H. split.
  - apply extract_skip.
  - apply post_process_twice, (ingest_neogeo_bios_linked docs db H).
Qed.

(** *** The rows of the synthetic machine *)

Lemma bios_rom_ids_NoDup (db : database) : List.NoDup (bios_rom_ids db).
Proof.
  unfold bios_rom_ids, group_keys. apply List.NoDup_filter.
  eapply Permutation_NoDup; [symmetry; apply sort_perm|].
  apply List.NoDup_nodup.
Qed.

Lemma filter_bios_links (n : Z) (mrs : list machine_rom_row) (bios : list Z)
  (rid : Z) :
  List.NoDup bios -> In rid bios ->
  List.filter (fun mr => mr_rom_id mr =? rid) (map (bios_link n mrs) bios)
  = [bios_link n mrs rid].
Proof.
  induction bios as [|b bios IH]; intros Hnd Hin; [destruct Hin|].
  inversion Hnd as [|? ? Hnotin Hnd']; subst. cbn [map List.filter bios_link mr_rom_id].
  destruct (b =? rid) eqn:E.
  - apply Z.eqb_eq in E. subst b. f_equal.
    assert (forall l, ~ In rid l ->
              List.filter (fun mr => mr_rom_id mr =? rid) (map (bios_link n mrs) l) = [])
      as Hnone.
    { induction l as [|y l IHl]; intros Hl; [reflexivity|].
      cbn [map List.filter bios_link mr_rom_id].
      destruct (y =? rid) eqn:Ey.
      - apply Z.eqb_eq in Ey. subst y. exfalso. apply Hl. left. reflexivity.
      - apply IHl. intros H. apply Hl. right. exact H. }
    apply Hnone, Hnotin.
  - apply Z.eqb_neq in E. destruct Hin as [Hin|Hin]; [congruence|].
    apply IH; assumption.
Qed.

(** C3.  On a catalogue built by ingestion in which no machine is yet named
    [neogeo_bios], the shared-BIOS pass succeeds, and for every ROM of the
    shared-BIOS set the MachineRom rows of that ROM it leaves are exactly
    one row, which links the synthetic machine to the ROM under the ROM's
    canonical name; the synthetic machine is the machine [neogeo_bios],
    with an id above every other. *)
Theorem C3_one_bios_link_with_canonical_name
  (docs : list (list machine_elem)) (db : database) :
  ingest compress docs = Py.Ok db ->
  has_neogeo_bios db = false ->
  exists db',
    extract_neogeo_bios compress db = Py.Ok db'
    /\ (forall r, In r (roms db) -> In (rom_id r) (bios_rom_ids db) ->
          List.filter (fun mr => mr_rom_id mr =? rom_id r) (machine_roms db')
          = [mk_machine_rom_row (max_machine_id db + 1) (rom_id r)
               (rom_name_id r)])
    /\ (bios_rom_ids db <> [] ->
          exists m, In m (machines db')
                    /\ m_name m = "neogeo_bios"
                    /\ m_id m = max_machine_id db + 1).
Proof.
  intros Hingest Hno.
  destruct (ingest_ok docs db Hingest) as (c & [_ Hfirst _] & [Hmachine _]).
  destruct (bios_rom_ids db) as [|b bs] eqn:Hb.
  - exists db. split; [apply extract_none, Hb|].
    split; [intros r _ [] | congruence].
  - eexists. split; [apply extract_create; [exact Hno | congruence]|].
    cbn [machine_roms machines set_machine_roms set_machines]. split.
    + intros r Hr Hin. rewrite <- Hb in Hin.
      unfold bios_machine_roms.
      set (nid := max_machine_id db + 1).
      rewrite !List.filter_app.
      rewrite (filter_all _ (map _ _)).
      * rewrite (filter_bios_links nid (machine_roms db) _ _
                   (bios_rom_ids_NoDup db) Hin).
        destruct (Hfirst r Hr) as (mr & Hfind & Hname).
        unfold bios_link. rewrite Hfind, Hname.
        match goal with
        | |- List.filter ?f ?l ++ _ = _ =>
            assert (List.filter f l = []) as ->; [|reflexivity]
        end.
        destruct (List.filter _ (List.filter _ (machine_roms db)))
          as [|mr' l] eqn:Ef; [reflexivity|].
        assert (In mr' (mr' :: l)) as Hin' by (left; reflexivity).
        rewrite <- Ef in Hin'. apply filter_In in Hin' as [Hin' Hid].
        apply filter_In in Hin' as [Hin' Hkeep].
        apply Z.eqb_eq in Hid.
        assert (mem_Z (mr_rom_id mr') (bios_rom_ids db) = true) as Hmem
          by (apply mem_Z_In; rewrite Hid; exact Hin).
        rewrite Hmem in Hkeep. cbn [andb] in Hkeep.
        apply negb_true_iff, negb_false_iff, Z.eqb_eq in Hkeep.
        apply Hmachine, in_map_iff in Hin' as (m & Hm & Hmin).
        pose proof (max_machine_id_ge db m Hmin). unfold nid in Hkeep. lia.
      * intros mr Hmr. apply in_map_iff in Hmr as (rid & <- & _).
        cbn [bios_link mr_machine_id mr_rom_id]. rewrite Z.eqb_refl.
        cbn [negb]. rewrite andb_false_r. reflexivity.
    + intros _. exists (neogeo_machine compress db).
      split; [apply in_or_app; right; left; reflexivity|].
      split; reflexivity.
Qed.

End WithZlib.

(** Two games that list the same BIOS image, 4001 times in all, under two
    filenames. *)
Definition c3_rom (name : string) : rom_elem :=
  mk_rom_elem (Some name) (Some "131072") (Some "9036d879")
    (Some "4f5ed7105b7128794654ce82b51723e16e389543").

Definition c3_docs : list (list machine_elem) :=
  [[mk_machine_elem (Some "mslug") None None (Some "Metal Slug") (Some "1996")
      (Some "Nazca") (repeat (c3_rom "sp-s2.sp1") 2001);
    mk_machine_elem (Some "kof98") None None None (Some "1998")
      (Some "SNK") (repeat (c3_rom "sp-e.sp1") 2000)]].

Definition c3_db : database :=
  match ingest (fun b => b) c3_docs with
  | Py.Ok db => db
  | Py.Raise _ => empty_database
  end.

Lemma C3_one_bios_link_with_canonical_name_witness :
  exists db',
    extract_neogeo_bios (fun b => b) c3_db = Py.Ok db'
    /\ (forall r, In r (roms c3_db) -> In (rom_id r) (bios_rom_ids c3_db) ->
          List.filter (fun mr => mr_rom_id mr =? rom_id r) (machine_roms db')
          = [mk_machine_rom_row (max_machine_id c3_db + 1) (rom_id r)
               (rom_name_id r)])
    /\ (bios_rom_ids c3_db <> [] ->
          exists m, In m (machines db')
                    /\ m_name m = "neogeo_bios"
                    /\ m_id m = max_machine_id c3_db + 1).
Proof.
  apply (C3_one_bios_link_with_canonical_name (fun b => b) c3_docs c3_db);
    vm_compute; reflexivity.
Defined.

(** The two games of [c3_docs] share a BIOS image: the first run creates
    [neogeo_bios], the second run finds it and changes nothing. *)
Lemma C8_post_process_idempotent_witness :
  (has_neogeo_bios c3_db = true ->
   extract_neogeo_bios (fun b => b) c3_db = Py.Ok c3_db)
  /\ exists db1,
       post_process (fun b => b) c3_db = Py.Ok db1
       /\ post_process (fun b => b) db1 = Py.Ok db1.
Proof.
  apply (C8_post_process_idempotent (fun b => b) c3_docs c3_db).
  vm_compute. reflexivity.
Defined.

End IngestFacts.

(** ** Properties of the blob generator *)

Module GenFacts.
Import Schema Gen PyFacts.

#[local] Arguments String.eqb : simpl never.

(** *** The MachineRom table *)





(** *** The strings pool *)

(** A string as it lies in the pool: its UTF-8 bytes and one NUL. *)
Definition pool_entry (s : string) : list byte :=
  list_byte_of_string s ++ [Byte.x00].

Lemma fold_pool_fst (l : list string) (st : list byte * gmap string Z) :
  fst (fold_left pool_step l st) = fst st ++ flat_map pool_entry l.
Proof.
  revert st. induction l as [|s l IH]; intros st; simpl.
  - rewrite app_nil_r. reflexivity.
  - rewrite IH. unfold pool_step at 1, pool_entry. cbn [fst].
    rewrite <- !app_assoc. reflexivity.
Qed.

Lemma fold_pool_other (l : list string) (st : list byte * gmap string Z)
  (s : string) :
  ~ In s l -> snd (fold_left pool_step l st) !! s = snd st !! s.
Proof.
  revert st. induction l as [|t l IH]; intros st Hs; simpl; [reflexivity|].
  rewrite IH by (intros H; apply Hs; right; exact H).
  unfold pool_step. cbn [snd]. apply lookup_insert_ne.
  intros ->. apply Hs. left. reflexivity.
Qed.

Lemma fold_pool_offset (pre post : list string) (s : string)
  (st : list byte * gmap string Z) :
  ~ In s post ->
  snd (fold_left pool_step (pre ++ s :: post) st) !! s
  = Some (Z.of_nat (length (fst st ++ flat_map pool_entry pre))).
Proof.
  intros Hs. rewrite fold_left_app. cbn [fold_left].
  rewrite (fold_pool_other post _ s Hs).
  unfold pool_step at 1. cbn [snd fst].
  rewrite lookup_insert_eq, fold_pool_fst. reflexivity.
Qed.

Lemma string_leb_total (a b : string) :
  String.leb a b = true \/ String.leb b a = true.
Proof. apply String.leb_total. Qed.

Lemma string_ltb_of_leb (a b : string) :
  String.leb a b = true -> a <> b -> String.ltb a b = true.
Proof.
  unfold String.leb, String.ltb. intros Hle Hne.
  destruct (String.compare a b) eqn:E; try congruence.
  apply String.compare_eq_iff in E. contradiction.
Qed.

(** The strings of the pool, in pool order. *)
Definition pool_strings (o : set_order) (x : remapped) : list string :=
  Py.sort String.leb (iterate o (collected_strings x)).

Lemma pool_strings_perm (o : set_order) (x : remapped) :
  Permutation (pool_strings o x) (nodup string_dec (collected_strings x)).
Proof.
  unfold pool_strings. rewrite sort_perm. apply iterate_perm.
Qed.

Lemma pool_strings_NoDup (o : set_order) (x : remapped) :
  List.NoDup (pool_strings o x).
Proof.
  eapply Permutation_NoDup; [symmetry; apply pool_strings_perm|].
  apply List.NoDup_nodup.
Qed.

Lemma pool_strings_In (o : set_order) (x : remapped) (s : string) :
  In s (pool_strings o x) <-> In s (collected_strings x).
Proof.
  rewrite <- (nodup_In string_dec (collected_strings x) s).
  split; apply Permutation_in;
    [|symmetry]; apply pool_strings_perm.
Qed.

Lemma pool_strings_sorted (o : set_order) (x : remapped) :
  StronglySorted (fun a b => String.ltb a b = true) (pool_strings o x).
Proof.
  pose proof (pool_strings_NoDup o x) as Hnd.
  pose proof (sort_StronglySorted String.leb string_leb_total string_leb_trans
                (iterate o (collected_strings x))) as Hs.
  fold (pool_strings o x) in Hs.
  induction Hs as [|a l Hs IH Hall]; [constructor|].
  inversion Hnd as [|? ? Hnotin Hnd']; subst.
  constructor; [apply IH, Hnd'|].
  rewrite List.Forall_forall in *. intros b Hb.
  apply string_ltb_of_leb; [apply Hall, Hb|].
  intros ->. contradiction.
Qed.

Lemma values_In {A : Type} (m : gmap Z A) (a : A) :
  In a (map snd (map_to_list m)) <-> exists k, m !! k = Some a.
Proof.
  rewrite in_map_iff. split.
  - intros ([k v] & <- & Hin). exists k.
    apply list_elem_of_In, elem_of_map_to_list in Hin. exact Hin.
  - intros [k Hk]. exists (k, a). split; [reflexivity|].
    apply list_elem_of_In, elem_of_map_to_list. exact Hk.
Qed.

Lemma collected_strings_In (x : remapped) (s : string) :
  In s (collected_strings x)
  <-> (exists id, x_manufacturers x !! id = Some s)
      \/ (exists id, x_rom_names x !! id = Some s)
      \/ (exists id m, x_machines x !! id = Some m /\ name m = s).
Proof.
  unfold collected_strings. rewrite !in_app_iff, !values_In.
  assert (In s (map (fun p => name (snd p)) (map_to_list (x_machines x)))
          <-> exists id m, x_machines x !! id = Some m /\ name m = s) as ->.
  { rewrite <- (map_map snd name), in_map_iff. split.
    - intros (m & Hn & Hin). apply values_In in Hin as [id Hid]. eauto.
    - intros (id & m & Hid & Hn). exists m. split; [exact Hn|].
      apply values_In. eauto. }
  reflexivity.
Qed.

(** C9.  The strings pool holds every manufacturer name, ROM filename and
    machine name of the remapped tables and nothing else, each once, in
    strictly ascending lexicographic order, each as its UTF-8 bytes
    followed by one NUL byte; the offset of a string is the number of pool
    bytes before its first byte; and the empty string, when it is among
    them, comes first, at offset 0, and contributes one NUL byte. *)
Theorem C9_strings_pool (o : set_order) (x : remapped) :
  let strings := pool_strings o x in
  let pool := fst (build_strings_pool o x) in
  let offsets := snd (build_strings_pool o x) in
  (forall s, In s strings <->
     (exists id, x_manufacturers x !! id = Some s)
     \/ (exists id, x_rom_names x !! id = Some s)
     \/ (exists id m, x_machines x !! id = Some m /\ name m = s))
  /\ List.NoDup strings
  /\ StronglySorted (fun a b => String.ltb a b = true) strings
  /\ pool = flat_map (fun s => list_byte_of_string s ++ [Byte.x00]) strings
  /\ (forall pre s post, strings = pre ++ s :: post ->
        offsets !! s
        = Some (Z.of_nat
                  (length (flat_map (fun s => list_byte_of_string s ++ [Byte.x00]) pre))))
  /\ (forall s, offsets !! s <> None -> In s strings)
  /\ (In "" strings ->
        offsets !! "" = Some 0
        /\ exists rest,
             strings = "" :: rest
             /\ pool = Byte.x00
                       :: flat_map (fun s => list_byte_of_string s ++ [Byte.x00]) rest).
Proof.
  intros strings pool offsets.
  assert (pool = flat_map pool_entry strings) as Hpool
    by (unfold pool, build_strings_pool; rewrite fold_pool_fst; reflexivity).
  assert (forall pre s post, strings = pre ++ s :: post ->
            offsets !! s = Some (Z.of_nat (length (flat_map pool_entry pre))))
    as Hoff.
  { intros pre s post E. unfold offsets, build_strings_pool.
    fold (pool_strings o x). fold strings. rewrite E.
    apply (fold_pool_offset pre post s ([], ∅)).
    pose proof (pool_strings_NoDup o x) as Hnd. fold strings in Hnd.
    rewrite E in Hnd. apply List.NoDup_remove_2 in Hnd.
    intros Hin. apply Hnd, in_or_app. right. exact Hin. }
  split; [intros s; unfold strings; rewrite pool_strings_In;
          apply collected_strings_In|].
  split; [apply pool_strings_NoDup|].
  split; [apply pool_strings_sorted|].
  split; [exact Hpool|].
  split; [exact Hoff|].
  split.
  - intros s Hs. destruct (in_dec string_dec s strings) as [Hin|Hnin];
      [exact Hin|].
    exfalso. apply Hs. unfold offsets, build_strings_pool.
    fold (pool_strings o x). fold strings.
    rewrite (fold_pool_other strings _ s Hnin). apply lookup_empty.
  - intros Hin.
    assert (exists rest, strings = "" :: rest) as [rest E].
    { pose proof (pool_strings_sorted o x) as Hs. fold strings in Hs.
      destruct strings as [|a rest]; [destruct Hin|].
      destruct Hin as [->|Hin]; [eauto|].
      inversion Hs as [|? ? _ Hall]; subst.
      rewrite List.Forall_forall in Hall. specialize (Hall "" Hin).
      destruct a; discriminate. }
    split.
    + rewrite (Hoff [] "" rest E). reflexivity.
    + exists rest. split; [exact E|]. rewrite Hpool, E. reflexivity.
Qed.

(** *** Determinism *)

(** One run of the Remapper and the PoolBuilder: the two pools with their
    offset maps. *)
Definition pools (o : set_order) (db : database) (min_s max_s : Z)
  : Py.result ((list byte * gmap string Z) * (list byte * gmap Z (Z * Z))) :=
  let* x := remap_ids (load_database db min_s max_s) min_s max_s in
  Py.Ok (build_strings_pool o x, build_descriptions_pool x).

Lemma pool_strings_order (o1 o2 : set_order) (x : remapped) :
  pool_strings o1 x = pool_strings o2 x.
Proof.
  unfold pool_strings.
  apply (sort_perm_eq String.leb string_leb_total string_leb_trans
           string_leb_antisym).
  rewrite !iterate_perm. reflexivity.
Qed.

Lemma build_strings_pool_order (o1 o2 : set_order) (x : remapped) :
  build_strings_pool o1 x = build_strings_pool o2 x.
Proof.
  unfold build_strings_pool. fold (pool_strings o1 x) (pool_strings o2 x).
  rewrite (pool_strings_order o1 o2). reflexivity.
Qed.

(** Two iteration orders of the very same process exist: the order of first
    insertion and its reverse. *)
Definition insertion_order : set_order :=
  mk_set_order (nodup string_dec) (fun l => Permutation_refl _).

Definition reverse_order : set_order :=
  mk_set_order (fun l => rev (nodup string_dec l))
    (fun l => Permutation_sym (Permutation_rev _)).

(** C7.  Two runs of the Remapper and the PoolBuilder on the same
    catalogue, whatever order each run iterates its set of strings in,
    produce the same strings pool and the same descriptions pool, with the
    same offsets, and [main] writes the same blob. *)
Theorem C7_pools_deterministic (o1 o2 : set_order) (db : database)
  (min_s max_s : Z) :
  pools o1 db min_s max_s = pools o2 db min_s max_s
  /\ main o1 db min_s max_s = main o2 db min_s max_s.
Proof.
  unfold pools, main.
  destruct (remap_ids _ _ _) as [x|e]; cbn [Py.bind]; [|split; reflexivity].
  rewrite (build_strings_pool_order o1 o2 x). split; reflexivity.
Qed.

End GenFacts.

(** *** ROM ids *)

Module RomIdFacts.
Import Schema Gen PyFacts.

(** The ROMs of size class [s], in table order. *)
Definition class (s : Z) (roms : list rom) : list rom :=
  List.filter (fun r => size_pow2 r =? s) roms.

(** The 0-based position of the ROM at index [i] within its size class. *)
Definition index_in_class (roms : list rom) (i : nat) (r : rom) : Z :=
  Z.of_nat (length (class (size_pow2 r) (firstn i roms))).

(** The objects of class [s] among [ps], by their position. *)
Definition refs_of (s : Z) (ps : list (nat * rom)) : list nat :=
  map fst (List.filter (fun p => size_pow2 (snd p) =? s) ps).

Definition by_size_step (d : gmap Z (list nat)) (p : nat * rom)
  : gmap Z (list nat) :=
  <[size_pow2 (snd p) := default [] (d !! size_pow2 (snd p)) ++ [fst p]]> d.

Lemma fold_by_size (ps : list (nat * rom)) (d : gmap Z (list nat)) (s : Z) :
  default [] (fold_left by_size_step ps d !! s)
  = default [] (d !! s) ++ refs_of s ps.
Proof.
  revert d. induction ps as [|p ps IH]; intros d; simpl.
  - rewrite app_nil_r. reflexivity.
  - rewrite IH. unfold by_size_step, refs_of. cbn [List.filter].
    destruct (size_pow2 (snd p) =? s) eqn:E.
    + apply Z.eqb_eq in E. rewrite E, lookup_insert_eq. cbn.
      rewrite <- app_assoc. reflexivity.
    + apply Z.eqb_neq in E. rewrite lookup_insert_ne by exact E. reflexivity.
Qed.

Definition positions (roms : list rom) : list (nat * rom) :=
  combine (seq 0 (length roms)) roms.

Lemma group_by_size_refs (roms : list rom) (s : Z) :
  default [] (group_by_size roms !! s) = refs_of s (positions roms).
Proof.
  unfold group_by_size. fold by_size_step. fold (positions roms).
  rewrite fold_by_size, lookup_empty. reflexivity.
Qed.

(** The [j]-th object of a class is the ROM whose position in its class is
    [j]. *)
Lemma refs_of_lookup (s : Z) (roms : list rom) (a j i : nat) :
  refs_of s (combine (seq a (length roms)) roms) !! j = Some i ->
  exists r, roms !! (i - a)%nat = Some r /\ (a <= i)%nat /\ size_pow2 r = s
            /\ j = length (class s (firstn (i - a) roms)).
Proof.
  revert a j. induction roms as [|r0 roms IH]; intros a j H; [discriminate|].
  cbn [length seq combine] in H. unfold refs_of in H. cbn [List.filter snd] in H.
  destruct (size_pow2 r0 =? s) eqn:E.
  - cbn [map fst] in H. destruct j as [|j].
    + injection H as <-. exists r0. rewrite Nat.sub_diag.
      split; [reflexivity|]. split; [lia|].
      split; [apply Z.eqb_eq, E | reflexivity].
    + cbn in H. destruct (IH (S a) j H) as (r & Hr & Hle & Hs & Hj).
      exists r. replace (i - a)%nat with (S (i - S a)) by lia.
      split; [exact Hr|]. split; [lia|]. split; [exact Hs|].
      cbn [firstn class List.filter]. rewrite E. cbn [length].
      f_equal. exact Hj.
  - destruct (IH (S a) j H) as (r & Hr & Hle & Hs & Hj).
    exists r. replace (i - a)%nat with (S (i - S a)) by lia.
    split; [exact Hr|]. split; [lia|]. split; [exact Hs|].
    cbn [firstn class List.filter]. rewrite E. exact Hj.
Qed.

Lemma refs_of_length (s : Z) (roms : list rom) (a : nat) :
  length (refs_of s (combine (seq a (length roms)) roms))
  = length (class s roms).
Proof.
  revert a. induction roms as [|r0 roms IH]; intros a; [reflexivity|].
  cbn [length seq combine]. unfold refs_of, class. cbn [List.filter snd].
  destruct (size_pow2 r0 =? s); cbn [map length];
    [f_equal|]; apply (IH (S a)).
Qed.

(** Conversely, every ROM of the class is among its objects. *)
Lemma refs_of_complete (s : Z) (roms : list rom) (a i : nat) (r : rom) :
  roms !! i = Some r -> size_pow2 r = s ->
  refs_of s (combine (seq a (length roms)) roms)
    !! length (class s (firstn i roms)) = Some (a + i)%nat.
Proof.
  revert a i. induction roms as [|r0 roms IH]; intros a i Hr Hs; [discriminate|].
  cbn [length seq combine]. unfold refs_of. cbn [List.filter snd].
  destruct i as [|i].
  - injection Hr as ->. rewrite Hs, Z.eqb_refl. cbn. f_equal. lia.
  - cbn in Hr. cbn [firstn class List.filter].
    specialize (IH (S a) i Hr Hs). unfold refs_of in IH.
    destruct (size_pow2 r0 =? s); cbn [map length lookup];
      replace (a + S i)%nat with (S a + i)%nat by lia; exact IH.
Qed.

(** The id [make_rom_id] computes. *)
Definition rom_id_of (s index : Z) : Z := Z.lor (Z.shiftl s 16) index.

(** One class: the loop raises exactly when an index passes 0xFFFF, and
    otherwise gives the [j]-th object the id of index [k + j]. *)
Lemma assign_class_spec (s : Z) (refs : list nat) (k : nat) (st : rom_state) :
  (forall i, In i refs -> (i < length (rs_roms st))%nat) ->
  List.NoDup refs ->
  match assign_class s (combine (map Z.of_nat (seq k (length refs))) refs) st with
  | Py.Ok st' =>
      (Z.of_nat (k + length refs) <= 65536 \/ refs = [])
      /\ length (rs_roms st') = length (rs_roms st)
      /\ rs_size_index st' = rs_size_index st
      /\ (forall j i, refs !! j = Some i ->
            rs_roms st' !! i
            = set_new_id (rom_id_of s (Z.of_nat (k + j))) <$> rs_roms st !! i)
      /\ (forall i, ~ In i refs -> rs_roms st' !! i = rs_roms st !! i)
  | Py.Raise e =>
      e = Py.ValueError /\ 65536 < Z.of_nat (k + length refs) /\ refs <> []
  end.
Proof.
  revert k st. induction refs as [|ref rest IH]; intros k st Hvalid Hnd.
  - cbn. repeat split; try reflexivity; [right; reflexivity | intros j i H; discriminate].
  - cbn [length seq map combine assign_class]. unfold make_rom_id.
    destruct (Z.of_nat k >? 65535) eqn:Ek.
    + cbn [Py.bind]. split; [reflexivity|]. split; [|discriminate].
      apply Z.gtb_lt in Ek. cbn [length]. lia.
    + cbn [Py.bind].
      assert (Z.of_nat k <= 65535) as Hk
        by (destruct (Z.gtb_spec (Z.of_nat k) 65535); [discriminate | lia]).
      inversion Hnd as [|? ? Hnotin Hnd']; subst.
      destruct (lookup_lt_is_Some_2 (rs_roms st) ref
                  (Hvalid ref (or_introl eq_refl))) as [r Hr].
      rewrite Hr.
      match goal with
      | |- match assign_class _ _ ?s1 with _ => _ end => set (st1 := s1)
      end.
      assert (length (rs_roms st1) = length (rs_roms st)) as Hlen1
        by (unfold st1; cbn; apply length_insert).
      specialize (IH (S k) st1).
      destruct (assign_class s _ st1) as [st'|e].
      * destruct IH as (Hbound & Hlen & Hidx & Hset & Hother);
          [intros i Hi; rewrite Hlen1; apply Hvalid; right; exact Hi
          | exact Hnd' |].
        split; [left; destruct Hbound as [Hb| ->]; cbn [length]; lia|].
        split; [congruence|]. split; [exact Hidx|]. split.
        -- intros j i Hj. destruct j as [|j]; cbn in Hj.
           ++ injection Hj as <-. rewrite (Hother ref Hnotin), Hr.
              unfold st1. cbn [rs_roms]. rewrite list_lookup_insert_eq
                by (apply Hvalid; left; reflexivity).
              rewrite Nat.add_0_r. reflexivity.
           ++ rewrite (Hset j i Hj). unfold st1. cbn [rs_roms].
              rewrite list_lookup_insert_ne.
              ** replace (S k + j)%nat with (k + S j)%nat by lia. reflexivity.
              ** intros ->. apply Hnotin.
                 apply list_elem_of_In, list_elem_of_lookup. eauto.
        -- intros i Hi. rewrite Hother by (intros H; apply Hi; right; exact H).
           unfold st1. cbn [rs_roms]. apply list_lookup_insert_ne.
           intros ->. apply Hi. left. reflexivity.
      * destruct IH as (He & Hbound & Hne);
          [intros i Hi; rewrite Hlen1; apply Hvalid; right; exact Hi
          | exact Hnd' |].
        split; [exact He|]. split; [cbn [length]; lia | discriminate].
Qed.

Lemma refs_of_NoDup (s : Z) (roms : list rom) :
  List.NoDup (refs_of s (positions roms)).
Proof.
  apply NoDup_ListNoDup, NoDup_alt. intros j1 j2 i H1 H2.
  destruct (refs_of_lookup s roms 0 j1 i H1) as (_ & _ & _ & _ & ->).
  destruct (refs_of_lookup s roms 0 j2 i H2) as (_ & _ & _ & _ & ->).
  reflexivity.
Qed.

Lemma refs_of_In (s : Z) (roms : list rom) (i : nat) :
  In i (refs_of s (positions roms))
  <-> exists r, roms !! i = Some r /\ size_pow2 r = s.
Proof.
  split.
  - intros Hin. apply list_elem_of_In, list_elem_of_lookup in Hin as [j Hj].
    destruct (refs_of_lookup s roms 0 j i Hj) as (r & Hr & _ & Hs & _).
    rewrite Nat.sub_0_r in Hr. eauto.
  - intros (r & Hr & Hs). apply list_elem_of_In, list_elem_of_lookup.
    eexists. apply (refs_of_complete s roms 0 i r Hr Hs).
Qed.

(** The ROM objects once the classes [done] have been numbered. *)
Definition assigned (done : list Z) (roms : list rom) : list rom :=
  imap
    (fun i r =>
       if mem_Z (size_pow2 r) done
       then set_new_id (rom_id_of (size_pow2 r) (index_in_class roms i r)) r
       else r)
    roms.

Lemma mem_Z_app (x : Z) (l1 l2 : list Z) :
  mem_Z x (l1 ++ l2) = mem_Z x l1 || mem_Z x l2.
Proof. apply existsb_app. Qed.

Lemma assigned_nil (roms : list rom) : assigned [] roms = roms.
Proof.
  apply list_eq. intros i. unfold assigned. rewrite list_lookup_imap.
  destruct (roms !! i); reflexivity.
Qed.

Lemma assign_classes_spec (roms : list rom) (sizes done : list Z)
  (st : rom_state) :
  rs_roms st = assigned done roms ->
  match assign_classes (group_by_size roms) sizes st with
  | Py.Ok st' =>
      rs_roms st' = assigned (done ++ sizes) roms
      /\ Forall (fun s => len (class s roms) <= 65536) sizes
  | Py.Raise e =>
      e = Py.ValueError
      /\ Exists (fun s => 65536 < len (class s roms)) sizes
  end.
Proof.
  revert done st. induction sizes as [|s rest IH]; intros done st Hst.
  - cbn. rewrite app_nil_r. split; [exact Hst | constructor].
  - cbn [assign_classes]. rewrite group_by_size_refs.
    set (refs := refs_of s (positions roms)).
    match goal with
    | |- match Py.bind (assign_class _ _ ?s1) _ with _ => _ end =>
        set (st1 := s1)
    end.
    assert (rs_roms st1 = assigned done roms) as Hst1 by exact Hst.
    assert (length (rs_roms st1) = length roms) as Hlen1
      by (rewrite Hst1; unfold assigned; apply length_imap).
    pose proof (assign_class_spec s refs 0 st1) as Hclass.
    unfold Py.enumerate.
    destruct (assign_class s _ st1) as [st2|e]; cbn [Py.bind].
    + destruct Hclass as (Hbound & Hlen & _ & Hset & Hother).
      { intros i Hi. rewrite Hlen1. apply refs_of_In in Hi as (r & Hr & _).
        apply (lookup_lt_Some _ _ _ Hr). }
      { apply refs_of_NoDup. }
      assert (rs_roms st2 = assigned (done ++ [s]) roms) as Hst2.
      { apply list_eq. intros i. unfold assigned at 1.
        rewrite list_lookup_imap.
        destruct (roms !! i) as [r|] eqn:Hr; cbn [fmap option_fmap option_map].
        - destruct (Z.eq_dec (size_pow2 r) s) as [Hs|Hs].
          + rewrite (Hset _ i (refs_of_complete s roms 0 i r Hr Hs)).
            rewrite Hst1. unfold assigned. rewrite list_lookup_imap, Hr.
            cbn [fmap option_fmap option_map]. f_equal.
            rewrite mem_Z_app. cbn [mem_Z existsb].
            rewrite Hs, Z.eqb_refl, orb_true_r. unfold index_in_class.
            rewrite Hs. destruct (mem_Z s done); reflexivity.
          + rewrite Hother.
            * rewrite Hst1. unfold assigned. rewrite list_lookup_imap, Hr.
              cbn [fmap option_fmap option_map]. f_equal.
              rewrite mem_Z_app. cbn [mem_Z existsb].
              apply Z.eqb_neq in Hs. rewrite Hs, !orb_false_r. reflexivity.
            * intros Hi. apply refs_of_In in Hi as (r' & Hr' & Hs').
              congruence.
        - rewrite Hother.
          + rewrite Hst1. unfold assigned. rewrite list_lookup_imap, Hr.
            reflexivity.
          + intros Hi. apply refs_of_In in Hi as (r' & Hr' & _). congruence. }
      specialize (IH (done ++ [s]) st2 Hst2).
      destruct (assign_classes _ rest st2) as [st'|e].
      * destruct IH as [Hroms Hall]. rewrite <- app_assoc in Hroms.
        split; [exact Hroms|]. constructor; [|exact Hall].
        unfold len. rewrite <- (refs_of_length s roms 0).
        fold (positions roms). fold refs.
        destruct Hbound as [Hb|Hb]; [lia | rewrite Hb; cbn; lia].
      * destruct IH as [He Hex]. split; [exact He|].
        apply Exists_cons_tl, Hex.
    + destruct Hclass as (He & Hbound & _).
      { intros i Hi. rewrite Hlen1. apply refs_of_In in Hi as (r & Hr & _).
        apply (lookup_lt_Some _ _ _ Hr). }
      { apply refs_of_NoDup. }
      split; [exact He|]. apply Exists_cons_hd.
      unfold len. rewrite <- (refs_of_length s roms 0).
      fold (positions roms). fold refs. lia.
Qed.

(** *** The order of the ROM table *)

Lemma Z_of_byte_inj (x y : byte) : Py.Z_of_byte x = Py.Z_of_byte y -> x = y.
Proof.
  unfold Py.Z_of_byte. intros H. apply N2Z.inj in H.
  apply (f_equal Byte.of_N) in H. rewrite !Byte.of_to_N in H. congruence.
Qed.

Lemma bytes_leb_total (a b : list byte) :
  bytes_leb a b = true \/ bytes_leb b a = true.
Proof.
  revert b. induction a as [|x a IH]; intros [|y b]; cbn; auto.
  destruct (Z.ltb_spec (Py.Z_of_byte x) (Py.Z_of_byte y));
    destruct (Z.ltb_spec (Py.Z_of_byte y) (Py.Z_of_byte x)); auto; lia.
Qed.

Lemma bytes_leb_trans (a b c : list byte) :
  bytes_leb a b = true -> bytes_leb b c = true -> bytes_leb a c = true.
Proof.
  revert b c. induction a as [|x a IH]; intros [|y b] [|z c]; cbn;
    try congruence.
  destruct (Z.ltb_spec (Py.Z_of_byte x) (Py.Z_of_byte y));
    destruct (Z.ltb_spec (Py.Z_of_byte y) (Py.Z_of_byte x));
    destruct (Z.ltb_spec (Py.Z_of_byte y) (Py.Z_of_byte z));
    destruct (Z.ltb_spec (Py.Z_of_byte z) (Py.Z_of_byte y));
    destruct (Z.ltb_spec (Py.Z_of_byte x) (Py.Z_of_byte z));
    destruct (Z.ltb_spec (Py.Z_of_byte z) (Py.Z_of_byte x));
    try congruence; try lia.
  apply IH.
Qed.

Lemma bytes_leb_antisym (a b : list byte) :
  bytes_leb a b = true -> bytes_leb b a = true -> a = b.
Proof.
  revert b. induction a as [|x a IH]; intros [|y b]; cbn; try congruence.
  destruct (Z.ltb_spec (Py.Z_of_byte x) (Py.Z_of_byte y));
    destruct (Z.ltb_spec (Py.Z_of_byte y) (Py.Z_of_byte x));
    try congruence; try lia.
  intros H1 H2. f_equal; [apply Z_of_byte_inj; lia | apply IH; assumption].
Qed.

Lemma rom_leb_total (a b : rom) : rom_leb a b = true \/ rom_leb b a = true.
Proof.
  unfold rom_leb.
  destruct (Z.ltb_spec (size_pow2 a) (size_pow2 b)); [left; reflexivity|].
  destruct (Z.ltb_spec (size_pow2 b) (size_pow2 a)); [right; reflexivity|].
  assert (size_pow2 a = size_pow2 b) as E by lia. rewrite E, Z.eqb_refl.
  cbn. apply bytes_leb_total.
Qed.

Lemma rom_leb_spec (a b : rom) :
  rom_leb a b = true
  <-> size_pow2 a < size_pow2 b
      \/ (size_pow2 a = size_pow2 b /\ bytes_leb (sha1 a) (sha1 b) = true).
Proof.
  unfold rom_leb.
  rewrite orb_true_iff, andb_true_iff, Z.ltb_lt, Z.eqb_eq. reflexivity.
Qed.

Lemma rom_leb_trans (a b c : rom) :
  rom_leb a b = true -> rom_leb b c = true -> rom_leb a c = true.
Proof.
  rewrite !rom_leb_spec. intros [H1|[H1 H1']] [H2|[H2 H2']]; try (left; lia).
  right. split; [lia|]. apply (bytes_leb_trans _ _ _ H1' H2').
Qed.

Lemma StronglySorted_lookup {A : Type} (R : A -> A -> Prop) (l : list A)
  (i j : nat) (a b : A) :
  StronglySorted R l -> (i < j)%nat -> l !! i = Some a -> l !! j = Some b ->
  R a b.
Proof.
  intros Hs. revert i j. induction Hs as [|x l Hs IH Hall]; intros i j Hij Ha Hb;
    [discriminate|].
  destruct j as [|j]; [lia|]. cbn in Hb. destruct i as [|i].
  - injection Ha as <-. rewrite List.Forall_forall in Hall. apply Hall.
    apply list_elem_of_In, list_elem_of_lookup. eauto.
  - cbn in Ha. apply (IH i j); [lia | exact Ha | exact Hb].
Qed.

(** The ROMs [load_database] returns are ordered by class, then SHA-1, and
    lie in the size band. *)
Lemma select_roms_sorted (db : database) (min_s max_s : Z) :
  StronglySorted (fun a b => rom_leb a b = true) (select_roms db min_s max_s).
Proof.
  apply (sort_StronglySorted rom_leb rom_leb_total rom_leb_trans).
Qed.

Lemma select_roms_In (db : database) (min_s max_s : Z) (r : rom) :
  In r (select_roms db min_s max_s)
  <-> exists row h,
        In row (roms db) /\ rom_sha1 row = Some h
        /\ min_s <= rom_size_pow2 row <= max_s /\ length h = 20%nat
        /\ r = mk_rom (rom_id row) h (rom_size_pow2 row) (rom_name_id row) None.
Proof.
  unfold select_roms. rewrite sort_In, in_flat_map. split.
  - intros (row & Hrow & Hr). destruct (rom_sha1 row) as [h|] eqn:Eh; [|destruct Hr].
    destruct (_ && _) eqn:E; [|destruct Hr]. destruct Hr as [<-|[]].
    apply andb_true_iff in E as [E E3]. apply andb_true_iff in E as [E1 E2].
    apply Z.eqb_eq in E3.
    exists row, h. repeat split; try assumption; try lia.
  - intros (row & h & Hrow & Eh & Hband & Hlen & ->). exists row.
    split; [exact Hrow|]. rewrite Eh.
    assert ((rom_size_pow2 row >=? min_s) && (rom_size_pow2 row <=? max_s)
            && (Z.of_nat (length h) =? 20) = true) as ->.
    { rewrite !andb_true_iff. repeat split; [lia | lia | rewrite Hlen; reflexivity]. }
    left. reflexivity.
Qed.

Lemma range_In (lo hi s : Z) : In s (Py.range lo hi) <-> lo <= s < hi.
Proof.
  unfold Py.range. rewrite in_map_iff. split.
  - intros (i & <- & Hi). apply in_seq in Hi. lia.
  - intros H. exists (Z.to_nat (s - lo)). split; [lia|]. apply in_seq. lia.
Qed.

(** *** What [remap_ids] does to the ROMs *)

(** The last pass over the ROMs: [name_id] is replaced, nothing else. *)
Definition renamed (f : rom -> Z) (r : rom) : rom :=
  mk_rom (old_id r) (sha1 r) (size_pow2 r) (Some (f r)) (new_id r).

Lemma remap_ids_roms (d : data) (min_s max_s : Z) :
  match remap_ids d min_s max_s with
  | Py.Ok x =>
      (exists f,
         x_roms x
         = map (renamed f) (assigned (Py.range min_s (max_s + 1)) (d_roms d)))
      /\ Forall (fun s => len (class s (d_roms d)) <= 65536)
           (Py.range min_s (max_s + 1))
  | Py.Raise e =>
      e = Py.ValueError
      /\ Exists (fun s => 65536 < len (class s (d_roms d)))
           (Py.range min_s (max_s + 1))
  end.
Proof.
  unfold remap_ids.
  pose proof (assign_classes_spec (d_roms d) (Py.range min_s (max_s + 1)) []
                (mk_rom_state (d_roms d) ∅ ∅ 0)) as H.
  destruct (assign_classes _ _ _) as [st|e]; cbn [Py.bind].
  - destruct H as [Hroms Hall]; [symmetry; apply assigned_nil|].
    repeat match goal with
           | |- context [number_ids ?v ?l] => destruct (number_ids v l) as [? ?]
           end.
    cbn [x_roms]. split; [|exact Hall].
    eexists (fun r => remap_ref _ NULL_ID_24 (name_id r)).
    rewrite Hroms. reflexivity.
  - apply H. symmetry. apply assigned_nil.
Qed.

Lemma class_length_sizes (s : Z) (l1 l2 : list rom) (i : nat) :
  map size_pow2 l1 = map size_pow2 l2 ->
  length (class s (firstn i l1)) = length (class s (firstn i l2)).
Proof.
  revert l2 i. induction l1 as [|a l1 IH]; intros [|b l2] i H; try discriminate.
  - reflexivity.
  - injection H as Hab H. destruct i as [|i]; [reflexivity|].
    cbn [firstn class List.filter]. rewrite Hab.
    destruct (size_pow2 b =? s); cbn [length]; [f_equal|]; apply (IH l2 i H).
Qed.

Lemma class_length_all (s : Z) (l1 l2 : list rom) :
  map size_pow2 l1 = map size_pow2 l2 ->
  length (class s l1) = length (class s l2).
Proof.
  intros H.
  rewrite <- (firstn_all l1), <- (firstn_all l2).
  rewrite (class_length_sizes s l1 l2 (length l1) H).
  apply (f_equal (@length Z)) in H. rewrite !length_map in H.
  rewrite H. reflexivity.
Qed.

(** The table [remap_ids] returns: the ROMs of [data['roms']] in their
    order, each ROM of a class of the band with its id. *)
Lemma remap_ids_rom_table (d : data) (min_s max_s : Z) (x : remapped) :
  remap_ids d min_s max_s = Py.Ok x ->
  map size_pow2 (x_roms x) = map size_pow2 (d_roms d)
  /\ map sha1 (x_roms x) = map sha1 (d_roms d)
  /\ map old_id (x_roms x) = map old_id (d_roms d)
  /\ (forall i r, x_roms x !! i = Some r ->
        min_s <= size_pow2 r <= max_s ->
        new_id r
        = Some (Z.lor (Z.shiftl (size_pow2 r) 16)
                  (index_in_class (x_roms x) i r))).
Proof.
  intros Hx. pose proof (remap_ids_roms d min_s max_s) as H.
  rewrite Hx in H. destruct H as [[f Hroms] _].
  assert (forall i, x_roms x !! i
                    = (fun r0 =>
                         renamed f
                           (if mem_Z (size_pow2 r0) (Py.range min_s (max_s + 1))
                            then set_new_id
                                   (rom_id_of (size_pow2 r0)
                                      (index_in_class (d_roms d) i r0)) r0
                            else r0)) <$> d_roms d !! i) as Hlook.
  { intros i. rewrite Hroms, list_lookup_fmap. unfold assigned.
    rewrite list_lookup_imap. destruct (d_roms d !! i); reflexivity. }
  assert (forall (B : Type) (g : rom -> B),
            (forall r id, g (renamed f (set_new_id id r)) = g r) ->
            (forall r, g (renamed f r) = g r) ->
            map g (x_roms x) = map g (d_roms d)) as Hmap.
  { intros B g Hg1 Hg2. apply list_eq. intros i.
    rewrite !list_lookup_fmap, Hlook. destruct (d_roms d !! i) as [r0|]; cbn;
      [|reflexivity].
    destruct (mem_Z _ _); [rewrite Hg1 | rewrite Hg2]; reflexivity. }
  assert (map size_pow2 (x_roms x) = map size_pow2 (d_roms d)) as Hsizes
    by (apply Hmap; reflexivity).
  split; [exact Hsizes|]. split; [apply Hmap; reflexivity|].
  split; [apply Hmap; reflexivity|].
  intros i r Hr Hband. rewrite Hlook in Hr.
  destruct (d_roms d !! i) as [r0|]; [|discriminate]. cbn in Hr.
  injection Hr as <-.
  assert (mem_Z (size_pow2 r0) (Py.range min_s (max_s + 1)) = true) as Hmem.
  { apply mem_Z_In, range_In.
    destruct (mem_Z (size_pow2 r0) (Py.range min_s (max_s + 1)));
      cbn in Hband; lia. }
  rewrite Hmem. cbn. unfold rom_id_of, index_in_class. cbn.
  rewrite (class_length_sizes (size_pow2 r0) (x_roms x) (d_roms d) i Hsizes).
  reflexivity.
Qed.

(** Some ROM has an index above 0xFFFF in its class exactly when some
    class holds more than 2^16 ROMs. *)
Lemma index_overflow_iff (roms : list rom) :
  (exists i r, roms !! i = Some r /\ 0xFFFF < index_in_class roms i r)
  <-> exists s, 65536 < len (class s roms).
Proof.
  split.
  - intros (i & r & Hr & Hidx). exists (size_pow2 r).
    unfold index_in_class in Hidx. unfold len.
    rewrite <- (firstn_skipn i roms) at 1.
    unfold class. rewrite List.filter_app, length_app.
    rewrite (drop_S roms r i Hr). cbn [List.filter].
    rewrite Z.eqb_refl. cbn [length]. unfold class in Hidx. lia.
  - intros [s Hs].
    pose proof (refs_of_length s roms 0) as Hlen. fold (positions roms) in Hlen.
    destruct (lookup_lt_is_Some_2 (refs_of s (positions roms)) (Z.to_nat 65536))
      as [i Hi]; [unfold len in Hs; lia|].
    destruct (refs_of_lookup s roms 0 _ i Hi) as (r & Hr & _ & Hsz & Hj).
    rewrite Nat.sub_0_r in Hr, Hj. exists i, r. split; [exact Hr|].
    unfold index_in_class. rewrite Hsz, <- Hj. lia.
Qed.

Lemma rom_id_24_bits (s index : Z) :
  0 <= s <= 255 -> 0 <= index <= 0xFFFF ->
  0 <= Z.lor (Z.shiftl s 16) index < 2 ^ 24.
Proof.
  intros Hs Hi.
  assert (0 <= Z.shiftl s 16) as H0 by (apply Z.shiftl_nonneg; lia).
  assert (0 <= Z.lor (Z.shiftl s 16) index) as Hn
    by (apply Z.lor_nonneg; split; lia).
  split; [exact Hn|].
  destruct (Z.eq_dec (Z.lor (Z.shiftl s 16) index) 0) as [->|Hne]; [lia|].
  apply Z.log2_lt_pow2; [lia|].
  rewrite Z.log2_lor by lia.
  apply Z.max_lub_lt.
  - destruct (Z.eq_dec s 0) as [->|Hs0]; [rewrite Z.shiftl_0_l; cbn; lia|].
    rewrite Z.log2_shiftl by lia.
    assert (Z.log2 s < 8) by (apply Z.log2_lt_pow2; lia). lia.
  - destruct (Z.eq_dec index 0) as [->|Hi0]; [cbn; lia|].
    assert (Z.log2 index < 16) by (apply Z.log2_lt_pow2; lia). lia.
Qed.

Lemma map_eq_lookup {A B : Type} (g : A -> B) (l1 l2 : list A) (i : nat) (a : A) :
  map g l1 = map g l2 -> l1 !! i = Some a ->
  exists b, l2 !! i = Some b /\ g b = g a.
Proof.
  revert l2 i. induction l1 as [|x l1 IH]; intros [|y l2] i H Ha;
    try discriminate.
  injection H as Hxy H. destruct i as [|i]; cbn in *.
  - injection Ha as <-. eauto.
  - apply (IH l2 i H Ha).
Qed.

Lemma loaded_roms_in_band (db : database) (min_s max_s : Z) (i : nat) (r : rom) :
  d_roms (load_database db min_s max_s) !! i = Some r ->
  min_s <= size_pow2 r <= max_s.
Proof.
  intros Hr. cbn [load_database d_roms] in Hr.
  assert (In r (select_roms db min_s max_s)) as Hin
    by (apply list_elem_of_In, list_elem_of_lookup; eauto).
  apply select_roms_In in Hin as (row & h & _ & _ & Hband & _ & ->).
  exact Hband.
Qed.

Lemma remap_raises_iff (db : database) (min_s max_s : Z) :
  remap_ids (load_database db min_s max_s) min_s max_s = Py.Raise Py.ValueError
  <-> exists s, 65536 < len (class s (d_roms (load_database db min_s max_s))).
Proof.
  set (d := load_database db min_s max_s).
  pose proof (remap_ids_roms d min_s max_s) as H. split.
  - intros E. rewrite E in H. destruct H as [_ Hex].
    apply List.Exists_exists in Hex as (s & _ & Hs). eauto.
  - intros [s Hs].
    destruct (class s (d_roms d)) as [|r l] eqn:Ec;
      [unfold len in Hs; cbn in Hs; lia|].
    assert (In r (class s (d_roms d))) as Hin by (rewrite Ec; left; reflexivity).
    rewrite <- Ec in Hs. clear Ec.
    apply filter_In in Hin as [Hin Hsz]. apply Z.eqb_eq in Hsz.
    apply list_elem_of_In, list_elem_of_lookup in Hin as [i Hi].
    pose proof (loaded_roms_in_band db min_s max_s i r Hi) as Hband.
    destruct (remap_ids d min_s max_s) as [x|e].
    + destruct H as [_ Hall]. rewrite List.Forall_forall in Hall.
      assert (In s (Py.range min_s (max_s + 1))) as Hr
        by (apply range_In; lia).
      specialize (Hall s Hr). cbn beta in Hall. lia.
    + destruct H as [-> _]. reflexivity.
Qed.

(** C4.  The Remapper raises, and [main] then writes no blob, if and only
    if some ROM it loaded has a 0-based index above 0xFFFF within its
    size class, which is to say if and only if some class holds more than
    2^16 ROMs; otherwise it returns, and every ROM of the table has the id
    (size_pow2 << 16) | index, of 24 bits when the band lies within
    0..255. *)
Theorem C4_remap_raises_iff_class_overflows
  (o : set_order) (db : database) (min_s max_s : Z) :
  let d := load_database db min_s max_s in
  let overflow :=
    exists i r, d_roms d !! i = Some r
                /\ 0xFFFF < index_in_class (d_roms d) i r in
  (overflow <-> exists s, 2 ^ 16 < len (class s (d_roms d)))
  /\ (remap_ids d min_s max_s = Py.Raise Py.ValueError <-> overflow)
  /\ (overflow -> main o db min_s max_s = Py.Raise Py.ValueError)
  /\ (~ overflow ->
      exists x,
        remap_ids d min_s max_s = Py.Ok x
        /\ map old_id (x_roms x) = map old_id (d_roms d)
        /\ forall i r, x_roms x !! i = Some r ->
             new_id r
             = Some (Z.lor (Z.shiftl (size_pow2 r) 16)
                       (index_in_class (x_roms x) i r))
             /\ 0 <= index_in_class (x_roms x) i r <= 0xFFFF
             /\ (0 <= min_s -> max_s <= 255 ->
                 0 <= Z.lor (Z.shiftl (size_pow2 r) 16)
                        (index_in_class (x_roms x) i r) < 2 ^ 24)).
Proof.
  intros d overflow.
  assert (overflow <-> exists s, 2 ^ 16 < len (class s (d_roms d))) as Hov
    by apply index_overflow_iff.
  assert (remap_ids d min_s max_s = Py.Raise Py.ValueError <-> overflow) as Hraise
    by (rewrite Hov; apply remap_raises_iff).
  split; [exact Hov|]. split; [exact Hraise|]. split.
  - intros H. apply Hraise in H. unfold main. fold d. rewrite H. reflexivity.
  - intros Hno.
    pose proof (remap_ids_roms d min_s max_s) as Hspec.
    destruct (remap_ids d min_s max_s) as [x|e] eqn:Ex.
    + exists x. split; [reflexivity|].
      destruct (remap_ids_rom_table d min_s max_s x Ex)
        as (Hsizes & _ & Holds & Hids).
      split; [exact Holds|]. intros i r Hr.
      assert (exists r0, d_roms d !! i = Some r0 /\ size_pow2 r0 = size_pow2 r)
        as (r0 & Hr0 & Hsz).
      { apply (map_eq_lookup size_pow2 _ _ i r Hsizes Hr). }
      pose proof (loaded_roms_in_band db min_s max_s i r0 Hr0) as Hband.
      rewrite Hsz in Hband.
      assert (0 <= index_in_class (x_roms x) i r <= 0xFFFF) as Hidx.
      { split; [unfold index_in_class; lia|].
        destruct (Z.le_gt_cases (index_in_class (x_roms x) i r) 0xFFFF) as [H|H];
          [exact H|].
        exfalso. apply Hno. exists i, r0. split; [exact Hr0|].
        unfold index_in_class in *. rewrite Hsz.
        rewrite <- (class_length_sizes (size_pow2 r) (x_roms x) (d_roms d) i Hsizes).
        lia. }
      split; [apply (Hids i r Hr Hband)|]. split; [exact Hidx|].
      intros Hmin Hmax. apply rom_id_24_bits; lia.
    + exfalso. apply Hno, Hraise. destruct Hspec as [-> _]. reflexivity.
Qed.

(** The ROM table [remap_ids] returns for a loaded catalogue: ascending by
    class, by SHA-1 within a class, with the ids of the positions. *)
Lemma rom_table_ascending (db : database) (min_s max_s : Z) (x : remapped) :
  remap_ids (load_database db min_s max_s) min_s max_s = Py.Ok x ->
  (forall i j ri rj, (i < j)%nat ->
     x_roms x !! i = Some ri -> x_roms x !! j = Some rj ->
     size_pow2 ri <= size_pow2 rj
     /\ (size_pow2 ri = size_pow2 rj ->
         bytes_leb (sha1 ri) (sha1 rj) = true
         /\ (sha1 ri <> sha1 rj -> bytes_leb (sha1 rj) (sha1 ri) = false)))
  /\ (forall i r, x_roms x !! i = Some r ->
        new_id r
        = Some (Z.lor (Z.shiftl (size_pow2 r) 16)
                  (index_in_class (x_roms x) i r)))
  /\ (forall i r, x_roms x !! i = Some r -> length (sha1 r) = 20%nat).
Proof.
  intros Hx. set (d := load_database db min_s max_s) in *.
  destruct (remap_ids_rom_table d min_s max_s x Hx) as (Hsizes & Hsha & _ & Hids).
  assert (forall i r, x_roms x !! i = Some r ->
            exists r0, d_roms d !! i = Some r0
                       /\ size_pow2 r0 = size_pow2 r /\ sha1 r0 = sha1 r) as Hsrc.
  { intros i r Hr.
    destruct (map_eq_lookup size_pow2 _ _ i r Hsizes Hr) as (r0 & Hr0 & E1).
    destruct (map_eq_lookup sha1 _ _ i r Hsha Hr) as (r0' & Hr0' & E2).
    exists r0. split; [exact Hr0|]. split; [exact E1 | congruence]. }
  split; [|split].
  - intros i j ri rj Hij Hi Hj.
    destruct (Hsrc i ri Hi) as (r0 & Hr0 & <- & <-).
    destruct (Hsrc j rj Hj) as (r1 & Hr1 & <- & <-).
    pose proof (StronglySorted_lookup _ _ i j r0 r1
                  (select_roms_sorted db min_s max_s) Hij Hr0 Hr1) as Hle.
    apply rom_leb_spec in Hle. split; [lia|].
    intros Hsz. destruct Hle as [Hlt|[_ Hle]]; [lia|].
    split; [exact Hle|]. intros Hne.
    destruct (bytes_leb (sha1 r1) (sha1 r0)) eqn:E; [|reflexivity].
    exfalso. apply Hne, bytes_leb_antisym; assumption.
  - intros i r Hr. apply (Hids i r Hr).
    destruct (Hsrc i r Hr) as (r0 & Hr0 & <- & _).
    apply (loaded_roms_in_band db min_s max_s i r0 Hr0).
  - intros i r Hr. destruct (Hsrc i r Hr) as (r0 & Hr0 & _ & <-).
    assert (In r0 (select_roms db min_s max_s)) as Hin
      by (apply list_elem_of_In, list_elem_of_lookup; eauto).
    apply select_roms_In in Hin as (row & h & _ & _ & _ & Hlen & ->).
    exact Hlen.
Qed.

(** What [load_database] selects of a Rom row: its id, SHA-1 and class,
    when the class is in the band and the SHA-1 has 20 bytes. *)
Definition selected (min_s max_s : Z) (row : rom_row)
  : list (Z * list byte * Z) :=
  match rom_sha1 row with
  | Some h =>
      if (rom_size_pow2 row >=? min_s) && (rom_size_pow2 row <=? max_s)
         && (Z.of_nat (length h) =? 20)
      then [(rom_id row, h, rom_size_pow2 row)]
      else []
  | None => []
  end.

Definition rom_key (r : rom) : Z * list byte * Z :=
  (old_id r, sha1 r, size_pow2 r).

Lemma select_roms_keys (db : database) (min_s max_s : Z) :
  Permutation (map rom_key (select_roms db min_s max_s))
    (flat_map (selected min_s max_s) (roms db)).
Proof.
  unfold select_roms. rewrite sort_perm.
  induction (roms db) as [|row rows IH]; [reflexivity|].
  cbn [flat_map]. rewrite map_app. apply Permutation_app; [|exact IH].
  unfold selected. destruct (rom_sha1 row) as [h|]; [|reflexivity].
  destruct (_ && _); reflexivity.
Qed.

Lemma map_rom_key (l1 l2 : list rom) :
  map old_id l1 = map old_id l2 -> map sha1 l1 = map sha1 l2 ->
  map size_pow2 l1 = map size_pow2 l2 ->
  map rom_key l1 = map rom_key l2.
Proof.
  revert l2. induction l1 as [|a l1 IH]; intros [|b l2] H1 H2 H3;
    try discriminate; [reflexivity|].
  cbn in *. injection H1 as E1 H1. injection H2 as E2 H2.
  injection H3 as E3 H3. unfold rom_key at 1 3. rewrite E1, E2, E3.
  f_equal. apply IH; assumption.
Qed.

(** The ROM table lists the Rom rows [load_database] selects, every row
    once. *)
Lemma rom_table_rows (db : database) (min_s max_s : Z) (x : remapped) :
  remap_ids (load_database db min_s max_s) min_s max_s = Py.Ok x ->
  Permutation (map rom_key (x_roms x))
    (flat_map (selected min_s max_s) (roms db)).
Proof.
  intros Hx.
  destruct (remap_ids_rom_table _ min_s max_s x Hx) as (Hs & Hh & Ho & _).
  rewrite (map_rom_key _ _ Ho Hh Hs). apply select_roms_keys.
Qed.

(** Two games; the first lists one ROM image twice, its SHA-1 written once
    in lower case and once in upper case. *)
Definition c6_docs : list (list Build.machine_elem) :=
  [[Build.mk_machine_elem (Some "pacman") None None (Some "Pac-Man")
      (Some "1980") (Some "Namco")
      [Build.mk_rom_elem (Some "pm1.6e") (Some "4096") (Some "c1e6ab10")
         (Some "e87e059c5be45753f7e9f33dff851f16d6751181");
       Build.mk_rom_elem (Some "pm1.6e.bak") (Some "4096") (Some "C1E6AB10")
         (Some "E87E059C5BE45753F7E9F33DFF851F16D6751181");
       Build.mk_rom_elem (Some "pm1.5e") (Some "8192") None
         (Some "06ef227747a440831c9a3a613b76693d52a2f0a9")];
    Build.mk_machine_elem (Some "puckman") (Some "pacman") None None None None
      [Build.mk_rom_elem (Some "pm1.5e") (Some "8192") None
         (Some "06ef227747a440831c9a3a613b76693d52a2f0a9")]]].

Definition c6_db : database :=
  match Build.build (fun b => b) c6_docs with
  | Py.Ok db => db
  | Py.Raise _ => empty_database
  end.

Definition c6_x : remapped :=
  match remap_ids (load_database c6_db 11 23) 11 23 with
  | Py.Ok x => x
  | Py.Raise _ => mk_remapped [] ∅ [] ∅ ∅ ∅ ∅
  end.

End RomIdFacts.

(** *** Machine entries *)

Module BlobFacts.
Import Schema Gen PyFacts.

#[local] Arguments String.eqb : simpl never.

Lemma extend_all_cons (p : Py.result (list byte))
  (rest : list (Py.result (list byte))) (e : list byte) :
  extend_all (p :: rest) = Py.Ok e ->
  exists b bs, p = Py.Ok b /\ extend_all rest = Py.Ok bs /\ e = b ++ bs.
Proof.
  cbn [extend_all]. destruct p as [b|]; [|discriminate]. cbn [Py.bind].
  destruct (extend_all rest) as [bs|]; [|discriminate]. cbn [Py.bind].
  intros [= <-]. eauto.
Qed.

Lemma le_bytes_length (n : nat) (v : Z) : length (Py.le_bytes n v) = n.
Proof.
  revert v. induction n as [|n IH]; intros v; cbn; [reflexivity|].
  rewrite IH. reflexivity.
Qed.

Lemma pack_uint_length (n : nat) (v : Z) (b : list byte) :
  Py.pack_uint n v = Py.Ok b -> length b = n.
Proof.
  unfold Py.pack_uint. destruct (_ && _); [|discriminate].
  intros [= <-]. apply le_bytes_length.
Qed.

Lemma write_uint24_length (v : Z) (b : list byte) :
  write_uint24 v = Py.Ok b -> length b = 3%nat.
Proof.
  unfold write_uint24. destruct (Py.pack_uint 4 v) as [b4|] eqn:E; [|discriminate].
  cbn [Py.bind]. intros [= <-]. apply pack_uint_length in E.
  rewrite length_firstn, E. reflexivity.
Qed.

Lemma pack_field_length (pack : Z -> Py.result (list byte)) (n : nat)
  (v : option Z) (b : list byte) :
  (forall z b', pack z = Py.Ok b' -> length b' = n) ->
  pack_field pack v = Py.Ok b -> length b = n.
Proof.
  intros Hpack. destruct v as [z|]; [apply Hpack | discriminate].
Qed.

(** In a machine entry the year field is the two bytes at offset 16. *)
Lemma machine_entry_year (x : remapped) (offsets : gmap string Z)
  (dinfo : gmap Z (Z * Z)) (new : Z) (m : machine) (e : list byte) :
  x_machines x !! new = Some m ->
  machine_entry x offsets dinfo new = Py.Ok e ->
  exists pre yf post,
    e = pre ++ yf ++ post /\ year_field m = Py.Ok yf
    /\ length pre = 16%nat /\ length yf = 2%nat /\ length post = 2%nat.
Proof.
  unfold machine_entry, getitem. intros -> H. cbn [Py.bind] in H.
  destruct (default (0, 0) (dinfo !! new)) as [d_off d_len].
  apply extend_all_cons in H as (b1 & e1 & H1 & H & ->).
  apply extend_all_cons in H as (b2 & e2 & H2 & H & ->).
  apply extend_all_cons in H as (b3 & e3 & H3 & H & ->).
  apply extend_all_cons in H as (b4 & e4 & H4 & H & ->).
  apply extend_all_cons in H as (b5 & e5 & H5 & H & ->).
  apply extend_all_cons in H as (b6 & e6 & H6 & H & ->).
  apply extend_all_cons in H as (b7 & e7 & H7 & H & ->).
  cbn in H. injection H as <-.
  apply pack_uint_length in H1, H2, H3.
  apply (pack_field_length _ 3 _ _ write_uint24_length) in H4, H5.
  assert (length b7 = 2%nat) as L7
    by (apply (pack_field_length _ 2 _ _
                 (fun z b' => pack_uint_length 2 _ b') H7)).
  exists (b1 ++ b2 ++ b3 ++ b4 ++ b5), b6, (b7 ++ []).
  split; [rewrite <- !app_assoc; reflexivity|].
  split; [exact H6|].
  rewrite !length_app, H1, H2, H3, H4, H5, L7.
  unfold year_field in H6. apply pack_uint_length in H6.
  split; [reflexivity|]. split; [exact H6 | reflexivity].
Qed.

Lemma year_field_zero (m : machine) :
  year m = 0 -> year_field m = Py.Ok [Byte.x00; Byte.x00].
Proof. unfold year_field. intros ->. reflexivity. Qed.

(** *** From the catalogue to the machine table *)

Lemma number_ids_values {A : Type} (value : Z -> A) (olds : list Z)
  (new : Z) (a : A) :
  snd (number_ids value olds) !! new = Some a ->
  exists old, In old olds /\ a = value old.
Proof.
  unfold number_ids.
  assert (forall (st : gmap Z Z * gmap Z A * Z),
            snd (fst (fold_left
                   (fun st old =>
                      let '(id_map, table, next) := st in
                      (<[old := next]> id_map, <[next := value old]> table,
                       next + 1)) olds st)) !! new = Some a ->
            (exists old, In old olds /\ a = value old)
            \/ snd (fst st) !! new = Some a) as Hfold.
  { induction olds as [|old olds IH]; intros st H; [right; exact H|].
    cbn [fold_left] in H. destruct st as [[id_map table] next].
    destruct (IH _ H) as [(old' & Hin & ->)|Hst].
    - left. exists old'. split; [right; exact Hin | reflexivity].
    - cbn [fst snd] in Hst. rewrite lookup_insert in Hst.
      case_decide.
      + injection Hst as <-. left. exists old. split; [left|]; reflexivity.
      + right. exact Hst. }
  intros H.
  destruct (fold_left _ olds (∅, ∅, 0)) as [[id_map table] next] eqn:E.
  cbn [snd] in H.
  destruct (Hfold (∅, ∅, 0)) as [Hex|Hempty]; [rewrite E; exact H | exact Hex|].
  cbn in Hempty. rewrite lookup_empty in Hempty. discriminate.
Qed.

Lemma fold_insert_lookup {R A : Type} (key : R -> Z) (val : R -> A)
  (rows : list R) (d : gmap Z A) (k : Z) (a : A) :
  fold_left (fun d row => <[key row := val row]> d) rows d !! k = Some a ->
  (exists row, In row rows /\ key row = k /\ a = val row) \/ d !! k = Some a.
Proof.
  revert d. induction rows as [|row rows IH]; intros d H; [right; exact H|].
  cbn [fold_left] in H. destruct (IH _ H) as [(row' & Hin & Hk & ->)|Hd].
  - left. exists row'. split; [right; exact Hin | auto].
  - rewrite lookup_insert in Hd. case_decide.
    + injection Hd as <-. left. exists row. split; [left; reflexivity | auto].
    + right. exact Hd.
Qed.

Lemma sorted_keys_In {A : Type} (d : gmap Z A) (k : Z) :
  In k (sorted_keys d) -> exists a, d !! k = Some a.
Proof.
  unfold sorted_keys. rewrite sort_In, in_map_iff.
  intros ([k' a] & <- & Hin). exists a.
  apply list_elem_of_In, elem_of_map_to_list in Hin. exact Hin.
Qed.

(** Every machine of the machine table is a machine [load_database] read,
    with its name, description and year. *)
Lemma remap_ids_machine (d : data) (min_s max_s : Z) (x : remapped)
  (new : Z) (m : machine) :
  remap_ids d min_s max_s = Py.Ok x ->
  x_machines x !! new = Some m ->
  exists old lm,
    d_machines d !! old = Some lm /\ m_old m = Some old
    /\ name m = name lm /\ year m = year lm
    /\ description m = description lm.
Proof.
  unfold remap_ids. intros H Hm.
  destruct (assign_classes _ _ _) as [st|]; [|discriminate].
  cbn [Py.bind] in H.
  match type of H with
  | context [number_ids ?v ?l] =>
      pose proof (number_ids_values v l) as Hvalues;
      destruct (number_ids v l) as [machine_id_map new_machines]
  end.
  repeat match type of H with
         | context [number_ids ?v ?l] => destruct (number_ids v l) as [? ?]
         end.
  injection H as <-. cbn [x_machines] in Hm.
  rewrite lookup_fmap in Hm. cbn [snd] in Hvalues.
  destruct (new_machines !! new) as [m0|] eqn:E0; [|discriminate].
  cbn in Hm. injection Hm as <-.
  destruct (Hvalues new m0 E0) as (old & Hin & ->).
  apply filter_In in Hin as [Hin _].
  apply sorted_keys_In in Hin as [lm Hlm]. rewrite Hlm.
  exists old, lm. cbn. auto.
Qed.

Lemma NoDup_map_inj_In {A B : Type} (f : A -> B) (l : list A) (a b : A) :
  List.NoDup (map f l) -> In a l -> In b l -> f a = f b -> a = b.
Proof.
  induction l as [|x l IH]; intros Hnd Ha Hb E; [destruct Ha|].
  cbn in Hnd. inversion Hnd as [|? ? Hnotin Hnd']; subst.
  destruct Ha as [->|Ha]; destruct Hb as [->|Hb].
  - reflexivity.
  - exfalso. apply Hnotin. rewrite E. apply in_map, Hb.
  - exfalso. apply Hnotin. rewrite <- E. apply in_map, Ha.
  - apply IH; assumption.
Qed.

(** *** The year field *)

(** The catalogue with every absent year replaced by the year 0. *)
Definition zero_year (m : machine_row) : machine_row :=
  mk_machine_row (m_id m) (m_name m) (m_cloneof_id m) (m_romof_id m)
    (m_description m)
    (match m_year m with Some y => Some y | None => Some 0 end)
    (m_manufacturer_id m).

Definition zero_years (db : database) : database :=
  set_machines (map zero_year (machines db)) db.

Lemma load_machine_zero_year (m : machine_row) :
  load_machine (zero_year m) = load_machine m.
Proof. unfold load_machine, zero_year. destruct (m_year m); reflexivity. Qed.

Lemma load_database_zero_years (db : database) (min_s max_s : Z) :
  load_database (zero_years db) min_s max_s = load_database db min_s max_s.
Proof.
  unfold load_database, zero_years, select_roms. cbn. f_equal.
  generalize (∅ : gmap Z machine).
  induction (machines db) as [|m l IH]; intros d; cbn; [reflexivity|].
  rewrite load_machine_zero_year. apply IH.
Qed.

(** A machine whose year is absent from the catalogue is loaded with the
    year 0, and the blob is the one the catalogue gives with the year 0 in
    place of every absent year. *)
Lemma absent_year_is_zero
  (o : set_order) (db : database) (min_s max_s : Z) (x : remapped) :
  List.NoDup (map m_id (machines db)) ->
  remap_ids (load_database db min_s max_s) min_s max_s = Py.Ok x ->
  (forall row new m,
     In row (machines db) -> m_year row = None ->
     x_machines x !! new = Some m -> m_old m = Some (m_id row) ->
     year m = 0
     /\ year_field m = Py.Ok [Byte.x00; Byte.x00]
     /\ forall offsets dinfo e,
          machine_entry x offsets dinfo new = Py.Ok e ->
          exists pre post,
            e = pre ++ [Byte.x00; Byte.x00] ++ post
            /\ length pre = 16%nat /\ length post = 2%nat)
  /\ main o (zero_years db) min_s max_s = main o db min_s max_s.
Proof.
  intros Hnd Hx. split.
  - intros row new m Hrow Hyear Hm Hold.
    assert (year m = 0) as Hzero.
    { destruct (remap_ids_machine _ _ _ x new m Hx Hm)
        as (old & lm & Hlm & Hold' & _ & Hy & _).
      cbn [load_database d_machines] in Hlm.
      apply fold_insert_lookup in Hlm as [(row' & Hin & Hk & ->)|Hempty];
        [|rewrite lookup_empty in Hempty; discriminate].
      assert (row' = row) as ->.
      { apply (NoDup_map_inj_In m_id (machines db)); try assumption. congruence. }
      rewrite Hy. unfold load_machine. cbn. rewrite Hyear. reflexivity. }
    split; [exact Hzero|]. split; [apply year_field_zero, Hzero|].
    intros offsets dinfo e He.
    destruct (machine_entry_year x offsets dinfo new m e Hm He)
      as (pre & yf & post & -> & Hyf & Hpre & _ & Hpost).
    rewrite (year_field_zero m Hzero) in Hyf. injection Hyf as <-.
    exists pre, post. auto.
  - unfold main. rewrite load_database_zero_years. reflexivity.
Qed.

End BlobFacts.

(** *** The bytes of the MachineRom table *)

Module TableFacts.
Import Schema Gen PyFacts.

Lemma Z_of_byte_of_Z (n : Z) : 0 <= n < 256 -> Py.Z_of_byte (Py.byte_of_Z n) = n.
Proof.
  intros Hn. unfold Py.Z_of_byte, Py.byte_of_Z.
  pose proof (byte_of_ascii_via_N (ascii_of_N (Z.to_N n))) as H.
  rewrite N_ascii_embedding in H by lia.
  symmetry in H. apply Byte.to_of_N in H. rewrite H. lia.
Qed.

Lemma unpack_le_bytes (n : nat) (v : Z) :
  0 <= v -> unpack_uint (Py.le_bytes n v) = v mod 2 ^ (8 * Z.of_nat n).
Proof.
  revert v. induction n as [|n IH]; intros v Hv.
  - cbn. rewrite Z.mod_1_r. reflexivity.
  - cbn [Py.le_bytes unpack_uint fold_right]. fold (unpack_uint (Py.le_bytes n (Z.shiftr v 8))).
    rewrite IH by (apply Z.shiftr_nonneg; exact Hv).
    change 255 with (Z.ones 8). rewrite Z.land_ones by lia.
    rewrite Z_of_byte_of_Z by (apply Z.mod_pos_bound; lia).
    rewrite Z.shiftr_div_pow2 by lia.
    replace (8 * Z.of_nat (S n)) with (8 + 8 * Z.of_nat n) by lia.
    rewrite Z.pow_add_r by lia.
    rewrite Z.rem_mul_r by lia. reflexivity.
Qed.

Lemma firstn_le_bytes (v : Z) : firstn 3 (Py.le_bytes 4 v) = Py.le_bytes 3 v.
Proof. reflexivity. Qed.

Lemma write_uint24_bytes (v : Z) (b : list byte) :
  write_uint24 v = Py.Ok b -> b = Py.le_bytes 3 v /\ 0 <= v < 2 ^ 32.
Proof.
  unfold write_uint24, Py.pack_uint.
  destruct (_ && _) eqn:E; [|discriminate]. cbn [Py.bind]. intros [= <-].
  split; [apply firstn_le_bytes|].
  apply andb_true_iff in E as [E1 E2]. apply Z.leb_le in E1.
  apply Z.ltb_lt in E2. cbn in E2. lia.
Qed.

(** Reading back a 24-bit field gives the value written, modulo 2^24. *)
Lemma read_le_bytes_3 (v : Z) (pre rest : list byte) :
  0 <= v ->
  read_uint24 (pre ++ Py.le_bytes 3 v ++ rest) (length pre) = v mod 2 ^ 24.
Proof.
  intros Hv. unfold read_uint24.
  change (@skipn byte) with (@drop byte). rewrite drop_app_length.
  pose proof (unpack_le_bytes 3 v Hv) as H3.
  cbn [Py.le_bytes unpack_uint fold_right app firstn] in *.
  rewrite firstn_O. cbn [fold_right app].
  change (Py.Z_of_byte Byte.x00) with 0.
  change (8 * Z.of_nat 3) with 24 in H3. lia.
Qed.

Lemma machine_rom_entry_bytes (e : machine_rom_row) (b : list byte) :
  machine_rom_entry e = Py.Ok b ->
  length b = 9%nat
  /\ (0 <= mr_machine_id e < 2 ^ 32 /\ 0 <= mr_rom_id e < 2 ^ 32)
  /\ read_uint24 b 0 = mr_machine_id e mod 2 ^ 24
  /\ read_uint24 b 3 = mr_rom_id e mod 2 ^ 24.
Proof.
  unfold machine_rom_entry. intros H.
  apply BlobFacts.extend_all_cons in H as (b1 & e1 & H1 & H & ->).
  apply BlobFacts.extend_all_cons in H as (b2 & e2 & H2 & H & ->).
  apply BlobFacts.extend_all_cons in H as (b3 & e3 & H3 & H & ->).
  cbn in H. injection H as <-.
  apply write_uint24_bytes in H1 as [-> Hm], H2 as [-> Hr].
  apply (BlobFacts.pack_field_length _ 3 _ _ BlobFacts.write_uint24_length) in H3.
  split; [rewrite !length_app, !BlobFacts.le_bytes_length, H3; reflexivity|].
  split; [split; assumption|]. split.
  - apply (read_le_bytes_3 (mr_machine_id e) []). lia.
  - rewrite <- (read_le_bytes_3 (mr_rom_id e)
                  (Py.le_bytes 3 (mr_machine_id e)) (b3 ++ [])) by lia.
    reflexivity.
Qed.

(** A table is the concatenation of its entries. *)
Lemma extend_all_map {A : Type} (f : A -> Py.result (list byte)) (l : list A)
  (table : list byte) :
  extend_all (map f l) = Py.Ok table ->
  exists entries,
    Forall2 (fun a e => f a = Py.Ok e) l entries /\ table = concat entries.
Proof.
  revert table. induction l as [|a l IH]; intros table H.
  - injection H as <-. exists []. split; [constructor | reflexivity].
  - cbn [map] in H. apply BlobFacts.extend_all_cons in H as (b & bs & Hb & H & ->).
    destruct (IH bs H) as (entries & Hall & ->).
    exists (b :: entries). split; [constructor; assumption | reflexivity].
Qed.

(** The blob is its nine sections, one after the other. *)
Lemma generate_binary_sections (x : remapped) (pool : list byte)
  (offsets : gmap string Z) (dpool : list byte) (dinfo : gmap Z (Z * Z))
  (min_s max_s : Z) (blob : list byte) :
  generate_binary x pool offsets dpool dinfo min_s max_s = Py.Ok blob ->
  exists header size_index rom_table machine_table machine_rom_table
         manufacturer_table rom_name_table,
    blob = header ++ size_index ++ rom_table ++ machine_table
           ++ machine_rom_table ++ manufacturer_table ++ rom_name_table
           ++ pool ++ dpool
    /\ header_bytes x pool min_s max_s = Py.Ok header
    /\ extend_all (map (rom_entry) (x_roms x)) = Py.Ok rom_table
    /\ extend_all (map (machine_entry x offsets dinfo)
                     (Py.range 0 (size (x_machines x)))) = Py.Ok machine_table
    /\ extend_all (map machine_rom_entry (x_machine_roms x))
       = Py.Ok machine_rom_table.
Proof.
  unfold generate_binary, sections. intros H.
  apply BlobFacts.extend_all_cons in H as (s0 & e0 & H0 & H & ->).
  apply BlobFacts.extend_all_cons in H as (s1 & e1 & H1 & H & ->).
  apply BlobFacts.extend_all_cons in H as (s2 & e2 & H2 & H & ->).
  apply BlobFacts.extend_all_cons in H as (s3 & e3 & H3 & H & ->).
  apply BlobFacts.extend_all_cons in H as (s4 & e4 & H4 & H & ->).
  apply BlobFacts.extend_all_cons in H as (s5 & e5 & H5 & H & ->).
  apply BlobFacts.extend_all_cons in H as (s6 & e6 & H6 & H & ->).
  apply BlobFacts.extend_all_cons in H as (s7 & e7 & H7 & H & ->).
  apply BlobFacts.extend_all_cons in H as (s8 & e8 & H8 & H & ->).
  cbn in H. injection H as <-. injection H7 as <-. injection H8 as <-.
  exists s0, s1, s2, s3, s4, s5, s6. rewrite app_nil_r. auto.
Qed.

Lemma header_bytes_band (x : remapped) (pool : list byte) (min_s max_s : Z)
  (header : list byte) :
  header_bytes x pool min_s max_s = Py.Ok header ->
  0 <= min_s <= 255 /\ 0 <= max_s <= 255.
Proof.
  unfold header_bytes. intros H.
  match type of H with
  | Py.bind ?m _ = _ => destruct m as [h|] eqn:E; [|discriminate]
  end.
  apply BlobFacts.extend_all_cons in E as (b0 & e0 & _ & E & _).
  apply BlobFacts.extend_all_cons in E as (b1 & e1 & _ & E & _).
  apply BlobFacts.extend_all_cons in E as (b2 & e2 & Hmin & E & _).
  apply BlobFacts.extend_all_cons in E as (b3 & e3 & Hmax & E & _).
  unfold Py.pack_uint in Hmin, Hmax.
  destruct ((0 <=? min_s) && _) eqn:E1; [|discriminate].
  destruct ((0 <=? max_s) && _) eqn:E2; [|discriminate].
  apply andb_true_iff in E1 as [A1 B1], E2 as [A2 B2].
  apply Z.leb_le in A1, A2. apply Z.ltb_lt in B1, B2.
  cbn in B1, B2. lia.
Qed.

(** *** The range of the ids written *)

Lemma assign_class_ids (P : Z -> Prop) (s : Z) (refs : list (Z * nat))
  (st st' : rom_state) :
  assign_class s refs st = Py.Ok st' ->
  (forall idx, 0 <= idx <= 0xFFFF -> P (Z.lor (Z.shiftl s 16) idx)) ->
  Forall (fun p => 0 <= fst p) refs ->
  (forall k v, rs_rom_id_map st !! k = Some v -> P v) ->
  forall k v, rs_rom_id_map st' !! k = Some v -> P v.
Proof.
  intros H HP. revert st H.
  induction refs as [|[idx ref] refs IH]; intros st H Hpos Hst.
  - injection H as <-. exact Hst.
  - cbn [assign_class] in H. unfold make_rom_id in H.
    destruct (idx >? 0xFFFF) eqn:E; [discriminate|]. cbn [Py.bind] in H.
    inversion Hpos as [|? ? Hidx Hpos']; subst. cbn in Hidx.
    apply (IH _ H Hpos').
    destruct (rs_roms st !! ref); [|exact Hst]. cbn [rs_rom_id_map].
    intros k v. rewrite lookup_insert. case_decide; [|apply Hst].
    intros [= <-]. apply HP.
    destruct (Z.gtb_spec idx 0xFFFF); [discriminate | lia].
Qed.

Lemma enumerate_nonneg {A : Type} (l : list A) :
  Forall (fun p => 0 <= fst p) (Py.enumerate l).
Proof.
  apply List.Forall_forall. intros [idx a] Hin. unfold Py.enumerate in Hin.
  apply in_combine_l, in_map_iff in Hin as (i & <- & _). cbn. lia.
Qed.

Lemma assign_classes_ids (P : Z -> Prop) (by_size : gmap Z (list nat))
  (sizes : list Z) (st st' : rom_state) :
  assign_classes by_size sizes st = Py.Ok st' ->
  (forall s idx, In s sizes -> 0 <= idx <= 0xFFFF ->
     P (Z.lor (Z.shiftl s 16) idx)) ->
  (forall k v, rs_rom_id_map st !! k = Some v -> P v) ->
  forall k v, rs_rom_id_map st' !! k = Some v -> P v.
Proof.
  revert st. induction sizes as [|s sizes IH]; intros st H HP Hst.
  - injection H as <-. exact Hst.
  - cbn [assign_classes] in H.
    match type of H with
    | Py.bind (assign_class _ _ ?s1) _ = _ =>
        destruct (assign_class s (Py.enumerate (default [] (by_size !! s))) s1)
          as [st2|] eqn:E2; [|discriminate]
    end.
    cbn [Py.bind] in H.
    apply (IH st2 H); [intros s' idx Hs'; apply HP; right; exact Hs'|].
    apply (assign_class_ids P s _ _ st2 E2);
      [intros idx; apply HP; left; reflexivity | apply enumerate_nonneg|].
    exact Hst.
Qed.

Lemma number_ids_bounds {A : Type} (value : Z -> A) (olds : list Z) :
  forall old v, fst (number_ids value olds) !! old = Some v ->
                0 <= v < size (snd (number_ids value olds)).
Proof.
  unfold number_ids.
  set (step := fun (st : gmap Z Z * gmap Z A * Z) (old : Z) =>
                 let '(id_map, table, next) := st in
                 (<[old := next]> id_map, <[next := value old]> table, next + 1)).
  assert (forall st,
            (let '(id_map, table, next) := st in
             0 <= next /\ size table = next
             /\ (forall k, is_Some (table !! k) -> 0 <= k < next)
             /\ (forall old v, id_map !! old = Some v -> 0 <= v < next)) ->
            let '(id_map, table, next) := fold_left step olds st in
            size table = next
            /\ (forall old v, id_map !! old = Some v -> 0 <= v < next)) as Hfold.
  { induction olds as [|old olds IH]; intros [[id_map table] next] Hst.
    - cbn. destruct Hst as (_ & Hs & _ & Hv). auto.
    - cbn [fold_left]. apply IH. unfold step.
      destruct Hst as (Hn & Hs & Hk & Hv).
      split; [lia|]. split; [|split].
      + unfold size in *. rewrite map_size_insert_None; [lia|].
        destruct (table !! next) eqn:E; [|reflexivity].
        specialize (Hk next (ex_intro _ _ E)). lia.
      + intros k. rewrite lookup_insert. case_decide; [lia|].
        intros H'. specialize (Hk k H'). lia.
      + intros old' v. rewrite lookup_insert. case_decide.
        * intros [= <-]. lia.
        * intros H'. specialize (Hv old' v H'). lia. }
  specialize (Hfold (∅, ∅, 0)). fold step.
  destruct (fold_left step olds (∅, ∅, 0)) as [[id_map table] next].
  cbn [fst snd]. destruct Hfold as [Hs Hv].
  - split; [lia|]. split; [reflexivity|]. split.
    + intros k [a Ha]. rewrite lookup_empty in Ha. discriminate.
    + intros old v Hv. rewrite lookup_empty in Hv. discriminate.
  - rewrite Hs. exact Hv.
Qed.

(** Every entry of the MachineRom table carries the id of a machine of the
    machine table and the id of a ROM of a class of the band. *)
Lemma remap_ids_machine_rom_ids (d : data) (min_s max_s : Z) (x : remapped)
  (e : machine_rom_row) :
  remap_ids d min_s max_s = Py.Ok x ->
  In e (x_machine_roms x) ->
  0 <= mr_machine_id e < size (x_machines x)
  /\ exists s idx,
       min_s <= s <= max_s /\ 0 <= idx <= 0xFFFF
       /\ mr_rom_id e = Z.lor (Z.shiftl s 16) idx.
Proof.
  unfold remap_ids. intros H He.
  destruct (assign_classes _ _ _) as [st|] eqn:Est; [|discriminate].
  cbn [Py.bind] in H.
  match type of H with
  | context [number_ids ?v ?l] =>
      pose proof (number_ids_bounds v l) as Hbounds;
      destruct (number_ids v l) as [machine_id_map new_machines]
  end.
  repeat match type of H with
         | context [number_ids ?v ?l] => destruct (number_ids v l) as [? ?]
         end.
  injection H as <-. cbn [x_machine_roms x_machines] in *.
  apply sort_In, in_flat_map in He as (mr & _ & He).
  destruct (machine_id_map !! mr_machine_id mr) as [m|] eqn:Em; [|destruct He].
  destruct (rs_rom_id_map st !! mr_rom_id mr) as [r|] eqn:Er; [|destruct He].
  destruct He as [<-|[]]. cbn [mr_machine_id mr_rom_id]. split.
  - unfold size. rewrite map_size_fmap. apply (Hbounds _ _ Em).
  - apply (assign_classes_ids
             (fun v => exists s idx, min_s <= s <= max_s /\ 0 <= idx <= 0xFFFF
                                     /\ v = Z.lor (Z.shiftl s 16) idx)
             _ _ _ st Est) with (k := mr_rom_id mr); [| |exact Er].
    + intros s idx Hs Hidx. exists s, idx.
      apply RomIdFacts.range_In in Hs. repeat split; try lia.
    + intros k v Hk. cbn in Hk. rewrite lookup_empty in Hk. discriminate.
Qed.



Definition pacman_blob : list byte :=
  match main GenFacts.insertion_order RomIdFacts.c6_db 11 23 with
  | Py.Ok blob => blob
  | Py.Raise _ => []
  end.


(** *** The ROM table and the machine table in the blob *)

Lemma rom_entry_bytes (r : rom) (b : list byte) :
  rom_entry r = Py.Ok b -> length (sha1 r) = 20%nat ->
  exists name_field, b = sha1 r ++ name_field /\ length name_field = 3%nat.
Proof.
  unfold rom_entry. intros H Hlen.
  apply BlobFacts.extend_all_cons in H as (b1 & e1 & H1 & H & ->).
  apply BlobFacts.extend_all_cons in H as (b2 & e2 & H2 & H & ->).
  cbn in H. injection H as <-.
  apply (BlobFacts.pack_field_length _ 3 _ _ BlobFacts.write_uint24_length) in H2.
  destruct (sha1 r) as [|h0 h] eqn:Eh; [discriminate|].
  injection H1 as <-. exists (b2 ++ []). split; [reflexivity|].
  rewrite app_nil_r. exact H2.
Qed.

Lemma range_lookup (n : Z) (i : nat) (v : Z) :
  Py.range 0 n !! i = Some v -> v = Z.of_nat i.
Proof.
  unfold Py.range. intros H.
  change (map (fun i => 0 + Z.of_nat i) (seq 0 (Z.to_nat (n - 0))))
    with ((fun i => 0 + Z.of_nat i) <$> seq 0 (Z.to_nat (n - 0))) in H.
  rewrite list_lookup_fmap in H.
  destruct (seq 0 (Z.to_nat (n - 0)) !! i) as [k|] eqn:E; [|discriminate].
  apply lookup_seq in E as [-> _]. cbn in H. injection H as <-. lia.
Qed.

(** X22.  The ROM table of the blob.  In the blob [main] writes, the ROM table is
    the concatenation of one 23-byte entry for each ROM [remap_ids]
    returned, in their order, an entry starting with the 20 bytes of the
    SHA-1 of its ROM.  The ROMs are the Rom rows of the catalogue whose
    class is in the band and whose SHA-1 has 20 bytes, every row once.  The
    classes follow each other in ascending order; within a class the
    entries are ascending by SHA-1, compared byte by byte, strictly so
    between entries whose SHA-1 differ; and every ROM has the id
    (size_pow2 << 16) | index, its index being its 0-based position within
    its class in that order. *)
Theorem rom_table_in_blob
  (o : set_order) (db : database) (min_s max_s : Z) (blob : list byte) :
  main o db min_s max_s = Py.Ok blob ->
  exists x before entries after,
    remap_ids (load_database db min_s max_s) min_s max_s = Py.Ok x
    /\ blob = before ++ concat entries ++ after
    /\ Forall2
         (fun r b => exists name_field,
                       b = sha1 r ++ name_field
                       /\ length (sha1 r) = 20%nat
                       /\ length name_field = 3%nat)
         (x_roms x) entries
    /\ Permutation (map RomIdFacts.rom_key (x_roms x))
         (flat_map (RomIdFacts.selected min_s max_s) (roms db))
    /\ (forall i j ri rj, (i < j)%nat ->
          x_roms x !! i = Some ri -> x_roms x !! j = Some rj ->
          size_pow2 ri <= size_pow2 rj
          /\ (size_pow2 ri = size_pow2 rj ->
              bytes_leb (sha1 ri) (sha1 rj) = true
              /\ (sha1 ri <> sha1 rj -> bytes_leb (sha1 rj) (sha1 ri) = false)))
    /\ (forall i r, x_roms x !! i = Some r ->
          new_id r
          = Some (Z.lor (Z.shiftl (size_pow2 r) 16)
                    (RomIdFacts.index_in_class (x_roms x) i r))).
Proof.
  unfold main. intros H.
  destruct (remap_ids _ _ _) as [x|] eqn:Ex; [|discriminate].
  cbn [Py.bind] in H.
  destruct (build_strings_pool o x) as [pool offsets].
  destruct (build_descriptions_pool x) as [dpool dinfo].
  apply generate_binary_sections in H
    as (hdr & sidx & rtab & mtab & mrtab & mftab & ntab & -> & _ & Hr & _ & _).
  apply extend_all_map in Hr as (entries & Hall & ->).
  destruct (RomIdFacts.rom_table_ascending db min_s max_s x Ex)
    as (Hord & Hids & Hlen).
  exists x, (hdr ++ sidx), entries,
    (mtab ++ mrtab ++ mftab ++ ntab ++ pool ++ dpool).
  split; [reflexivity|]. split; [rewrite <- !app_assoc; reflexivity|].
  split; [|split; [apply (RomIdFacts.rom_table_rows db min_s max_s x Ex)|
                   split; assumption]].
  apply Forall2_same_length_lookup. split; [apply (Forall2_length _ _ _ Hall)|].
  intros i r b Hr Hb.
  pose proof (Forall2_lookup_lr _ _ _ _ _ _ Hall Hr Hb) as Hentry.
  destruct (rom_entry_bytes r b Hentry (Hlen i r Hr)) as (nf & -> & Hnf).
  exists nf. split; [reflexivity|]. split; [apply (Hlen i r Hr) | exact Hnf].
Qed.

Lemma rom_table_in_blob_witness :
  exists x before entries after,
    remap_ids (load_database RomIdFacts.c6_db 11 23) 11 23 = Py.Ok x
    /\ pacman_blob = before ++ concat entries ++ after
    /\ Forall2
         (fun r b => exists name_field,
                       b = sha1 r ++ name_field
                       /\ length (sha1 r) = 20%nat
                       /\ length name_field = 3%nat)
         (x_roms x) entries
    /\ Permutation (map RomIdFacts.rom_key (x_roms x))
         (flat_map (RomIdFacts.selected 11 23) (roms RomIdFacts.c6_db))
    /\ (forall i j ri rj, (i < j)%nat ->
          x_roms x !! i = Some ri -> x_roms x !! j = Some rj ->
          size_pow2 ri <= size_pow2 rj
          /\ (size_pow2 ri = size_pow2 rj ->
              bytes_leb (sha1 ri) (sha1 rj) = true
              /\ (sha1 ri <> sha1 rj -> bytes_leb (sha1 rj) (sha1 ri) = false)))
    /\ (forall i r, x_roms x !! i = Some r ->
          new_id r
          = Some (Z.lor (Z.shiftl (size_pow2 r) 16)
                    (RomIdFacts.index_in_class (x_roms x) i r))).
Proof.
  apply (rom_table_in_blob GenFacts.insertion_order
           RomIdFacts.c6_db 11 23 pacman_blob).
  vm_compute. reflexivity.
Defined.

(** C6 fails on the two games of [RomIdFacts.c6_docs].  The first lists one
    image under two names, its SHA-1 written once in lower case and once in
    upper case: the build keeps two Rom rows with the same 20 bytes, the
    generator loads both, and in the blob the first two entries of the ROM
    table, which starts at byte 168, are two ROMs of class 12 with the same
    SHA-1: the table is not strictly ascending there. *)
Lemma C6_equal_sha1_not_strict :
  Build.build (fun b => b) RomIdFacts.c6_docs = Py.Ok RomIdFacts.c6_db
  /\ main GenFacts.insertion_order RomIdFacts.c6_db 11 23 = Py.Ok pacman_blob
  /\ remap_ids (load_database RomIdFacts.c6_db 11 23) 11 23
     = Py.Ok RomIdFacts.c6_x
  /\ exists r0 r1,
       x_roms RomIdFacts.c6_x !! 0%nat = Some r0
       /\ x_roms RomIdFacts.c6_x !! 1%nat = Some r1
       /\ size_pow2 r0 = 12 /\ size_pow2 r1 = 12
       /\ old_id r0 <> old_id r1
       /\ sha1 r0 = sha1 r1
       /\ bytes_leb (sha1 r1) (sha1 r0) = true
       /\ firstn 20 (skipn 168 pacman_blob) = sha1 r0
       /\ firstn 20 (skipn (168 + 23) pacman_blob) = sha1 r1.
Proof.
  split; [vm_compute; reflexivity|]. split; [vm_compute; reflexivity|].
  split; [vm_compute; reflexivity|].
  eexists _, _. split; [vm_compute; reflexivity|].
  split; [vm_compute; reflexivity|].
  repeat split; try (vm_compute; reflexivity). vm_compute. discriminate.
Qed.

(** C10.  In the blob [main] writes, the machine table is the concatenation
    of one 20-byte entry for each machine id, in ascending order; the two
    bytes at offset 16 of an entry are the year field; and for a machine
    whose year is absent from the catalogue the year loaded is 0 and the
    field holds the bytes 0 0.  The blob is the very blob of the catalogue
    in which the year 0 stands in place of every absent year. *)
Theorem C10_absent_year_written_as_zero
  (o : set_order) (db : database) (min_s max_s : Z) (blob : list byte) :
  List.NoDup (map m_id (machines db)) ->
  main o db min_s max_s = Py.Ok blob ->
  exists x before entries after,
    remap_ids (load_database db min_s max_s) min_s max_s = Py.Ok x
    /\ blob = before ++ concat entries ++ after
    /\ len entries = size (x_machines x)
    /\ (forall i e, entries !! i = Some e ->
          exists m pre year_bytes post,
            x_machines x !! Z.of_nat i = Some m
            /\ e = pre ++ year_bytes ++ post
            /\ length pre = 16%nat /\ length year_bytes = 2%nat
            /\ length post = 2%nat
            /\ year_field m = Py.Ok year_bytes
            /\ forall row,
                 In row (machines db) -> m_old m = Some (m_id row) ->
                 m_year row = None ->
                 year m = 0 /\ year_bytes = [Byte.x00; Byte.x00])
    /\ main o (BlobFacts.zero_years db) min_s max_s = Py.Ok blob.
Proof.
  intros Hnd Hmain.
  assert (main o (BlobFacts.zero_years db) min_s max_s = Py.Ok blob) as Hzero.
  { unfold main. rewrite BlobFacts.load_database_zero_years. exact Hmain. }
  unfold main in Hmain.
  destruct (remap_ids _ _ _) as [x|] eqn:Ex; [|discriminate].
  cbn [Py.bind] in Hmain.
  destruct (build_strings_pool o x) as [pool offsets].
  destruct (build_descriptions_pool x) as [dpool dinfo].
  apply generate_binary_sections in Hmain
    as (hdr & sidx & rtab & mtab & mrtab & mftab & ntab & -> & _ & _ & Hm & _).
  apply extend_all_map in Hm as (entries & Hall & ->).
  exists x, (hdr ++ sidx ++ rtab), entries,
    (mrtab ++ mftab ++ ntab ++ pool ++ dpool).
  split; [reflexivity|]. split; [rewrite <- !app_assoc; reflexivity|].
  split.
  { unfold len. rewrite <- (Forall2_length _ _ _ Hall).
    unfold Py.range. rewrite length_map, length_seq.
    unfold size. lia. }
  split; [|exact Hzero].
  intros i e He.
  destruct (Forall2_lookup_r _ _ _ _ _ Hall He) as (new & Hnew & Hentry).
  apply range_lookup in Hnew. subst new.
  assert (exists m, x_machines x !! Z.of_nat i = Some m) as [m Hm].
  { unfold machine_entry, getitem in Hentry.
    destruct (x_machines x !! Z.of_nat i) as [m|]; [eauto | discriminate]. }
  destruct (BlobFacts.machine_entry_year x offsets dinfo _ m e Hm Hentry)
    as (pre & yf & post & -> & Hyf & Hpre & Hlen & Hpost).
  exists m, pre, yf, post. repeat (split; [assumption || reflexivity|]).
  intros row Hrow Hold Hyear.
  destruct (BlobFacts.absent_year_is_zero o db min_s max_s x Hnd Ex) as [Habs _].
  destruct (Habs row (Z.of_nat i) m Hrow Hyear Hm Hold) as (Hy & Hf & _).
  split; [exact Hy|]. rewrite Hf in Hyf. injection Hyf as <-. reflexivity.
Qed.

Lemma C10_absent_year_written_as_zero_witness :
  exists x before entries after,
    remap_ids (load_database RomIdFacts.c6_db 11 23) 11 23 = Py.Ok x
    /\ pacman_blob = before ++ concat entries ++ after
    /\ len entries = size (x_machines x)
    /\ (forall i e, entries !! i = Some e ->
          exists m pre year_bytes post,
            x_machines x !! Z.of_nat i = Some m
            /\ e = pre ++ year_bytes ++ post
            /\ length pre = 16%nat /\ length year_bytes = 2%nat
            /\ length post = 2%nat
            /\ year_field m = Py.Ok year_bytes
            /\ forall row,
                 In row (machines RomIdFacts.c6_db) ->
                 m_old m = Some (m_id row) ->
                 m_year row = None ->
                 year m = 0 /\ year_bytes = [Byte.x00; Byte.x00])
    /\ main GenFacts.insertion_order (BlobFacts.zero_years RomIdFacts.c6_db)
         11 23 = Py.Ok pacman_blob.
Proof.
  apply (C10_absent_year_written_as_zero GenFacts.insertion_order
           RomIdFacts.c6_db 11 23 pacman_blob).
  - vm_compute. repeat constructor; cbn; intuition discriminate.
  - vm_compute. reflexivity.
Defined.

End TableFacts.

(** ** The helper functions of both scripts *)

Module HelperFacts.
Import Schema Build Gen PyFacts.

(** *** 24-bit fields *)

(** X1.  [write_uint24] accepts exactly the values of 0..2^32-1 and yields three
    bytes; [read_uint24], at the offset where they sit in a buffer, gives
    the value back modulo 2^24, so a value of 2^24 or more is written
    truncated, without any error.  Every other value raises
    [struct.error]. *)
Theorem write_uint24_read_back (v : Z) :
  (0 <= v < 2 ^ 32 ->
   exists b,
     write_uint24 v = Py.Ok b
     /\ length b = 3%nat
     /\ (forall pre post,
           read_uint24 (pre ++ b ++ post) (length pre) = v mod 2 ^ 24)
     /\ (v < 2 ^ 24 -> read_uint24 b 0 = v))
  /\ (~ 0 <= v < 2 ^ 32 -> write_uint24 v = Py.Raise Py.StructError).
Proof.
  split.
  - intros Hv. exists (Py.le_bytes 3 v).
    assert (write_uint24 v = Py.Ok (Py.le_bytes 3 v)) as Hw.
    { unfold write_uint24, Py.pack_uint.
      replace ((0 <=? v) && (v <? 2 ^ (8 * Z.of_nat 4))) with true; [reflexivity|].
      symmetry. apply andb_true_iff. split; [apply Z.leb_le; lia|].
      apply Z.ltb_lt. change (2 ^ (8 * Z.of_nat 4)) with (2 ^ 32). lia. }
    split; [exact Hw|]. split; [reflexivity|]. split.
    + intros pre post. apply TableFacts.read_le_bytes_3. lia.
    + intros Hs.
      pose proof (TableFacts.read_le_bytes_3 v [] [] (proj1 Hv)) as H.
      cbn [app length] in H. rewrite app_nil_r in H. rewrite H.
      apply Z.mod_small. lia.
  - intros Hv. unfold write_uint24, Py.pack_uint.
    replace ((0 <=? v) && (v <? 2 ^ (8 * Z.of_nat 4))) with false; [reflexivity|].
    symmetry. apply andb_false_iff.
    change (2 ^ (8 * Z.of_nat 4)) with (2 ^ 32).
    destruct (Z.leb_spec 0 v); [right|left; reflexivity].
    apply Z.ltb_ge. lia.
Qed.

(** *** ROM ids *)

Lemma lor_shiftl_add (s idx : Z) :
  0 <= s -> 0 <= idx < 2 ^ 16 ->
  Z.lor (Z.shiftl s 16) idx = s * 2 ^ 16 + idx.
Proof.
  intros Hs Hi.
  rewrite <- Z.shiftl_mul_pow2 by lia.
  rewrite <- (Z.add_lor_land (Z.shiftl s 16) idx).
  replace (Z.land (Z.shiftl s 16) idx) with 0; [lia|].
  symmetry. apply Z.bits_inj'. intros n Hn.
  rewrite Z.land_spec, Z.bits_0.
  destruct (Z.lt_ge_cases n 16) as [Hlt|Hge].
  - rewrite Z.shiftl_spec_low by lia. reflexivity.
  - rewrite (Z.bits_above_log2 idx n); [apply andb_false_r | lia |].
    destruct (Z.eq_dec idx 0) as [->|Hne]; [cbn; lia|].
    assert (Z.log2 idx < 16) by (apply Z.log2_lt_pow2; lia). lia.
Qed.

(** X2.  [make_rom_id] raises [ValueError] exactly when the index exceeds
    0xFFFF.  For an index of 0..0xFFFF the id is [size_pow2 * 65536 + index];
    [extract_rom_index] gives the index back, and [extract_size_pow2] gives
    [size_pow2] back modulo 256: the size class itself is not checked, and
    is recovered when it is below 256, the id then fitting 24 bits. *)
Theorem make_rom_id_round_trip (s idx : Z) :
  0 <= s -> 0 <= idx ->
  (idx <= 0xFFFF ->
   exists id,
     make_rom_id s idx = Py.Ok id
     /\ id = s * 65536 + idx
     /\ extract_rom_index id = idx
     /\ extract_size_pow2 id = s mod 256
     /\ (s <= 255 -> extract_size_pow2 id = s /\ 0 <= id < 2 ^ 24))
  /\ (0xFFFF < idx -> make_rom_id s idx = Py.Raise Py.ValueError).
Proof.
  intros Hs Hi. split.
  - intros Hle. exists (Z.lor (Z.shiftl s 16) idx).
    assert (Z.lor (Z.shiftl s 16) idx = s * 65536 + idx) as Hid
      by (rewrite lor_shiftl_add by lia; reflexivity).
    split.
    { unfold make_rom_id.
      destruct (Z.gtb_spec idx 0xFFFF) as [Hgt|_]; [lia | reflexivity]. }
    split; [exact Hid|]. rewrite Hid.
    assert (extract_rom_index (s * 65536 + idx) = idx) as Hx.
    { unfold extract_rom_index. change 0xFFFF with (Z.ones 16).
      rewrite Z.land_ones by lia. change (2 ^ 16) with 65536.
      rewrite Z.add_comm, Z.mod_add by lia. apply Z.mod_small. lia. }
    assert (extract_size_pow2 (s * 65536 + idx) = s mod 256) as Hsz.
    { unfold extract_size_pow2. change 0xFF with (Z.ones 8).
      rewrite Z.land_ones by lia. rewrite Z.shiftr_div_pow2 by lia.
      change (2 ^ 16) with 65536. change (2 ^ 8) with 256.
      rewrite Z.add_comm, Z.div_add by lia.
      rewrite Z.div_small by lia. reflexivity. }
    split; [exact Hx|]. split; [exact Hsz|].
    intros Hs8. rewrite Hsz. split; [apply Z.mod_small; lia | lia].
  - intros Hgt. unfold make_rom_id.
    destruct (Z.gtb_spec idx 0xFFFF) as [_|Hle]; [reflexivity | lia].
Qed.

Lemma make_rom_id_round_trip_witness :
  (5 <= 0xFFFF ->
   exists id,
     make_rom_id 12 5 = Py.Ok id
     /\ id = 12 * 65536 + 5
     /\ extract_rom_index id = 5
     /\ extract_size_pow2 id = 12 mod 256
     /\ (12 <= 255 -> extract_size_pow2 id = 12 /\ 0 <= id < 2 ^ 24))
  /\ (0xFFFF < 5 -> make_rom_id 12 5 = Py.Raise Py.ValueError).
Proof.
  apply (make_rom_id_round_trip 12 5); lia.
Defined.

(** *** ROM sizes *)

Lemma land_pred_pow2 (n : Z) :
  0 < n -> Z.land n (n - 1) = 0 -> n = 2 ^ Z.log2 n.
Proof.
  intros Hn Hland.
  destruct (Z.log2_spec n Hn) as [Hlo Hhi].
  destruct (Z.eq_dec n (2 ^ Z.log2 n)) as [E|Hne]; [exact E|]. exfalso.
  assert (0 <= Z.log2 n) as Hk by apply Z.log2_nonneg.
  assert (Z.log2 (n - 1) = Z.log2 n) as Hlog.
  { apply Z.log2_unique; [exact Hk | lia]. }
  assert (Z.testbit (Z.land n (n - 1)) (Z.log2 n) = true) as Hbit.
  { rewrite Z.land_spec. rewrite (Z.bit_log2 n Hn).
    replace (Z.testbit (n - 1) (Z.log2 n)) with true; [reflexivity|].
    symmetry. rewrite <- Hlog. apply Z.bit_log2. lia. }
  rewrite Hland, Z.bits_0 in Hbit. discriminate.
Qed.

Lemma land_pow2_pred (k : Z) : 0 <= k -> Z.land (2 ^ k) (2 ^ k - 1) = 0.
Proof.
  intros Hk.
  replace (2 ^ k - 1) with (Z.ones k) by (rewrite Z.ones_equiv; lia).
  apply Z.bits_inj'. intros n Hn.
  rewrite Z.land_spec, Z.bits_0, Z.pow2_bits_eqb by lia.
  destruct (Z.eqb_spec k n) as [->|Hne]; [|reflexivity].
  rewrite Z.ones_spec_high by lia. reflexivity.
Qed.

Lemma valid_size_class (size : Z) :
  is_valid_rom_size (Some size) = true ->
  8 <= Z.log2 size <= 23 /\ size = 2 ^ Z.log2 size.
Proof.
  unfold is_valid_rom_size, MIN_ROM_SIZE, MAX_ROM_SIZE.
  destruct (Z.ltb_spec size 256) as [|Hlo]; [discriminate|].
  destruct (Z.gtb_spec size (8 * 1024 * 1024)) as [|Hhi]; [discriminate|].
  cbn [orb]. intros H. apply andb_true_iff in H as [_ H].
  apply Z.eqb_eq in H.
  pose proof (land_pred_pow2 size ltac:(lia) H) as Hpow.
  split; [|exact Hpow].
  split.
  - change 8 with (Z.log2 256). apply Z.log2_le_mono. exact Hlo.
  - change 23 with (Z.log2 (8 * 1024 * 1024)). apply Z.log2_le_mono. lia.
Qed.

(** X3.  [is_valid_rom_size] accepts exactly the powers of two from 2^8 = 256 to
    2^23 = 8 MB, and no missing size; for an accepted size, the class
    [int(math.log2(size))] stored with the ROM is that exponent. *)
Theorem is_valid_rom_size_iff (size : Z) :
  (is_valid_rom_size (Some size) = true
   <-> exists k, 8 <= k <= 23 /\ size = 2 ^ k)
  /\ (is_valid_rom_size (Some size) = true ->
      8 <= Z.log2 size <= 23 /\ size = 2 ^ Z.log2 size)
  /\ is_valid_rom_size None = false.
Proof.
  split; [|split; [apply valid_size_class | reflexivity]].
  split.
  - intros H. exists (Z.log2 size). apply (valid_size_class size H).
  - intros (k & Hk & ->).
    unfold is_valid_rom_size, MIN_ROM_SIZE, MAX_ROM_SIZE.
    assert (2 ^ 8 <= 2 ^ k) by (apply Z.pow_le_mono_r; lia).
    assert (2 ^ k <= 2 ^ 23) by (apply Z.pow_le_mono_r; lia).
    destruct (Z.ltb_spec (2 ^ k) 256) as [|_]; [lia|].
    destruct (Z.gtb_spec (2 ^ k) (8 * 1024 * 1024)) as [|_]; [lia|].
    cbn [orb]. apply andb_true_iff. split.
    + apply Z.gtb_lt. lia.
    + apply Z.eqb_eq. apply land_pow2_pred. lia.
Qed.

End HelperFacts.

(** ** The two post-processing passes on an arbitrary catalogue *)

Module PassFacts.
Import Schema Build PyFacts PostFacts.

#[local] Arguments String.eqb : simpl never.

Lemma null_if_orphan_Some (ids : list Z) (ref : option Z) (c : Z) :
  null_if_orphan ids ref = Some c -> ref = Some c /\ In c ids.
Proof.
  unfold null_if_orphan. destruct ref as [id|]; [|discriminate].
  destruct (mem_Z id ids) eqn:E; [|discriminate].
  intros [= <-]. split; [reflexivity | apply mem_Z_In, E].
Qed.

Lemma not_null_In {A : Type} (l : list (option A)) (a : A) :
  In a (not_null l) <-> In (Some a) l.
Proof.
  unfold not_null. rewrite in_flat_map. split.
  - intros ([b|] & Hin & Hb); cbn in Hb; [|contradiction].
    destruct Hb as [->|[]]. exact Hin.
  - intros Hin. exists (Some a). split; [exact Hin | left; reflexivity].
Qed.

Lemma filter_none {A : Type} (f : A -> bool) (l : list A) :
  (forall x, In x l -> f x = false) -> List.filter f l = [].
Proof.
  induction l as [|x l IH]; cbn [List.filter]; intros H; [reflexivity|].
  rewrite (H x (or_introl eq_refl)). apply IH.
  intros y Hy. apply H. right. exact Hy.
Qed.

(** X4.  [cleanup_orphans] deletes no ROM and no MachineRom row.  It keeps exactly
    the machines a MachineRom row references, unchanged but for their
    [cloneof_id] and [romof_id], which afterwards are NULL or the id of a
    machine that is kept; and it keeps exactly the manufacturers a kept
    machine names and the ROM names a ROM or a MachineRom row names. *)
Theorem cleanup_orphans_leaves_no_orphan (db : database) :
  let db' := cleanup_orphans db in
  roms db' = roms db
  /\ machine_roms db' = machine_roms db
  /\ (forall id, In id (map m_id (machines db'))
        <-> In id (map m_id (machines db))
            /\ In id (map mr_machine_id (machine_roms db)))
  /\ (forall m, In m (machines db') ->
        (exists m0, In m0 (machines db)
                    /\ m_id m = m_id m0 /\ m_name m = m_name m0
                    /\ m_description m = m_description m0
                    /\ m_year m = m_year m0
                    /\ m_manufacturer_id m = m_manufacturer_id m0
                    /\ (forall c, m_cloneof_id m = Some c -> m_cloneof_id m0 = Some c)
                    /\ (forall c, m_romof_id m = Some c -> m_romof_id m0 = Some c))
        /\ (forall c, m_cloneof_id m = Some c -> In c (map m_id (machines db')))
        /\ (forall c, m_romof_id m = Some c -> In c (map m_id (machines db'))))
  /\ (forall p, In p (manufacturers db')
        <-> In p (manufacturers db)
            /\ exists m, In m (machines db')
                         /\ m_manufacturer_id m = Some (fst p))
  /\ (forall p, In p (rom_names db')
        <-> In p (rom_names db)
            /\ ((exists r, In r (roms db) /\ rom_name_id r = Some (fst p))
                \/ (exists mr, In mr (machine_roms db)
                               /\ mr_name_id mr = Some (fst p)))).
Proof.
  cbv zeta. rewrite cleanup_eq.
  cbn [roms machine_roms machines manufacturers rom_names].
  split; [reflexivity|]. split; [reflexivity|].
  split.
  { intros id. rewrite cleaned_machines_ids. unfold kept_machines.
    rewrite !in_map_iff. split.
    - intros (m & <- & Hm). apply filter_In in Hm as [Hm Hl].
      split; [exists m; auto|]. apply mem_Z_In in Hl.
      apply in_map_iff in Hl. exact Hl.
    - intros ((m & <- & Hm) & Hl). exists m. split; [reflexivity|].
      apply filter_In. split; [exact Hm|]. apply mem_Z_In.
      apply in_map_iff. exact Hl. }
  split.
  { intros m Hm. unfold cleaned_machines in Hm.
    apply in_map_iff in Hm as (m0 & <- & Hm0).
    rewrite cleaned_machines_ids. unfold clean_refs.
    cbn [m_id m_name m_cloneof_id m_romof_id m_description m_year
           m_manufacturer_id].
    split; [|split].
    - exists m0. apply filter_In in Hm0 as [Hm0 _].
      split; [exact Hm0|]. repeat (split; [reflexivity|]).
      split; intros c Hc; apply null_if_orphan_Some in Hc; tauto.
    - intros c Hc. apply null_if_orphan_Some in Hc. tauto.
    - intros c Hc. apply null_if_orphan_Some in Hc. tauto. }
  split.
  { intros p. unfold cleaned_manufacturers. rewrite filter_In.
    split.
    - intros [Hp Hused]. split; [exact Hp|].
      apply mem_Z_In, not_null_In, in_map_iff in Hused as (m & Hid & Hm).
      exists (clean_refs (map m_id (kept_machines db)) m).
      split; [apply in_map, Hm | exact Hid].
    - intros [Hp (m & Hm & Hid)]. split; [exact Hp|].
      apply mem_Z_In, not_null_In, in_map_iff.
      unfold cleaned_machines in Hm. apply in_map_iff in Hm as (m0 & <- & Hm0).
      exists m0. split; [exact Hid | exact Hm0]. }
  intros p. unfold cleaned_rom_names. rewrite filter_In.
  rewrite negb_andb, !negb_involutive, orb_true_iff.
  rewrite !mem_Z_In, !not_null_In, !in_map_iff.
  split; (intros [Hp Hused]; split; [exact Hp|]);
    (destruct Hused as [(r & Hr)|(mr & Hmr)]; [left; exists r | right; exists mr]);
    tauto.
Qed.

(** X5.  Running [cleanup_orphans] again changes nothing, on any catalogue. *)
Theorem cleanup_orphans_twice (db : database) :
  cleanup_orphans (cleanup_orphans db) = cleanup_orphans db.
Proof. apply cleanup_idempotent. Qed.

Section WithZlib.
Variable compress : list byte -> list byte.

Lemma with_snk_In (db : database) :
  In (fst (with_snk db), "SNK") (manufacturers (snd (with_snk db)))
  /\ rom_names (snd (with_snk db)) = rom_names db
  /\ (forall p, In p (manufacturers db) ->
        In p (manufacturers (snd (with_snk db)))).
Proof.
  unfold with_snk.
  destruct (List.find _ (manufacturers db)) as [row|] eqn:Ef; cbn.
  - apply find_some in Ef as [Hin E]. apply String.eqb_eq in E.
    destruct row as [id n]. cbn in *. subst n. auto.
  - split; [apply in_or_app; right; left; reflexivity|].
    split; [reflexivity|]. intros p Hp. apply in_or_app. left. exact Hp.
Qed.

(** X6.  [extract_neogeo_bios] never raises.  It leaves the catalogue as it is
    when a machine named [neogeo_bios] exists or no ROM is a shared BIOS ROM.
    Otherwise it touches neither the ROMs nor the ROM names, appends one
    machine [neogeo_bios] of year 1990 with the id [MAX(id) + 1] and the
    manufacturer SNK, leaves every shared BIOS ROM referenced, and only by
    rows of that id, and keeps the rows of every other ROM as they were, in
    their order. *)
Theorem extract_neogeo_bios_effect (db : database) :
  exists db',
    extract_neogeo_bios compress db = Py.Ok db'
    /\ roms db' = roms db
    /\ rom_names db' = rom_names db
    /\ (has_neogeo_bios db = true \/ bios_rom_ids db = [] -> db' = db)
    /\ (has_neogeo_bios db = false -> bios_rom_ids db <> [] ->
        (exists m snk,
           machines db' = machines db ++ [m]
           /\ m_id m = max_machine_id db + 1
           /\ m_name m = "neogeo_bios"
           /\ m_cloneof_id m = None /\ m_romof_id m = None
           /\ m_year m = Some 1990
           /\ m_manufacturer_id m = Some snk
           /\ In (snk, "SNK") (manufacturers db'))
        /\ (forall mr, In mr (machine_roms db') ->
              In (mr_rom_id mr) (bios_rom_ids db) ->
              mr_machine_id mr = max_machine_id db + 1)
        /\ (forall rid, In rid (bios_rom_ids db) ->
              exists mr, In mr (machine_roms db') /\ mr_rom_id mr = rid)
        /\ List.filter (fun mr => negb (mem_Z (mr_rom_id mr) (bios_rom_ids db)))
             (machine_roms db')
           = List.filter (fun mr => negb (mem_Z (mr_rom_id mr) (bios_rom_ids db)))
               (machine_roms db)).
Proof.
  destruct (has_neogeo_bios db) eqn:Hn.
  { exists db. rewrite (extract_skip compress db Hn).
    do 3 (split; [reflexivity|]). split; [reflexivity | discriminate]. }
  destruct (bios_rom_ids db) as [|b bs] eqn:Hb.
  { exists db. rewrite (extract_none compress db Hb).
    do 3 (split; [reflexivity|]). split; [reflexivity | congruence]. }
  eexists. split.
  { apply extract_create; [exact Hn | congruence]. }
  destruct (with_snk_machines db) as (Hm & Hmr & Hr).
  destruct (with_snk_In db) as (Hsnk & Hnames & _).
  cbn [roms rom_names machines machine_roms manufacturers set_machine_roms
         set_machines].
  split; [exact Hr|]. split; [exact Hnames|].
  split; [intros [H|H]; discriminate|].
  intros _ _. rewrite <- Hb.
  split; [|split; [|split]].
  - exists (neogeo_machine compress db), (fst (with_snk db)).
    repeat (split; [reflexivity|]). exact Hsnk.
  - intros mr Hin Hbios. unfold bios_machine_roms in Hin.
    apply filter_In in Hin as [_ Hkeep].
    apply mem_Z_In in Hbios. rewrite Hbios in Hkeep. cbn in Hkeep.
    apply negb_true_iff, negb_false_iff, Z.eqb_eq in Hkeep. exact Hkeep.
  - intros rid Hrid.
    exists (bios_link (max_machine_id db + 1) (machine_roms db) rid).
    split; [|reflexivity]. unfold bios_machine_roms. apply filter_In. split.
    + apply in_or_app. right. apply in_map. exact Hrid.
    + cbn. rewrite Z.eqb_refl. cbn. rewrite andb_false_r. reflexivity.
  - unfold bios_machine_roms. rewrite List.filter_app.
    set (keep := fun mr : machine_rom_row =>
                   negb (mem_Z (mr_rom_id mr) (bios_rom_ids db)
                         && negb (mr_machine_id mr =? max_machine_id db + 1))).
    set (other := fun mr : machine_rom_row =>
                    negb (mem_Z (mr_rom_id mr) (bios_rom_ids db))).
    assert (forall l, List.filter other (List.filter keep l) = List.filter other l)
      as Hkeep.
    { induction l as [|mr l IH]; [reflexivity|]. cbn [List.filter].
      destruct (keep mr) eqn:Ek.
      - cbn [List.filter]. rewrite IH. reflexivity.
      - rewrite IH. unfold keep in Ek. unfold other.
        destruct (mem_Z (mr_rom_id mr) (bios_rom_ids db)); [reflexivity|].
        discriminate. }
    rewrite List.filter_app, !Hkeep.
    replace (List.filter other
               (map (bios_link (max_machine_id db + 1) (machine_roms db))
                  (bios_rom_ids db))) with (@nil machine_rom_row);
      [apply app_nil_r|].
    symmetry. apply filter_none. intros mr Hin.
    apply in_map_iff in Hin as (rid & <- & Hrid). unfold other.
    cbn [bios_link mr_rom_id]. apply mem_Z_In in Hrid. rewrite Hrid.
    reflexivity.
Qed.

End WithZlib.

End PassFacts.

(** ** The keys of an ingested catalogue *)

Module IntegrityFacts.
Import Schema Build PyFacts PostFacts IngestFacts.

#[local] Arguments String.eqb : simpl never.

(** The ids 1, 2, ..., n. *)
Definition ids1 (n : nat) : list Z := map Z.of_nat (seq 1 n).

Lemma ids1_S (n : nat) : ids1 (S n) = ids1 n ++ [Z.of_nat (S n)].
Proof. unfold ids1. rewrite seq_S, map_app. reflexivity. Qed.

Lemma ids1_length (n : nat) : length (ids1 n) = n.
Proof. unfold ids1. rewrite length_map, length_seq. reflexivity. Qed.

Lemma ids1_In (n : nat) (x : Z) : In x (ids1 n) <-> 1 <= x <= Z.of_nat n.
Proof.
  unfold ids1. rewrite in_map_iff. split.
  - intros (k & <- & Hk). apply in_seq in Hk. lia.
  - intros Hx. exists (Z.to_nat x). split; [lia|]. apply in_seq. lia.
Qed.

Lemma ids1_NoDup (n : nat) : List.NoDup (ids1 n).
Proof.
  unfold ids1. apply Finite.Injective_map_NoDup; [|apply seq_NoDup].
  intros a b. lia.
Qed.

Lemma max_list_app (l1 l2 : list Z) :
  max_list (l1 ++ l2) = Z.max (max_list l1) (max_list l2).
Proof.
  unfold max_list. induction l1 as [|x l1 IH]; cbn [app fold_right].
  - assert (0 <= fold_right Z.max 0 l2) by (induction l2; cbn; lia). lia.
  - rewrite IH. lia.
Qed.

Lemma max_list_ids1 (n : nat) : max_list (ids1 n) = Z.of_nat n.
Proof.
  induction n as [|n IH]; [reflexivity|].
  rewrite ids1_S, max_list_app, IH. cbn [max_list fold_right]. lia.
Qed.

Lemma autoincrement_ids1 (seq : Z) (n : nat) :
  seq <= Z.of_nat n -> autoincrement seq (ids1 n) = Z.of_nat (S n).
Proof. intros H. unfold autoincrement. rewrite max_list_ids1. lia. Qed.

(** *** What [parse_machine] lets through *)

Definition valid_rom (r : rom_rec) : Prop :=
  is_valid_rom_size (Some (r_size r)) = true /\ r_sha1 r <> "".

Lemma parse_rom_valid (e : rom_elem) (r : rom_rec) :
  parse_rom e = Some r -> valid_rom r.
Proof.
  unfold parse_rom, valid_rom.
  set (size := match re_size e with
               | Some (String c r0 as size_str) => Py.int size_str
               | _ => None
               end).
  destruct (is_valid_rom_size size) eqn:Ev; [|discriminate]. cbn [negb].
  destruct (re_sha1 e) as [[|c s]|]; try discriminate.
  intros [= <-]. cbn [r_size r_sha1].
  destruct size as [z|]; [|discriminate]. cbn [default]. split; [exact Ev|].
  discriminate.
Qed.

Lemma parse_roms_valid (es : list rom_elem) : Forall valid_rom (parse_roms es).
Proof.
  induction es as [|e es IH]; cbn [parse_roms fold_right]; [constructor|].
  fold (parse_roms es).
  destruct (parse_rom e) as [r|] eqn:E; [|exact IH].
  constructor; [apply (parse_rom_valid e r E) | exact IH].
Qed.

Lemma valid_rom_class (r : rom_rec) :
  valid_rom r -> 8 <= Z.log2 (r_size r) <= 23.
Proof.
  intros [H _]. apply (HelperFacts.valid_size_class (r_size r)) in H.
  tauto.
Qed.

(** *** What one ROM changes *)

Section WithZlib.
Variable compress : list byte -> list byte.

Lemma process_rom_full (mid : Z) (rom : rom_rec) (st st' : pstate) :
  process_rom mid rom st = Py.Ok st' ->
  exists rid nid n,
    r_name rom = Some n
    /\ ps_machine_roms_data st'
       = ps_machine_roms_data st ++ [mk_machine_rom_row mid rid (Some nid)]
    /\ machines (ps_db st') = machines (ps_db st)
    /\ machine_roms (ps_db st') = machine_roms (ps_db st)
    /\ manufacturers (ps_db st') = manufacturers (ps_db st)
    /\ ps_machines_data st' = ps_machines_data st
    /\ ps_machine_id st' = ps_machine_id st
    /\ manufacturers_cache (ps_caches st') = manufacturers_cache (ps_caches st)
    /\ existing_machines (ps_caches st') = existing_machines (ps_caches st)
    /\ ((rom_names (ps_db st') = rom_names (ps_db st)
         /\ rom_names_cache (ps_caches st') = rom_names_cache (ps_caches st)
         /\ rom_names_cache (ps_caches st) !! n = Some nid)
        \/ (rom_names (ps_db st') = rom_names (ps_db st) ++ [(nid, n)]
            /\ rom_names_cache (ps_caches st')
               = <[n := nid]> (rom_names_cache (ps_caches st))
            /\ rom_names_cache (ps_caches st) !! n = None))
    /\ ((roms (ps_db st') = roms (ps_db st)
         /\ roms_seq (ps_db st') = roms_seq (ps_db st)
         /\ roms_cache (ps_caches st') = roms_cache (ps_caches st)
         /\ exists v, roms_cache (ps_caches st) !! r_sha1 rom = Some (rid, v))
        \/ (exists h crc,
              Py.fromhex (r_sha1 rom) = Some h
              /\ roms (ps_db st')
                 = roms (ps_db st)
                   ++ [mk_rom_row rid (Some h) crc (Z.log2 (r_size rom)) (Some nid)]
              /\ rid = autoincrement (roms_seq (ps_db st))
                         (map rom_id (roms (ps_db st)))
              /\ roms_seq (ps_db st') = rid
              /\ roms_cache (ps_caches st')
                 = <[r_sha1 rom := (rid, nid)]> (roms_cache (ps_caches st))
              /\ roms_cache (ps_caches st) !! r_sha1 rom = None)).
Proof.
  unfold process_rom. intros H.
  destruct (r_name rom) as [n|] eqn:En; [|discriminate].
  cbn [mbind option_bind default] in H.
  destruct (rom_names_cache (ps_caches st) !! n) as [id|] eqn:Ecn.
  - cbn [Py.bind] in H.
    destruct (roms_cache (ps_caches st) !! r_sha1 rom) as [[rid v]|] eqn:Ec.
    + cbn [Py.bind] in H. injection H as <-. exists rid, id, n. cbn.
      do 9 (split; [reflexivity|]). split; [left; auto|]. left. eauto 6.
    + destruct (Py.fromhex (r_sha1 rom)) as [h|]; [|discriminate].
      cbn [Py.bind] in H.
      destruct (r_crc rom) as [[|c s]|]; cbn [Py.bind] in H;
        try (destruct (Py.fromhex (String c s)); [|discriminate]; cbn [Py.bind] in H);
        injection H as <-; eexists _, id, n; cbn;
        (do 9 (split; [reflexivity|])); (split; [left; auto|]);
        right; eexists h, _; (do 5 (split; [reflexivity|])); reflexivity.
  - unfold insert_rom_name in H.
    destruct (existsb _ _); [discriminate|]. cbn [Py.bind] in H.
    destruct (roms_cache (ps_caches st) !! r_sha1 rom) as [[rid v]|] eqn:Ec.
    + cbn [Py.bind] in H. injection H as <-. eexists rid, _, n. cbn.
      do 9 (split; [reflexivity|]). split; [right; auto|]. left. eauto 6.
    + destruct (Py.fromhex (r_sha1 rom)) as [h|]; [|discriminate].
      cbn [Py.bind] in H.
      destruct (r_crc rom) as [[|c s]|]; cbn [Py.bind] in H;
        try (destruct (Py.fromhex (String c s)); [|discriminate]; cbn [Py.bind] in H);
        injection H as <-; eexists _, _, n; cbn;
        (do 9 (split; [reflexivity|])); (split; [right; auto|]);
        right; eexists h, _; (do 5 (split; [reflexivity|])); reflexivity.
Qed.

(** *** The invariant of the walk over a document *)

Definition rom_ok (names : list (Z * string)) (r : rom_row) : Prop :=
  exists h nid,
    rom_sha1 r = Some h /\ 8 <= rom_size_pow2 r <= 23
    /\ rom_name_id r = Some nid /\ In nid (map fst names).

Definition row_ok (names : list (Z * string)) (mr : machine_rom_row) : Prop :=
  exists nid, mr_name_id mr = Some nid /\ In nid (map fst names).

Record inv (st : pstate) : Prop := mk_inv {
  inv_machine_id : 0 <= ps_machine_id st;
  inv_machine_ids : all_machine_ids st = ids1 (Z.to_nat (ps_machine_id st));
  inv_rom_ids : map rom_id (roms (ps_db st)) = ids1 (length (roms (ps_db st)));
  inv_roms_seq : roms_seq (ps_db st) <= Z.of_nat (length (roms (ps_db st)));
  inv_roms : forall r, In r (roms (ps_db st)) -> rom_ok (rom_names (ps_db st)) r;
  inv_rows : forall mr, In mr (all_rows st) -> row_ok (rom_names (ps_db st)) mr;
  inv_names_cache : forall s v,
    rom_names_cache (ps_caches st) !! s = Some v ->
    In v (map fst (rom_names (ps_db st)));
  inv_manuf_cache : forall s v,
    manufacturers_cache (ps_caches st) !! s = Some v ->
    In v (map fst (manufacturers (ps_db st)));
  inv_manuf_data : forall md k,
    In md (ps_machines_data st) -> md_manuf_id md = Some k ->
    In k (map fst (manufacturers (ps_db st)));
  inv_manuf_rows : forall m k,
    In m (machines (ps_db st)) -> m_manufacturer_id m = Some k ->
    In k (map fst (manufacturers (ps_db st)))
}.

Lemma rom_ok_mono (names names' : list (Z * string)) (r : rom_row) :
  (forall v, In v (map fst names) -> In v (map fst names')) ->
  rom_ok names r -> rom_ok names' r.
Proof.
  intros Hsub (h & nid & H1 & H2 & H3 & H4). exists h, nid. auto.
Qed.

Lemma row_ok_mono (names names' : list (Z * string)) (mr : machine_rom_row) :
  (forall v, In v (map fst names) -> In v (map fst names')) ->
  row_ok names mr -> row_ok names' mr.
Proof. intros Hsub (nid & H1 & H2). exists nid. auto. Qed.

Lemma process_rom_inv (mid : Z) (rom : rom_rec) (st st' : pstate) :
  process_rom mid rom st = Py.Ok st' ->
  valid_rom rom -> inv st -> inv st'.
Proof.
  intros H Hvalid [Hn Hids Hrids Hseq Hroms Hrows Hnc Hmc Hmd Hmr].
  destruct (process_rom_full mid rom st st' H)
    as (rid & nid & n & Hname & Hdata & Hm & Hmrs & Hmf & Hmds & Hid & Hmfc
        & Hex & Hnames & Hcase).
  assert (forall v, In v (map fst (rom_names (ps_db st))) ->
                    In v (map fst (rom_names (ps_db st')))) as Hsub.
  { destruct Hnames as [(-> & _)|(-> & _)]; [auto|].
    intros v Hv. rewrite map_app. apply in_or_app. left. exact Hv. }
  assert (In nid (map fst (rom_names (ps_db st')))) as Hnid.
  { destruct Hnames as [(-> & _ & Hc)|(-> & _)]; [apply (Hnc _ _ Hc)|].
    rewrite map_app. apply in_or_app. right. left. reflexivity. }
  assert (all_rows st'
          = all_rows st ++ [mk_machine_rom_row mid rid (Some nid)]) as Hall.
  { unfold all_rows. rewrite Hmrs, Hdata, app_assoc. reflexivity. }
  constructor.
  - rewrite Hid. exact Hn.
  - unfold all_machine_ids in *. rewrite Hm, Hmds, Hid. exact Hids.
  - destruct Hcase as [(-> & _)|(h & crc & _ & -> & Hrid & _)]; [exact Hrids|].
    rewrite map_app, length_app, Hrids. cbn [map length rom_id].
    rewrite Hrid, Hrids, autoincrement_ids1 by exact Hseq.
    rewrite Nat.add_1_r, ids1_S. reflexivity.
  - destruct Hcase as [(-> & -> & _)|(h & crc & _ & -> & Hrid & -> & _)];
      [exact Hseq|].
    rewrite Hrid, Hrids, autoincrement_ids1 by exact Hseq.
    rewrite length_app. cbn [length]. lia.
  - intros r Hr.
    destruct Hcase as [(Hsame & _)|(h & crc & _ & Hnew & _)].
    + rewrite Hsame in Hr. apply (rom_ok_mono _ _ _ Hsub), Hroms, Hr.
    + rewrite Hnew in Hr. apply in_app_or in Hr as [Hr|[<-|[]]].
      * apply (rom_ok_mono _ _ _ Hsub), Hroms, Hr.
      * exists h, nid. cbn. split; [reflexivity|].
        split; [apply valid_rom_class, Hvalid|]. auto.
  - intros mr Hin. rewrite Hall in Hin. apply in_app_or in Hin as [Hin|[<-|[]]].
    + apply (row_ok_mono _ _ _ Hsub), Hrows, Hin.
    + exists nid. auto.
  - intros s v.
    destruct Hnames as [(-> & -> & _)|(-> & -> & _)]; [apply Hnc|].
    rewrite lookup_insert. case_decide.
    + intros [= <-]. rewrite map_app. apply in_or_app. right. left. reflexivity.
    + intros Hv. rewrite map_app. apply in_or_app. left. apply (Hnc _ _ Hv).
  - rewrite Hmfc, Hmf. exact Hmc.
  - rewrite Hmds, Hmf. exact Hmd.
  - rewrite Hm, Hmf. exact Hmr.
Qed.

Lemma process_roms_inv (mid : Z) (rs : list rom_rec) (st st' : pstate) :
  process_roms mid rs st = Py.Ok st' ->
  Forall valid_rom rs -> inv st -> inv st'.
Proof.
  revert st. induction rs as [|rom rs IH]; intros st H Hv Hinv; simpl in H.
  - injection H as <-. exact Hinv.
  - destruct (process_rom mid rom st) as [st1|] eqn:E1; [|discriminate].
    cbn [Py.bind] in H. inversion Hv as [|? ? Hv1 Hv2]; subst.
    apply (IH st1 H Hv2), (process_rom_inv mid rom st st1 E1 Hv1 Hinv).
Qed.

Lemma process_machine_inv (elem : machine_elem) (st st' : pstate) :
  process_machine compress elem st = Py.Ok st' -> inv st -> inv st'.
Proof.
  unfold process_machine, parse_machine. intros H Hinv.
  pose proof (parse_roms_valid (me_roms elem)) as Hvalid.
  cbn [a_name a_manufacturer a_description a_cloneof a_romof a_year] in H.
  destruct (parse_roms (me_roms elem)) as [|rom rs];
    [injection H as <-; exact Hinv|].
  destruct (me_name elem) as [[|c nm]|]; try (injection H as <-; exact Hinv).
  destruct (decide _); [injection H as <-; exact Hinv|].
  match type of H with
  | Py.bind ?m _ = _ => destruct m as [[[manuf_id db1] manufs]|] eqn:Em
  end; [|discriminate].
  cbn [Py.bind] in H.
  destruct Hinv as [Hn Hids Hrids Hseq Hroms Hrows Hnc Hmc Hmd Hmr].
  assert (roms db1 = roms (ps_db st) /\ roms_seq db1 = roms_seq (ps_db st)
          /\ rom_names db1 = rom_names (ps_db st)
          /\ machines db1 = machines (ps_db st)
          /\ machine_roms db1 = machine_roms (ps_db st)
          /\ (forall v, In v (map fst (manufacturers (ps_db st))) ->
                        In v (map fst (manufacturers db1)))
          /\ (forall k, manuf_id = Some k -> In k (map fst (manufacturers db1)))
          /\ (forall s v, manufs !! s = Some v ->
                          In v (map fst (manufacturers db1))))
    as (Hr1 & Hs1 & Hn1 & Hm1 & Hmr1 & Hsub & Hk & Hc1).
  { destruct (me_manufacturer elem) as [[|c' s']|].
    - injection Em as <- <- <-. do 6 (split; [auto|]). split; [discriminate|auto].
    - destruct (manufacturers_cache (ps_caches st) !! String c' s') as [id|] eqn:Ec.
      + injection Em as <- <- <-. do 6 (split; [auto|]).
        split; [intros k [= <-]; apply (Hmc _ _ Ec) | auto].
      + unfold insert_manufacturer in Em.
        destruct (existsb _ _); [discriminate|]. cbn [Py.bind] in Em.
        injection Em as <- <- <-. cbn.
        do 5 (split; [reflexivity|]).
        split; [intros v Hv; rewrite map_app; apply in_or_app; left; exact Hv|].
        split.
        * intros k [= <-]. rewrite map_app. apply in_or_app. right. left.
          reflexivity.
        * intros s v. rewrite lookup_insert. case_decide.
          -- intros [= <-]. rewrite map_app. apply in_or_app. right. left.
             reflexivity.
          -- intros Hv. rewrite map_app. apply in_or_app. left.
             apply (Hmc _ _ Hv).
    - injection Em as <- <- <-. do 6 (split; [auto|]). split; [discriminate|auto]. }
  refine (process_roms_inv _ _ _ _ H Hvalid _).
  constructor; cbn [ps_db ps_caches ps_machine_id ps_machines_data
                      ps_machine_roms_data rom_names_cache manufacturers_cache].
  - lia.
  - unfold all_machine_ids in *.
    cbn [ps_db ps_machines_data]. rewrite Hm1, map_app, app_assoc, Hids.
    cbn [map md_id].
    replace (Z.to_nat (ps_machine_id st + 1)) with (S (Z.to_nat (ps_machine_id st)))
      by lia.
    rewrite ids1_S. f_equal. f_equal. lia.
  - rewrite Hr1. exact Hrids.
  - rewrite Hr1, Hs1. exact Hseq.
  - rewrite Hr1, Hn1. exact Hroms.
  - unfold all_rows in *. cbn [ps_db ps_machine_roms_data].
    rewrite Hmr1, Hn1. exact Hrows.
  - rewrite Hn1. exact Hnc.
  - exact Hc1.
  - intros md k Hin Hmk. apply in_app_or in Hin as [Hin|[<-|[]]].
    + apply Hsub, (Hmd md k Hin Hmk).
    + cbn [md_manuf_id] in Hmk. apply (Hk k Hmk).
  - rewrite Hm1. intros m k Hin Hmk. apply Hsub, (Hmr m k Hin Hmk).
Qed.

Lemma process_machines_inv (doc : list machine_elem) (st st' : pstate) :
  process_machines compress doc st = Py.Ok st' -> inv st -> inv st'.
Proof.
  revert st. induction doc as [|elem doc IH]; intros st H Hinv; simpl in H.
  - injection H as <-. exact Hinv.
  - destruct (process_machine compress elem st) as [st1|] eqn:E1; [|discriminate].
    cbn [Py.bind] in H.
    apply (IH st1 H), (process_machine_inv elem st st1 E1 Hinv).
Qed.

Lemma process_roms_tables (mid : Z) (rs : list rom_rec) (st st' : pstate) :
  process_roms mid rs st = Py.Ok st' ->
  machines (ps_db st') = machines (ps_db st)
  /\ machine_roms (ps_db st') = machine_roms (ps_db st).
Proof.
  revert st. induction rs as [|rom rs IH]; intros st H; simpl in H.
  - injection H as <-. auto.
  - destruct (process_rom mid rom st) as [st1|] eqn:E1; [|discriminate].
    cbn [Py.bind] in H.
    destruct (process_rom_full mid rom st st1 E1)
      as (rid & nid & n & _ & _ & Hm & Hmrs & _).
    destruct (IH st1 H) as [Hm' Hmrs']. split; congruence.
Qed.

Lemma process_machine_tables (elem : machine_elem) (st st' : pstate) :
  process_machine compress elem st = Py.Ok st' ->
  machines (ps_db st') = machines (ps_db st)
  /\ machine_roms (ps_db st') = machine_roms (ps_db st).
Proof.
  unfold process_machine. intros H.
  destruct (parse_machine elem) as [attrs rs].
  destruct rs as [|rom rs]; [injection H as <-; auto|].
  destruct (a_name attrs) as [[|c nm]|]; try (injection H as <-; auto).
  destruct (decide _); [injection H as <-; auto|].
  match type of H with
  | Py.bind ?m _ = _ => destruct m as [[[manuf_id db1] manufs]|] eqn:Em
  end; [|discriminate].
  cbn [Py.bind] in H.
  assert (machines db1 = machines (ps_db st)
          /\ machine_roms db1 = machine_roms (ps_db st)) as (Hm1 & Hmr1).
  { destruct (a_manufacturer attrs) as [[|c' s']|];
      try (injection Em as <- <- <-; auto).
    destruct (manufacturers_cache (ps_caches st) !! String c' s');
      [injection Em as <- <- <-; auto|].
    destruct (insert_manufacturer _ _) as [[id db']|] eqn:Ei; [|discriminate].
    cbn [Py.bind] in Em. injection Em as <- <- <-.
    destruct (insert_manufacturer_tables _ _ _ _ Ei) as (_ & ? & ?). auto. }
  destruct (process_roms_tables _ _ _ _ H) as [Hm Hmrs]. cbn [ps_db] in *.
  split; congruence.
Qed.

Lemma process_machines_tables (doc : list machine_elem) (st st' : pstate) :
  process_machines compress doc st = Py.Ok st' ->
  machines (ps_db st') = machines (ps_db st)
  /\ machine_roms (ps_db st') = machine_roms (ps_db st).
Proof.
  revert st. induction doc as [|elem doc IH]; intros st H; simpl in H.
  - injection H as <-. auto.
  - destruct (process_machine compress elem st) as [st1|] eqn:E1; [|discriminate].
    cbn [Py.bind] in H.
    destruct (process_machine_tables elem st st1 E1) as [Hm1 Hmr1].
    destruct (IH st1 H) as [Hm' Hmr']. split; congruence.
Qed.

(** *** The machines of a document, once inserted *)

(** The row [process_dat_file] inserts for an entry of [machines_data]. *)
Definition to_row (d : gmap string Z) (m : machine_data) : machine_row :=
  mk_machine_row (md_id m) (md_name m) (resolve d (md_cloneof m))
    (resolve d (md_romof m)) (md_desc m) (md_year m) (md_manuf_id m).

Lemma insert_machines_closed (d : gmap string Z) (mds : list machine_data)
  (db db' : database) :
  insert_machines d mds db = Py.Ok db' ->
  db' = set_machines (machines db ++ map (to_row d) mds) db
  /\ (List.NoDup (map m_name (machines db)) ->
      List.NoDup (map m_name (machines db')))
  /\ (forall m, In m mds -> year_check (md_year m) = true).
Proof.
  revert db. induction mds as [|m mds IH]; intros db H; simpl in H.
  - injection H as <-. rewrite app_nil_r. split; [|split; [auto | intros m []]].
    destruct db; reflexivity.
  - fold (to_row d m) in H. unfold insert_machine in H at 1.
    destruct (mem_Z _ _ || existsb _ _ || negb _) eqn:E; [discriminate|].
    cbn [Py.bind] in H.
    apply orb_false_iff in E as [E Hy]. apply orb_false_iff in E as [_ Hname].
    apply negb_false_iff in Hy. cbn [to_row m_year m_name] in Hy, Hname.
    destruct (IH _ H) as (-> & Hnd & Hyears).
    cbn [machines set_machines] in *. split; [|split].
    + rewrite <- app_assoc. reflexivity.
    + intros Hnames. apply Hnd. rewrite map_app. cbn [map to_row m_name].
      apply NoDup_ListNoDup. apply NoDup_app. split; [|split].
      * apply NoDup_ListNoDup, Hnames.
      * intros x Hx [Hin|Hin]%elem_of_cons; [|inversion Hin]. subst x.
        apply list_elem_of_In in Hx.
        assert (existsb (String.eqb (md_name m)) (map m_name (machines db)) = true)
          as Ht; [|congruence].
        apply existsb_exists. exists (md_name m).
        split; [exact Hx | apply String.eqb_refl].
      * apply NoDup_singleton.
    + intros m' [<-|Hin]; [exact Hy | apply Hyears, Hin].
Qed.

Lemma fold_insert_range {R K V : Type} `{Countable K} (key : R -> K)
  (val : R -> V) (rows : list R) (d : gmap K V) (k : K) (v : V) :
  fold_left (fun d row => <[key row := val row]> d) rows d !! k = Some v ->
  (exists row, In row rows /\ v = val row) \/ d !! k = Some v.
Proof.
  revert d. induction rows as [|row rows IH]; intros d Hl; cbn in Hl; [auto|].
  destruct (IH _ Hl) as [(row' & Hin & Hv)|Hd].
  - left. exists row'. split; [right; exact Hin | exact Hv].
  - rewrite lookup_insert in Hd. case_decide.
    + injection Hd as <-. left. exists row. split; [left; reflexivity|reflexivity].
    + right. exact Hd.
Qed.

Lemma name_to_id_range (mds : list machine_data) (db : database) (s : string)
  (v : Z) :
  name_to_id mds db !! s = Some v ->
  In v (map m_id (machines db)) \/ In v (map md_id mds).
Proof.
  unfold name_to_id. intros Hl.
  apply fold_insert_range in Hl as [(m & Hin & ->)|Hl].
  { left. apply in_map, Hin. }
  apply fold_insert_range in Hl as [(m & Hin & ->)|Hl].
  { right. apply in_map, Hin. }
  rewrite lookup_empty in Hl. discriminate.
Qed.

Lemma resolve_range (mds : list machine_data) (db : database)
  (ref : option string) (v : Z) :
  resolve (name_to_id mds db) ref = Some v ->
  In v (map m_id (machines db) ++ map md_id mds).
Proof.
  unfold resolve. destruct ref as [s|]; [|discriminate]. cbn.
  intros Hl. apply in_or_app. apply (name_to_id_range _ _ _ _ Hl).
Qed.

(** *** The invariant between two documents *)

Record wf (db : database) (c : caches) (n : Z) : Prop := mk_wf {
  wf_n : 0 <= n;
  wf_machine_ids : map m_id (machines db) = ids1 (Z.to_nat n);
  wf_rom_ids : map rom_id (roms db) = ids1 (length (roms db));
  wf_roms_seq : roms_seq db <= Z.of_nat (length (roms db));
  wf_roms : forall r, In r (roms db) -> rom_ok (rom_names db) r;
  wf_rows : forall mr, In mr (machine_roms db) -> row_ok (rom_names db) mr;
  wf_names_cache : forall s v,
    rom_names_cache c !! s = Some v -> In v (map fst (rom_names db));
  wf_manuf_cache : forall s v,
    manufacturers_cache c !! s = Some v -> In v (map fst (manufacturers db));
  wf_manuf_rows : forall m k,
    In m (machines db) -> m_manufacturer_id m = Some k ->
    In k (map fst (manufacturers db));
  wf_parents : forall m p,
    In m (machines db) -> m_cloneof_id m = Some p \/ m_romof_id m = Some p ->
    In p (map m_id (machines db));
  wf_machine_names : List.NoDup (map m_name (machines db));
  wf_years : forall m y,
    In m (machines db) -> m_year m = Some y -> 0 <= y <= 65535
}.

Lemma process_dat_file_wf (doc : list machine_elem) (db db' : database)
  (c c' : caches) (n n' : Z) :
  process_dat_file compress doc db c n = Py.Ok (db', c', n') ->
  wf db c n -> wf db' c' n'.
Proof.
  unfold process_dat_file. intros H Hwf.
  destruct (process_machines compress doc _) as [st|] eqn:Est; [|discriminate].
  cbn [Py.bind] in H.
  destruct (insert_machines _ _ _) as [db1|] eqn:Ei; [|discriminate].
  cbn [Py.bind] in H. injection H as <- <- <-.
  destruct Hwf as [Hn Hids Hrids Hseq Hroms Hrows Hnc Hmc Hmr Hpar Hnames Hyears].
  assert (inv (mk_pstate db c n [] [])) as Hinv0.
  { constructor; unfold all_rows, all_machine_ids; cbn; rewrite ?app_nil_r;
      try assumption. intros md k []. }
  pose proof (process_machines_inv doc _ st Est Hinv0)
    as [Hn' Hids' Hrids' Hseq' Hroms' Hrows' Hnc' Hmc' Hmd' Hmr'].
  destruct (process_machines_tables doc _ st Est) as [Hm Hmrs].
  cbn [ps_db] in Hm, Hmrs.
  destruct (insert_machines_closed _ _ _ _ Ei) as (-> & Hnd & Hyc).
  set (mds := ps_machines_data st) in *.
  set (d := name_to_id mds (ps_db st)) in *.
  assert (map m_id (machines (ps_db st) ++ map (to_row d) mds)
          = all_machine_ids st) as Hall.
  { unfold all_machine_ids. rewrite map_app, map_map. reflexivity. }
  constructor;
    cbn [machines machine_roms roms roms_seq rom_names manufacturers
           set_machines set_machine_roms].
  - exact Hn'.
  - rewrite Hall. exact Hids'.
  - exact Hrids'.
  - exact Hseq'.
  - exact Hroms'.
  - exact Hrows'.
  - exact Hnc'.
  - exact Hmc'.
  - intros m k Hin Hmk. apply in_app_or in Hin as [Hin|Hin].
    + apply (Hmr' m k Hin Hmk).
    + apply in_map_iff in Hin as (md & <- & Hin). apply (Hmd' md k Hin Hmk).
  - intros m p Hin Hp. rewrite Hall. unfold all_machine_ids.
    apply in_app_or in Hin as [Hin|Hin].
    + apply in_or_app. left. rewrite Hm. rewrite Hm in Hin.
      apply (Hpar m p Hin Hp).
    + apply in_map_iff in Hin as (md & <- & Hin). cbn [to_row m_cloneof_id m_romof_id] in Hp.
      destruct Hp as [Hp|Hp]; apply (resolve_range _ _ _ _ Hp).
  - apply Hnd. rewrite Hm. exact Hnames.
  - intros m y Hin Hy. apply in_app_or in Hin as [Hin|Hin].
    + rewrite Hm in Hin. apply (Hyears m y Hin Hy).
    + apply in_map_iff in Hin as (md & <- & Hin). cbn [to_row m_year] in Hy.
      pose proof (Hyc md Hin) as Hc. rewrite Hy in Hc. cbn in Hc.
      apply andb_true_iff in Hc as [H1 H2]. apply Z.leb_le in H1, H2. lia.
Qed.

Lemma process_dat_files_wf (docs : list (list machine_elem))
  (db db' : database) (c c' : caches) (n n' : Z) :
  process_dat_files compress docs db c n = Py.Ok (db', c', n') ->
  wf db c n -> wf db' c' n'.
Proof.
  revert db c n. induction docs as [|doc docs IH]; intros db c n H Hok; simpl in H.
  - injection H as <- <- <-. exact Hok.
  - destruct (process_dat_file compress doc db c n) as [[[db1 c1] n1]|] eqn:E1;
      [|discriminate].
    cbn [Py.bind] in H.
    apply (IH _ _ _ H), (process_dat_file_wf _ _ _ _ _ _ _ E1 Hok).
Qed.

Lemma wf_empty : wf empty_database empty_caches 0.
Proof.
  constructor; cbn; try reflexivity; try lia;
    try (intros s v; rewrite lookup_empty; discriminate);
    try (intros ? []); try (intros ? ? []).
  constructor.
Qed.

Lemma ingest_wf (docs : list (list machine_elem)) (db : database) :
  ingest compress docs = Py.Ok db ->
  exists c n, wf db c n /\ catalogue_ok db c.
Proof.
  unfold ingest. intros H.
  destruct (process_dat_files compress docs _ _ _) as [[[db1 c1] n1]|] eqn:E;
    [|discriminate].
  cbn [Py.bind] in H. injection H as <-. exists c1, n1. split.
  - apply (process_dat_files_wf _ _ _ _ _ _ _ E wf_empty).
  - apply (process_dat_files_ok compress _ _ _ _ _ _ _ E).
    split; constructor; cbn.
    + intros mr [].
    + intros r [].
    + intros k v. rewrite lookup_empty. discriminate.
    + intros mr [].
    + intros id [].
Qed.

End WithZlib.

(** *** The keys of a catalogue *)

(** SQLite is left to its default, which enforces no foreign key: the keys
    hold because the scripts keep them. *)
Record fk (db : database) : Prop := mk_fk {
  fk_machine_ids : List.NoDup (map m_id (machines db));
  fk_machine_names : List.NoDup (map m_name (machines db));
  fk_rom_ids : List.NoDup (map rom_id (roms db));
  fk_rows : forall mr, In mr (machine_roms db) ->
    In (mr_machine_id mr) (map m_id (machines db))
    /\ In (mr_rom_id mr) (map rom_id (roms db))
    /\ row_ok (rom_names db) mr;
  fk_roms : forall r, In r (roms db) ->
    rom_ok (rom_names db) r
    /\ In (rom_id r) (map mr_rom_id (machine_roms db));
  fk_machines : forall m, In m (machines db) ->
    (forall k, m_manufacturer_id m = Some k ->
       In k (map fst (manufacturers db)))
    /\ (forall p, m_cloneof_id m = Some p \/ m_romof_id m = Some p ->
          In p (map m_id (machines db)))
    /\ (forall y, m_year m = Some y -> 0 <= y <= 65535)
}.

(** Every machine has a MachineRom row. *)
Definition linked (db : database) : Prop :=
  forall m, In m (machines db) ->
    In (m_id m) (map mr_machine_id (machine_roms db)).

Lemma wf_fk (db : database) (c : caches) (n : Z) :
  wf db c n -> catalogue_ok db c -> fk db /\ linked db.
Proof.
  intros [Hn Hids Hrids Hseq Hroms Hrows Hnc Hmc Hmr Hpar Hnames Hyears]
    [[Hrefs Hfirst _] [Hmach Hlinked]].
  split; [constructor|].
  - rewrite Hids. apply ids1_NoDup.
  - exact Hnames.
  - rewrite Hrids. apply ids1_NoDup.
  - intros mr Hin. auto.
  - intros r Hr. split; [auto|].
    destruct (Hfirst r Hr) as (mr & Hfind & _).
    apply find_some in Hfind as [Hin Hid]. apply Z.eqb_eq in Hid.
    rewrite <- Hid. apply in_map, Hin.
  - intros m Hm. split; [|split].
    + intros k Hk. apply (Hmr m k Hm Hk).
    + intros p Hp. apply (Hpar m p Hm Hp).
    + intros y Hy. apply (Hyears m y Hm Hy).
  - intros m Hm.
    destruct (Hlinked (m_id m) (in_map m_id _ _ Hm)) as (mr & Hin & <-).
    apply in_map, Hin.
Qed.

Lemma NoDup_map_filter {A B : Type} (f : A -> B) (p : A -> bool) (l : list A) :
  List.NoDup (map f l) -> List.NoDup (map f (List.filter p l)).
Proof.
  induction l as [|x l IH]; cbn [map List.filter]; intros H; [constructor|].
  inversion H as [|? ? Hx Hl]; subst.
  destruct (p x); [|apply IH, Hl]. cbn [map]. constructor; [|apply IH, Hl].
  intros Hin. apply Hx. apply in_map_iff in Hin as (y & Hy & Hin).
  apply filter_In in Hin as [Hin _]. rewrite <- Hy. apply in_map, Hin.
Qed.

Lemma cleanup_fk (db : database) :
  fk db -> fk (cleanup_orphans db) /\ linked (cleanup_orphans db).
Proof.
  intros [Hids Hnames Hrids Hrows Hroms Hmachines].
  assert (forall id, In id (map m_id (machines db)) ->
                     In id (map mr_machine_id (machine_roms db)) ->
                     In id (map m_id (kept_machines db))) as Hkept.
  { intros id Hid Hl. apply in_map_iff in Hid as (m & <- & Hm).
    apply in_map. apply filter_In. split; [exact Hm | apply mem_Z_In, Hl]. }
  assert (forall mr, In mr (machine_roms db) ->
                     row_ok (cleaned_rom_names db) mr) as Hrow.
  { intros mr Hin. destruct (Hrows mr Hin) as (_ & _ & nid & Hn & Hnid).
    exists nid. split; [exact Hn|].
    apply in_map_iff in Hnid as (p & <- & Hp). apply in_map.
    apply filter_In. split; [exact Hp|].
    apply negb_true_iff, andb_false_iff. right. apply negb_false_iff.
    apply mem_Z_In, PassFacts.not_null_In. rewrite <- Hn. apply in_map, Hin. }
  assert (forall r, In r (roms db) -> rom_ok (cleaned_rom_names db) r) as Hrom.
  { intros r Hin. destruct (Hroms r Hin) as ((h & nid & H1 & H2 & Hn & Hnid) & _).
    exists h, nid. do 3 (split; [assumption|]).
    apply in_map_iff in Hnid as (p & <- & Hp). apply in_map.
    apply filter_In. split; [exact Hp|].
    apply negb_true_iff, andb_false_iff. left. apply negb_false_iff.
    apply mem_Z_In, PassFacts.not_null_In. rewrite <- Hn. apply in_map, Hin. }
  rewrite cleanup_eq. split; [constructor|];
    cbn [machines machine_roms roms rom_names manufacturers].
  - rewrite cleaned_machines_ids. apply NoDup_map_filter, Hids.
  - unfold cleaned_machines. rewrite map_map. cbn [clean_refs m_name].
    apply NoDup_map_filter, Hnames.
  - exact Hrids.
  - intros mr Hin. destruct (Hrows mr Hin) as (Hm & Hr & _).
    split; [|split; [exact Hr | apply Hrow, Hin]].
    rewrite cleaned_machines_ids. apply Hkept; [exact Hm | apply in_map, Hin].
  - intros r Hin. split; [apply Hrom, Hin | apply Hroms, Hin].
  - intros m Hin. unfold cleaned_machines in Hin.
    apply in_map_iff in Hin as (m0 & <- & Hm0).
    pose proof Hm0 as Hk. apply filter_In in Hk as [Hin0 _].
    destruct (Hmachines m0 Hin0) as (Hmf & _ & Hy).
    cbn [clean_refs m_manufacturer_id m_cloneof_id m_romof_id m_year].
    split; [|split; [|exact Hy]].
    + intros k Hkk. pose proof (Hmf k Hkk) as Hin.
      apply in_map_iff in Hin as (p & <- & Hp). apply in_map.
      apply filter_In. split; [exact Hp|].
      apply mem_Z_In, PassFacts.not_null_In. rewrite <- Hkk.
      apply in_map, Hm0.
    + rewrite cleaned_machines_ids.
      intros p [Hp|Hp]; apply PassFacts.null_if_orphan_Some in Hp; tauto.
  - intros m Hin. cbn [machines machine_roms]. unfold cleaned_machines in Hin.
    apply in_map_iff in Hin as (m0 & <- & Hm0). cbn [clean_refs m_id].
    apply filter_In in Hm0 as [_ Hl]. apply mem_Z_In, Hl.
Qed.

Section WithZlib.
Variable compress : list byte -> list byte.

Lemma extract_fk (db db' : database) :
  extract_neogeo_bios compress db = Py.Ok db' -> fk db -> fk db'.
Proof.
  intros H Hfk.
  destruct (has_neogeo_bios db) eqn:Hn.
  { rewrite (extract_skip compress db Hn) in H. injection H as <-. exact Hfk. }
  destruct (bios_rom_ids db) as [|b bs] eqn:Hb.
  { rewrite (extract_none compress db Hb) in H. injection H as <-. exact Hfk. }
  rewrite extract_create in H by (try exact Hn; congruence).
  injection H as <-. clear b bs Hb.
  destruct Hfk as [Hids Hnames Hrids Hrows Hroms Hmachines].
  destruct (with_snk_machines db) as (Hm & Hmr & Hr).
  destruct (PassFacts.with_snk_In db) as (Hsnk & Hrn & Hmf).
  assert (forall mr, In mr (bios_machine_roms db) ->
                     In mr (machine_roms db)
                     \/ exists rid, In rid (bios_rom_ids db)
                          /\ mr = bios_link (max_machine_id db + 1)
                                    (machine_roms db) rid) as Hsplit.
  { intros mr Hin. unfold bios_machine_roms in Hin.
    apply filter_In in Hin as [Hin _]. apply in_app_or in Hin as [Hin|Hin];
      [left; exact Hin|].
    right. apply in_map_iff in Hin as (rid & <- & Hrid). eauto. }
  constructor;
    cbn [machines machine_roms roms rom_names manufacturers set_machines
           set_machine_roms].
  - rewrite map_app. cbn [map neogeo_machine m_id].
    apply NoDup_ListNoDup, NoDup_app. split; [apply NoDup_ListNoDup, Hids|].
    split; [|apply NoDup_singleton].
    intros x Hx [->|Hin]%elem_of_cons; [|inversion Hin].
    apply list_elem_of_In, in_map_iff in Hx as (m & Hid & Hin).
    pose proof (max_machine_id_ge db m Hin). lia.
  - rewrite map_app. cbn [map neogeo_machine m_name].
    apply NoDup_ListNoDup, NoDup_app. split; [apply NoDup_ListNoDup, Hnames|].
    split; [|apply NoDup_singleton].
    intros x Hx [->|Hin]%elem_of_cons; [|inversion Hin].
    apply list_elem_of_In, in_map_iff in Hx as (m & Hname & Hin).
    assert (has_neogeo_bios db = true); [|congruence].
    apply has_neogeo_bios_iff. eauto.
  - rewrite Hr. exact Hrids.
  - rewrite Hr, Hrn. intros mr Hin.
    destruct (Hsplit mr Hin) as [Hold|(rid & Hrid & ->)].
    + destruct (Hrows mr Hold) as (H1 & H2 & H3).
      split; [|auto]. rewrite map_app. apply in_or_app. left. exact H1.
    + destruct (bios_rom_has_row db rid Hrid) as (mr0 & Hin0 & Hid0).
      cbn [bios_link mr_machine_id mr_rom_id].
      split; [rewrite map_app; apply in_or_app; right; left; reflexivity|].
      split; [rewrite <- Hid0; apply (Hrows mr0 Hin0)|].
      unfold row_ok. cbn [bios_link mr_name_id].
      assert (exists y, List.find (fun mr => mr_rom_id mr =? rid)
                          (machine_roms db) = Some y) as [y Hy].
      { apply (find_exists _ _ mr0 Hin0). apply Z.eqb_eq, Hid0. }
      rewrite Hy. apply find_some in Hy as [Hy _].
      apply (Hrows y Hy).
  - rewrite Hr, Hrn. intros r Hin. destruct (Hroms r Hin) as [Hok Hused].
    split; [exact Hok|].
    apply in_map_iff in Hused as (mr & Hid & Hmrin).
    destruct (mem_Z (rom_id r) (bios_rom_ids db)) eqn:Eb.
    + apply mem_Z_In in Eb.
      apply in_map_iff.
      exists (bios_link (max_machine_id db + 1) (machine_roms db) (rom_id r)).
      split; [reflexivity|]. unfold bios_machine_roms. apply filter_In. split.
      * apply in_or_app. right. apply in_map, Eb.
      * cbn. rewrite Z.eqb_refl. cbn. rewrite andb_false_r. reflexivity.
    + apply in_map_iff. exists mr. split; [exact Hid|].
      unfold bios_machine_roms. apply filter_In. split.
      * apply in_or_app. left. exact Hmrin.
      * rewrite Hid, Eb. reflexivity.
  - intros m Hin. apply in_app_or in Hin as [Hin|[<-|[]]].
    + destruct (Hmachines m Hin) as (Hmfk & Hp & Hy).
      split; [|split; [|exact Hy]].
      * intros k Hk. pose proof (Hmfk k Hk) as Hkin.
        apply in_map_iff in Hkin as (p & <- & Hpin). apply in_map, Hmf, Hpin.
      * intros p Hpp. rewrite map_app. apply in_or_app. left. apply (Hp p Hpp).
    + cbn [neogeo_machine m_manufacturer_id m_cloneof_id m_romof_id m_year].
      split; [|split].
      * intros k [= <-].
        change (fst (with_snk db)) with (fst (fst (with_snk db), "SNK")).
        apply in_map, Hsnk.
      * intros p [Hp|Hp]; discriminate.
      * intros y [= <-]. lia.
Qed.

Lemma ingest_fk (docs : list (list machine_elem)) (db : database) :
  ingest compress docs = Py.Ok db -> fk db /\ linked db.
Proof.
  intros H. destruct (ingest_wf compress docs db H) as (c & n & Hwf & Hok).
  apply (wf_fk db c n Hwf Hok).
Qed.

Lemma build_fk (docs : list (list machine_elem)) (db : database) :
  build compress docs = Py.Ok db -> fk db /\ linked db.
Proof.
  unfold build, post_process. intros H.
  destruct (ingest compress docs) as [db0|] eqn:E0; [|discriminate].
  cbn [Py.bind] in H.
  destruct (extract_neogeo_bios compress db0) as [db1|] eqn:E1; [|discriminate].
  cbn [Py.bind] in H. injection H as <-.
  apply cleanup_fk, (extract_fk db0 db1 E1), (ingest_fk docs db0 E0).
Qed.

(** X7.  A fresh build numbers the machines it keeps 1, 2, 3, ... in the order it
    meets them, across the documents, and SQLite numbers the ROMs 1, 2, 3,
    ... in the order of their first occurrence: both tables hold their ids
    in ascending order, without a gap, until the post-processing. *)
Theorem ingest_ids_count_from_one (docs : list (list machine_elem))
  (db : database) :
  ingest compress docs = Py.Ok db ->
  map m_id (machines db) = map Z.of_nat (seq 1 (length (machines db)))
  /\ map rom_id (roms db) = map Z.of_nat (seq 1 (length (roms db))).
Proof.
  intros H. destruct (ingest_wf compress docs db H) as (c & n & Hwf & _).
  destruct Hwf as [_ Hids Hrids _ _ _ _ _ _ _ _ _].
  split; [|exact Hrids].
  assert (length (machines db) = Z.to_nat n) as ->; [|exact Hids].
  rewrite <- (length_map m_id), Hids. apply ids1_length.
Qed.

End WithZlib.

(** The catalogue of the two games of [RomIdFacts.c6_docs], before the
    post-processing. *)
Definition pacman_ingested : database :=
  match ingest (fun b => b) RomIdFacts.c6_docs with
  | Py.Ok db => db
  | Py.Raise _ => empty_database
  end.

Lemma ingest_ids_count_from_one_witness :
  map m_id (machines pacman_ingested)
  = map Z.of_nat (seq 1 (length (machines pacman_ingested)))
  /\ map rom_id (roms pacman_ingested)
     = map Z.of_nat (seq 1 (length (roms pacman_ingested))).
Proof.
  apply (ingest_ids_count_from_one (fun b => b) RomIdFacts.c6_docs).
  vm_compute. reflexivity.
Defined.

Section WithZlib.
Variable compress : list byte -> list byte.

(** X8.  SQLite enforces no foreign key here; the scripts keep them.  In the
    catalogue a fresh build ingests, and in the one it leaves after the two
    post-processing passes: machine ids, machine names and ROM ids are
    unique; every MachineRom row names a machine, a ROM and a ROM name of
    the catalogue; every ROM has a SHA-1, a size class of 8..23 and a name
    of the catalogue, and is referenced by a MachineRom row; every machine
    has a MachineRom row, a manufacturer and parents that are NULL or in the
    catalogue, and a year that is NULL or within 0..65535. *)
Theorem build_keeps_the_keys (docs : list (list machine_elem)) (db : database) :
  ingest compress docs = Py.Ok db \/ build compress docs = Py.Ok db ->
  List.NoDup (map m_id (machines db))
  /\ List.NoDup (map m_name (machines db))
  /\ List.NoDup (map rom_id (roms db))
  /\ (forall mr, In mr (machine_roms db) ->
        In (mr_machine_id mr) (map m_id (machines db))
        /\ In (mr_rom_id mr) (map rom_id (roms db))
        /\ exists nid, mr_name_id mr = Some nid
                       /\ In nid (map fst (rom_names db)))
  /\ (forall r, In r (roms db) ->
        (exists h, rom_sha1 r = Some h)
        /\ 8 <= rom_size_pow2 r <= 23
        /\ (exists nid, rom_name_id r = Some nid
                        /\ In nid (map fst (rom_names db)))
        /\ In (rom_id r) (map mr_rom_id (machine_roms db)))
  /\ (forall m, In m (machines db) ->
        In (m_id m) (map mr_machine_id (machine_roms db))
        /\ (forall k, m_manufacturer_id m = Some k ->
              In k (map fst (manufacturers db)))
        /\ (forall p, m_cloneof_id m = Some p \/ m_romof_id m = Some p ->
              In p (map m_id (machines db)))
        /\ (forall y, m_year m = Some y -> 0 <= y <= 65535)).
Proof.
  intros H.
  assert (fk db /\ linked db) as [[Hids Hnames Hrids Hrows Hroms Hm] Hl].
  { destruct H as [H|H];
      [apply (ingest_fk compress docs db H) | apply (build_fk compress docs db H)]. }
  do 3 (split; [assumption|]). split; [|split].
  - intros mr Hin. apply (Hrows mr Hin).
  - intros r Hin. destruct (Hroms r Hin) as ((h & nid & H1 & H2 & H3 & H4) & Hu).
    split; [eauto|]. split; [exact H2|]. split; [eauto | exact Hu].
  - intros m Hin. split; [apply (Hl m Hin) | apply (Hm m Hin)].
Qed.

End WithZlib.

Lemma build_keeps_the_keys_witness :
  List.NoDup (map m_id (machines RomIdFacts.c6_db))
  /\ List.NoDup (map m_name (machines RomIdFacts.c6_db))
  /\ List.NoDup (map rom_id (roms RomIdFacts.c6_db))
  /\ (forall mr, In mr (machine_roms RomIdFacts.c6_db) ->
        In (mr_machine_id mr) (map m_id (machines RomIdFacts.c6_db))
        /\ In (mr_rom_id mr) (map rom_id (roms RomIdFacts.c6_db))
        /\ exists nid, mr_name_id mr = Some nid
                       /\ In nid (map fst (rom_names RomIdFacts.c6_db)))
  /\ (forall r, In r (roms RomIdFacts.c6_db) ->
        (exists h, rom_sha1 r = Some h)
        /\ 8 <= rom_size_pow2 r <= 23
        /\ (exists nid, rom_name_id r = Some nid
                        /\ In nid (map fst (rom_names RomIdFacts.c6_db)))
        /\ In (rom_id r) (map mr_rom_id (machine_roms RomIdFacts.c6_db)))
  /\ (forall m, In m (machines RomIdFacts.c6_db) ->
        In (m_id m) (map mr_machine_id (machine_roms RomIdFacts.c6_db))
        /\ (forall k, m_manufacturer_id m = Some k ->
              In k (map fst (manufacturers RomIdFacts.c6_db)))
        /\ (forall p, m_cloneof_id m = Some p \/ m_romof_id m = Some p ->
              In p (map m_id (machines RomIdFacts.c6_db)))
        /\ (forall y, m_year m = Some y -> 0 <= y <= 65535)).
Proof.
  apply (build_keeps_the_keys (fun b => b) RomIdFacts.c6_docs).
  right. vm_compute. reflexivity.
Defined.

End IntegrityFacts.

(** ** A machine name is taken once: the first document wins *)

Module RepeatFacts.
Import Schema Build PyFacts PostFacts IngestFacts IntegrityFacts.

#[local] Arguments String.eqb : simpl never.

(** The machines [process_dat_file] does not drop at once: a name, and one
    ROM at least that [parse_machine] keeps. *)
Definition named (elem : machine_elem) (name : string) : Prop :=
  parse_roms (me_roms elem) <> [] /\ me_name elem = Some name /\ name <> "".

Section WithZlib.
Variable compress : list byte -> list byte.

Lemma process_roms_existing (mid : Z) (rs : list rom_rec) (st st' : pstate) :
  process_roms mid rs st = Py.Ok st' ->
  existing_machines (ps_caches st') = existing_machines (ps_caches st).
Proof.
  revert st. induction rs as [|rom rs IH]; intros st H; simpl in H.
  - injection H as <-. reflexivity.
  - destruct (process_rom mid rom st) as [st1|] eqn:E1; [|discriminate].
    cbn [Py.bind] in H.
    destruct (process_rom_full mid rom st st1 E1)
      as (rid & nid & n & _ & _ & _ & _ & _ & _ & _ & _ & Hex & _).
    rewrite (IH st1 H). exact Hex.
Qed.

Lemma process_machine_existing (elem : machine_elem) (st st' : pstate) :
  process_machine compress elem st = Py.Ok st' ->
  existing_machines (ps_caches st) ⊆ existing_machines (ps_caches st')
  /\ forall name, named elem name -> name ∈ existing_machines (ps_caches st').
Proof.
  unfold process_machine, parse_machine, named. intros H.
  cbn [a_name] in H.
  destruct (parse_roms (me_roms elem)) as [|rom rs].
  { injection H as <-. split; [reflexivity|]. intros name [Hne _]. congruence. }
  destruct (me_name elem) as [[|c nm]|].
  - injection H as <-. split; [reflexivity|].
    intros name (_ & [= <-] & Hne). congruence.
  - destruct (decide _) as [Hin|Hnot].
    + injection H as <-. split; [reflexivity|].
      intros name (_ & [= <-] & _). exact Hin.
    + match type of H with
      | Py.bind ?m _ = _ => destruct m as [[[manuf_id db1] manufs]|]
      end; [|discriminate].
      cbn [Py.bind] in H. apply process_roms_existing in H.
      cbn [ps_caches existing_machines] in H. rewrite H.
      split; [set_solver|]. intros name (_ & [= <-] & _). set_solver.
  - injection H as <-. split; [reflexivity|].
    intros name (_ & Hn & _). discriminate.
Qed.

Lemma process_machine_skip (elem : machine_elem) (st : pstate) :
  (forall name, named elem name -> name ∈ existing_machines (ps_caches st)) ->
  process_machine compress elem st = Py.Ok st.
Proof.
  unfold process_machine, parse_machine, named. intros Hin. cbn [a_name].
  destruct (parse_roms (me_roms elem)) as [|rom rs]; [reflexivity|].
  destruct (me_name elem) as [[|c nm]|]; try reflexivity.
  destruct (decide _) as [_|Hnot]; [reflexivity|].
  exfalso. apply Hnot, Hin. split; [discriminate|]. split; [reflexivity|].
  discriminate.
Qed.

Lemma process_machines_existing (doc : list machine_elem) (st st' : pstate) :
  process_machines compress doc st = Py.Ok st' ->
  existing_machines (ps_caches st) ⊆ existing_machines (ps_caches st')
  /\ forall elem name, In elem doc -> named elem name ->
       name ∈ existing_machines (ps_caches st').
Proof.
  revert st. induction doc as [|elem doc IH]; intros st H; simpl in H.
  - injection H as <-. split; [reflexivity|]. intros elem name [].
  - destruct (process_machine compress elem st) as [st1|] eqn:E1; [|discriminate].
    cbn [Py.bind] in H.
    destruct (process_machine_existing elem st st1 E1) as [Hsub1 Hin1].
    destruct (IH st1 H) as [Hsub Hin].
    split; [set_solver|].
    intros e name [<-|He] Hn; [|apply (Hin e name He Hn)].
    apply Hsub, Hin1, Hn.
Qed.

Lemma process_machines_skip (doc : list machine_elem) (st : pstate) :
  (forall elem name, In elem doc -> named elem name ->
     name ∈ existing_machines (ps_caches st)) ->
  process_machines compress doc st = Py.Ok st.
Proof.
  induction doc as [|elem doc IH]; intros Hin; simpl; [reflexivity|].
  rewrite process_machine_skip.
  - cbn [Py.bind]. apply IH. intros e name He. apply Hin. right. exact He.
  - intros name. apply Hin. left. reflexivity.
Qed.

Lemma process_dat_file_existing (doc : list machine_elem) (db db' : database)
  (c c' : caches) (n n' : Z) :
  process_dat_file compress doc db c n = Py.Ok (db', c', n') ->
  existing_machines c ⊆ existing_machines c'
  /\ forall elem name, In elem doc -> named elem name ->
       name ∈ existing_machines c'.
Proof.
  unfold process_dat_file. intros H.
  destruct (process_machines compress doc _) as [st|] eqn:Est; [|discriminate].
  cbn [Py.bind] in H.
  destruct (insert_machines _ _ _) as [db1|]; [|discriminate].
  cbn [Py.bind] in H. injection H as <- <- <-.
  apply (process_machines_existing doc _ st Est).
Qed.

Lemma process_dat_files_existing (docs : list (list machine_elem))
  (db db' : database) (c c' : caches) (n n' : Z) :
  process_dat_files compress docs db c n = Py.Ok (db', c', n') ->
  existing_machines c ⊆ existing_machines c'
  /\ forall doc elem name, In doc docs -> In elem doc -> named elem name ->
       name ∈ existing_machines c'.
Proof.
  revert db c n. induction docs as [|doc docs IH]; intros db c n H; simpl in H.
  - injection H as <- <- <-. split; [reflexivity|]. intros doc elem name [].
  - destruct (process_dat_file compress doc db c n) as [[[db1 c1] n1]|] eqn:E1;
      [|discriminate].
    cbn [Py.bind] in H.
    destruct (process_dat_file_existing _ _ _ _ _ _ _ E1) as [Hsub1 Hin1].
    destruct (IH _ _ _ H) as [Hsub Hin].
    split; [set_solver|].
    intros d elem name [<-|Hd] He Hn; [|apply (Hin d elem name Hd He Hn)].
    apply Hsub, (Hin1 elem name He Hn).
Qed.

Lemma process_dat_file_again (doc : list machine_elem) (db : database)
  (c : caches) (n : Z) :
  (forall elem name, In elem doc -> named elem name ->
     name ∈ existing_machines c) ->
  process_dat_file compress doc db c n = Py.Ok (db, c, n).
Proof.
  intros Hin. unfold process_dat_file.
  rewrite process_machines_skip by exact Hin.
  cbn. rewrite app_nil_r. destruct db; reflexivity.
Qed.

Lemma process_dat_files_app (docs1 docs2 : list (list machine_elem))
  (db : database) (c : caches) (n : Z) :
  process_dat_files compress (docs1 ++ docs2) db c n
  = let* (db', c', n') := process_dat_files compress docs1 db c n in
    process_dat_files compress docs2 db' c' n'.
Proof.
  revert db c n. induction docs1 as [|doc docs1 IH]; intros db c n; simpl;
    [reflexivity|].
  destruct (process_dat_file compress doc db c n) as [[[db1 c1] n1]|];
    [|reflexivity].
  cbn [Py.bind]. apply IH.
Qed.

(** X9.  The first document wins, whole: once a build has taken a list of
    documents, a further document in which every machine that has a name and
    a ROM that is kept bears a name already met leaves the catalogue exactly
    as it was (no machine, ROM, name or row is added or changed); so does, in
    particular, a document of the list that comes a second time. *)
Theorem known_machines_change_nothing (docs : list (list machine_elem))
  (doc : list machine_elem) (db : database) :
  ingest compress docs = Py.Ok db ->
  (forall elem name, In elem doc -> named elem name ->
     exists doc0 elem0, In doc0 docs /\ In elem0 doc0 /\ named elem0 name) ->
  ingest compress (docs ++ [doc]) = Py.Ok db.
Proof.
  unfold ingest. intros H Hknown.
  destruct (process_dat_files compress docs _ _ _) as [[[db1 c1] n1]|] eqn:E;
    [|discriminate].
  cbn [Py.bind] in H. injection H as <-.
  rewrite process_dat_files_app, E. cbn [Py.bind process_dat_files].
  rewrite process_dat_file_again; [reflexivity|].
  intros elem name He Hn.
  destruct (Hknown elem name He Hn) as (doc0 & elem0 & Hd0 & He0 & Hn0).
  apply (process_dat_files_existing _ _ _ _ _ _ _ E) with (doc := doc0) (elem := elem0);
    assumption.
Qed.

End WithZlib.

Lemma known_machines_change_nothing_witness :
  ingest (fun b => b) (RomIdFacts.c6_docs ++ RomIdFacts.c6_docs)
  = Py.Ok pacman_ingested.
Proof.
  assert (RomIdFacts.c6_docs ++ RomIdFacts.c6_docs
          = RomIdFacts.c6_docs ++ [hd [] RomIdFacts.c6_docs]) as ->
    by reflexivity.
  apply (known_machines_change_nothing (fun b => b) RomIdFacts.c6_docs
           (hd [] RomIdFacts.c6_docs) pacman_ingested).
  - vm_compute. reflexivity.
  - intros elem name He Hn. exists (hd [] RomIdFacts.c6_docs), elem.
    split; [left; reflexivity | split; assumption].
Defined.

End RepeatFacts.

(** ** The tables [remap_ids] numbers anew *)

Module RemapFacts.
Import Schema Gen PyFacts.

(** *** A numbering loop *)

Section Numbering.
Context {A : Type} (value : Z -> A).

Definition number_step (st : gmap Z Z * gmap Z A * Z) (old : Z)
  : gmap Z Z * gmap Z A * Z :=
  let '(id_map, table, next) := st in
  (<[old := next]> id_map, <[next := value old]> table, next + 1).

Definition numbered (olds : list Z) (st : gmap Z Z * gmap Z A * Z) : Prop :=
  let '(id_map, table, next) := st in
  next = len olds
  /\ size table = len olds
  /\ (forall k a, table !! k = Some a <->
        exists i old, k = Z.of_nat i /\ olds !! i = Some old /\ a = value old)
  /\ (forall old v, id_map !! old = Some v ->
        exists i, v = Z.of_nat i /\ olds !! i = Some old)
  /\ (List.NoDup olds -> forall i old,
        olds !! i = Some old -> id_map !! old = Some (Z.of_nat i)).

Lemma numbered_fold (olds : list Z) :
  numbered olds (fold_left number_step olds (∅, ∅, 0)).
Proof.
  induction olds as [|x olds IH] using rev_ind.
  - cbn. unfold len, size. cbn. split; [reflexivity|]. split; [reflexivity|].
    split; [|split].
    + intros k a. rewrite lookup_empty. split; [discriminate|].
      intros (i & old & _ & H & _). discriminate.
    + intros old v. rewrite lookup_empty. discriminate.
    + intros _ i old H. discriminate.
  - rewrite fold_left_app. cbn [fold_left].
    destruct (fold_left number_step olds (∅, ∅, 0)) as [[id_map table] next].
    cbn [numbered number_step] in *.
    destruct IH as (-> & Hsize & Htable & Hmap & Hinj).
    assert (len (olds ++ [x]) = len olds + 1) as Hlen
      by (unfold len; rewrite length_app; cbn; lia).
    split; [lia|]. split; [|split; [|split]].
    + unfold size in *. rewrite map_size_insert_None; [lia|].
      destruct (table !! len olds) as [a|] eqn:E; [|reflexivity].
      apply Htable in E as (i & old & Hi & Hl & _).
      apply lookup_lt_Some in Hl. unfold len in Hi. lia.
    + intros k a. rewrite lookup_insert. case_decide as Hk.
      * subst k. split.
        -- intros [= <-]. exists (length olds), x.
           split; [reflexivity|]. split; [|reflexivity].
           rewrite lookup_app_r by lia. rewrite Nat.sub_diag. reflexivity.
        -- intros (i & old & Hi & Hl & ->). f_equal. f_equal.
           unfold len in Hi. apply Nat2Z.inj in Hi. subst i.
           rewrite lookup_app_r in Hl by lia. rewrite Nat.sub_diag in Hl.
           cbn in Hl. congruence.
      * rewrite Htable. split.
        -- intros (i & old & Hi & Hl & Ha). exists i, old.
           split; [exact Hi|]. split; [|exact Ha].
           apply lookup_app_l_Some. exact Hl.
        -- intros (i & old & Hi & Hl & Ha). exists i, old.
           split; [exact Hi|]. split; [|exact Ha].
           apply lookup_app_Some in Hl as [Hl|[Hge Hl]]; [exact Hl|].
           exfalso. apply list_lookup_singleton_Some in Hl as [Hz _].
           unfold len in Hk. apply Hk. subst k. f_equal. lia.
    + intros old v. rewrite lookup_insert. case_decide as Hk.
      * subst old. intros [= <-]. exists (length olds). split; [reflexivity|].
        rewrite lookup_app_r by lia. rewrite Nat.sub_diag. reflexivity.
      * intros Hv. destruct (Hmap old v Hv) as (i & Hi & Hl).
        exists i. split; [exact Hi|]. apply lookup_app_l_Some. exact Hl.
    + intros Hnd i old Hl.
      apply NoDup_ListNoDup, NoDup_app in Hnd as (Hnd & Hdisj & _).
      apply NoDup_ListNoDup in Hnd.
      rewrite lookup_insert. case_decide as Hk.
      * subst old. f_equal. f_equal.
        apply lookup_app_Some in Hl as [Hl|[Hge Hl]].
        -- exfalso. apply (Hdisj x); [|apply list_elem_of_singleton; reflexivity].
           apply list_elem_of_lookup. eauto.
        -- apply list_lookup_singleton_Some in Hl as [Hz _]. unfold len. lia.
      * apply lookup_app_Some in Hl as [Hl|[Hge Hl]]; [apply (Hinj Hnd i old Hl)|].
        apply list_lookup_singleton_Some in Hl as [_ ->]. congruence.
Qed.

Lemma number_ids_spec (olds : list Z) :
  size (snd (number_ids value olds)) = len olds
  /\ (forall k a, snd (number_ids value olds) !! k = Some a <->
        exists i old, k = Z.of_nat i /\ olds !! i = Some old /\ a = value old)
  /\ (forall old v, fst (number_ids value olds) !! old = Some v ->
        exists i, v = Z.of_nat i /\ olds !! i = Some old)
  /\ (List.NoDup olds -> forall i old,
        olds !! i = Some old ->
        fst (number_ids value olds) !! old = Some (Z.of_nat i)).
Proof.
  pose proof (numbered_fold olds) as H. unfold number_ids.
  fold number_step.
  destruct (fold_left number_step olds (∅, ∅, 0)) as [[id_map table] next].
  cbn [numbered fst snd] in *. tauto.
Qed.

End Numbering.

(** *** Ids in ascending order *)

Lemma Z_leb_total (a b : Z) : (a <=? b) = true \/ (b <=? a) = true.
Proof. destruct (Z.leb_spec a b); [left; reflexivity | right; apply Z.leb_le; lia]. Qed.

Lemma Z_leb_trans (a b c : Z) :
  (a <=? b) = true -> (b <=? c) = true -> (a <=? c) = true.
Proof. rewrite !Z.leb_le. lia. Qed.

Lemma sort_Z_ascending (l : list Z) :
  List.NoDup l -> StronglySorted Z.lt (Py.sort Z.leb l).
Proof.
  intros Hnd.
  assert (List.NoDup (Py.sort Z.leb l)) as Hnd'
    by (eapply Permutation_NoDup; [symmetry; apply sort_perm | exact Hnd]).
  pose proof (sort_StronglySorted Z.leb Z_leb_total Z_leb_trans l) as Hs.
  induction Hs as [|a l' Hs IH Hall]; [constructor|].
  inversion Hnd' as [|? ? Hnotin Hnd'']; subst.
  constructor; [apply IH, Hnd''|].
  rewrite List.Forall_forall in *. intros b Hb.
  specialize (Hall b Hb). apply Z.leb_le in Hall.
  assert (a <> b) by (intros ->; contradiction). lia.
Qed.

Lemma ascending_NoDup (l : list Z) : StronglySorted Z.lt l -> List.NoDup l.
Proof.
  induction 1 as [|a l Hs IH Hall]; constructor; [|exact IH].
  intros Hin. rewrite List.Forall_forall in Hall. specialize (Hall a Hin). lia.
Qed.

Lemma ascending_filter (f : Z -> bool) (l : list Z) :
  StronglySorted Z.lt l -> StronglySorted Z.lt (List.filter f l).
Proof.
  induction 1 as [|a l Hs IH Hall]; cbn [List.filter]; [constructor|].
  destruct (f a); [|exact IH]. constructor; [exact IH|].
  rewrite List.Forall_forall in *. intros b Hb.
  apply filter_In in Hb as [Hb _]. apply Hall, Hb.
Qed.

Lemma ascending_lookup (l : list Z) (i j : nat) (a b : Z) :
  StronglySorted Z.lt l -> l !! i = Some a -> l !! j = Some b ->
  (i < j)%nat <-> a < b.
Proof.
  intros Hs Ha Hb.
  destruct (Nat.lt_trichotomy i j) as [Hlt|[->|Hgt]].
  - pose proof (RomIdFacts.StronglySorted_lookup Z.lt l i j a b Hs Hlt Ha Hb).
    tauto.
  - rewrite Ha in Hb. injection Hb as ->. lia.
  - pose proof (RomIdFacts.StronglySorted_lookup Z.lt l j i b a Hs Hgt Hb Ha).
    lia.
Qed.

Lemma sorted_keys_spec {A : Type} (d : gmap Z A) :
  StronglySorted Z.lt (sorted_keys d)
  /\ forall k, In k (sorted_keys d) <-> is_Some (d !! k).
Proof.
  unfold sorted_keys. split.
  - apply sort_Z_ascending. apply NoDup_ListNoDup, NoDup_fst_map_to_list.
  - intros k. rewrite sort_In, in_map_iff. split.
    + intros ([k' a] & <- & Hin). exists a.
      apply list_elem_of_In, elem_of_map_to_list in Hin. exact Hin.
    + intros [a Ha]. exists (k, a). split; [reflexivity|].
      apply list_elem_of_In, elem_of_map_to_list. exact Ha.
Qed.


(** *** [remap_ids], table by table *)

Definition kept_ids (d : data) : list Z :=
  List.filter
    (fun old =>
       bool_decide
         (old ∈ (list_to_set (map mr_machine_id (d_machine_roms d)) : gset Z)))
    (sorted_keys (d_machines d)).

Definition kept_machine (d : data) (old : Z) : machine :=
  match d_machines d !! old with
  | Some m =>
      mk_machine (name m) (cloneof_id m) (romof_id m) (description m)
        (year m) (manufacturer_id m) (Some old)
  | None => mk_machine "" None None None 0 None (Some old)
  end.

Definition machine_numbers (d : data) : gmap Z Z * gmap Z machine :=
  number_ids (kept_machine d) (kept_ids d).

Definition used_manufacturers (d : data) : gset Z :=
  list_to_set
    (not_null (map (fun p => manufacturer_id (snd p))
                 (map_to_list (snd (machine_numbers d))))).

Definition manufacturer_numbers (d : data) : gmap Z Z * gmap Z string :=
  number_ids (fun old => default "Unknown" (d_manufacturers d !! old))
    (sorted_set (used_manufacturers d)).

Definition used_rom_names (d : data) (roms : list rom) : gset Z :=
  list_to_set
    (not_null (map name_id roms)
     ++ not_null (map mr_name_id (d_machine_roms d))).

Definition rom_name_numbers (d : data) (roms : list rom)
  : gmap Z Z * gmap Z string :=
  number_ids (fun old => default "" (d_rom_names d !! old))
    (sorted_set (used_rom_names d roms)).

Definition remap_machine (d : data) (m : machine) : machine :=
  mk_machine (name m)
    (Some (remap_ref (fst (machine_numbers d)) NULL_ID_24 (cloneof_id m)))
    (Some (remap_ref (fst (machine_numbers d)) NULL_ID_24 (romof_id m)))
    (description m) (year m)
    (Some (remap_ref (fst (manufacturer_numbers d)) NULL_ID_16 (manufacturer_id m)))
    (m_old m).

Definition remap_row (d : data) (st : rom_state) (mr : machine_rom_row)
  : list machine_rom_row :=
  match fst (machine_numbers d) !! mr_machine_id mr,
        rs_rom_id_map st !! mr_rom_id mr with
  | Some m, Some r =>
      [mk_machine_rom_row m r
         (Some (remap_ref (fst (rom_name_numbers d (rs_roms st))) NULL_ID_24
                  (mr_name_id mr)))]
  | _, _ => []
  end.

Definition remap_rom (d : data) (st : rom_state) (r : rom) : rom :=
  mk_rom (old_id r) (sha1 r) (size_pow2 r)
    (Some (remap_ref (fst (rom_name_numbers d (rs_roms st))) NULL_ID_24 (name_id r)))
    (new_id r).

Lemma remap_ids_closed (d : data) (min_s max_s : Z) (x : remapped) :
  remap_ids d min_s max_s = Py.Ok x ->
  exists st,
    assign_classes (group_by_size (d_roms d)) (Py.range min_s (max_s + 1))
      (mk_rom_state (d_roms d) ∅ ∅ 0) = Py.Ok st
    /\ x = mk_remapped (map (remap_rom d st) (rs_roms st))
             (remap_machine d <$> snd (machine_numbers d))
             (Py.sort mr_leb (flat_map (remap_row d st) (d_machine_roms d)))
             (snd (manufacturer_numbers d))
             (snd (rom_name_numbers d (rs_roms st)))
             (rs_size_index st) (rs_rom_id_map st).
Proof.
  unfold remap_ids. intros H.
  destruct (assign_classes _ _ _) as [st|] eqn:Est; [|discriminate].
  cbn [Py.bind] in H. exists st. split; [reflexivity|].
  unfold remap_rom, remap_row, remap_machine, rom_name_numbers, used_rom_names,
    manufacturer_numbers, used_manufacturers, machine_numbers, kept_machine,
    kept_ids.
  repeat match type of H with
         | context [number_ids ?v ?l] =>
             destruct (number_ids v l) as [? ?]; cbn [fst snd]
         end.
  injection H as <-. reflexivity.
Qed.

Lemma kept_ids_spec (d : data) :
  StronglySorted Z.lt (kept_ids d)
  /\ forall old, In old (kept_ids d)
       <-> is_Some (d_machines d !! old)
           /\ In old (map mr_machine_id (d_machine_roms d)).
Proof.
  destruct (sorted_keys_spec (d_machines d)) as [Hs Hin].
  unfold kept_ids. split; [apply ascending_filter, Hs|].
  intros old. rewrite filter_In, Hin, bool_decide_eq_true, elem_of_list_to_set,
    list_elem_of_In. reflexivity.
Qed.

(** How an old reference is translated: to the new id the map gives it, and
    to the null value when it is NULL, 0, or not in the map. *)
Definition translated (id_map : gmap Z Z) (null : Z) (old_ref : option Z)
  (new_ref : Z) : Prop :=
  match old_ref with
  | Some r =>
      if r =? 0 then new_ref = null
      else match id_map !! r with
           | Some v => new_ref = v
           | None => new_ref = null
           end
  | None => new_ref = null
  end.

Lemma remap_ref_translated (id_map : gmap Z Z) (null : Z) (ref : option Z) :
  translated id_map null ref (remap_ref id_map null ref).
Proof.
  unfold translated, remap_ref. destruct ref as [r|]; [|reflexivity].
  destruct (r =? 0); [reflexivity|].
  destruct (id_map !! r); reflexivity.
Qed.

(** The new id of an old id under a numbering in the order of [olds]: its
    position in [olds]. *)
Definition position_in (olds : list Z) (old_ref : option Z) (null : Z)
  (new_ref : Z) : Prop :=
  (forall r i, old_ref = Some r -> r <> 0 -> olds !! i = Some r ->
     new_ref = Z.of_nat i)
  /\ (old_ref = None \/ old_ref = Some 0
      \/ (exists r, old_ref = Some r /\ ~ In r olds) ->
      new_ref = null).

Lemma number_ids_position {A : Type} (value : Z -> A) (olds : list Z)
  (null : Z) (ref : option Z) :
  List.NoDup olds ->
  position_in olds ref null (remap_ref (fst (number_ids value olds)) null ref).
Proof.
  intros Hnd.
  destruct (number_ids_spec value olds) as (_ & _ & Hmap & Hinj).
  specialize (Hinj Hnd).
  pose proof (remap_ref_translated (fst (number_ids value olds)) null ref) as Ht.
  unfold translated in Ht. split.
  - intros r i -> Hr Hi. apply Z.eqb_neq in Hr. rewrite Hr in Ht.
    rewrite (Hinj i r Hi) in Ht. exact Ht.
  - intros [->|[->|(r & -> & Hnot)]]; [exact Ht | exact Ht|].
    destruct (r =? 0); [exact Ht|].
    destruct (fst (number_ids value olds) !! r) as [v|] eqn:E; [|exact Ht].
    exfalso. apply Hnot. destruct (Hmap r v E) as (i & _ & Hi).
    apply list_elem_of_In, list_elem_of_lookup. eauto.
Qed.

(** X10.  [remap_ids] keeps the machines that exist and that a loaded MachineRom
    row names, and numbers them 0, 1, 2, ... in ascending order of their
    catalogue ids: the machine table has exactly the keys 0..n-1, so that
    [generate_binary] finds every machine it looks up.  A kept machine keeps
    its name, description and year; its [cloneof_id] and [romof_id] become
    the new id of the parent when the parent is kept, and NULL_ID_24 when the
    reference is NULL, 0, or names a machine that is not kept. *)
Theorem remap_ids_machine_table (d : data) (min_s max_s : Z) (x : remapped) :
  remap_ids d min_s max_s = Py.Ok x ->
  exists kept,
    StronglySorted Z.lt kept
    /\ (forall old, In old kept
          <-> is_Some (d_machines d !! old)
              /\ In old (map mr_machine_id (d_machine_roms d)))
    /\ size (x_machines x) = len kept
    /\ (forall k, is_Some (x_machines x !! k) <-> 0 <= k < len kept)
    /\ (forall i old, kept !! i = Some old ->
          exists m lm,
            x_machines x !! Z.of_nat i = Some m
            /\ d_machines d !! old = Some lm
            /\ m_old m = Some old
            /\ name m = name lm
            /\ description m = description lm
            /\ year m = year lm
            /\ (exists c, cloneof_id m = Some c
                          /\ position_in kept (cloneof_id lm) NULL_ID_24 c)
            /\ (exists c, romof_id m = Some c
                          /\ position_in kept (romof_id lm) NULL_ID_24 c)).
Proof.
  intros H. apply remap_ids_closed in H as (st & _ & ->).
  cbn [x_machines]. exists (kept_ids d).
  destruct (kept_ids_spec d) as [Hsorted Hin].
  destruct (number_ids_spec (kept_machine d) (kept_ids d))
    as (Hsize & Htable & _ & _).
  fold (machine_numbers d) in Hsize, Htable.
  split; [exact Hsorted|]. split; [exact Hin|].
  split; [unfold size in *; rewrite map_size_fmap; exact Hsize|].
  split.
  - intros k. rewrite lookup_fmap, fmap_is_Some. split.
    + intros [a Ha]. apply Htable in Ha as (i & old & -> & Hl & _).
      apply lookup_lt_Some in Hl. unfold len. lia.
    + intros Hk. destruct (kept_ids d !! Z.to_nat k) as [old|] eqn:E.
      * exists (kept_machine d old). apply Htable. exists (Z.to_nat k), old.
        split; [lia | auto].
      * apply lookup_ge_None in E. unfold len in Hk. lia.
  - intros i old Hi.
    assert (In old (kept_ids d)) as Hold
      by (apply list_elem_of_In, list_elem_of_lookup; eauto).
    apply Hin in Hold as [[lm Hlm] _].
    exists (remap_machine d (kept_machine d old)), lm.
    split.
    { rewrite lookup_fmap.
      replace (snd (machine_numbers d) !! Z.of_nat i)
        with (Some (kept_machine d old)); [reflexivity|].
      symmetry. apply Htable. eauto. }
    split; [exact Hlm|].
    unfold kept_machine. rewrite Hlm. cbn.
    do 4 (split; [reflexivity|]).
    split; eexists; (split; [reflexivity|]);
      apply number_ids_position, ascending_NoDup, Hsorted.
Qed.

(** *** No reference of the remapped tables dangles *)

(** Every id of [rom_id_map] is the [new_id] of a ROM object. *)
Definition map_ok (st : rom_state) : Prop :=
  forall k v, rs_rom_id_map st !! k = Some v ->
    exists p r, rs_roms st !! p = Some r /\ old_id r = k /\ new_id r = Some v.

Lemma assign_class_map_ok (s : Z) (refs : list (Z * nat)) (st st' : rom_state) :
  assign_class s refs st = Py.Ok st' -> map_ok st -> map_ok st'.
Proof.
  revert st. induction refs as [|[idx ref] refs IH]; intros st H Hok.
  - injection H as <-. exact Hok.
  - cbn [assign_class] in H.
    destruct (make_rom_id s idx) as [id|]; [|discriminate].
    cbn [Py.bind] in H. apply (IH _ H). clear H IH.
    destruct (rs_roms st !! ref) as [r|] eqn:Er; [|exact Hok].
    intros k v. cbn [rs_rom_id_map rs_roms].
    rewrite lookup_insert. case_decide as Hk.
    + intros [= <-]. exists ref, (set_new_id id r).
      split; [|split; [exact Hk | reflexivity]].
      apply list_lookup_insert_eq. apply lookup_lt_Some in Er. exact Er.
    + intros Hv. destruct (Hok k v Hv) as (p & r0 & Hp & Hold & Hnew).
      exists p, r0. split; [|auto].
      rewrite list_lookup_insert_ne; [exact Hp|].
      intros ->. rewrite Er in Hp. injection Hp as ->. congruence.
Qed.

Lemma assign_classes_map_ok (by_size : gmap Z (list nat)) (sizes : list Z)
  (st st' : rom_state) :
  assign_classes by_size sizes st = Py.Ok st' -> map_ok st -> map_ok st'.
Proof.
  revert st. induction sizes as [|s sizes IH]; intros st H Hok.
  - injection H as <-. exact Hok.
  - cbn [assign_classes] in H.
    match type of H with
    | Py.bind (assign_class _ _ ?s1) _ = _ =>
        destruct (assign_class s (Py.enumerate (default [] (by_size !! s))) s1)
          as [st2|] eqn:E2; [|discriminate]
    end.
    cbn [Py.bind] in H. apply (IH st2 H).
    apply (assign_class_map_ok _ _ _ _ E2). exact Hok.
Qed.

Lemma remap_ref_range {A : Type} (value : Z -> A) (olds : list Z) (null : Z)
  (ref : option Z) :
  let v := remap_ref (fst (number_ids value olds)) null ref in
  v = null \/ 0 <= v < size (snd (number_ids value olds)).
Proof.
  cbv zeta. unfold remap_ref. destruct ref as [r|]; [|left; reflexivity].
  destruct (r =? 0); [left; reflexivity|].
  destruct (fst (number_ids value olds) !! r) as [v|] eqn:E;
    [|left; reflexivity].
  right. cbn [default]. apply (TableFacts.number_ids_bounds value olds r v E).
Qed.

Lemma number_ids_keys {A : Type} (value : Z -> A) (olds : list Z) (k : Z) :
  is_Some (snd (number_ids value olds) !! k)
  <-> 0 <= k < size (snd (number_ids value olds)).
Proof.
  destruct (number_ids_spec value olds) as (Hsize & Htable & _ & _).
  rewrite Hsize. split.
  - intros [a Ha]. apply Htable in Ha as (i & old & -> & Hl & _).
    apply lookup_lt_Some in Hl. unfold len. lia.
  - intros Hk. destruct (olds !! Z.to_nat k) as [old|] eqn:E.
    + exists (value old). apply Htable. exists (Z.to_nat k), old.
      split; [lia | auto].
    + apply lookup_ge_None in E. unfold len in Hk. lia.
Qed.

Lemma remap_ids_machine_table_witness :
  exists kept,
    StronglySorted Z.lt kept
    /\ (forall old, In old kept
          <-> is_Some (d_machines (load_database RomIdFacts.c6_db 11 23) !! old)
              /\ In old (map mr_machine_id
                           (d_machine_roms (load_database RomIdFacts.c6_db 11 23))))
    /\ size (x_machines RomIdFacts.c6_x) = len kept
    /\ (forall k, is_Some (x_machines RomIdFacts.c6_x !! k) <-> 0 <= k < len kept)
    /\ (forall i old, kept !! i = Some old ->
          exists m lm,
            x_machines RomIdFacts.c6_x !! Z.of_nat i = Some m
            /\ d_machines (load_database RomIdFacts.c6_db 11 23) !! old = Some lm
            /\ m_old m = Some old
            /\ name m = name lm
            /\ description m = description lm
            /\ year m = year lm
            /\ (exists c, cloneof_id m = Some c
                          /\ position_in kept (cloneof_id lm) NULL_ID_24 c)
            /\ (exists c, romof_id m = Some c
                          /\ position_in kept (romof_id lm) NULL_ID_24 c)).
Proof.
  apply (remap_ids_machine_table (load_database RomIdFacts.c6_db 11 23) 11 23
           RomIdFacts.c6_x).
  vm_compute. reflexivity.
Defined.

(** X11.  No id that [remap_ids] stores dangles.  The manufacturer table and the
    ROM-name table have exactly the keys 0..n-1.  Every machine carries a
    [cloneof_id] and a [romof_id] that are NULL_ID_24 or the key of a
    machine, and a [manufacturer_id] that is NULL_ID_16 or the key of a
    manufacturer; every ROM and every MachineRom carries a [name_id] that is
    NULL_ID_24 or the key of a ROM name; every MachineRom carries the key of
    a machine and the [new_id] of a ROM of the ROM table. *)
Theorem remap_ids_references_resolve (d : data) (min_s max_s : Z)
  (x : remapped) :
  remap_ids d min_s max_s = Py.Ok x ->
  (forall k, is_Some (x_manufacturers x !! k)
     <-> 0 <= k < size (x_manufacturers x))
  /\ (forall k, is_Some (x_rom_names x !! k) <-> 0 <= k < size (x_rom_names x))
  /\ (forall k m, x_machines x !! k = Some m ->
        (exists c, cloneof_id m = Some c
                   /\ (c = NULL_ID_24 \/ 0 <= c < size (x_machines x)))
        /\ (exists c, romof_id m = Some c
                      /\ (c = NULL_ID_24 \/ 0 <= c < size (x_machines x)))
        /\ (exists f, manufacturer_id m = Some f
                      /\ (f = NULL_ID_16 \/ 0 <= f < size (x_manufacturers x))))
  /\ (forall r, In r (x_roms x) ->
        exists v, name_id r = Some v
                  /\ (v = NULL_ID_24 \/ 0 <= v < size (x_rom_names x)))
  /\ (forall e, In e (x_machine_roms x) ->
        0 <= mr_machine_id e < size (x_machines x)
        /\ (exists r, In r (x_roms x) /\ new_id r = Some (mr_rom_id e))
        /\ (exists v, mr_name_id e = Some v
                      /\ (v = NULL_ID_24 \/ 0 <= v < size (x_rom_names x)))).
Proof.
  intros H. pose proof H as Hx. apply remap_ids_closed in H as (st & Hst & ->).
  cbn [x_manufacturers x_rom_names x_machines x_roms x_machine_roms].
  assert (size (remap_machine d <$> snd (machine_numbers d))
          = size (snd (machine_numbers d))) as Hsize
    by (unfold size; rewrite map_size_fmap; reflexivity).
  split; [apply number_ids_keys|]. split; [apply number_ids_keys|].
  split; [|split].
  - intros k m Hm. rewrite lookup_fmap in Hm.
    destruct (snd (machine_numbers d) !! k) as [m0|]; [|discriminate].
    cbn in Hm. injection Hm as <-. rewrite Hsize.
    cbn [remap_machine cloneof_id romof_id manufacturer_id].
    split; [|split]; eexists; (split; [reflexivity|]); apply remap_ref_range.
  - intros r Hr. apply in_map_iff in Hr as (r0 & <- & _).
    eexists. split; [reflexivity|]. apply remap_ref_range.
  - intros e He.
    destruct (TableFacts.remap_ids_machine_rom_ids d min_s max_s _ e Hx He)
      as [Hm _].
    cbn [x_machines] in Hm. split; [exact Hm|].
    apply sort_In, in_flat_map in He as (mr & _ & He).
    unfold remap_row in He.
    destruct (fst (machine_numbers d) !! mr_machine_id mr) as [m|];
      [|destruct He].
    destruct (rs_rom_id_map st !! mr_rom_id mr) as [rid|] eqn:Er; [|destruct He].
    destruct He as [<-|[]]. cbn [mr_rom_id mr_name_id]. split.
    + assert (map_ok st) as Hok.
      { apply (assign_classes_map_ok _ _ _ _ Hst).
        intros k v Hk. cbn in Hk. rewrite lookup_empty in Hk. discriminate. }
      destruct (Hok _ _ Er) as (p & r & Hp & _ & Hnew).
      exists (remap_rom d st r). split; [|exact Hnew].
      apply in_map. apply list_elem_of_In, list_elem_of_lookup. eauto.
    + eexists. split; [reflexivity|]. apply remap_ref_range.
Qed.

Lemma remap_ids_references_resolve_witness :
  (forall k, is_Some (x_manufacturers RomIdFacts.c6_x !! k)
     <-> 0 <= k < size (x_manufacturers RomIdFacts.c6_x))
  /\ (forall k, is_Some (x_rom_names RomIdFacts.c6_x !! k)
        <-> 0 <= k < size (x_rom_names RomIdFacts.c6_x))
  /\ (forall k m, x_machines RomIdFacts.c6_x !! k = Some m ->
        (exists c, cloneof_id m = Some c
                   /\ (c = NULL_ID_24
                       \/ 0 <= c < size (x_machines RomIdFacts.c6_x)))
        /\ (exists c, romof_id m = Some c
                      /\ (c = NULL_ID_24
                          \/ 0 <= c < size (x_machines RomIdFacts.c6_x)))
        /\ (exists f, manufacturer_id m = Some f
                      /\ (f = NULL_ID_16
                          \/ 0 <= f < size (x_manufacturers RomIdFacts.c6_x))))
  /\ (forall r, In r (x_roms RomIdFacts.c6_x) ->
        exists v, name_id r = Some v
                  /\ (v = NULL_ID_24
                      \/ 0 <= v < size (x_rom_names RomIdFacts.c6_x)))
  /\ (forall e, In e (x_machine_roms RomIdFacts.c6_x) ->
        0 <= mr_machine_id e < size (x_machines RomIdFacts.c6_x)
        /\ (exists r, In r (x_roms RomIdFacts.c6_x)
                      /\ new_id r = Some (mr_rom_id e))
        /\ (exists v, mr_name_id e = Some v
                      /\ (v = NULL_ID_24
                          \/ 0 <= v < size (x_rom_names RomIdFacts.c6_x)))).
Proof.
  apply (remap_ids_references_resolve (load_database RomIdFacts.c6_db 11 23)
           11 23 RomIdFacts.c6_x).
  vm_compute. reflexivity.
Defined.

End RemapFacts.

(** ** The size index *)

Module SizeIndexFacts.
Import Schema Gen PyFacts RomIdFacts RemapFacts.

(** The ROMs of the classes [lo], ..., [s - 1]. *)
Definition count_in (roms : list rom) (lo s : Z) : Z :=
  len (List.filter (fun r => (lo <=? size_pow2 r) && (size_pow2 r <? s)) roms).

Lemma count_in_empty (roms : list rom) (lo : Z) : count_in roms lo lo = 0.
Proof.
  unfold count_in, len. rewrite PassFacts.filter_none; [reflexivity|].
  intros r _. destruct (Z.leb_spec lo (size_pow2 r)); [|reflexivity].
  cbn. apply Z.ltb_ge. lia.
Qed.

Lemma count_in_succ (roms : list rom) (lo s : Z) :
  lo <= s -> count_in roms lo (s + 1) = count_in roms lo s + len (class s roms).
Proof.
  intros Hs. unfold count_in, class, len.
  induction roms as [|r roms IH]; cbn [List.filter]; [reflexivity|].
  destruct (Z.leb_spec lo (size_pow2 r)); destruct (Z.ltb_spec (size_pow2 r) (s + 1));
    destruct (Z.ltb_spec (size_pow2 r) s); destruct (Z.eqb_spec (size_pow2 r) s);
    cbn [andb length]; lia.
Qed.

Lemma range_nil (lo hi : Z) : hi <= lo -> Py.range lo hi = [].
Proof.
  intros H. unfold Py.range. replace (Z.to_nat (hi - lo)) with 0%nat by lia.
  reflexivity.
Qed.

Lemma range_cons (lo hi : Z) :
  lo < hi -> Py.range lo hi = lo :: Py.range (lo + 1) hi.
Proof.
  intros H. unfold Py.range.
  replace (Z.to_nat (hi - lo)) with (S (Z.to_nat (hi - (lo + 1)))) by lia.
  cbn [seq map]. f_equal; [lia|].
  rewrite <- seq_shift, map_map. apply map_ext. intros i. lia.
Qed.

Lemma assign_class_counts (s : Z) (refs : list (Z * nat)) (st st' : rom_state) :
  assign_class s refs st = Py.Ok st' ->
  (forall p, In p refs -> (snd p < length (rs_roms st))%nat) ->
  rs_global_index st' = rs_global_index st + len refs
  /\ rs_size_index st' = rs_size_index st
  /\ length (rs_roms st') = length (rs_roms st).
Proof.
  revert st. induction refs as [|[idx ref] refs IH]; intros st H Hvalid.
  - injection H as <-. unfold len. cbn. split; [lia | auto].
  - cbn [assign_class] in H.
    destruct (make_rom_id s idx) as [id|]; [|discriminate].
    cbn [Py.bind] in H.
    assert (ref < length (rs_roms st))%nat as Href
      by (apply (Hvalid (idx, ref)); left; reflexivity).
    destruct (rs_roms st !! ref) as [r|] eqn:Er;
      [|apply lookup_ge_None in Er; lia].
    apply IH in H as (Hg & Hs & Hl).
    + cbn [rs_global_index rs_size_index rs_roms] in *.
      rewrite length_insert in Hl. unfold len in *. cbn [length].
      split; [lia | auto].
    + intros p Hp. cbn [rs_roms]. rewrite length_insert.
      apply Hvalid. right. exact Hp.
Qed.

Lemma assign_classes_index (roms : list rom) (lo0 : Z) (n : nat) :
  forall (lo : Z) (st st' : rom_state),
    assign_classes (group_by_size roms) (Py.range lo (lo + Z.of_nat n)) st
    = Py.Ok st' ->
    length (rs_roms st) = length roms ->
    lo0 <= lo ->
    rs_global_index st = count_in roms lo0 lo ->
    (forall s, lo <= s < lo + Z.of_nat n ->
       rs_size_index st' !! s
       = Some (count_in roms lo0 s, len (class s roms)))
    /\ (forall s, ~ lo <= s < lo + Z.of_nat n ->
          rs_size_index st' !! s = rs_size_index st !! s).
Proof.
  induction n as [|n IH]; intros lo st st' H Hlen Hlo Hg.
  - rewrite range_nil in H by lia. injection H as <-.
    split; [intros s Hs; lia | auto].
  - rewrite range_cons in H by lia. cbn [assign_classes] in H.
    rewrite group_by_size_refs in H.
    set (refs := refs_of lo (positions roms)) in *.
    match type of H with
    | Py.bind (assign_class _ _ ?s1) _ = _ =>
        destruct (assign_class lo (Py.enumerate refs) s1) as [st2|] eqn:E2;
          [|discriminate]
    end.
    cbn [Py.bind] in H.
    apply assign_class_counts in E2 as (Hg2 & Hs2 & Hl2).
    2:{ intros [idx ref] Hin. cbn [rs_roms snd]. rewrite Hlen.
        unfold Py.enumerate in Hin. apply in_combine_r in Hin.
        apply refs_of_In in Hin as (r & Hr & _).
        apply (lookup_lt_Some _ _ _ Hr). }
    cbn [rs_global_index rs_size_index rs_roms] in Hg2, Hs2, Hl2.
    assert (len (Py.enumerate refs) = len (class lo roms)) as Hcount.
    { unfold len, Py.enumerate. rewrite length_combine, length_map, length_seq.
      rewrite Nat.min_id. unfold refs, positions. rewrite refs_of_length.
      reflexivity. }
    replace (lo + Z.of_nat (S n)) with (lo + 1 + Z.of_nat n) in * by lia.
    destruct (IH (lo + 1) st2 st' H) as [Hin Hout].
    + rewrite Hl2. exact Hlen.
    + lia.
    + rewrite Hg2, Hg, Hcount. symmetry. apply count_in_succ. exact Hlo.
    + split.
      * intros s Hs. destruct (Z.eq_dec s lo) as [->|Hne].
        -- rewrite Hout by lia. rewrite Hs2, lookup_insert_eq, Hg.
           f_equal. f_equal. unfold len, refs, positions.
           rewrite refs_of_length. reflexivity.
        -- apply Hin. lia.
      * intros s Hs. rewrite Hout by lia. rewrite Hs2.
        apply lookup_insert_ne. lia.
Qed.

(** In a list in ascending order, the values below [s] come first. *)
Lemma ascending_prefix (l : list Z) (s : Z) :
  StronglySorted Z.le l ->
  forall i v, l !! i = Some v ->
    v < s <-> (i < length (List.filter (fun v => (v <? s)%Z) l))%nat.
Proof.
  induction 1 as [|a l Hs IH Hall]; intros i v Hv; [discriminate|].
  cbn [List.filter]. rewrite List.Forall_forall in Hall.
  destruct (Z.ltb_spec a s) as [Ha|Ha].
  - destruct i as [|i]; cbn in Hv.
    + injection Hv as <-. cbn [length]. split; [lia | intros _; exact Ha].
    + cbn [length]. rewrite (IH i v Hv). lia.
  - rewrite PassFacts.filter_none.
    + assert (a <= v).
      { destruct i as [|i]; cbn in Hv; [injection Hv as <-; lia|].
        apply Hall. apply list_elem_of_In, list_elem_of_lookup. eauto. }
      cbn [length]. lia.
    + intros b Hb. apply Z.ltb_ge. specialize (Hall b Hb). lia.
Qed.

Lemma filter_map_length {A B : Type} (g : A -> B) (f : B -> bool) (l : list A) :
  length (List.filter f (map g l)) = length (List.filter (fun a => f (g a)) l).
Proof.
  induction l as [|a l IH]; cbn [map List.filter]; [reflexivity|].
  destruct (f (g a)); cbn [length]; rewrite IH; reflexivity.
Qed.

Lemma size_index_class (db : database) (min_s max_s s : Z)
  (x : remapped) :
  remap_ids (load_database db min_s max_s) min_s max_s = Py.Ok x ->
  min_s <= s <= max_s ->
  exists start count,
    x_size_index x !! s = Some (start, count)
    /\ 0 <= start /\ 0 <= count
    /\ start + count <= len (x_roms x)
    /\ (forall i r, x_roms x !! i = Some r ->
          size_pow2 r = s <-> start <= Z.of_nat i < start + count)
    /\ size_index_entry x s
       = extend_all [Py.pack_uint 4 (start * 23);
                     Py.pack_uint 4 ((start + count) * 23)].
Proof.
  intros H Hs. pose proof H as Hx.
  apply remap_ids_closed in H as (st & Hst & Heq).
  set (d := load_database db min_s max_s) in *.
  set (roms := d_roms d) in *.
  destruct (remap_ids_rom_table d min_s max_s x Hx) as (Hsizes & _ & _ & _).
  fold roms in Hsizes.
  destruct (assign_classes_index roms min_s (Z.to_nat (max_s + 1 - min_s))
              min_s (mk_rom_state roms ∅ ∅ 0) st) as [Hin _].
  { replace (min_s + Z.of_nat (Z.to_nat (max_s + 1 - min_s))) with (max_s + 1)
      by lia. exact Hst. }
  { reflexivity. }
  { lia. }
  { cbn. symmetry. apply count_in_empty. }
  specialize (Hin s ltac:(lia)).
  assert (x_size_index x = rs_size_index st) as Hidx by (rewrite Heq; reflexivity).
  (* the sizes of the table, in ascending order, none below the band *)
  assert (StronglySorted Z.le (map size_pow2 roms)) as Hsorted.
  { pose proof (select_roms_sorted db min_s max_s) as Hsel.
    change (select_roms db min_s max_s) with roms in Hsel.
    clear -Hsel. induction Hsel as [|a l Hsel IH Hall]; cbn [map]; constructor.
    - exact IH.
    - rewrite List.Forall_forall in *. intros v Hv.
      apply in_map_iff in Hv as (b & <- & Hb). specialize (Hall b Hb).
      apply rom_leb_spec in Hall. lia. }
  assert (forall t, min_s <= t ->
            count_in roms min_s t
            = Z.of_nat (length (List.filter (fun v => v <? t) (map size_pow2 roms))))
    as Hbelow.
  { intros t Ht. unfold count_in, len. rewrite filter_map_length. f_equal.
    f_equal. apply filter_ext_in. intros r Hr.
    apply list_elem_of_In, list_elem_of_lookup in Hr as [i Hi].
    pose proof (loaded_roms_in_band db min_s max_s i r Hi) as Hband.
    destruct (Z.leb_spec min_s (size_pow2 r)); [reflexivity | lia]. }
  exists (count_in roms min_s s), (len (class s roms)).
  rewrite Hidx. split; [exact Hin|].
  split; [unfold count_in, len; lia|]. split; [unfold len; lia|].
  assert (count_in roms min_s s + len (class s roms)
          = count_in roms min_s (s + 1)) as Hnext
    by (symmetry; apply count_in_succ; lia).
  split; [|split].
  - rewrite Hnext. unfold count_in, len.
    rewrite <- (length_map size_pow2 (x_roms x)), Hsizes, length_map.
    pose proof (PostFacts.filter_length_le
                  (fun r => (min_s <=? size_pow2 r) && (size_pow2 r <? s + 1))
                  roms). lia.
  - intros i r Hr. rewrite Hnext, !Hbelow by lia.
    assert (map size_pow2 roms !! i = Some (size_pow2 r)) as Hi.
    { rewrite <- Hsizes.
      change (map size_pow2 (x_roms x)) with (size_pow2 <$> x_roms x).
      rewrite list_lookup_fmap, Hr. reflexivity. }
    pose proof (ascending_prefix _ s Hsorted i _ Hi) as H1.
    pose proof (ascending_prefix _ (s + 1) Hsorted i _ Hi) as H2.
    lia.
  - unfold size_index_entry. rewrite Hidx, Hin. reflexivity.
Qed.

(** X12.  For every class [s] of the band, the size index holds the position
    [start] of the first ROM of the class in the ROM table and the number
    [count] of its ROMs: the ROMs of class [s] are exactly those at the
    positions [start], ..., [start + count - 1] of the table, and the entry
    written for the class holds the offsets [start * 23] and
    [(start + count) * 23]. *)
Theorem size_index_delimits_class (db : database) (min_s max_s s : Z)
  (x : remapped) :
  remap_ids (load_database db min_s max_s) min_s max_s = Py.Ok x ->
  min_s <= s <= max_s ->
  exists start count,
    x_size_index x !! s = Some (start, count)
    /\ 0 <= start /\ 0 <= count
    /\ start + count <= len (x_roms x)
    /\ (forall i r, x_roms x !! i = Some r ->
          size_pow2 r = s <-> start <= Z.of_nat i < start + count)
    /\ size_index_entry x s
       = extend_all [Py.pack_uint 4 (start * 23);
                     Py.pack_uint 4 ((start + count) * 23)].
Proof. exact (size_index_class db min_s max_s s x). Qed.

Lemma size_index_delimits_class_witness :
  exists start count,
    x_size_index c6_x !! 13 = Some (start, count)
    /\ 0 <= start /\ 0 <= count
    /\ start + count <= len (x_roms c6_x)
    /\ (forall i r, x_roms c6_x !! i = Some r ->
          size_pow2 r = 13 <-> start <= Z.of_nat i < start + count)
    /\ size_index_entry c6_x 13
       = extend_all [Py.pack_uint 4 (start * 23);
                     Py.pack_uint 4 ((start + count) * 23)].
Proof.
  apply (size_index_delimits_class c6_db 11 23 13 c6_x).
  - vm_compute. reflexivity.
  - lia.
Defined.

End SizeIndexFacts.

(** ** The layout of the blob *)

Module LayoutFacts.
Import Schema Gen PyFacts RomIdFacts BlobFacts TableFacts.

(** [struct.unpack_from] of one unsigned little-endian field of [n] bytes at
    [offset], as the firmware reads the blob. *)
Definition uint_at (n : nat) (data : list byte) (offset : nat) : Z :=
  unpack_uint (firstn n (skipn offset data)).

Lemma uint_at_prefix (n : nat) (data rest : list byte) (offset : nat) :
  (offset + n <= length data)%nat ->
  uint_at n (data ++ rest) offset = uint_at n data offset.
Proof.
  intros H. unfold uint_at. rewrite skipn_app, firstn_app.
  rewrite length_skipn.
  replace (n - (length data - offset))%nat with 0%nat by lia.
  rewrite firstn_O, app_nil_r. reflexivity.
Qed.

Lemma pack_uint_ok (n : nat) (v : Z) (b : list byte) :
  Py.pack_uint n v = Py.Ok b ->
  b = Py.le_bytes n v /\ 0 <= v < 2 ^ (8 * Z.of_nat n).
Proof.
  unfold Py.pack_uint. destruct (_ && _) eqn:E; [|discriminate].
  intros [= <-]. split; [reflexivity|].
  apply andb_true_iff in E as [E1 E2]. apply Z.leb_le in E1.
  apply Z.ltb_lt in E2. lia.
Qed.

Lemma unpack_le_bytes_small (n : nat) (v : Z) :
  0 <= v < 2 ^ (8 * Z.of_nat n) -> unpack_uint (Py.le_bytes n v) = v.
Proof.
  intros Hv. rewrite unpack_le_bytes by lia. apply Z.mod_small. exact Hv.
Qed.

(** *** The length of every table *)

Lemma table_length {A : Type} (f : A -> Py.result (list byte)) (k : nat)
  (l : list A) (table : list byte) :
  (forall a b, In a l -> f a = Py.Ok b -> length b = k) ->
  extend_all (map f l) = Py.Ok table ->
  length table = (k * length l)%nat.
Proof.
  revert table. induction l as [|a l IH]; intros table Hk H.
  - injection H as <-. cbn. lia.
  - cbn [map] in H. apply extend_all_cons in H as (b & bs & Hb & H & ->).
    rewrite length_app, (Hk a b (or_introl eq_refl) Hb).
    rewrite (IH bs); [cbn [length]; lia | | exact H].
    intros a' b' Ha'. apply Hk. right. exact Ha'.
Qed.

Lemma size_index_entry_length (x : remapped) (s : Z) (b : list byte) :
  size_index_entry x s = Py.Ok b -> length b = 8%nat.
Proof.
  unfold size_index_entry.
  destruct (default (0, 0) (x_size_index x !! s)) as [start count]. intros H.
  apply extend_all_cons in H as (b1 & e1 & H1 & H & ->).
  apply extend_all_cons in H as (b2 & e2 & H2 & H & ->).
  injection H as <-. apply pack_uint_length in H1, H2.
  rewrite !length_app, H1, H2. reflexivity.
Qed.

Lemma machine_entry_length (x : remapped) (offsets : gmap string Z)
  (dinfo : gmap Z (Z * Z)) (new : Z) (e : list byte) :
  machine_entry x offsets dinfo new = Py.Ok e -> length e = 20%nat.
Proof.
  intros H.
  assert (exists m, x_machines x !! new = Some m) as [m Hm].
  { unfold machine_entry, getitem in H.
    destruct (x_machines x !! new) as [m|]; [eauto | discriminate]. }
  destruct (machine_entry_year x offsets dinfo new m e Hm H)
    as (pre & yf & post & -> & _ & H1 & H2 & H3).
  rewrite !length_app, H1, H2, H3. reflexivity.
Qed.

Lemma name_entry_length (offsets : gmap string Z) (names : gmap Z string)
  (new : Z) (e : list byte) :
  name_entry offsets names new = Py.Ok e -> length e = 4%nat.
Proof.
  unfold name_entry, getitem. destruct (names !! new); [|discriminate].
  cbn [Py.bind]. apply pack_uint_length.
Qed.

Lemma range_length (n : Z) : len (Py.range 0 n) = Z.max 0 n.
Proof. unfold len, Py.range. rewrite length_map, length_seq. lia. Qed.

(** *** The header *)

(** The thirteen 32-bit fields of the header: five counts, eight offsets. *)
Definition header_values (x : remapped) (strings_pool : list byte)
  (min_s max_s : Z) : list Z :=
  let roms_offset := HEADER_SIZE + (max_s - min_s + 1) * 8 in
  let machines_offset := roms_offset + len (x_roms x) * 23 in
  let machine_roms_offset := machines_offset + size (x_machines x) * 20 in
  let manufacturers_offset := machine_roms_offset + len (x_machine_roms x) * 9 in
  let rom_names_offset := manufacturers_offset + size (x_manufacturers x) * 4 in
  let strings_offset := rom_names_offset + size (x_rom_names x) * 4 in
  [len (x_roms x); size (x_machines x); len (x_machine_roms x);
   size (x_manufacturers x); size (x_rom_names x);
   HEADER_SIZE; roms_offset; machines_offset; machine_roms_offset;
   manufacturers_offset; rom_names_offset; strings_offset;
   strings_offset + len strings_pool].

(** The first eight bytes: the magic, the version and the band. *)
Definition header_prefix (min_s max_s : Z) : list byte :=
  MAGIC ++ Py.le_bytes 2 VERSION ++ Py.le_bytes 1 min_s ++ Py.le_bytes 1 max_s.

Lemma header_bytes_fields (x : remapped) (pool : list byte) (min_s max_s : Z)
  (header : list byte) :
  header_bytes x pool min_s max_s = Py.Ok header ->
  header
  = header_prefix min_s max_s
    ++ flat_map (Py.le_bytes 4) (header_values x pool min_s max_s)
    ++ repeat Byte.x00 4
  /\ 0 <= min_s < 256 /\ 0 <= max_s < 256
  /\ Forall (fun v => 0 <= v < 2 ^ 32) (header_values x pool min_s max_s).
Proof.
  unfold header_bytes. intros H.
  match type of H with
  | Py.bind ?m _ = _ => destruct m as [h|] eqn:E; [|discriminate]
  end.
  cbn [Py.bind] in H. injection H as <-.
  apply extend_all_cons in E as (b0 & e0 & H0 & E & ->).
  apply extend_all_cons in E as (b1 & e1 & H1 & E & ->).
  apply extend_all_cons in E as (b2 & e2 & H2 & E & ->).
  apply extend_all_cons in E as (b3 & e3 & H3 & E & ->).
  apply extend_all_cons in E as (b4 & e4 & H4 & E & ->).
  apply extend_all_cons in E as (b5 & e5 & H5 & E & ->).
  apply extend_all_cons in E as (b6 & e6 & H6 & E & ->).
  apply extend_all_cons in E as (b7 & e7 & H7 & E & ->).
  apply extend_all_cons in E as (b8 & e8 & H8 & E & ->).
  apply extend_all_cons in E as (b9 & e9 & H9 & E & ->).
  apply extend_all_cons in E as (b10 & e10 & H10 & E & ->).
  apply extend_all_cons in E as (b11 & e11 & H11 & E & ->).
  apply extend_all_cons in E as (b12 & e12 & H12 & E & ->).
  apply extend_all_cons in E as (b13 & e13 & H13 & E & ->).
  apply extend_all_cons in E as (b14 & e14 & H14 & E & ->).
  apply extend_all_cons in E as (b15 & e15 & H15 & E & ->).
  apply extend_all_cons in E as (b16 & e16 & H16 & E & ->).
  injection E as <-. injection H0 as <-.
  apply pack_uint_ok in H1 as [-> _], H2 as [-> B2], H3 as [-> B3],
    H4 as [-> B4], H5 as [-> B5], H6 as [-> B6], H7 as [-> B7],
    H8 as [-> B8], H9 as [-> B9], H10 as [-> B10], H11 as [-> B11],
    H12 as [-> B12], H13 as [-> B13], H14 as [-> B14], H15 as [-> B15],
    H16 as [-> B16].
  change (2 ^ (8 * Z.of_nat 1)) with 256 in *.
  change (2 ^ (8 * Z.of_nat 4)) with (2 ^ 32) in *.
  split; [|split; [exact B2 | split; [exact B3|]]].
  - unfold header_values, header_prefix. cbn [flat_map].
    rewrite !app_nil_r, <- !app_assoc. do 17 f_equal.
  - unfold header_values. cbv zeta.
    repeat (apply List.Forall_cons; [assumption|]). apply List.Forall_nil.
Qed.

Lemma uint_at_field (n : nat) (v : Z) (pre post : list byte) :
  0 <= v < 2 ^ (8 * Z.of_nat n) ->
  uint_at n (pre ++ Py.le_bytes n v ++ post) (length pre) = v.
Proof.
  intros Hv. unfold uint_at.
  change (@skipn byte) with (@drop byte). rewrite drop_app_length.
  rewrite firstn_app, le_bytes_length, Nat.sub_diag, firstn_O, app_nil_r.
  rewrite firstn_all2 by (rewrite le_bytes_length; lia).
  apply unpack_le_bytes_small, Hv.
Qed.

Lemma uint_at_nth (vs : list Z) (pre post : list byte) (k : nat) (v : Z) :
  Forall (fun v => 0 <= v < 2 ^ 32) vs ->
  vs !! k = Some v ->
  uint_at 4 (pre ++ flat_map (Py.le_bytes 4) vs ++ post) (length pre + 4 * k)
  = v.
Proof.
  revert vs pre. induction k as [|k IH]; intros [|v0 vs] pre Hall Hk;
    try discriminate; inversion Hall as [|? ? Hv0 Hall']; subst.
  - injection Hk as ->. cbn [flat_map]. rewrite <- app_assoc.
    rewrite Nat.mul_0_r, Nat.add_0_r. apply (uint_at_field 4). exact Hv0.
  - cbn in Hk. cbn [flat_map]. rewrite <- app_assoc, app_assoc.
    replace (length pre + 4 * S k)%nat
      with (length (pre ++ Py.le_bytes 4 v0) + 4 * k)%nat
      by (rewrite length_app, le_bytes_length; lia).
    apply (IH vs _ Hall' Hk).
Qed.

(** The nine sections, each with the call that wrote it. *)
Lemma generate_binary_tables (x : remapped) (pool : list byte)
  (offsets : gmap string Z) (dpool : list byte) (dinfo : gmap Z (Z * Z))
  (min_s max_s : Z) (blob : list byte) :
  generate_binary x pool offsets dpool dinfo min_s max_s = Py.Ok blob ->
  exists header size_index rom_table machine_table machine_rom_table
         manufacturer_table rom_name_table,
    blob = header ++ size_index ++ rom_table ++ machine_table
           ++ machine_rom_table ++ manufacturer_table ++ rom_name_table
           ++ pool ++ dpool
    /\ header_bytes x pool min_s max_s = Py.Ok header
    /\ extend_all (map (size_index_entry x) (Py.range min_s (max_s + 1)))
       = Py.Ok size_index
    /\ extend_all (map rom_entry (x_roms x)) = Py.Ok rom_table
    /\ extend_all (map (machine_entry x offsets dinfo)
                     (Py.range 0 (size (x_machines x)))) = Py.Ok machine_table
    /\ extend_all (map machine_rom_entry (x_machine_roms x))
       = Py.Ok machine_rom_table
    /\ extend_all (map (name_entry offsets (x_manufacturers x))
                     (Py.range 0 (size (x_manufacturers x))))
       = Py.Ok manufacturer_table
    /\ extend_all (map (name_entry offsets (x_rom_names x))
                     (Py.range 0 (size (x_rom_names x))))
       = Py.Ok rom_name_table.
Proof.
  unfold generate_binary, sections. intros H.
  apply extend_all_cons in H as (s0 & e0 & H0 & H & ->).
  apply extend_all_cons in H as (s1 & e1 & H1 & H & ->).
  apply extend_all_cons in H as (s2 & e2 & H2 & H & ->).
  apply extend_all_cons in H as (s3 & e3 & H3 & H & ->).
  apply extend_all_cons in H as (s4 & e4 & H4 & H & ->).
  apply extend_all_cons in H as (s5 & e5 & H5 & H & ->).
  apply extend_all_cons in H as (s6 & e6 & H6 & H & ->).
  apply extend_all_cons in H as (s7 & e7 & H7 & H & ->).
  apply extend_all_cons in H as (s8 & e8 & H8 & H & ->).
  cbn in H. injection H as <-. injection H7 as <-. injection H8 as <-.
  exists s0, s1, s2, s3, s4, s5, s6. rewrite app_nil_r. auto 10.
Qed.

(** The nine sections of the blob of [main], each with the loop that wrote
    it, their lengths, and the header read back. *)
Lemma main_layout (o : set_order) (db : database) (min_s max_s : Z)
  (blob : list byte) :
  main o db min_s max_s = Py.Ok blob ->
  min_s <= max_s + 1 ->
  exists x header size_index rom_table machine_table machine_rom_table
         manufacturer_table rom_name_table,
    let strings_pool := fst (build_strings_pool o x) in
    let desc_pool := fst (build_descriptions_pool x) in
    let offsets := snd (build_strings_pool o x) in
    let desc_info := snd (build_descriptions_pool x) in
    remap_ids (load_database db min_s max_s) min_s max_s = Py.Ok x
    /\ blob = header ++ size_index ++ rom_table ++ machine_table
              ++ machine_rom_table ++ manufacturer_table ++ rom_name_table
              ++ strings_pool ++ desc_pool
    /\ (extend_all (map (size_index_entry x) (Py.range min_s (max_s + 1)))
        = Py.Ok size_index
        /\ extend_all (map rom_entry (x_roms x)) = Py.Ok rom_table
        /\ extend_all (map (machine_entry x offsets desc_info)
                         (Py.range 0 (size (x_machines x))))
           = Py.Ok machine_table
        /\ extend_all (map machine_rom_entry (x_machine_roms x))
           = Py.Ok machine_rom_table
        /\ extend_all (map (name_entry offsets (x_manufacturers x))
                         (Py.range 0 (size (x_manufacturers x))))
           = Py.Ok manufacturer_table
        /\ extend_all (map (name_entry offsets (x_rom_names x))
                         (Py.range 0 (size (x_rom_names x))))
           = Py.Ok rom_name_table)
    /\ (len header = 64
        /\ len size_index = 8 * (max_s - min_s + 1)
        /\ len rom_table = 23 * len (x_roms x)
        /\ len machine_table = 20 * size (x_machines x)
        /\ len machine_rom_table = 9 * len (x_machine_roms x)
        /\ len manufacturer_table = 4 * size (x_manufacturers x)
        /\ len rom_name_table = 4 * size (x_rom_names x))
    /\ (firstn 4 blob = MAGIC
        /\ uint_at 2 blob 4 = VERSION
        /\ uint_at 1 blob 6 = min_s
        /\ uint_at 1 blob 7 = max_s)
    /\ (uint_at 4 blob 8 = len (x_roms x)
        /\ uint_at 4 blob 12 = size (x_machines x)
        /\ uint_at 4 blob 16 = len (x_machine_roms x)
        /\ uint_at 4 blob 20 = size (x_manufacturers x)
        /\ uint_at 4 blob 24 = size (x_rom_names x))
    /\ (uint_at 4 blob 28 = len header
        /\ uint_at 4 blob 32 = len (header ++ size_index)
        /\ uint_at 4 blob 36 = len (header ++ size_index ++ rom_table)
        /\ uint_at 4 blob 40
           = len (header ++ size_index ++ rom_table ++ machine_table)
        /\ uint_at 4 blob 44
           = len (header ++ size_index ++ rom_table ++ machine_table
                  ++ machine_rom_table)
        /\ uint_at 4 blob 48
           = len (header ++ size_index ++ rom_table ++ machine_table
                  ++ machine_rom_table ++ manufacturer_table)
        /\ uint_at 4 blob 52
           = len (header ++ size_index ++ rom_table ++ machine_table
                  ++ machine_rom_table ++ manufacturer_table
                  ++ rom_name_table)
        /\ uint_at 4 blob 56
           = len (header ++ size_index ++ rom_table ++ machine_table
                  ++ machine_rom_table ++ manufacturer_table
                  ++ rom_name_table ++ strings_pool)).
Proof.
  unfold main. intros H Hband.
  destruct (remap_ids _ _ _) as [x|] eqn:Ex; [|discriminate].
  cbn [Py.bind] in H.
  destruct (build_strings_pool o x) as [pool offsets] eqn:Epool.
  destruct (build_descriptions_pool x) as [dpool dinfo] eqn:Edesc.
  apply generate_binary_tables in H
    as (hdr & sidx & rtab & mtab & mrtab & mftab & ntab & -> & Hh & Hsi & Hr
        & Hm & Hmr & Hmf & Hn).
  exists x, hdr, sidx, rtab, mtab, mrtab, mftab, ntab. cbv zeta.
  rewrite Epool, Edesc. cbn [fst snd].
  split; [reflexivity|]. split; [reflexivity|].
  split; [auto 10|].
  destruct (rom_table_ascending db min_s max_s x Ex) as (_ & _ & Hsha).
  (* the lengths *)
  apply (table_length _ 8) in Hsi;
    [|intros a b _; apply size_index_entry_length].
  apply (table_length _ 23) in Hr.
  2:{ intros r b Hin Hb.
      apply list_elem_of_In, list_elem_of_lookup in Hin as [i Hi].
      destruct (rom_entry_bytes r b Hb (Hsha i r Hi)) as (nf & -> & Hnf).
      rewrite length_app, Hnf, (Hsha i r Hi). reflexivity. }
  apply (table_length _ 20) in Hm;
    [|intros a b _; apply machine_entry_length].
  apply (table_length _ 9) in Hmr;
    [|intros a b _ Hb; apply (machine_rom_entry_bytes a b Hb)].
  apply (table_length _ 4) in Hmf; [|intros a b _; apply name_entry_length].
  apply (table_length _ 4) in Hn; [|intros a b _; apply name_entry_length].
  apply header_bytes_fields in Hh as (Hhdr & Bmin & Bmax & Hvals).
  assert (length hdr = 64%nat) as Lh by (rewrite Hhdr; reflexivity).
  assert (len sidx = 8 * (max_s - min_s + 1)) as Lsi.
  { unfold len. rewrite Hsi. unfold Py.range. rewrite length_map, length_seq. lia. }
  assert (len rtab = 23 * len (x_roms x)) as Lr by (unfold len; lia).
  assert (len mtab = 20 * size (x_machines x)) as Lm.
  { pose proof (range_length (size (x_machines x))) as Hl. unfold len, size in *.
    lia. }
  assert (len mrtab = 9 * len (x_machine_roms x)) as Lmr by (unfold len; lia).
  assert (len mftab = 4 * size (x_manufacturers x)) as Lmf.
  { pose proof (range_length (size (x_manufacturers x))) as Hl.
    unfold len, size in *. lia. }
  assert (len ntab = 4 * size (x_rom_names x)) as Ln.
  { pose proof (range_length (size (x_rom_names x))) as Hl.
    unfold len, size in *. lia. }
  split; [unfold len; rewrite Lh; auto 10|].
  (* the header read back *)
  assert (forall n off rest, (off + n <= 64)%nat ->
            uint_at n (hdr ++ rest) off = uint_at n hdr off) as Hpre
    by (intros n off rest Hoff; apply uint_at_prefix; lia).
  assert (forall k v,
            header_values x pool min_s max_s !! k = Some v ->
            uint_at 4 hdr (8 + 4 * k) = v) as Hfield.
  { intros k v Hk. rewrite Hhdr.
    change 8%nat with (length (header_prefix min_s max_s)).
    apply (uint_at_nth _ _ _ k v Hvals Hk). }
  split.
  { split; [rewrite Hhdr; reflexivity|].
    rewrite !Hpre by lia. rewrite Hhdr. unfold header_prefix.
    rewrite <- !app_assoc.
    split; [apply (uint_at_field 2 VERSION MAGIC); unfold VERSION; cbn; lia|].
    split.
    - rewrite (app_assoc MAGIC).
      apply (uint_at_field 1 min_s (MAGIC ++ Py.le_bytes 2 VERSION)).
      exact Bmin.
    - rewrite (app_assoc MAGIC), (app_assoc (MAGIC ++ _)).
      apply (uint_at_field 1 max_s
               ((MAGIC ++ Py.le_bytes 2 VERSION) ++ Py.le_bytes 1 min_s)).
      exact Bmax. }
  rewrite !Hpre by lia.
  split.
  { repeat split.
    - apply (Hfield 0%nat). reflexivity.
    - apply (Hfield 1%nat). reflexivity.
    - apply (Hfield 2%nat). reflexivity.
    - apply (Hfield 3%nat). reflexivity.
    - apply (Hfield 4%nat). reflexivity. }
  unfold len in *. rewrite !length_app.
  repeat split.
  - rewrite (Hfield 5%nat _ eq_refl : uint_at 4 hdr 28 = _). unfold HEADER_SIZE, len. lia.
  - rewrite (Hfield 6%nat _ eq_refl : uint_at 4 hdr 32 = _). unfold HEADER_SIZE, len. lia.
  - rewrite (Hfield 7%nat _ eq_refl : uint_at 4 hdr 36 = _). unfold HEADER_SIZE, len. lia.
  - rewrite (Hfield 8%nat _ eq_refl : uint_at 4 hdr 40 = _). unfold HEADER_SIZE, len. lia.
  - rewrite (Hfield 9%nat _ eq_refl : uint_at 4 hdr 44 = _). unfold HEADER_SIZE, len. lia.
  - rewrite (Hfield 10%nat _ eq_refl : uint_at 4 hdr 48 = _). unfold HEADER_SIZE, len. lia.
  - rewrite (Hfield 11%nat _ eq_refl : uint_at 4 hdr 52 = _). unfold HEADER_SIZE, len. lia.
  - rewrite (Hfield 12%nat _ eq_refl : uint_at 4 hdr 56 = _). unfold HEADER_SIZE, len. lia.
Qed.



End LayoutFacts.

(** ** The descriptions pool *)

Module PoolFacts.
Import Schema Gen PyFacts.

(** What [desc_info] must hold for a machine, given the pool: nothing for a
    machine without description, and otherwise the place of the description
    in the pool. *)
Definition described (pool : list byte) (entry : option (Z * Z)) (m : machine)
  : Prop :=
  match description m with
  | Some ((_ :: _) as desc) =>
      exists off : nat,
        entry = Some (Z.of_nat off, len desc)
        /\ (off + length desc <= length pool)%nat
        /\ firstn (length desc) (skipn off pool) = desc
  | _ => entry = Some (0, 0)
  end.

Lemma described_app (pool extra : list byte) (entry : option (Z * Z))
  (m : machine) :
  described pool entry m -> described (pool ++ extra) entry m.
Proof.
  unfold described. destruct (description m) as [[|b desc]|]; auto.
  intros (off & He & Hle & Hslice). exists off. split; [exact He|].
  split; [rewrite length_app; lia|].
  rewrite skipn_app, firstn_app, Hslice, length_skipn.
  replace (length (b :: desc) - (length pool - off))%nat with 0%nat by lia.
  rewrite firstn_O, app_nil_r. reflexivity.
Qed.

Lemma fold_desc_step (l : list (Z * machine)) (st : list byte * gmap Z (Z * Z)) :
  List.NoDup (map fst l) ->
  (exists extra, fst (fold_left desc_step l st) = fst st ++ extra)
  /\ (forall k m, In (k, m) l ->
        described (fst (fold_left desc_step l st))
          (snd (fold_left desc_step l st) !! k) m)
  /\ (forall k, ~ In k (map fst l) ->
        snd (fold_left desc_step l st) !! k = snd st !! k).
Proof.
  revert st. induction l as [|[k m] l IH]; intros st Hnd.
  - cbn. split; [exists []; rewrite app_nil_r; reflexivity|].
    split; [intros k m [] | reflexivity].
  - cbn [map fst] in Hnd. inversion Hnd as [|? ? Hk Hnd']; subst.
    cbn [fold_left].
    destruct (IH (desc_step st (k, m)) Hnd') as ((extra & Hextra) & Hin & Hout).
    assert (exists added,
              fst (desc_step st (k, m)) = fst st ++ added
              /\ described (fst (desc_step st (k, m)))
                   (snd (desc_step st (k, m)) !! k) m) as (added & Hadd & Hdesc).
    { unfold desc_step, described. cbn [fst snd].
      destruct (description m) as [[|b desc]|]; cbn [fst snd].
      - exists []. rewrite app_nil_r, lookup_insert_eq. auto.
      - exists (b :: desc). rewrite lookup_insert_eq. split; [reflexivity|].
        exists (length (fst st)). split; [reflexivity|].
        split; [rewrite length_app; lia|].
        change (@skipn byte) with (@drop byte). rewrite drop_app_length.
        apply firstn_all.
      - exists []. rewrite app_nil_r, lookup_insert_eq. auto. }
    split; [|split].
    + exists (added ++ extra). rewrite Hextra, Hadd, app_assoc. reflexivity.
    + intros k' m' [[= <- <-]|Hin'].
      * rewrite (Hout k Hk), Hextra. apply described_app, Hdesc.
      * apply (Hin k' m' Hin').
    + intros k' Hk'.
      rewrite (Hout k') by (intros Hx; apply Hk'; right; exact Hx).
      assert (k <> k') as Hne by (intros ->; apply Hk'; left; reflexivity).
      unfold desc_step. cbn [snd fst].
      destruct (description m) as [[|b desc]|]; cbn [snd fst];
        apply lookup_insert_ne; exact Hne.
Qed.

Lemma build_descriptions_described (x : remapped) :
  (forall k m, x_machines x !! k = Some m ->
     described (fst (build_descriptions_pool x))
       (snd (build_descriptions_pool x) !! k) m)
  /\ (forall k, x_machines x !! k = None ->
        snd (build_descriptions_pool x) !! k = None).
Proof.
  unfold build_descriptions_pool.
  set (l := Py.sort (fun a b : Z * machine => fst a <=? fst b)
              (map_to_list (x_machines x))).
  assert (forall k m, In (k, m) l <-> x_machines x !! k = Some m) as Hl.
  { intros k m. unfold l. rewrite sort_In, <- list_elem_of_In.
    apply elem_of_map_to_list. }
  assert (List.NoDup (map fst l)) as Hnd.
  { eapply Permutation_NoDup.
    - apply Permutation_map. symmetry. apply sort_perm.
    - apply NoDup_ListNoDup, NoDup_fst_map_to_list. }
  destruct (fold_desc_step l ([], ∅) Hnd) as (_ & Hin & Hout).
  split.
  - intros k m Hm. apply Hl in Hm. apply (Hin k m Hm).
  - intros k Hk. rewrite Hout; [apply lookup_empty|].
    intros Hin'. apply in_map_iff in Hin' as ([k' m] & <- & Hm).
    apply Hl in Hm. cbn in Hk. congruence.
Qed.

(** X14.  [build_descriptions_pool] gives every machine of the table an entry of
    [desc_info]: (0, 0) when the description is absent or empty, and
    otherwise the offset and the length at which the pool holds the
    description, byte for byte. *)
Theorem build_descriptions_pool_slices (x : remapped) :
  let pool := fst (build_descriptions_pool x) in
  let desc_info := snd (build_descriptions_pool x) in
  (forall k m, x_machines x !! k = Some m ->
     match description m with
     | Some ((_ :: _) as desc) =>
         exists off : nat,
           desc_info !! k = Some (Z.of_nat off, len desc)
           /\ (off + length desc <= length pool)%nat
           /\ firstn (length desc) (skipn off pool) = desc
     | _ => desc_info !! k = Some (0, 0)
     end)
  /\ (forall k, x_machines x !! k = None -> desc_info !! k = None).
Proof.
  cbv zeta. destruct (build_descriptions_described x) as [Hin Hout].
  split; [|exact Hout]. intros k m Hm. apply (Hin k m Hm).
Qed.

End PoolFacts.

(** ** Reading the records back *)

Module RecordFacts.
Import Schema Gen PyFacts BlobFacts TableFacts GenFacts RemapFacts
  SizeIndexFacts LayoutFacts PoolFacts.

#[local] Arguments String.eqb : simpl never.

(** The reader's side of the format: the start of a section is the 32-bit
    header field at [field]; a record of a table is found from the start of
    its section, its index and its size. *)
Definition section_start (blob : list byte) (field : nat) : nat :=
  Z.to_nat (uint_at 4 blob field).

Definition bytes_at (blob : list byte) (offset n : nat) : list byte :=
  firstn n (skipn offset blob).

(** The field of [n] bytes at [offset] in the record [k] of the table of
    records of [record_size] bytes whose section starts at header field
    [field]. *)
Definition record_field (blob : list byte) (field record_size k offset n : nat)
  : Z :=
  uint_at n blob (section_start blob field + record_size * k + offset).

(** The strings pool holds [s] and its NUL at [offset]. *)
Definition string_at (blob : list byte) (offset : Z) (s : string) : Prop :=
  bytes_at blob (section_start blob 52 + Z.to_nat offset)
    (length (pool_entry s))
  = pool_entry s.

(** *** Slices *)

Lemma slice_at (pre mid post : list byte) (off n : nat) :
  off = length pre -> n = length mid ->
  firstn n (skipn off (pre ++ mid ++ post)) = mid.
Proof.
  intros -> ->. change (@skipn byte) with (@drop byte).
  rewrite drop_app_length.
  rewrite firstn_app, Nat.sub_diag, firstn_O, app_nil_r. apply firstn_all.
Qed.

Lemma slice_inner (blob pre mid post : list byte) (off n : nat) :
  blob = pre ++ mid ++ post ->
  (off + n <= length mid)%nat ->
  firstn n (skipn (length pre + off) blob) = firstn n (skipn off mid).
Proof.
  intros -> Hn. rewrite skipn_app.
  rewrite skipn_all2 by lia.
  replace (length pre + off - length pre)%nat with off by lia.
  cbn [app]. rewrite skipn_app, firstn_app, length_skipn.
  replace (n - (length mid - off))%nat with 0%nat by lia.
  rewrite firstn_O, app_nil_r. reflexivity.
Qed.

Lemma uint_at_inner (blob pre mid post : list byte) (off n : nat) :
  blob = pre ++ mid ++ post ->
  (off + n <= length mid)%nat ->
  uint_at n blob (length pre + off) = uint_at n mid off.
Proof.
  intros Hb Hn. unfold uint_at. rewrite (slice_inner _ _ _ _ _ _ Hb Hn).
  reflexivity.
Qed.

Lemma uint_at_mod (n : nat) (v : Z) (pre post : list byte) (off : nat) :
  0 <= v -> off = length pre ->
  uint_at n (pre ++ Py.le_bytes n v ++ post) off = v mod 2 ^ (8 * Z.of_nat n).
Proof.
  intros Hv ->. unfold uint_at.
  rewrite (slice_at pre (Py.le_bytes n v) post)
    by (rewrite ?le_bytes_length; reflexivity).
  apply unpack_le_bytes, Hv.
Qed.

(** *** The record [k] of a table *)

Lemma table_entry {A : Type} (f : A -> Py.result (list byte)) (c : nat)
  (l : list A) (table : list byte) (k : nat) (a : A) :
  (forall a b, In a l -> f a = Py.Ok b -> length b = c) ->
  extend_all (map f l) = Py.Ok table ->
  l !! k = Some a ->
  exists pre b post,
    table = pre ++ b ++ post /\ f a = Py.Ok b /\ length pre = (c * k)%nat
    /\ length b = c.
Proof.
  revert table k. induction l as [|a0 l IH]; intros table k Hc H Hk;
    [discriminate|].
  cbn [map] in H. apply extend_all_cons in H as (b0 & bs & Hb0 & H & ->).
  destruct k as [|k].
  - injection Hk as ->. exists [], b0, bs. split; [reflexivity|].
    split; [exact Hb0|]. split; [cbn; lia|].
    apply (Hc a b0 (or_introl eq_refl) Hb0).
  - cbn in Hk.
    destruct (IH bs k (fun a' b' Hin => Hc a' b' (or_intror Hin)) H Hk)
      as (pre & b & post & -> & Hb & Hpre & Hlen).
    exists (b0 ++ pre), b, post.
    split; [rewrite <- app_assoc; reflexivity|]. split; [exact Hb|].
    split; [|exact Hlen].
    rewrite length_app, Hpre, (Hc a0 b0 (or_introl eq_refl) Hb0). lia.
Qed.

Lemma range_at (n : Z) (k : nat) :
  0 <= Z.of_nat k < n -> Py.range 0 n !! k = Some (Z.of_nat k).
Proof.
  intros Hk. unfold Py.range.
  change (map (fun i => 0 + Z.of_nat i) (seq 0 (Z.to_nat (n - 0))))
    with ((fun i => 0 + Z.of_nat i) <$> seq 0 (Z.to_nat (n - 0))).
  rewrite list_lookup_fmap, lookup_seq_lt by lia. reflexivity.
Qed.

(** *** The keys of the three tables *)

Lemma remap_ids_keys (d : data) (min_s max_s : Z) (x : remapped) :
  remap_ids d min_s max_s = Py.Ok x ->
  (forall k, is_Some (x_machines x !! k) <-> 0 <= k < size (x_machines x))
  /\ (forall k, is_Some (x_manufacturers x !! k)
        <-> 0 <= k < size (x_manufacturers x))
  /\ (forall k, is_Some (x_rom_names x !! k)
        <-> 0 <= k < size (x_rom_names x)).
Proof.
  intros H. apply remap_ids_closed in H as (st & _ & ->).
  cbn [x_machines x_manufacturers x_rom_names].
  split; [|split; intros k; apply number_ids_keys].
  intros k. unfold size. rewrite map_size_fmap, lookup_fmap, fmap_is_Some.
  apply number_ids_keys.
Qed.

Lemma remap_ids_machine_refs (d : data) (min_s max_s : Z) (x : remapped)
  (k : Z) (m : machine) :
  remap_ids d min_s max_s = Py.Ok x ->
  x_machines x !! k = Some m ->
  exists c r f,
    cloneof_id m = Some c /\ romof_id m = Some r /\ manufacturer_id m = Some f
    /\ (c = NULL_ID_24 \/ 0 <= c < size (x_machines x))
    /\ (r = NULL_ID_24 \/ 0 <= r < size (x_machines x))
    /\ (f = NULL_ID_16 \/ 0 <= f < size (x_manufacturers x)).
Proof.
  intros H Hm. apply remap_ids_closed in H as (st & _ & ->).
  cbn [x_machines x_manufacturers] in *. rewrite lookup_fmap in Hm.
  destruct (snd (machine_numbers d) !! k) as [m0|]; [|discriminate].
  cbn in Hm. injection Hm as <-.
  cbn [remap_machine cloneof_id romof_id manufacturer_id].
  assert (size (remap_machine d <$> snd (machine_numbers d))
          = size (snd (machine_numbers d))) as ->
    by (unfold size; rewrite map_size_fmap; reflexivity).
  do 3 eexists. do 3 (split; [reflexivity|]).
  split; [|split]; apply remap_ref_range.
Qed.

(** *** The two pools *)

Lemma pool_entry_at (o : set_order) (x : remapped) (s : string) :
  In s (pool_strings o x) ->
  exists pre post,
    fst (build_strings_pool o x) = pre ++ pool_entry s ++ post
    /\ snd (build_strings_pool o x) !! s = Some (len pre).
Proof.
  intros Hin. pose proof (pool_strings_NoDup o x) as Hnd.
  apply in_split in Hin as (l1 & l2 & E).
  unfold build_strings_pool. fold (pool_strings o x). rewrite E in *.
  exists (flat_map pool_entry l1), (flat_map pool_entry l2). split.
  - rewrite fold_pool_fst. cbn [fst app].
    rewrite flat_map_app. reflexivity.
  - rewrite (fold_pool_offset l1 l2 s ([], ∅)); [reflexivity|].
    apply List.NoDup_remove_2 in Hnd. intros Hs. apply Hnd, in_or_app.
    right. exact Hs.
Qed.

Lemma description_at (x : remapped) (k : Z) (m : machine) :
  x_machines x !! k = Some m ->
  exists pre post,
    fst (build_descriptions_pool x)
    = pre ++ default [] (description m) ++ post
    /\ snd (build_descriptions_pool x) !! k
       = Some (len pre, len (default [] (description m))).
Proof.
  intros Hm. destruct (build_descriptions_described x) as [Hin _].
  specialize (Hin k m Hm). unfold described in Hin.
  destruct (description m) as [[|b desc]|]; cbn [default].
  - exists [], (fst (build_descriptions_pool x)). split; [reflexivity|].
    exact Hin.
  - destruct Hin as (off & He & Hle & Hslice).
    exists (firstn off (fst (build_descriptions_pool x))),
      (skipn (length (b :: desc)) (skipn off (fst (build_descriptions_pool x)))).
    split.
    + pose proof (firstn_skipn (length (b :: desc))
                    (skipn off (fst (build_descriptions_pool x)))) as H2.
      rewrite Hslice in H2.
      transitivity (firstn off (fst (build_descriptions_pool x))
                    ++ skipn off (fst (build_descriptions_pool x)));
        [symmetry; apply firstn_skipn|].
      f_equal. symmetry. exact H2.
    + rewrite He. unfold len. rewrite length_firstn.
      replace (Init.Nat.min off (length (fst (build_descriptions_pool x))))
        with off by lia.
      reflexivity.
  - exists [], (fst (build_descriptions_pool x)). split; [reflexivity|].
    exact Hin.
Qed.

(** *** The fields of a machine record *)

Lemma pack_uint24_field (v : option Z) (b : list byte) :
  pack_field write_uint24 v = Py.Ok b ->
  exists c, v = Some c /\ b = Py.le_bytes 3 c /\ 0 <= c < 2 ^ 32.
Proof.
  destruct v as [c|]; [|discriminate]. cbn [pack_field]. intros H.
  apply write_uint24_bytes in H as [-> Hc]. eauto.
Qed.

Lemma machine_entry_fields (x : remapped) (offsets : gmap string Z)
  (dinfo : gmap Z (Z * Z)) (new : Z) (m : machine) (e : list byte) :
  x_machines x !! new = Some m ->
  machine_entry x offsets dinfo new = Py.Ok e ->
  exists c r f,
    cloneof_id m = Some c /\ romof_id m = Some r /\ manufacturer_id m = Some f
    /\ e = Py.le_bytes 4 (default 0 (offsets !! name m))
           ++ Py.le_bytes 4 (fst (default (0, 0) (dinfo !! new)))
           ++ Py.le_bytes 2 (snd (default (0, 0) (dinfo !! new)))
           ++ Py.le_bytes 3 c ++ Py.le_bytes 3 r
           ++ Py.le_bytes 2 (Z.land (year m) 0xFFFF)
           ++ Py.le_bytes 2 (Z.land f 0xFFFF)
    /\ 0 <= default 0 (offsets !! name m) < 2 ^ 32
    /\ 0 <= fst (default (0, 0) (dinfo !! new)) < 2 ^ 32
    /\ 0 <= snd (default (0, 0) (dinfo !! new)) < 2 ^ 16
    /\ 0 <= c /\ 0 <= r.
Proof.
  unfold machine_entry, getitem. intros -> H. cbn [Py.bind] in H.
  destruct (default (0, 0) (dinfo !! new)) as [d_off d_len]. cbn [fst snd].
  apply extend_all_cons in H as (b1 & e1 & H1 & H & ->).
  apply extend_all_cons in H as (b2 & e2 & H2 & H & ->).
  apply extend_all_cons in H as (b3 & e3 & H3 & H & ->).
  apply extend_all_cons in H as (b4 & e4 & H4 & H & ->).
  apply extend_all_cons in H as (b5 & e5 & H5 & H & ->).
  apply extend_all_cons in H as (b6 & e6 & H6 & H & ->).
  apply extend_all_cons in H as (b7 & e7 & H7 & H & ->).
  cbn in H. injection H as <-.
  apply pack_uint_ok in H1 as [-> B1], H2 as [-> B2], H3 as [-> B3].
  apply pack_uint24_field in H4 as (c & Hc & -> & B4),
    H5 as (r & Hr & -> & B5).
  unfold year_field in H6. apply pack_uint_ok in H6 as [-> _].
  destruct (manufacturer_id m) as [f|]; [|discriminate].
  cbn [pack_field] in H7. apply pack_uint_ok in H7 as [-> _].
  exists c, r, f. rewrite app_nil_r.
  change (2 ^ (8 * Z.of_nat 4)) with (2 ^ 32) in *.
  change (2 ^ (8 * Z.of_nat 2)) with (2 ^ 16) in *.
  repeat (split; [assumption || reflexivity || lia|]). lia.
Qed.

(** *** The blob of [main], as the records theorems use it *)

Record tables : Type := mk_tables {
  t_hdr : list byte;
  t_sidx : list byte;
  t_rtab : list byte;
  t_mtab : list byte;
  t_mrtab : list byte;
  t_mftab : list byte;
  t_ntab : list byte
}.

Record layout (o : set_order) (x : remapped) (min_s max_s : Z)
  (blob : list byte) (t : tables) : Prop := mk_layout {
  lay_blob :
    blob = (t_hdr t) ++ (t_sidx t) ++ (t_rtab t) ++ (t_mtab t) ++ (t_mrtab t)
           ++ (t_mftab t) ++ (t_ntab t) ++ fst (build_strings_pool o x)
           ++ fst (build_descriptions_pool x);
  lay_size_index :
    extend_all (map (size_index_entry x) (Py.range min_s (max_s + 1)))
    = Py.Ok (t_sidx t);
  lay_roms : extend_all (map rom_entry (x_roms x)) = Py.Ok (t_rtab t);
  lay_machines :
    extend_all (map (machine_entry x (snd (build_strings_pool o x))
                       (snd (build_descriptions_pool x)))
                  (Py.range 0 (size (x_machines x)))) = Py.Ok (t_mtab t);
  lay_machine_roms :
    extend_all (map machine_rom_entry (x_machine_roms x)) = Py.Ok (t_mrtab t);
  lay_manufacturers :
    extend_all (map (name_entry (snd (build_strings_pool o x))
                       (x_manufacturers x))
                  (Py.range 0 (size (x_manufacturers x)))) = Py.Ok (t_mftab t);
  lay_rom_names :
    extend_all (map (name_entry (snd (build_strings_pool o x)) (x_rom_names x))
                  (Py.range 0 (size (x_rom_names x)))) = Py.Ok (t_ntab t);
  lay_band : 0 <= min_s <= 255 /\ 0 <= max_s <= 255;
  lay_size_index_start : section_start blob 28 = length (t_hdr t);
  lay_roms_start : section_start blob 32 = length (t_hdr t ++ (t_sidx t));
  lay_machines_start :
    section_start blob 36 = length (t_hdr t ++ (t_sidx t) ++ (t_rtab t));
  lay_machine_roms_start :
    section_start blob 40
    = length (t_hdr t ++ (t_sidx t) ++ (t_rtab t) ++ (t_mtab t));
  lay_manufacturers_start :
    section_start blob 44
    = length (t_hdr t ++ (t_sidx t) ++ (t_rtab t) ++ (t_mtab t) ++ (t_mrtab t));
  lay_rom_names_start :
    section_start blob 48
    = length (t_hdr t ++ (t_sidx t) ++ (t_rtab t) ++ (t_mtab t) ++ (t_mrtab t)
              ++ (t_mftab t));
  lay_strings_start :
    section_start blob 52
    = length (t_hdr t ++ (t_sidx t) ++ (t_rtab t) ++ (t_mtab t) ++ (t_mrtab t)
              ++ (t_mftab t) ++ (t_ntab t));
  lay_descriptions_start :
    section_start blob 56
    = length (t_hdr t ++ (t_sidx t) ++ (t_rtab t) ++ (t_mtab t) ++ (t_mrtab t)
              ++ (t_mftab t) ++ (t_ntab t) ++ fst (build_strings_pool o x))
}.

Lemma main_has_layout (o : set_order) (db : database) (min_s max_s : Z)
  (blob : list byte) (x : remapped) :
  main o db min_s max_s = Py.Ok blob ->
  min_s <= max_s + 1 ->
  remap_ids (load_database db min_s max_s) min_s max_s = Py.Ok x ->
  exists t, layout o x min_s max_s blob t.
Proof.
  intros H Hband Hx.
  assert (0 <= min_s <= 255 /\ 0 <= max_s <= 255) as Hbytes.
  { unfold main in H. rewrite Hx in H. cbn [Py.bind] in H.
    destruct (build_strings_pool o x) as [pool offsets].
    destruct (build_descriptions_pool x) as [dpool dinfo].
    apply generate_binary_sections in H
      as (hdr & sidx & rtab & mtab & mrtab & mftab & ntab & _ & Hh & _).
    exact (header_bytes_band _ _ _ _ _ Hh). }
  destruct (main_layout o db min_s max_s blob H Hband)
    as (x' & hdr & sidx & rtab & mtab & mrtab & mftab & ntab & Hlay).
  cbv zeta in Hlay.
  destruct Hlay as (Hx' & Hblob & Htabs & _ & _ & _ & Hoffs).
  rewrite Hx in Hx'. injection Hx' as <-.
  destruct Htabs as (T1 & T2 & T3 & T4 & T5 & T6).
  destruct Hoffs as (O1 & O2 & O3 & O4 & O5 & O6 & O7 & O8).
  unfold len in *.
  exists (mk_tables hdr sidx rtab mtab mrtab mftab ntab).
  apply mk_layout; cbn [t_hdr t_sidx t_rtab t_mtab t_mrtab t_mftab t_ntab];
    try assumption; unfold section_start;
    first [rewrite O1 | rewrite O2 | rewrite O3 | rewrite O4 | rewrite O5
          | rewrite O6 | rewrite O7 | rewrite O8];
    apply Nat2Z.id.
Qed.

Lemma string_in_pool (o : set_order) (x : remapped) (min_s max_s : Z)
  (blob : list byte) (t : tables) (s : string) :
  layout o x min_s max_s blob t ->
  In s (pool_strings o x) ->
  exists off,
    snd (build_strings_pool o x) !! s = Some off
    /\ 0 <= off <= len (fst (build_strings_pool o x))
    /\ string_at blob off s.
Proof.
  intros L Hin. destruct (pool_entry_at o x s Hin) as (pre & post & Hpool & Hoff).
  exists (len pre). split; [exact Hoff|]. split.
  { unfold len. rewrite Hpool, length_app. lia. }
  unfold string_at, bytes_at. rewrite (lay_strings_start _ _ _ _ _ _ L).
  unfold len. rewrite Nat2Z.id.
  rewrite (slice_inner blob _ (fst (build_strings_pool o x))
             (fst (build_descriptions_pool x))).
  - rewrite Hpool. apply slice_at; reflexivity.
  - rewrite (lay_blob _ _ _ _ _ _ L), <- !app_assoc. reflexivity.
  - rewrite Hpool, !length_app. lia.
Qed.

(** *** Machine records *)

(** X15.  The machine table read back.  In the blob [main] writes, the 20-byte
    record [k] of the machine table, found through the header, gives
    machine [k] of the remapped tables: at the offset of its first field the
    strings pool holds the name of the machine and a NUL; its third field
    is the length of the description, and the descriptions pool holds the
    description at the offset of its second field (an absent description
    counting as empty); then come cloneof_id and romof_id, each NULL_ID_24
    or the index of a machine record, in 24 bits; the year, in 16 bits; and
    manufacturer_id, NULL_ID_16 or the index of a manufacturer record, in
    16 bits. *)
Theorem machine_record_reads_back (o : set_order) (db : database)
  (min_s max_s : Z) (blob : list byte) (x : remapped) (k : nat) (m : machine) :
  main o db min_s max_s = Py.Ok blob ->
  min_s <= max_s + 1 ->
  remap_ids (load_database db min_s max_s) min_s max_s = Py.Ok x ->
  x_machines x !! Z.of_nat k = Some m ->
  string_at blob (record_field blob 36 20 k 0 4) (name m)
  /\ record_field blob 36 20 k 8 2 = len (default [] (description m))
  /\ bytes_at blob
       (section_start blob 56 + Z.to_nat (record_field blob 36 20 k 4 4))
       (length (default [] (description m)))
     = default [] (description m)
  /\ (exists c, cloneof_id m = Some c
                /\ (c = NULL_ID_24 \/ 0 <= c < size (x_machines x))
                /\ record_field blob 36 20 k 10 3 = c mod 2 ^ 24)
  /\ (exists r, romof_id m = Some r
                /\ (r = NULL_ID_24 \/ 0 <= r < size (x_machines x))
                /\ record_field blob 36 20 k 13 3 = r mod 2 ^ 24)
  /\ record_field blob 36 20 k 16 2 = year m mod 2 ^ 16
  /\ (exists f, manufacturer_id m = Some f
                /\ (f = NULL_ID_16 \/ 0 <= f < size (x_manufacturers x))
                /\ record_field blob 36 20 k 18 2 = f mod 2 ^ 16).
Proof.
  intros H Hband Hx Hm.
  destruct (main_has_layout o db min_s max_s blob x H Hband Hx) as [t L].
  destruct (remap_ids_keys _ _ _ _ Hx) as (Hkeys & _ & _).
  assert (0 <= Z.of_nat k < size (x_machines x)) as Hk
    by (apply Hkeys; eauto).
  destruct (table_entry _ 20 _ _ k _
              (fun a b _ => machine_entry_length x _ _ a b)
              (lay_machines _ _ _ _ _ _ L) (range_at _ k Hk))
    as (pre & e & post & Hmtab & He & Hpre & Hlen_e).
  destruct (machine_entry_fields _ _ _ _ m e Hm He)
    as (c & r & f & Hc & Hr & Hf & Hfields & Bn & Bdo & Bdl & Bc & Br).
  destruct (remap_ids_machine_refs _ _ _ _ _ m Hx Hm)
    as (c' & r' & f' & Hc' & Hr' & Hf' & Rc & Rr & Rf).
  rewrite Hc in Hc'. rewrite Hr in Hr'. rewrite Hf in Hf'.
  injection Hc' as <-. injection Hr' as <-. injection Hf' as <-.
  destruct (string_in_pool o x min_s max_s blob t (name m) L)
    as (noff & Hnoff & _ & Hname).
  { apply pool_strings_In, collected_strings_In. right. right. eauto. }
  destruct (description_at x _ m Hm) as (dpre & dpost & Hdpool & Hdinfo).
  rewrite Hnoff in Hfields, Bn. rewrite Hdinfo in Hfields, Bdo, Bdl.
  change (default 0 (Some noff)) with noff in Hfields, Bn.
  change (fst (default (0, 0)
                 (Some (len dpre, len (default [] (description m))))))
    with (len dpre) in Hfields, Bdo.
  change (snd (default (0, 0)
                 (Some (len dpre, len (default [] (description m))))))
    with (len (default [] (description m))) in Hfields, Bdl.
  (* the record in the blob *)
  assert (blob
          = (t_hdr t ++ t_sidx t
             ++ t_rtab t ++ pre)
            ++ e ++ (post ++ t_mrtab t ++ t_mftab t
                     ++ t_ntab t ++ fst (build_strings_pool o x)
                     ++ fst (build_descriptions_pool x))) as Hentry.
  { rewrite (lay_blob _ _ _ _ _ _ L) at 1. rewrite Hmtab, <- !app_assoc.
    reflexivity. }
  assert (forall off n, (off + n <= 20)%nat ->
            record_field blob 36 20 k off n = uint_at n e off) as Hfield.
  { intros off n Hoff. unfold record_field.
    rewrite (lay_machines_start _ _ _ _ _ _ L).
    replace (length (t_hdr t ++ t_sidx t
                     ++ t_rtab t) + 20 * k + off)%nat
      with (length (t_hdr t ++ t_sidx t
                    ++ t_rtab t ++ pre) + off)%nat
      by (rewrite !length_app, Hpre; lia).
    apply (uint_at_inner _ _ _ _ _ _ Hentry). lia. }
  rewrite !Hfield by lia. rewrite Hfields.
  assert (uint_at 4 e 0 = noff) as F0
    by (rewrite Hfields; exact (uint_at_field 4 _ [] _ Bn)).
  assert (uint_at 4 e 4 = len dpre) as F4
    by (rewrite Hfields; exact (uint_at_field 4 _ (Py.le_bytes 4 noff) _ Bdo)).
  rewrite <- Hfields. rewrite F0, F4. rewrite Hfields.
  split; [exact Hname|].
  split.
  { exact (uint_at_field 2 _ (Py.le_bytes 4 noff ++ Py.le_bytes 4 (len dpre))
             _ Bdl). }
  split.
  { unfold bytes_at. rewrite (lay_descriptions_start _ _ _ _ _ _ L).
    unfold len. rewrite Nat2Z.id.
    rewrite (slice_inner blob _ (fst (build_descriptions_pool x)) []).
    - rewrite Hdpool. apply slice_at; reflexivity.
    - rewrite (lay_blob _ _ _ _ _ _ L), <- !app_assoc, app_nil_r. reflexivity.
    - rewrite Hdpool, !length_app. lia. }
  split.
  { exists c. split; [exact Hc|]. split; [exact Rc|].
    exact (uint_at_mod 3 c
             (Py.le_bytes 4 noff ++ Py.le_bytes 4 (len dpre)
              ++ Py.le_bytes 2 (len (default [] (description m))))
             _ 10 Bc eq_refl). }
  split.
  { exists r. split; [exact Hr|]. split; [exact Rr|].
    exact (uint_at_mod 3 r
             (Py.le_bytes 4 noff ++ Py.le_bytes 4 (len dpre)
              ++ Py.le_bytes 2 (len (default [] (description m)))
              ++ Py.le_bytes 3 c)
             _ 13 Br eq_refl). }
  assert (forall v, Z.land v 0xFFFF = v mod 2 ^ 16) as Hland.
  { intros v. change 0xFFFF with (Z.ones 16). apply Z.land_ones. lia. }
  rewrite !Hland.
  assert (forall v, 0 <= v mod 2 ^ 16 < 2 ^ (8 * Z.of_nat 2)) as Hmod
    by (intros v; apply Z.mod_pos_bound; reflexivity).
  split.
  { exact (uint_at_field 2 _
             (Py.le_bytes 4 noff ++ Py.le_bytes 4 (len dpre)
              ++ Py.le_bytes 2 (len (default [] (description m)))
              ++ Py.le_bytes 3 c ++ Py.le_bytes 3 r)
             _ (Hmod (year m))). }
  exists f. split; [exact Hf|]. split; [exact Rf|].
  exact (uint_at_field 2 _
           (Py.le_bytes 4 noff ++ Py.le_bytes 4 (len dpre)
            ++ Py.le_bytes 2 (len (default [] (description m)))
            ++ Py.le_bytes 3 c ++ Py.le_bytes 3 r
            ++ Py.le_bytes 2 (year m mod 2 ^ 16))
           [] (Hmod f)).
Qed.

Lemma machine_record_reads_back_witness :
  exists m,
    x_machines RomIdFacts.c6_x !! 0 = Some m
    /\ string_at pacman_blob (record_field pacman_blob 36 20 0 0 4) (name m)
    /\ record_field pacman_blob 36 20 0 8 2 = len (default [] (description m))
    /\ bytes_at pacman_blob
         (section_start pacman_blob 56
          + Z.to_nat (record_field pacman_blob 36 20 0 4 4))
         (length (default [] (description m)))
       = default [] (description m)
    /\ (exists c, cloneof_id m = Some c
                  /\ (c = NULL_ID_24
                      \/ 0 <= c < size (x_machines RomIdFacts.c6_x))
                  /\ record_field pacman_blob 36 20 0 10 3 = c mod 2 ^ 24)
    /\ (exists r, romof_id m = Some r
                  /\ (r = NULL_ID_24
                      \/ 0 <= r < size (x_machines RomIdFacts.c6_x))
                  /\ record_field pacman_blob 36 20 0 13 3 = r mod 2 ^ 24)
    /\ record_field pacman_blob 36 20 0 16 2 = year m mod 2 ^ 16
    /\ (exists f, manufacturer_id m = Some f
                  /\ (f = NULL_ID_16
                      \/ 0 <= f < size (x_manufacturers RomIdFacts.c6_x))
                  /\ record_field pacman_blob 36 20 0 18 2 = f mod 2 ^ 16).
Proof.
  eexists. split; [vm_compute; reflexivity|].
  apply (machine_record_reads_back insertion_order RomIdFacts.c6_db 11 23
           pacman_blob RomIdFacts.c6_x 0).
  - vm_compute. reflexivity.
  - lia.
  - vm_compute. reflexivity.
  - vm_compute. reflexivity.
Defined.

(** *** The two name tables *)

Lemma name_record (o : set_order) (x : remapped) (min_s max_s : Z)
  (blob : list byte) (t : tables) (names : gmap Z string)
  (table pre post : list byte) (field k : nat) (s : string) :
  layout o x min_s max_s blob t ->
  extend_all (map (name_entry (snd (build_strings_pool o x)) names)
                (Py.range 0 (size names))) = Py.Ok table ->
  blob = pre ++ table ++ post ->
  section_start blob field = length pre ->
  (forall k, is_Some (names !! k) <-> 0 <= k < size names) ->
  names !! Z.of_nat k = Some s ->
  In s (pool_strings o x) ->
  string_at blob (record_field blob field 4 k 0 4) s.
Proof.
  intros L Htable Hblob Hstart Hkeys Hs Hin.
  assert (0 <= Z.of_nat k < size names) as Hk by (apply Hkeys; eauto).
  destruct (table_entry _ 4 _ _ k _
              (fun a b _ => name_entry_length _ names a b)
              Htable (range_at _ k Hk))
    as (tpre & e & tpost & Htab & He & Hpre & Hlen_e).
  destruct (string_in_pool o x min_s max_s blob t s L Hin)
    as (off & Hoff & Boff & Hat).
  unfold name_entry, getitem in He. rewrite Hs in He. cbn [Py.bind] in He.
  rewrite Hoff in He. change (default 0 (Some off)) with off in He.
  apply pack_uint_ok in He as [-> Bv].
  replace (record_field blob field 4 k 0 4) with off; [exact Hat|].
  symmetry. unfold record_field. rewrite Hstart.
  replace (length pre + 4 * k + 0)%nat with (length (pre ++ tpre))
    by (rewrite length_app, Hpre; lia).
  rewrite Hblob, Htab, <- !app_assoc, (app_assoc pre tpre).
  apply (uint_at_field 4 off). exact Bv.
Qed.

(** X16.  The two name tables read back.  In the blob [main] writes, the record
    [k] of the manufacturer table, found through the header, is the offset
    at which the strings pool holds the name of manufacturer [k] of the
    remapped tables, followed by a NUL; and so is the record [k] of the
    ROM-name table for ROM name [k]. *)
Theorem name_tables_read_back (o : set_order) (db : database)
  (min_s max_s : Z) (blob : list byte) (x : remapped) :
  main o db min_s max_s = Py.Ok blob ->
  min_s <= max_s + 1 ->
  remap_ids (load_database db min_s max_s) min_s max_s = Py.Ok x ->
  (forall k s, x_manufacturers x !! Z.of_nat k = Some s ->
     string_at blob (record_field blob 44 4 k 0 4) s)
  /\ (forall k s, x_rom_names x !! Z.of_nat k = Some s ->
        string_at blob (record_field blob 48 4 k 0 4) s).
Proof.
  intros H Hband Hx.
  destruct (main_has_layout o db min_s max_s blob x H Hband Hx) as [t L].
  destruct (remap_ids_keys _ _ _ _ Hx) as (_ & Kmf & Kn).
  split; intros k s Hs.
  - apply (name_record o x min_s max_s blob t (x_manufacturers x) (t_mftab t)
             (t_hdr t ++ t_sidx t ++ t_rtab t ++ t_mtab t ++ t_mrtab t)
             (t_ntab t ++ fst (build_strings_pool o x)
              ++ fst (build_descriptions_pool x)) 44 k s L
             (lay_manufacturers _ _ _ _ _ _ L)); try assumption.
    + rewrite (lay_blob _ _ _ _ _ _ L) at 1. rewrite <- !app_assoc.
      reflexivity.
    + exact (lay_manufacturers_start _ _ _ _ _ _ L).
    + apply pool_strings_In, collected_strings_In. left. eauto.
  - apply (name_record o x min_s max_s blob t (x_rom_names x) (t_ntab t)
             (t_hdr t ++ t_sidx t ++ t_rtab t ++ t_mtab t ++ t_mrtab t
              ++ t_mftab t)
             (fst (build_strings_pool o x)
              ++ fst (build_descriptions_pool x)) 48 k s L
             (lay_rom_names _ _ _ _ _ _ L)); try assumption.
    + rewrite (lay_blob _ _ _ _ _ _ L) at 1. rewrite <- !app_assoc.
      reflexivity.
    + exact (lay_rom_names_start _ _ _ _ _ _ L).
    + apply pool_strings_In, collected_strings_In. right. left. eauto.
Qed.

Lemma name_tables_read_back_witness :
  (forall k s, x_manufacturers RomIdFacts.c6_x !! Z.of_nat k = Some s ->
     string_at pacman_blob (record_field pacman_blob 44 4 k 0 4) s)
  /\ (forall k s, x_rom_names RomIdFacts.c6_x !! Z.of_nat k = Some s ->
        string_at pacman_blob (record_field pacman_blob 48 4 k 0 4) s).
Proof.
  apply (name_tables_read_back insertion_order RomIdFacts.c6_db 11 23
           pacman_blob RomIdFacts.c6_x).
  - vm_compute. reflexivity.
  - lia.
  - vm_compute. reflexivity.
Defined.

(** *** ROM records and MachineRom records *)

Lemma remap_ids_name_refs (d : data) (min_s max_s : Z) (x : remapped) :
  remap_ids d min_s max_s = Py.Ok x ->
  (forall r, In r (x_roms x) ->
     exists v, name_id r = Some v
               /\ (v = NULL_ID_24 \/ 0 <= v < size (x_rom_names x)))
  /\ (forall e, In e (x_machine_roms x) ->
        exists v, mr_name_id e = Some v
                  /\ (v = NULL_ID_24 \/ 0 <= v < size (x_rom_names x))).
Proof.
  intros H. apply remap_ids_closed in H as (st & _ & ->).
  cbn [x_roms x_machine_roms x_rom_names]. split.
  - intros r Hr. apply in_map_iff in Hr as (r0 & <- & _).
    eexists. split; [reflexivity|]. apply remap_ref_range.
  - intros e He. apply sort_In, in_flat_map in He as (mr & _ & He).
    unfold remap_row in He.
    destruct (fst (machine_numbers d) !! mr_machine_id mr) as [m|];
      [|destruct He].
    destruct (rs_rom_id_map st !! mr_rom_id mr) as [rid|]; [|destruct He].
    destruct He as [<-|[]]. cbn [mr_name_id].
    eexists. split; [reflexivity|]. apply remap_ref_range.
Qed.

Lemma rom_entry_fields (r : rom) (b : list byte) :
  rom_entry r = Py.Ok b -> length (sha1 r) = 20%nat ->
  exists v, name_id r = Some v /\ b = sha1 r ++ Py.le_bytes 3 v ++ []
            /\ 0 <= v.
Proof.
  unfold rom_entry. intros H Hlen.
  apply extend_all_cons in H as (b1 & e1 & H1 & H & ->).
  apply extend_all_cons in H as (b2 & e2 & H2 & H & ->).
  cbn in H. injection H as <-.
  apply pack_uint24_field in H2 as (v & Hv & -> & Bv).
  destruct (sha1 r) as [|h0 h] eqn:Eh; [discriminate|].
  injection H1 as <-. exists v. split; [exact Hv|]. split; [reflexivity|].
  lia.
Qed.

Lemma machine_rom_entry_fields (e : machine_rom_row) (b : list byte) :
  machine_rom_entry e = Py.Ok b ->
  exists v, mr_name_id e = Some v
            /\ b = Py.le_bytes 3 (mr_machine_id e)
                   ++ Py.le_bytes 3 (mr_rom_id e) ++ Py.le_bytes 3 v
            /\ 0 <= mr_machine_id e /\ 0 <= mr_rom_id e /\ 0 <= v.
Proof.
  unfold machine_rom_entry. intros H.
  apply extend_all_cons in H as (b1 & e1 & H1 & H & ->).
  apply extend_all_cons in H as (b2 & e2 & H2 & H & ->).
  apply extend_all_cons in H as (b3 & e3 & H3 & H & ->).
  cbn in H. injection H as <-.
  apply write_uint24_bytes in H1 as [-> B1], H2 as [-> B2].
  apply pack_uint24_field in H3 as (v & Hv & -> & Bv).
  exists v. rewrite app_nil_r. repeat (split; [assumption || reflexivity || lia|]).
  lia.
Qed.

(** X17.  The ROM table and the MachineRom table read back.  In the blob [main]
    writes, the 23-byte record [k] of the ROM table, found through the
    header, holds the SHA-1 of ROM [k] of the remapped list and then its
    name_id, which is NULL_ID_24 or the index of a ROM-name record, in 24
    bits; the 9-byte record [k] of the MachineRom table holds the
    machine_id of row [k], the index of a machine record, in 24 bits, then
    its rom_id, whole, and its name_id. *)
Theorem rom_records_read_back (o : set_order) (db : database)
  (min_s max_s : Z) (blob : list byte) (x : remapped) :
  main o db min_s max_s = Py.Ok blob ->
  min_s <= max_s + 1 ->
  remap_ids (load_database db min_s max_s) min_s max_s = Py.Ok x ->
  (forall k r, x_roms x !! k = Some r ->
     bytes_at blob (section_start blob 32 + 23 * k) 20 = sha1 r
     /\ exists v, name_id r = Some v
                  /\ (v = NULL_ID_24 \/ 0 <= v < size (x_rom_names x))
                  /\ record_field blob 32 23 k 20 3 = v mod 2 ^ 24)
  /\ (forall k e, x_machine_roms x !! k = Some e ->
        0 <= mr_machine_id e < size (x_machines x)
        /\ record_field blob 40 9 k 0 3 = mr_machine_id e mod 2 ^ 24
        /\ record_field blob 40 9 k 3 3 = mr_rom_id e
        /\ exists v, mr_name_id e = Some v
                     /\ (v = NULL_ID_24 \/ 0 <= v < size (x_rom_names x))
                     /\ record_field blob 40 9 k 6 3 = v mod 2 ^ 24).
Proof.
  intros H Hband Hx.
  destruct (main_has_layout o db min_s max_s blob x H Hband Hx) as [t L].
  destruct (remap_ids_name_refs _ _ _ _ Hx) as [Nrom Nrow].
  destruct (RomIdFacts.rom_table_ascending db min_s max_s x Hx)
    as (_ & _ & Hsha).
  split.
  - intros k r Hr.
    assert (In r (x_roms x)) as Hin
      by (apply list_elem_of_In, list_elem_of_lookup; eauto).
    destruct (table_entry rom_entry 23 (x_roms x) (t_rtab t) k r)
      as (pre & b & post & Htab & Hb & Hpre & Hlen_b);
      [|exact (lay_roms _ _ _ _ _ _ L) | exact Hr|].
    { intros a b' Ha Hb'.
      apply list_elem_of_In, list_elem_of_lookup in Ha as [i Hi].
      destruct (rom_entry_bytes a b' Hb' (Hsha i a Hi)) as (nf & -> & Hnf).
      rewrite length_app, Hnf, (Hsha i a Hi). reflexivity. }
    destruct (rom_entry_fields r b Hb (Hsha k r Hr)) as (v & Hv & -> & Bv).
    destruct (Nrom r Hin) as (v' & Hv' & Rv).
    rewrite Hv in Hv'. injection Hv' as <-.
    assert (blob
            = (t_hdr t ++ t_sidx t ++ pre)
              ++ (sha1 r ++ Py.le_bytes 3 v ++ [])
              ++ (post ++ t_mtab t ++ t_mrtab t ++ t_mftab t ++ t_ntab t
                  ++ fst (build_strings_pool o x)
                  ++ fst (build_descriptions_pool x))) as Hentry.
    { rewrite (lay_blob _ _ _ _ _ _ L) at 1. rewrite Htab, <- !app_assoc.
      reflexivity. }
    assert (section_start blob 32 + 23 * k
            = length (t_hdr t ++ t_sidx t ++ pre))%nat as Hstart.
    { rewrite (lay_roms_start _ _ _ _ _ _ L), !length_app, Hpre. lia. }
    split.
    + unfold bytes_at. rewrite Hstart.
      rewrite <- (Nat.add_0_r (length (t_hdr t ++ t_sidx t ++ pre))).
      rewrite (slice_inner _ _ _ _ 0 20 Hentry)
        by (rewrite length_app, (Hsha k r Hr); lia).
      exact (slice_at [] (sha1 r) _ 0 20 eq_refl (eq_sym (Hsha k r Hr))).
    + exists v. split; [exact Hv|]. split; [exact Rv|].
      unfold record_field. rewrite Hstart.
      rewrite (uint_at_inner _ _ _ _ 20 3 Hentry)
        by (rewrite !length_app, (Hsha k r Hr); cbn; lia).
      apply (uint_at_mod 3 v (sha1 r) [] 20 Bv). symmetry. apply (Hsha k r Hr).
  - intros k e He.
    assert (In e (x_machine_roms x)) as Hin
      by (apply list_elem_of_In, list_elem_of_lookup; eauto).
    destruct (table_entry machine_rom_entry 9 (x_machine_roms x)
                (t_mrtab t) k e)
      as (pre & b & post & Htab & Hb & Hpre & Hlen_b);
      [|exact (lay_machine_roms _ _ _ _ _ _ L) | exact He|].
    { intros a b' _ Hb'. apply (machine_rom_entry_bytes a b' Hb'). }
    destruct (machine_rom_entry_fields e b Hb)
      as (v & Hv & -> & Bm & Br & Bv).
    destruct (Nrow e Hin) as (v' & Hv' & Rv).
    rewrite Hv in Hv'. injection Hv' as <-.
    destruct (remap_ids_machine_rom_ids _ _ _ _ e Hx Hin)
      as (Rm & s & idx & Hs & Hidx & Hrid).
    destruct (lay_band _ _ _ _ _ _ L) as [Bmin Bmax].
    pose proof (RomIdFacts.rom_id_24_bits s idx ltac:(lia) Hidx) as Hbits.
    rewrite <- Hrid in Hbits.
    assert (blob
            = (t_hdr t ++ t_sidx t ++ t_rtab t ++ t_mtab t ++ pre)
              ++ (Py.le_bytes 3 (mr_machine_id e)
                  ++ Py.le_bytes 3 (mr_rom_id e) ++ Py.le_bytes 3 v)
              ++ (post ++ t_mftab t ++ t_ntab t
                  ++ fst (build_strings_pool o x)
                  ++ fst (build_descriptions_pool x))) as Hentry.
    { rewrite (lay_blob _ _ _ _ _ _ L) at 1. rewrite Htab, <- !app_assoc.
      reflexivity. }
    assert (forall off n, (off + n <= 9)%nat ->
              record_field blob 40 9 k off n
              = uint_at n (Py.le_bytes 3 (mr_machine_id e)
                           ++ Py.le_bytes 3 (mr_rom_id e) ++ Py.le_bytes 3 v)
                  off) as Hfield.
    { intros off n Hoff. unfold record_field.
      rewrite (lay_machine_roms_start _ _ _ _ _ _ L).
      replace (length (t_hdr t ++ t_sidx t ++ t_rtab t ++ t_mtab t)
               + 9 * k + off)%nat
        with (length (t_hdr t ++ t_sidx t ++ t_rtab t ++ t_mtab t ++ pre)
              + off)%nat
        by (rewrite !length_app, Hpre; lia).
      apply (uint_at_inner _ _ _ _ _ _ Hentry). cbn. lia. }
    rewrite !Hfield by lia.
    split; [exact Rm|]. split; [|split].
    + exact (uint_at_mod 3 _ [] _ 0 Bm eq_refl).
    + rewrite <- (Z.mod_small (mr_rom_id e) (2 ^ 24)) at 2 by exact Hbits.
      exact (uint_at_mod 3 _ (Py.le_bytes 3 (mr_machine_id e)) _ 3 Br eq_refl).
    + exists v. split; [exact Hv|]. split; [exact Rv|].
      exact (uint_at_mod 3 v
               (Py.le_bytes 3 (mr_machine_id e) ++ Py.le_bytes 3 (mr_rom_id e))
               [] 6 Bv eq_refl).
Qed.

Lemma rom_records_read_back_witness :
  (forall k r, x_roms RomIdFacts.c6_x !! k = Some r ->
     bytes_at pacman_blob (section_start pacman_blob 32 + 23 * k) 20 = sha1 r
     /\ exists v, name_id r = Some v
                  /\ (v = NULL_ID_24
                      \/ 0 <= v < size (x_rom_names RomIdFacts.c6_x))
                  /\ record_field pacman_blob 32 23 k 20 3 = v mod 2 ^ 24)
  /\ (forall k e, x_machine_roms RomIdFacts.c6_x !! k = Some e ->
        0 <= mr_machine_id e < size (x_machines RomIdFacts.c6_x)
        /\ record_field pacman_blob 40 9 k 0 3 = mr_machine_id e mod 2 ^ 24
        /\ record_field pacman_blob 40 9 k 3 3 = mr_rom_id e
        /\ exists v, mr_name_id e = Some v
                     /\ (v = NULL_ID_24
                         \/ 0 <= v < size (x_rom_names RomIdFacts.c6_x))
                     /\ record_field pacman_blob 40 9 k 6 3 = v mod 2 ^ 24).
Proof.
  apply (rom_records_read_back insertion_order RomIdFacts.c6_db 11 23
           pacman_blob RomIdFacts.c6_x).
  - vm_compute. reflexivity.
  - lia.
  - vm_compute. reflexivity.
Defined.

(** *** The size index *)

Lemma range_from (lo hi : Z) (k : nat) :
  lo + Z.of_nat k < hi -> Py.range lo hi !! k = Some (lo + Z.of_nat k).
Proof.
  intros Hk. unfold Py.range.
  change (map (fun i => lo + Z.of_nat i) (seq 0 (Z.to_nat (hi - lo))))
    with ((fun i => lo + Z.of_nat i) <$> seq 0 (Z.to_nat (hi - lo))).
  rewrite list_lookup_fmap, lookup_seq_lt by lia. reflexivity.
Qed.

(** X18.  The size index read back.  In the blob [main] writes, the record of a
    class [s] of the band in the size index, found through the header,
    holds two byte offsets [23 * lo] and [23 * hi] into the ROM table, and
    the ROMs of class [s] are exactly those of the records [lo], ...,
    [hi - 1] of the ROM table. *)
Theorem size_index_reads_back (o : set_order) (db : database)
  (min_s max_s s : Z) (blob : list byte) (x : remapped) :
  main o db min_s max_s = Py.Ok blob ->
  remap_ids (load_database db min_s max_s) min_s max_s = Py.Ok x ->
  min_s <= s <= max_s ->
  exists lo hi,
    record_field blob 28 8 (Z.to_nat (s - min_s)) 0 4 = 23 * lo
    /\ record_field blob 28 8 (Z.to_nat (s - min_s)) 4 4 = 23 * hi
    /\ 0 <= lo <= hi /\ hi <= len (x_roms x)
    /\ forall i r, x_roms x !! i = Some r ->
         size_pow2 r = s <-> lo <= Z.of_nat i < hi.
Proof.
  intros H Hx Hs.
  destruct (main_has_layout o db min_s max_s blob x H ltac:(lia) Hx) as [t L].
  destruct (size_index_class db min_s max_s s x Hx Hs)
    as (start & count & _ & B0 & Bc & Ble & Hmem & Hentry).
  destruct (table_entry (size_index_entry x) 8
              (Py.range min_s (max_s + 1)) (t_sidx t) (Z.to_nat (s - min_s)) s)
    as (pre & e & post & Htab & He & Hpre & Hlen_e).
  { intros a b _. apply size_index_entry_length. }
  { exact (lay_size_index _ _ _ _ _ _ L). }
  { rewrite range_from by lia. f_equal. lia. }
  rewrite Hentry in He.
  apply extend_all_cons in He as (b1 & e1 & H1 & He & ->).
  apply extend_all_cons in He as (b2 & e2 & H2 & He & ->).
  cbn in He. injection He as <-.
  apply pack_uint_ok in H1 as [-> B1], H2 as [-> B2].
  assert (blob
          = (t_hdr t ++ pre)
            ++ (Py.le_bytes 4 (start * 23)
                ++ Py.le_bytes 4 ((start + count) * 23) ++ [])
            ++ (post ++ t_rtab t ++ t_mtab t ++ t_mrtab t ++ t_mftab t
                ++ t_ntab t ++ fst (build_strings_pool o x)
                ++ fst (build_descriptions_pool x))) as Hrecord.
  { rewrite (lay_blob _ _ _ _ _ _ L) at 1. rewrite Htab, <- !app_assoc.
    reflexivity. }
  assert (forall off n, (off + n <= 8)%nat ->
            record_field blob 28 8 (Z.to_nat (s - min_s)) off n
            = uint_at n (Py.le_bytes 4 (start * 23)
                         ++ Py.le_bytes 4 ((start + count) * 23) ++ [])
                off) as Hfield.
  { intros off n Hoff. unfold record_field.
    rewrite (lay_size_index_start _ _ _ _ _ _ L).
    replace (length (t_hdr t) + 8 * Z.to_nat (s - min_s) + off)%nat
      with (length (t_hdr t ++ pre) + off)%nat
      by (rewrite !length_app, Hpre; lia).
    apply (uint_at_inner _ _ _ _ _ _ Hrecord). cbn. lia. }
  exists start, (start + count). rewrite !Hfield by lia.
  split; [|split; [|split; [lia | split; [exact Ble | exact Hmem]]]].
  - rewrite (Z.mul_comm 23). exact (uint_at_field 4 _ [] _ B1).
  - rewrite (Z.mul_comm 23).
    exact (uint_at_field 4 _ (Py.le_bytes 4 (start * 23)) [] B2).
Qed.

Lemma size_index_reads_back_witness :
  exists lo hi,
    record_field pacman_blob 28 8 (Z.to_nat (13 - 11)) 0 4 = 23 * lo
    /\ record_field pacman_blob 28 8 (Z.to_nat (13 - 11)) 4 4 = 23 * hi
    /\ 0 <= lo <= hi /\ hi <= len (x_roms RomIdFacts.c6_x)
    /\ forall i r, x_roms RomIdFacts.c6_x !! i = Some r ->
         size_pow2 r = 13 <-> lo <= Z.of_nat i < hi.
Proof.
  apply (size_index_reads_back insertion_order RomIdFacts.c6_db 11 23 13
           pacman_blob RomIdFacts.c6_x).
  - vm_compute. reflexivity.
  - vm_compute. reflexivity.
  - lia.
Defined.

End RecordFacts.

(** ** The outcomes of [main] *)

Module OutcomeFacts.
Import Schema Gen PyFacts BlobFacts TableFacts GenFacts RemapFacts
  SizeIndexFacts LayoutFacts PoolFacts RecordFacts.

#[local] Arguments String.eqb : simpl never.

(** *** The exceptions of [generate_binary] *)

(** A call that returns or raises [struct.error], and nothing else. *)
Definition struct_only {A : Type} (p : Py.result A) : Prop :=
  forall e, p = Py.Raise e -> e = Py.StructError.

Lemma pack_uint_struct (n : nat) (v : Z) : struct_only (Py.pack_uint n v).
Proof.
  unfold struct_only, Py.pack_uint. destruct (_ && _); intros e [=].
  congruence.
Qed.

Lemma write_uint24_struct (v : Z) : struct_only (write_uint24 v).
Proof.
  unfold write_uint24. pose proof (pack_uint_struct 4 v) as H.
  destruct (Py.pack_uint 4 v) as [b|e0]; intros e [=]. subst.
  apply H. reflexivity.
Qed.

Lemma pack_field_struct (pack : Z -> Py.result (list byte)) (v : option Z) :
  (forall z, struct_only (pack z)) -> struct_only (pack_field pack v).
Proof.
  intros Hpack. destruct v as [z|]; [apply Hpack|]. intros e [=]. congruence.
Qed.

Lemma extend_all_struct (parts : list (Py.result (list byte))) :
  Forall struct_only parts -> struct_only (extend_all parts).
Proof.
  induction 1 as [|p parts Hp _ IH]; [intros e [=]|].
  cbn [extend_all]. destruct p as [b|e0].
  - cbn [Py.bind]. destruct (extend_all parts) as [bs|e1]; intros e [=].
    subst. apply IH. reflexivity.
  - intros e [= <-]. apply Hp. reflexivity.
Qed.

Lemma table_struct {A : Type} (f : A -> Py.result (list byte)) (l : list A) :
  (forall a, In a l -> struct_only (f a)) ->
  struct_only (extend_all (map f l)).
Proof.
  intros H. apply extend_all_struct, List.Forall_forall. intros p Hp.
  apply in_map_iff in Hp as (a & <- & Ha). apply (H a Ha).
Qed.

Ltac struct_parts :=
  apply extend_all_struct;
  repeat (apply List.Forall_cons;
          [first [apply pack_uint_struct | apply write_uint24_struct
                 | apply pack_field_struct; intros;
                   first [apply write_uint24_struct | apply pack_uint_struct]
                 | intros ? [=]]|]);
  apply List.Forall_nil.

Lemma header_bytes_struct (x : remapped) (pool : list byte) (min_s max_s : Z) :
  struct_only (header_bytes x pool min_s max_s).
Proof.
  unfold header_bytes. cbv zeta.
  match goal with
  | |- struct_only (Py.bind ?m _) =>
      assert (struct_only m) as H by struct_parts; destruct m as [h|e0]
  end.
  - intros e [=].
  - intros e [= <-]. apply H. reflexivity.
Qed.

Lemma size_index_entry_struct (x : remapped) (s : Z) :
  struct_only (size_index_entry x s).
Proof.
  unfold size_index_entry.
  destruct (default (0, 0) (x_size_index x !! s)) as [start count].
  struct_parts.
Qed.

Lemma rom_entry_struct (r : rom) : struct_only (rom_entry r).
Proof. unfold rom_entry. struct_parts. Qed.

Lemma machine_entry_struct (x : remapped) (offsets : gmap string Z)
  (dinfo : gmap Z (Z * Z)) (new : Z) :
  is_Some (x_machines x !! new) ->
  struct_only (machine_entry x offsets dinfo new).
Proof.
  intros [m Hm]. unfold machine_entry, getitem. rewrite Hm. cbn [Py.bind].
  destruct (default (0, 0) (dinfo !! new)) as [d_off d_len].
  unfold year_field. struct_parts.
Qed.

Lemma machine_rom_entry_struct (e : machine_rom_row) :
  struct_only (machine_rom_entry e).
Proof. unfold machine_rom_entry. struct_parts. Qed.

Lemma name_entry_struct (offsets : gmap string Z) (names : gmap Z string)
  (new : Z) :
  is_Some (names !! new) -> struct_only (name_entry offsets names new).
Proof.
  intros [s Hs]. unfold name_entry, getitem. rewrite Hs. cbn [Py.bind].
  apply pack_uint_struct.
Qed.

(** With the keys of the three tables being 0..n-1, no lookup of
    [generate_binary] fails: only a value that does not fit its field
    stops it. *)
Lemma generate_binary_struct (x : remapped) (pool : list byte)
  (offsets : gmap string Z) (dpool : list byte) (dinfo : gmap Z (Z * Z))
  (min_s max_s : Z) :
  (forall k, 0 <= k < size (x_machines x) -> is_Some (x_machines x !! k)) ->
  (forall k, 0 <= k < size (x_manufacturers x) ->
     is_Some (x_manufacturers x !! k)) ->
  (forall k, 0 <= k < size (x_rom_names x) -> is_Some (x_rom_names x !! k)) ->
  struct_only (generate_binary x pool offsets dpool dinfo min_s max_s).
Proof.
  intros Km Kf Kn. unfold generate_binary, sections.
  apply extend_all_struct.
  repeat (apply List.Forall_cons; [|]); try apply List.Forall_nil.
  - apply header_bytes_struct.
  - apply table_struct. intros s _. apply size_index_entry_struct.
  - apply table_struct. intros r _. apply rom_entry_struct.
  - apply table_struct. intros k Hk. apply machine_entry_struct, Km.
    apply RomIdFacts.range_In in Hk. exact Hk.
  - apply table_struct. intros e _. apply machine_rom_entry_struct.
  - apply table_struct. intros k Hk. apply name_entry_struct, Kf.
    apply RomIdFacts.range_In in Hk. exact Hk.
  - apply table_struct. intros k Hk. apply name_entry_struct, Kn.
    apply RomIdFacts.range_In in Hk. exact Hk.
  - intros e [=].
  - intros e [=].
Qed.

Lemma main_generate (o : set_order) (db : database) (min_s max_s : Z)
  (x : remapped) :
  remap_ids (load_database db min_s max_s) min_s max_s = Py.Ok x ->
  main o db min_s max_s
  = generate_binary x (fst (build_strings_pool o x))
      (snd (build_strings_pool o x)) (fst (build_descriptions_pool x))
      (snd (build_descriptions_pool x)) min_s max_s.
Proof.
  intros Hx. unfold main. rewrite Hx. cbn [Py.bind].
  destruct (build_strings_pool o x), (build_descriptions_pool x). reflexivity.
Qed.

Lemma main_struct (o : set_order) (db : database) (min_s max_s : Z)
  (x : remapped) :
  remap_ids (load_database db min_s max_s) min_s max_s = Py.Ok x ->
  struct_only (main o db min_s max_s).
Proof.
  intros Hx. rewrite (main_generate o db min_s max_s x Hx).
  destruct (remap_ids_keys _ _ _ _ Hx) as (Km & Kf & Kn).
  apply generate_binary_struct; intros k Hk;
    [apply Km | apply Kf | apply Kn]; exact Hk.
Qed.



(** *** A description too long for its length field *)

(** X20.  The length of a description is packed in 16 bits.  A machine of the
    remapped table whose description is longer than 65535 bytes makes
    [main] raise [struct.error]: no blob is written. *)
Theorem long_description_aborts (o : set_order) (db : database)
  (min_s max_s : Z) (x : remapped) (k : Z) (m : machine) (desc : list byte) :
  remap_ids (load_database db min_s max_s) min_s max_s = Py.Ok x ->
  x_machines x !! k = Some m ->
  description m = Some desc ->
  65535 < len desc ->
  main o db min_s max_s = Py.Raise Py.StructError.
Proof.
  intros Hx Hm Hdesc Hlen.
  destruct (main o db min_s max_s) as [blob|e] eqn:E.
  - exfalso. rewrite (main_generate o db min_s max_s x Hx) in E.
    apply generate_binary_tables in E
      as (hdr & sidx & rtab & mtab & mrtab & mftab & ntab & _ & _ & _ & _
          & Hmt & _).
    destruct (remap_ids_keys _ _ _ _ Hx) as (Hkeys & _ & _).
    assert (0 <= k < size (x_machines x)) as Hk by (apply Hkeys; eauto).
    destruct (table_entry _ 20 _ _ (Z.to_nat k) k
                (fun a b _ => machine_entry_length x _ _ a b) Hmt)
      as (pre & b & post & _ & Hb & _).
    { rewrite range_at by lia. f_equal. lia. }
    destruct (machine_entry_fields _ _ _ _ m b Hm Hb)
      as (c & r & f & _ & _ & _ & _ & _ & _ & Bdl & _).
    destruct (description_at x k m Hm) as (dpre & dpost & _ & Hdinfo).
    rewrite Hdinfo, Hdesc in Bdl. cbn in Bdl. unfold len in *. cbn in Hlen.
    lia.
  - f_equal. apply (main_struct o db min_s max_s x Hx e E).
Qed.

(** A catalogue of one machine, with its description, and what [remap_ids]
    makes of it. *)
Definition one_machine_db (desc : list byte) : database :=
  mk_database [] 0 [(1, "a.bin")] 1
    [mk_rom_row 1 (Some (repeat Byte.x00 20)) None 12 (Some 1)] 1
    [mk_machine_row 1 "big" None None (Some desc) None None]
    [mk_machine_rom_row 1 1 (Some 1)].

Definition one_machine_x (desc : list byte) : remapped :=
  match remap_ids (load_database (one_machine_db desc) 11 23) 11 23 with
  | Py.Ok x => x
  | Py.Raise _ => mk_remapped [] ∅ [] ∅ ∅ ∅ ∅
  end.

Definition one_machine (desc : list byte) : machine :=
  mk_machine "big" (Some NULL_ID_24) (Some NULL_ID_24) (Some desc) 0
    (Some NULL_ID_16) (Some 1).

(** A description of 65536 bytes. *)
Definition long_description : list byte :=
  repeat Byte.x01 (Z.to_nat 65536).

Lemma long_description_aborts_witness :
  main insertion_order (one_machine_db long_description) 11 23
  = Py.Raise Py.StructError.
Proof.
  apply (long_description_aborts insertion_order
           (one_machine_db long_description) 11 23
           (one_machine_x long_description) 0 (one_machine long_description)
           long_description).
  - generalize long_description. intros desc. vm_compute. reflexivity.
  - generalize long_description. intros desc. vm_compute. reflexivity.
  - reflexivity.
  - unfold long_description, len. rewrite repeat_length. lia.
Defined.

End OutcomeFacts.

(** ** When [main] succeeds *)

Module SuccessFacts.
Import Schema Gen PyFacts BlobFacts TableFacts GenFacts RemapFacts
  SizeIndexFacts LayoutFacts PoolFacts RecordFacts OutcomeFacts.

#[local] Arguments String.eqb : simpl never.

(** [total_size], as [generate_binary] computes and prints it. *)
Definition total_size (x : remapped) (strings_pool desc_pool : list byte)
  (min_size_pow2 max_size_pow2 : Z) : Z :=
  let num_sizes := max_size_pow2 - min_size_pow2 + 1 in
  let size_index_size := num_sizes * 8 in
  let roms_size := len (x_roms x) * 23 in
  let machines_size := size (x_machines x) * 20 in
  let machine_roms_size := len (x_machine_roms x) * 9 in
  let manufacturers_size := size (x_manufacturers x) * 4 in
  let rom_names_size := size (x_rom_names x) * 4 in
  let size_index_offset := HEADER_SIZE in
  let roms_offset := size_index_offset + size_index_size in
  let machines_offset := roms_offset + roms_size in
  let machine_roms_offset := machines_offset + machines_size in
  let manufacturers_offset := machine_roms_offset + machine_roms_size in
  let rom_names_offset := manufacturers_offset + manufacturers_size in
  let strings_offset := rom_names_offset + rom_names_size in
  let desc_offset := strings_offset + len strings_pool in
  desc_offset + len desc_pool.

(** *** Calls that return *)

Definition succeeds (p : Py.result (list byte)) : Prop :=
  exists b, p = Py.Ok b.

Lemma pack_uint_succeeds (n : nat) (v : Z) :
  0 <= v < 2 ^ (8 * Z.of_nat n) -> succeeds (Py.pack_uint n v).
Proof.
  intros Hv. unfold succeeds, Py.pack_uint.
  destruct (Z.leb_spec 0 v); [|lia]. destruct (Z.ltb_spec v (2 ^ (8 * Z.of_nat n)));
    [|lia].
  cbn. eauto.
Qed.

Lemma write_uint24_succeeds (v : Z) :
  0 <= v < 2 ^ 32 -> succeeds (write_uint24 v).
Proof.
  intros Hv. unfold write_uint24.
  destruct (pack_uint_succeeds 4 v Hv) as [b ->]. cbn [Py.bind].
  eexists. reflexivity.
Qed.

Lemma pack_uint24_succeeds (v : option Z) (c : Z) :
  v = Some c -> 0 <= c < 2 ^ 32 -> succeeds (pack_field write_uint24 v).
Proof. intros -> Hc. apply write_uint24_succeeds, Hc. Qed.

Lemma extend_all_succeeds (parts : list (Py.result (list byte))) :
  Forall succeeds parts -> succeeds (extend_all parts).
Proof.
  induction 1 as [|p parts [b ->] _ [bs IH]]; [eexists; reflexivity|].
  cbn [extend_all Py.bind]. rewrite IH. cbn [Py.bind]. eexists. reflexivity.
Qed.

Lemma table_succeeds {A : Type} (f : A -> Py.result (list byte)) (l : list A) :
  (forall a, In a l -> succeeds (f a)) -> succeeds (extend_all (map f l)).
Proof.
  intros H. apply extend_all_succeeds, List.Forall_forall. intros p Hp.
  apply in_map_iff in Hp as (a & <- & Ha). apply (H a Ha).
Qed.

Lemma land_16_bits (v : Z) : 0 <= Z.land v 0xFFFF < 2 ^ (8 * Z.of_nat 2).
Proof.
  change 0xFFFF with (Z.ones 16). rewrite Z.land_ones by lia.
  apply Z.mod_pos_bound. reflexivity.
Qed.

(** *** The sections, one by one *)

Lemma header_bytes_succeeds (x : remapped) (pool dpool : list byte)
  (min_s max_s : Z)
  (Hmin : 0 <= min_s <= 255) (Hmax : 0 <= max_s <= 255)
  (Hband : min_s <= max_s + 1)
  (Hsize : total_size x pool dpool min_s max_s < 2 ^ 32) :
  succeeds (header_bytes x pool min_s max_s).
Proof.
  unfold header_bytes. cbv zeta.
  match goal with
  | |- succeeds (Py.bind ?m _) => assert (succeeds m) as [h Hh]
  end.
  - unfold total_size, HEADER_SIZE, VERSION, len, size in *. cbv zeta in Hsize.
    apply extend_all_succeeds.
    repeat (apply List.Forall_cons;
            [first [eexists; reflexivity
                   | apply pack_uint_succeeds;
                     first [change (2 ^ (8 * Z.of_nat 4)) with 4294967296
                           | change (2 ^ (8 * Z.of_nat 2)) with 65536
                           | change (2 ^ (8 * Z.of_nat 1)) with 256];
                     change (2 ^ 32) with 4294967296 in Hsize; lia]|]).
    apply List.Forall_nil.
  - rewrite Hh. cbn [Py.bind]. eexists. reflexivity.
Qed.

Lemma size_index_entry_succeeds (x : remapped) (pool dpool : list byte)
  (min_s max_s : Z)
  (Hband : min_s <= max_s + 1)
  (Hsize : total_size x pool dpool min_s max_s < 2 ^ 32) (s : Z) :
  (forall start count, x_size_index x !! s = Some (start, count) ->
     0 <= start /\ 0 <= count /\ start + count <= len (x_roms x)) ->
  succeeds (size_index_entry x s).
Proof.
  intros H. unfold size_index_entry, ROM_ENTRY_SIZE.
  assert (forall start count,
            default (0, 0) (x_size_index x !! s) = (start, count) ->
            0 <= start /\ 0 <= count /\ start + count <= len (x_roms x)) as H'.
  { intros start count E. destruct (x_size_index x !! s) as [[a b]|] eqn:El.
    - cbn in E. injection E as <- <-. apply (H a b eq_refl).
    - cbn in E. injection E as <- <-. unfold len. lia. }
  destruct (default (0, 0) (x_size_index x !! s)) as [start count].
  destruct (H' start count eq_refl) as (B1 & B2 & B3).
  unfold total_size, HEADER_SIZE, len, size in *. cbv zeta in Hsize.
  change (2 ^ 32) with 4294967296 in Hsize.
  apply extend_all_succeeds.
  repeat (apply List.Forall_cons;
          [apply pack_uint_succeeds;
           change (2 ^ (8 * Z.of_nat 4)) with 4294967296; lia|]).
  apply List.Forall_nil.
Qed.

Lemma rom_entry_succeeds (r : rom) (v : Z) :
  name_id r = Some v -> 0 <= v < 2 ^ 32 -> succeeds (rom_entry r).
Proof.
  intros Hv Bv. unfold rom_entry. apply extend_all_succeeds.
  apply List.Forall_cons; [eexists; reflexivity|].
  apply List.Forall_cons; [apply (pack_uint24_succeeds _ v Hv Bv)|].
  apply List.Forall_nil.
Qed.

Lemma machine_entry_succeeds (x : remapped) (pool : list byte)
  (offsets : gmap string Z) (dpool : list byte) (dinfo : gmap Z (Z * Z))
  (min_s max_s : Z)
  (Hband : min_s <= max_s + 1)
  (Hsize : total_size x pool dpool min_s max_s < 2 ^ 32)
  (k : Z) (m : machine) (c r f : Z) :
  x_machines x !! k = Some m ->
  cloneof_id m = Some c -> romof_id m = Some r -> manufacturer_id m = Some f ->
  0 <= c < 2 ^ 32 -> 0 <= r < 2 ^ 32 ->
  0 <= default 0 (offsets !! name m) <= len pool ->
  0 <= fst (default (0, 0) (dinfo !! k)) <= len dpool ->
  0 <= snd (default (0, 0) (dinfo !! k)) <= 65535 ->
  succeeds (machine_entry x offsets dinfo k).
Proof.
  intros Hm Hc Hr Hf Bc Br Bn Bo Bl. unfold machine_entry, getitem.
  rewrite Hm. cbn [Py.bind].
  destruct (default (0, 0) (dinfo !! k)) as [d_off d_len]. cbn [fst snd] in *.
  unfold total_size, HEADER_SIZE, len, size in *. cbv zeta in Hsize.
  change (2 ^ 32) with 4294967296 in *.
  apply extend_all_succeeds.
  apply List.Forall_cons;
    [apply pack_uint_succeeds;
     change (2 ^ (8 * Z.of_nat 4)) with 4294967296; lia|].
  apply List.Forall_cons;
    [apply pack_uint_succeeds;
     change (2 ^ (8 * Z.of_nat 4)) with 4294967296; lia|].
  apply List.Forall_cons;
    [apply pack_uint_succeeds;
     change (2 ^ (8 * Z.of_nat 2)) with 65536; lia|].
  apply List.Forall_cons; [apply (pack_uint24_succeeds _ c Hc); lia|].
  apply List.Forall_cons; [apply (pack_uint24_succeeds _ r Hr); lia|].
  apply List.Forall_cons;
    [unfold year_field; apply pack_uint_succeeds, land_16_bits|].
  apply List.Forall_cons;
    [rewrite Hf; cbn [pack_field]; apply pack_uint_succeeds, land_16_bits|].
  apply List.Forall_nil.
Qed.

Lemma machine_rom_entry_succeeds (e : machine_rom_row) (v : Z) :
  0 <= mr_machine_id e < 2 ^ 32 -> 0 <= mr_rom_id e < 2 ^ 32 ->
  mr_name_id e = Some v -> 0 <= v < 2 ^ 32 ->
  succeeds (machine_rom_entry e).
Proof.
  intros Bm Br Hv Bv. unfold machine_rom_entry. apply extend_all_succeeds.
  apply List.Forall_cons; [apply write_uint24_succeeds, Bm|].
  apply List.Forall_cons; [apply write_uint24_succeeds, Br|].
  apply List.Forall_cons; [apply (pack_uint24_succeeds _ v Hv Bv)|].
  apply List.Forall_nil.
Qed.

Lemma name_entry_succeeds (x : remapped) (pool : list byte)
  (offsets : gmap string Z) (dpool : list byte) (min_s max_s : Z)
  (Hband : min_s <= max_s + 1)
  (Hsize : total_size x pool dpool min_s max_s < 2 ^ 32)
  (names : gmap Z string) (k : Z) (s : string) :
  names !! k = Some s ->
  0 <= default 0 (offsets !! s) <= len pool ->
  succeeds (name_entry offsets names k).
Proof.
  intros Hs Bs. unfold name_entry, getitem. rewrite Hs. cbn [Py.bind].
  apply pack_uint_succeeds.
  unfold total_size, HEADER_SIZE, len, size in *. cbv zeta in Hsize.
  change (2 ^ 32) with 4294967296 in *.
  change (2 ^ (8 * Z.of_nat 4)) with 4294967296. lia.
Qed.

Lemma generate_binary_succeeds (x : remapped) (pool : list byte)
  (offsets : gmap string Z) (dpool : list byte) (dinfo : gmap Z (Z * Z))
  (min_s max_s : Z)
  (Hmin : 0 <= min_s <= 255) (Hmax : 0 <= max_s <= 255)
  (Hband : min_s <= max_s + 1)
  (Hsize : total_size x pool dpool min_s max_s < 2 ^ 32) :
  (forall s start count, min_s <= s <= max_s ->
     x_size_index x !! s = Some (start, count) ->
     0 <= start /\ 0 <= count /\ start + count <= len (x_roms x)) ->
  (forall r, In r (x_roms x) -> succeeds (rom_entry r)) ->
  (forall k, 0 <= k < size (x_machines x) ->
     succeeds (machine_entry x offsets dinfo k)) ->
  (forall e, In e (x_machine_roms x) -> succeeds (machine_rom_entry e)) ->
  (forall k, 0 <= k < size (x_manufacturers x) ->
     succeeds (name_entry offsets (x_manufacturers x) k)) ->
  (forall k, 0 <= k < size (x_rom_names x) ->
     succeeds (name_entry offsets (x_rom_names x) k)) ->
  succeeds (generate_binary x pool offsets dpool dinfo min_s max_s).
Proof.
  intros Hsi Hr Hm Hmr Hmf Hn. unfold generate_binary, sections.
  apply extend_all_succeeds.
  repeat (apply List.Forall_cons; [|]); try apply List.Forall_nil.
  - apply (header_bytes_succeeds x pool dpool min_s max_s); assumption.
  - apply table_succeeds. intros s Hs. apply RomIdFacts.range_In in Hs.
    apply (size_index_entry_succeeds x pool dpool min_s max_s Hband Hsize).
    intros start count. apply Hsi. lia.
  - apply table_succeeds, Hr.
  - apply table_succeeds. intros k Hk. apply RomIdFacts.range_In in Hk.
    apply Hm, Hk.
  - apply table_succeeds, Hmr.
  - apply table_succeeds. intros k Hk. apply RomIdFacts.range_In in Hk.
    apply Hmf, Hk.
  - apply table_succeeds. intros k Hk. apply RomIdFacts.range_In in Hk.
    apply Hn, Hk.
  - eexists. reflexivity.
  - eexists. reflexivity.
Qed.


(** *** The whole of [main] *)

Lemma main_returns (o : set_order) (db : database) (min_s max_s : Z)
  (x : remapped) :
  remap_ids (load_database db min_s max_s) min_s max_s = Py.Ok x ->
  0 <= min_s <= 255 -> 0 <= max_s <= 255 -> min_s <= max_s + 1 ->
  (forall k m desc, x_machines x !! k = Some m -> description m = Some desc ->
     len desc <= 65535) ->
  total_size x (fst (build_strings_pool o x))
    (fst (build_descriptions_pool x)) min_s max_s < 2 ^ 32 ->
  exists blob,
    main o db min_s max_s = Py.Ok blob
    /\ len blob
       = total_size x (fst (build_strings_pool o x))
           (fst (build_descriptions_pool x)) min_s max_s.
Proof.
  intros Hx Hmin Hmax Hband Hdesc Hsize.
  destruct (remap_ids_keys _ _ _ _ Hx) as (Km & Kf & Kn).
  destruct (remap_ids_name_refs _ _ _ _ Hx) as [Nrom Nrow].
  assert (forall s, In s (pool_strings o x) ->
            0 <= default 0 (snd (build_strings_pool o x) !! s)
            <= len (fst (build_strings_pool o x))) as Hoff.
  { intros s Hs. destruct (pool_entry_at o x s Hs) as (pre & post & Hp & ->).
    cbn [default from_option id]. rewrite Hp. unfold len.
    rewrite length_app. lia. }
  assert (4294967296 = 2 ^ 32) as E32 by reflexivity.
  assert (NULL_ID_24 = 16777215) as E24 by reflexivity.
  assert (exists blob, main o db min_s max_s = Py.Ok blob) as [blob Hblob].
  { rewrite (main_generate o db min_s max_s x Hx).
    apply generate_binary_succeeds; try assumption.
    - intros s start count Hs Hl.
      destruct (size_index_class db min_s max_s s x Hx Hs)
        as (start' & count' & Hl' & B1 & B2 & B3 & _).
      rewrite Hl in Hl'. injection Hl' as <- <-. auto.
    - intros r Hr. destruct (Nrom r Hr) as (v & Hv & Rv).
      apply (rom_entry_succeeds r v Hv).
      unfold total_size, HEADER_SIZE, len, size in *. cbv zeta in Hsize. lia.
    - intros k Hk. destruct (proj2 (Km k) Hk) as [m Hm].
      destruct (remap_ids_machine_refs _ _ _ _ k m Hx Hm)
        as (c & r & f & Hc & Hr & Hf & Rc & Rr & _).
      destruct (description_at x k m Hm) as (dpre & dpost & Hdp & Hdi).
      apply (machine_entry_succeeds x _ _ _ _ min_s max_s Hband Hsize k m c r
               f); try assumption.
      + unfold total_size, HEADER_SIZE, len, size in *. cbv zeta in Hsize.
        lia.
      + unfold total_size, HEADER_SIZE, len, size in *. cbv zeta in Hsize.
        lia.
      + apply Hoff, pool_strings_In, collected_strings_In. right. right.
        eauto.
      + rewrite Hdi. cbn [default from_option id fst]. rewrite Hdp.
        unfold len. rewrite length_app. lia.
      + rewrite Hdi. cbn [default from_option id snd].
        destruct (description m) as [desc|] eqn:Ed.
        * cbn [default from_option id].
          pose proof (Hdesc k m desc Hm Ed). unfold len in *. lia.
        * unfold len. cbn. lia.
    - intros e He. destruct (Nrow e He) as (v & Hv & Rv).
      destruct (remap_ids_machine_rom_ids _ _ _ _ e Hx He)
        as (Rm & s & idx & Hs & Hidx & Hrid).
      pose proof (RomIdFacts.rom_id_24_bits s idx ltac:(lia) Hidx) as Hbits.
      rewrite <- Hrid in Hbits.
      apply (machine_rom_entry_succeeds e v); try assumption.
      + unfold total_size, HEADER_SIZE, len, size in *. cbv zeta in Hsize.
        lia.
      + change (2 ^ 24) with 16777216 in Hbits. lia.
      + unfold total_size, HEADER_SIZE, len, size in *. cbv zeta in Hsize.
        lia.
    - intros k Hk. destruct (proj2 (Kf k) Hk) as [s Hs].
      apply (name_entry_succeeds x _ _ _ min_s max_s Hband Hsize _ k s Hs).
      apply Hoff, pool_strings_In, collected_strings_In. left. eauto.
    - intros k Hk. destruct (proj2 (Kn k) Hk) as [s Hs].
      apply (name_entry_succeeds x _ _ _ min_s max_s Hband Hsize _ k s Hs).
      apply Hoff, pool_strings_In, collected_strings_In. right. left. eauto. }
  exists blob. split; [exact Hblob|].
  destruct (main_layout o db min_s max_s blob Hblob Hband)
    as (x' & hdr & sidx & rtab & mtab & mrtab & mftab & ntab & Hlay).
  cbv zeta in Hlay. destruct Hlay as (Hx' & -> & _ & Hlen & _).
  rewrite Hx in Hx'. injection Hx' as <-.
  destruct Hlen as (L1 & L2 & L3 & L4 & L5 & L6 & L7).
  unfold total_size, HEADER_SIZE, len in *. cbv zeta.
  rewrite !length_app. lia.
Qed.

(** X21.  [main] returns a blob, of [total_size] bytes, whenever the ids can be
    remapped, the band lies within 0..255 and holds no class or one at
    least, no description is longer than 65535 bytes, and the size of the
    blob, which [generate_binary] computes before it packs anything, is
    below 2^32. *)
Theorem main_succeeds (o : set_order) (db : database) (min_s max_s : Z)
  (x : remapped) :
  remap_ids (load_database db min_s max_s) min_s max_s = Py.Ok x ->
  0 <= min_s <= 255 -> 0 <= max_s <= 255 -> min_s <= max_s + 1 ->
  Forall (fun p => len (default [] (description (snd p))) <= 65535)
    (map_to_list (x_machines x)) ->
  total_size x (fst (build_strings_pool o x))
    (fst (build_descriptions_pool x)) min_s max_s < 2 ^ 32 ->
  exists blob,
    main o db min_s max_s = Py.Ok blob
    /\ len blob
       = total_size x (fst (build_strings_pool o x))
           (fst (build_descriptions_pool x)) min_s max_s.
Proof.
  intros Hx Hmin Hmax Hband Hdesc Hsize.
  apply (main_returns o db min_s max_s x Hx Hmin Hmax Hband); [|exact Hsize].
  intros k m desc Hm Hd. rewrite List.Forall_forall in Hdesc.
  specialize (Hdesc (k, m)). cbn [snd] in Hdesc. rewrite Hd in Hdesc.
  apply Hdesc, list_elem_of_In, elem_of_map_to_list, Hm.
Qed.

Lemma main_succeeds_witness :
  exists blob,
    main insertion_order RomIdFacts.c6_db 11 23 = Py.Ok blob
    /\ len blob
       = total_size RomIdFacts.c6_x
           (fst (build_strings_pool insertion_order RomIdFacts.c6_x))
           (fst (build_descriptions_pool RomIdFacts.c6_x)) 11 23.
Proof.
  apply (main_succeeds insertion_order RomIdFacts.c6_db 11 23 RomIdFacts.c6_x).
  - vm_compute. reflexivity.
  - lia.
  - lia.
  - lia.
  - vm_compute. repeat constructor; discriminate.
  - vm_compute. reflexivity.
Defined.

End SuccessFacts.

(** ** More machines than 24 bits can number *)

Module WrapFacts.
Import Schema Gen PyFacts BlobFacts TableFacts GenFacts RemapFacts
  SizeIndexFacts LayoutFacts PoolFacts RecordFacts OutcomeFacts SuccessFacts.

#[local] Arguments String.eqb : simpl never.

(** *** Lists in ascending order *)







(** *** The catalogue *)

(** A name of [k] letters for every number: its digits in base 16, the
    least first, written a..p. *)
Fixpoint letters (k : nat) (v : Z) : string :=
  match k with
  | O => EmptyString
  | S k' =>
      String (ascii_of_N (97 + Z.to_N (v mod 16))) (letters k' (v / 16))
  end.

Definition wrap_machine (i : nat) : machine_row :=
  mk_machine_row (Z.of_nat i) (letters 7 (Z.of_nat i)) None None None None
    None.

Definition wrap_row (i : nat) : machine_rom_row :=
  mk_machine_rom_row (Z.of_nat i) 1 (Some 1).

(** [n] machines, numbered from 1, that all list the one ROM of the
    catalogue. *)
Definition wrap_db (n : nat) : database :=
  mk_database [] 0 [(1, "a.bin")] 1
    [mk_rom_row 1 (Some (repeat Byte.x00 20)) None 12 (Some 1)] 1
    (map wrap_machine (seq 1 n)) (map wrap_row (seq 1 n)).



(** *** What [load_database] reads of it *)

Definition wrap_data (n : nat) : data := load_database (wrap_db n) 11 23.



Lemma wrap_d_rom_names (n : nat) :
  d_rom_names (wrap_data n) = <[1 := "a.bin"]> ∅.
Proof. reflexivity. Qed.

Lemma wrap_d_manufacturers (n : nat) : d_manufacturers (wrap_data n) = ∅.
Proof. reflexivity. Qed.






(** *** What [remap_ids] makes of it *)









(** *** The two pools *)




(** *** The blob *)



End WrapFacts.
